(* ===== verification/_CoqProject ===== *)
-Q . S2P
Prelude.v
GoStrings.v
StoreSpec.v
PgStore.v
FakeStore.v
StoreFresh.v
UserRace.v
StoreProps.v
StoreEquiv.v
StoreOpen.v
AuthSession.v
Http.v
Oidc.v
ApiKey.v
Files.v
SshKeys.v
RelayAuth.v
SshGate.v
GateLoop.v
Scenario.v
AuthProps.v
GateProps.v
Machines.v
Bridge.v
Pipe.v
PipeLive.v
System.v
Sha256.v
Apple.v
AuthFlow.v
AuthFlowProps.v
ApiKeyIdentity.v
Routes.v
SystemProps.v
RelayMain.v
CliTunnel.v
SshdBridge.v
CliEnroll.v
CliProps.v
CliMain.v
WsConn.v
WebSsh.v
ClosedLoop.v
LoginLoop.v
Path.v
