(* ===== verification/Prelude.v ===== *)
(** * Phosphor: a verification library

    Phosphor gives a browser an SSH session to a machine behind a firewall.
    A CLI on the machine keeps a reverse SSH tunnel to a relay; the browser
    runs an SSH client over a WebSocket to the relay, which joins the two and
    sees ciphertext only.  This library models the Go code of the relay, of
    its SSH gateway, of the CLI and of the browser's SSH client (cmd/ and
    internal/), and proves what makes each part correct.

    ** The parts and the files

    - Shared: [Prelude] (the effect monad and its weakest preconditions, Go
      error values, time, fresh values, map iteration), [GoStrings] (strings,
      net/url, html, base64), [Http] (requests, responses, JSON decoding),
      [Files] (package os), [Sha256] (crypto/sha256).
    - Durable state.  [StoreSpec]: the tables, their well-formedness
      [Tables_ok], the interface [DataStore] of internal/relay/server.go and
      its contract [DataStoreOk], and the abstract runs [spec_run].
      [PgStore]: internal/store/store.go, each SQL statement an operation on
      the tables, any statement may fail.  [FakeStore]:
      internal/store/fake.go.  [StoreFresh]: identifiers are not used twice.
      [UserRace]: concurrent first logins as a step relation.  [StoreProps]:
      both stores refine the specification; the race.  [StoreEquiv]: the two
      stores are interchangeable.  [StoreOpen]: migrate.go, [New], [Close].
    - Pending logins.  [AuthSession]: internal/relay/store.go as the class
      [AuthSessionStore] with its contract, and authsession_memory.go.
    - Identity.  [Oidc]: internal/auth/oidc.go, middleware.go.  [Apple]:
      apple.go, device.go.  [ApiKey]: internal/relay/apikey.go.
    - The relay.  [RelayAuth]: the server record and internal/relay/auth.go.
      [Machines]: handler_machines.go.  [Bridge]: handler_ws_ssh.go, the
      bridge by itself.  [Pipe]: its two copies and its watchdog as goroutines
      ([exec]); [PipeLive]: their fair schedules.  [AuthFlow]:
      handler_auth.go.  [Routes]: the route table of server.go, static.go,
      and the relay as one handler [Server_Handler].  [RelayMain]:
      cmd/relay/main.go.
    - The SSH gateway.  [SshGate]: internal/sshgate/registry.go and the
      connections of server.go, every interleaving of their goroutines.
      [GateLoop]: the accept loop, the idle deadline, hostkey.go.
    - The CLI.  [CliTunnel]: internal/cli/tunnel.go, its loop; [SshdBridge]:
      the same file's [bridgeToSSHD].  [CliEnroll]: config.go, machinekey.go,
      enroll.go, browser.go, login.go.  [CliMain]: cmd/phosphor/main.go.
    - The browser.  [SshKeys]: internal/sshkeys.  [WsConn]:
      internal/webssh/wsconn.go.  [WebSsh]: prelude.go, promise.go, client.go,
      register.go.
    - The parts together.  [System]: bridges, gateway and every other call of
      the store, interleaved over one store and one registry ([sys_step]);
      [SystemProps]: what that guarantees.  [ClosedLoop]: [phosphor enroll]
      answered by the relay's handlers, and the browser's [connect] answered
      by its bridge.  [LoginLoop]: the CLI's browser login against the relay,
      which serves anybody in between.  [Path]: the bytes of a session from the browser's SSH
      client through the relay to the machine's sshd and back ([path_exec]).
    - [Scenario] is a small concrete relay; [AuthProps], [GateProps],
      [AuthFlowProps], [ApiKeyIdentity] and [CliProps] hold theorems about
      several files.

    ** How code is modelled

    A Go function that changes state and may fail is a function of the monad
    [M S E A], which passes the state on and keeps it on an error, as Go does;
    a handler is one whose early returns carry the response ([Handler]).  The
    state of a component is a record with the fields of the Go struct, less
    loggers and mutexes.  An operation that holds its mutex throughout is one
    step; where goroutines interleave, the code is cut where it gives up its
    lock or leaves the process, and the cuts are the rules of a step relation
    ([race_step], [gate_step], [bridge_step], [session_step],
    [cleanup_step], [sys_step]) or the actions of an executable step function
    ([exec] of [Pipe], [bridge_exec] of [SshdBridge]).  Interfaces of the code
    are classes with a separate class of laws: the handlers are verified over
    any [DataStore], [AuthSessionStore] and [TunnelDialer] that keep their
    laws, and the implementations are instances.  Go's map iteration is any
    permutation ([MapRange]).  Times and durations are nanoseconds,
    [Time.Sub] saturating; UUIDs are numbers, drawn from a stream that yields
    no value twice nor one in use ([fresh_supply], the documented behaviour of
    random UUIDs).  Strings are byte strings.  A JSON text stands for the
    value it denotes.  Error messages leave out the values that %q quotes.

    Code outside the repository is a parameter: the OIDC library ([OIDC]),
    JWTs ([Jose]), SSH keys and channels ([SSH], [SSHChannels]), the text of
    UUIDs ([UUIDText]), PEM and ES256 for Apple ([AppleCrypto]), the report
    of a violated constraint ([PgReport]), the wires between the
    programs ([Wire]), the migration library and the
    database drivers ([Drivers]).  The laws assumed of them are in the classes
    [JoseOk], [SSHOk], [UUIDTextOk], [WireOk] and [DriversOk], each with a concrete
    instance in the examples.  The host name in a URL, the file server and the
    answers of remote servers are arguments.

    ** What is proved

    - The whole system.  The bytes of a browser reach only a connection
      authenticated with the key of a machine of the user's tenant
      ([tunnel_end_to_end]); after a deletion no bridge that starts reaches
      the machine ([deletion_is_final]); the shared state stays well-formed
      ([system_well_formed]) and slots are the sessions that hold them
      ([slots_are_sessions]), in every interleaving.  A machine enrolled
      against the relay is admitted by its gateway
      ([enrolled_machine_connects]); the browser starts SSH exactly on the
      relay's acknowledgement ([browser_meets_relay]).
    - Isolation: a machine can be listed, changed or reached only by a user
      of its tenant, per handler ([machines_tenant_isolation],
      [bridge_authorization]) and for any sequence of requests to the relay
      ([relay_keeps_tenants]); a registered tunnel is one of the machine whose
      key opened it, in every interleaving ([gate_tunnels_authentic]).
    - Authentication: a token is accepted exactly as what it proves; revoked
      keys stay refused; key and keypair round trips; whom an issued API key
      stands for; the verifier is sound and complete for every order of
      iteration.
    - Login: the callback completes a session only with the token its own
      exchange gave; the CLI login works end to end; a token is handed out
      once; expiry; no injection into the pages; polling and browser login
      end.
    - Stores: both refine the specification over any sequence of operations,
      and each behaves like the other ([stores_equivalent], with the calls on
      which they differ in [stores_differ]); concurrent first logins make one
      account and no orphan tenant and end in three round trips; the schema is
      migrated before the pool opens.
    - Bytes.  Both copies of a bridge deliver a prefix of what was sent, in
      order and whole ([pipe_streams]), on the relay as on the machine
      ([sshd_bridge_delivers]); a bridge returns in every fair schedule once
      it has a reason to ([pipe_returns]) and only then
      ([pipe_ends_for_a_reason]).  From the browser's SSH client to sshd and
      back the three programs and the wires between them are a pair of byte
      streams, every byte accounted for ([path_streams]).
    - Gateway and CLI: ownership in the registry, keepalives against the idle
      deadline, bounds of the backoff, the host key and the advertised
      address across restarts, the commands in sequence.
    - Browser: the WebSocket is a byte stream; connecting closes the socket on
      every error and starts SSH only after the acknowledgement; decisions of
      the host-key callback; the life of a session.
    - Defects, as theorems about the code as it is: [api_key_identity],
      [deleted_machine_stays_online], [enroll_refused_replaces_key],
      [half_enrollment_blocks_retry], [login_hangs_on_one_answer] (a lost
      answer loses the token), [half_close_truncates],
      [other_spelling_is_offline], [host_key_decision] (a primitive rejection
      panics), [js_panics], [session_lifecycle] ([onClose] twice),
      [session_writes_overtake].

    ** Bounds and fuel

    Recursion is on the data or on the list of events still to come, so that
    a loop which waits returns [None] when the events run out, and
    termination is stated as "so many events suffice" ([BrowserLogin]: 150
    polls; [login_run]: 3 segments; [session_run]: the rounds of one bridge
    from its request to its end).  Liveness is over infinite schedules, as
    functions from nat, fair in the sense of [PipeLive].  Fuel appears in
    [Sum256] (one round per 64-byte block, and there are no more blocks than
    bytes) and in [TrimSpace] (no more runes than bytes).

    ** What is not modelled

    Logging; timeouts of net/http; the SSH protocol, TLS and WebSocket
    framing; starting the desktop's browser; the parsing of command lines by
    cobra (its commands are in [CliMain]); what a read deadline set on a
    tunnel's channel does, which the code ignores; the TypeScript under web/.

    ** To come

    The shutdown of a relay with sessions still open; login, enrolment and the
    tunnel as one run of the CLI against one relay. *)
From Stdlib Require Import ZArith Lia Ascii.
From stdpp Require Import base gmap strings list fin_maps pretty.

(** * Notations *)

Declare Scope go_scope.
Delimit Scope go_scope with go.

(** [uuid.UUID] is a 16-byte array, represented by the number it encodes;
    [time.Time] and [time.Duration] are nanosecond counts. *)
Abbreviation UUID := N.
Abbreviation Time := Z.
Abbreviation Duration := Z.

(** * The effect monad

    A Go function that mutates [S] and returns [(A, error)].  The state it
    leaves behind survives an error return, as it does in the source. *)

Definition M (S E A : Type) : Type := S → (E + A) * S.

Definition ret {S E A} (a : A) : M S E A := λ s, (inr a, s).

Definition throw {S E A} (e : E) : M S E A := λ s, (inl e, s).

Definition bind {S E A B} (m : M S E A) (k : A → M S E B) : M S E B :=
  λ s, match m s with
       | (inr a, s') => k a s'
       | (inl e, s') => (inl e, s')
       end.

Definition gets {S E A} (f : S → A) : M S E A := λ s, (inr (f s), s).

Definition get {S E} : M S E S := λ s, (inr s, s).

Definition modify {S E} (f : S → S) : M S E unit := λ s, (inr tt, f s).

(** [v, err := m()] with the error kept as a value. *)
Definition attempt {S E E' A} (m : M S E A) : M S E' (E + A) :=
  λ s, (inr (m s).1, (m s).2).

(** [v, err := m(); if err != nil { return h(err) }] *)
Definition or_return {S E E' A} (m : M S E A) (h : E → E') : M S E' A :=
  λ s, (match (m s).1 with inl e => inl (h e) | inr a => inr a end, (m s).2).

(** Runs an operation of a component held in a field of a larger state. *)
Definition zoom {S T E A} (get : T → S) (set : S → T → T) (m : M S E A) : M T E A :=
  λ t, ((m (get t)).1, set (m (get t)).2 t).

(** [v, err := f()] for a call with no effect. *)
Definition lift {S E A} (r : E + A) : M S E A := λ s, (r, s).

Notation "'let!' x ':=' m 'in' k" := (bind m (λ x, k))
  (at level 10, x name, m at level 200, k at level 200) : go_scope.
Notation "'do!' m 'in' k" := (bind m (λ _, k))
  (at level 10, m at level 200, k at level 200) : go_scope.
Notation "m 'else_return' h" := (or_return m h)
  (at level 90, h at level 85, left associativity) : go_scope.
Open Scope go_scope.

(** ** Weakest preconditions

    [wp m Q s]: run from [s], [m] ends with a result and a state that
    satisfy [Q].  The contracts of the interfaces are stated with it, and
    the equations below push it through the monad's operations. *)

Definition wp {S E A} (m : M S E A) (Q : E + A → S → Prop) (s : S) : Prop :=
  Q (m s).1 (m s).2.

Section wp.
  Context {S E : Type}.

Lemma wp_ret {A} (a : A) (Q : E + A → S → Prop) s : wp (ret a) Q s ↔ Q (inr a) s.
Proof. done. Qed.

Lemma wp_throw {A} (e : E) (Q : E + A → S → Prop) s : wp (throw e) Q s ↔ Q (inl e) s.
Proof. done. Qed.

Lemma wp_gets {A} (f : S → A) (Q : E + A → S → Prop) s :
  wp (gets f) Q s ↔ Q (inr (f s)) s.
Proof. done. Qed.

Lemma wp_get (Q : E + S → S → Prop) s : wp get Q s ↔ Q (inr s) s.
Proof. done. Qed.

Lemma wp_modify (f : S → S) (Q : E + unit → S → Prop) s :
  wp (modify f) Q s ↔ Q (inr tt) (f s).
Proof. done. Qed.

Lemma wp_bind {A B} (m : M S E A) (k : A → M S E B) Q s :
  wp (bind m k) Q s ↔
  wp m (λ r s', match r with inl e => Q (inl e) s' | inr a => wp (k a) Q s' end) s.
Proof. unfold wp, bind. by destruct (m s) as [[e|a] s']. Qed.

Lemma wp_attempt {E' A} (m : M S E' A) (Q : E + (E' + A) → S → Prop) s :
  wp (attempt m) Q s ↔ wp m (λ r s', Q (inr r) s') s.
Proof. done. Qed.

Lemma wp_or_return {E' A} (m : M S E' A) (h : E' → E) (Q : E + A → S → Prop) s :
  wp (or_return m h) Q s ↔
  wp m (λ r s', match r with inl e => Q (inl (h e)) s' | inr a => Q (inr a) s' end) s.
Proof. unfold wp, or_return. cbn. by destruct (m s).1. Qed.

Lemma wp_lift {A} (r : E + A) (Q : E + A → S → Prop) s : wp (lift r) Q s ↔ Q r s.
Proof. done. Qed.

Lemma wp_zoom {T A} (get : T → S) set (m : M S E A) Q t :
  wp (zoom get set m) Q t ↔ wp m (λ r s', Q r (set s' t)) (get t).
Proof. done. Qed.

Lemma wp_mono {A} (m : M S E A) (Q Q' : E + A → S → Prop) s :
  wp m Q s → (∀ r s', Q r s' → Q' r s') → wp m Q' s.
Proof. unfold wp. auto. Qed.

(** A contract proved with [wp] read off a concrete run. *)
Lemma wp_run {A} (m : M S E A) (Q : E + A → S → Prop) s r s' :
  wp m Q s → m s = (r, s') → Q r s'.
Proof. unfold wp. intros H Hm. by rewrite Hm in H. Qed.

End wp.

(** Pushes [wp] through the code up to the next call whose contract is to
    be used, or up to a test of the source. *)
Ltac wp_simpl :=
  repeat first
    [ rewrite wp_bind | rewrite wp_ret | rewrite wp_throw | rewrite wp_gets | rewrite wp_get
    | rewrite wp_modify | rewrite wp_attempt | rewrite wp_or_return | rewrite wp_zoom
    | progress cbn beta iota ].

(** The same, computing the state as well. *)
Ltac wp_cbn := repeat (progress (wp_simpl; cbn)).

(** Uses the contract [H] of the call at the head of the goal. *)
Tactic Notation "wp_use" constr(H) := eapply wp_mono; [eapply H|]; cbn beta iota.

(** Splits on every test left in the goal. *)
Ltac split_tests := repeat (case_match; subst; try done).

(** ** What code leaves alone

    [fixed f m]: running [m] does not change what [f] reads of the state. *)

Definition fixed {S E X B} (f : S → B) (m : M S E X) : Prop := ∀ s, f (m s).2 = f s.

Section fixed.
  Context {S B : Type} (f : S → B).

Lemma fixed_ret {E X} (x : X) : fixed f (ret (E := E) x).
Proof. done. Qed.

Lemma fixed_throw {E X} (e : E) : fixed f (throw (A := X) e).
Proof. done. Qed.

Lemma fixed_get {E} : fixed f (get (E := E)).
Proof. done. Qed.

Lemma fixed_gets {E X} (g : S → X) : fixed f (gets (E := E) g).
Proof. done. Qed.

Lemma fixed_lift {E X} (r : E + X) : fixed f (lift r).
Proof. done. Qed.

Lemma fixed_bind {E X Y} (m : M S E X) (k : X → M S E Y) :
  fixed f m → (∀ x, fixed f (k x)) → fixed f (bind m k).
Proof. intros Hm Hk s. unfold bind. specialize (Hm s). destruct (m s) as [[e|x] s']; cbn in *; [done|]. by rewrite Hk. Qed.

Lemma fixed_attempt {E E' X} (m : M S E X) : fixed f m → fixed f (attempt (E' := E') m).
Proof. done. Qed.

Lemma fixed_or_return {E E' X} (m : M S E X) (h : E → E') : fixed f m → fixed f (or_return m h).
Proof. done. Qed.

Lemma fixed_modify {E} (g : S → S) : (∀ s, f (g s) = f s) → fixed f (modify (E := E) g).
Proof. intros Hg s. apply Hg. Qed.

Lemma fixed_zoom {T E X} (get : S → T) (set : T → S → S) (m : M T E X) :
  (∀ v s, f (set v s) = f s) → fixed f (zoom get set m).
Proof. intros Hset s. apply Hset. Qed.

End fixed.

Create HintDb fixed discriminated.
#[export] Hint Resolve fixed_ret fixed_throw fixed_get fixed_gets fixed_lift fixed_bind fixed_attempt fixed_or_return
  fixed_modify fixed_zoom : fixed.

(** Follows the code down to its primitive steps. *)
Ltac solve_fixed :=
  repeat first
    [ progress intros
    | solve [eauto 2 with fixed]
    | apply fixed_bind | apply fixed_or_return | apply fixed_attempt
    | case_match ].

(** [follows R m]: running [m] takes the state to one related to it. *)

Definition follows {S E X} (R : S → S → Prop) (m : M S E X) : Prop := ∀ s, R s (m s).2.

Section follows.
  Context {S : Type} (R : S → S → Prop) `{!PreOrder R}.

Lemma follows_ret {E X} (x : X) : follows R (ret (E := E) x).
Proof. intros s. reflexivity. Qed.

Lemma follows_throw {E X} (e : E) : follows R (throw (A := X) e).
Proof. intros s. reflexivity. Qed.

Lemma follows_get {E} : follows R (get (E := E)).
Proof. intros s. reflexivity. Qed.

Lemma follows_gets {E X} (g : S → X) : follows R (gets (E := E) g).
Proof. intros s. reflexivity. Qed.

Lemma follows_lift {E X} (r : E + X) : follows R (lift r).
Proof. intros s. reflexivity. Qed.

Lemma follows_bind {E X Y} (m : M S E X) (k : X → M S E Y) :
  follows R m → (∀ x, follows R (k x)) → follows R (bind m k).
Proof.
  intros Hm Hk s. unfold bind. specialize (Hm s). destruct (m s) as [[e|x] s']; cbn in *; [done|].
  etransitivity; [done|apply Hk].
Qed.

Lemma follows_attempt {E E' X} (m : M S E X) : follows R m → follows R (attempt (E' := E') m).
Proof. done. Qed.

Lemma follows_or_return {E E' X} (m : M S E X) (h : E → E') : follows R m → follows R (or_return m h).
Proof. done. Qed.

Lemma follows_modify {E} (g : S → S) : (∀ s, R s (g s)) → follows R (modify (E := E) g).
Proof. intros Hg s. apply Hg. Qed.

End follows.

Create HintDb follows discriminated.
#[export] Hint Resolve follows_ret follows_throw follows_get follows_gets follows_lift follows_modify : follows.

Ltac solve_follows :=
  repeat first
    [ progress intros
    | solve [eauto 2 with follows typeclass_instances]
    | apply follows_bind; [typeclasses eauto|..] | apply follows_or_return | apply follows_attempt
    | case_match ].

(** * Go error values *)

Inductive error :=
  | ErrNotFound
  | ErrDuplicateName
  | ErrDuplicateFingerprint
  | ErrNoToken
  | ErrNotConnected
  | ErrNotExist                                (** [fs.ErrNotExist] *)
  | ErrNoRows                                  (** [pgx.ErrNoRows] *)
  | PgError (Code ConstraintName : string)     (** [*pgconn.PgError] *)
  | ErrExternal (msg : string)                 (** an error of an external call *)
  | ErrorString (msg : string)                 (** [errors.New], [fmt.Errorf] without %w *)
  | WrapError (msg : string) (err : error).    (** [fmt.Errorf("msg: %w", err)] *)

#[export] Instance error_eq_dec : EqDecision error.
Proof. solve_decision. Defined.

(** [errors.Is] *)
Fixpoint errors_Is (err target : error) : bool :=
  bool_decide (err = target) ||
  match err with WrapError _ e => errors_Is e target | _ => false end.

(** [errors.As(err, &pgErr)] *)
Fixpoint errors_As_PgError (err : error) : option (string * string) :=
  match err with
  | PgError code constraint => Some (code, constraint)
  | WrapError _ e => errors_As_PgError e
  | _ => None
  end.

(** * Time

    [time.Duration] is a 64-bit signed count of nanoseconds, and [Time.Sub]
    saturates at its ends. *)

Definition minDuration : Duration := (- 2 ^ 63)%Z.
Definition maxDuration : Duration := (2 ^ 63 - 1)%Z.

Definition Time_Sub (t u : Time) : Duration :=
  Z.max minDuration (Z.min maxDuration (t - u)).

Definition Second : Duration := 1000000000%Z.
Definition Minute : Duration := (60 * Second)%Z.

Lemma Time_Sub_gt (t u : Time) (d : Duration) :
  (minDuration ≤ d < maxDuration)%Z → ((Time_Sub t u > d)%Z ↔ (t - u > d)%Z).
Proof. unfold Time_Sub, minDuration, maxDuration. lia. Qed.

(** * The sources of fresh values

    [uuid.New], [gen_random_uuid()] and [time.Now] are read from the
    environment: a stream of UUIDs, the position reached in it, and the
    clock. *)

Record Env := mkEnv { now : Time; uuid_src : nat → UUID; uuid_pos : nat }.

Definition Env_fresh (e : Env) : UUID := uuid_src e (uuid_pos e).

Definition Env_next (e : Env) : Env :=
  mkEnv (now e) (uuid_src e) (S (uuid_pos e)).

#[global] Arguments Env_fresh : simpl never.
#[global] Arguments Env_next : simpl never.

(** The text form of a UUID, by the google/uuid package: [Parse] accepts
    other forms than [String] gives, but those it gives it reads back. *)
Class UUIDText := {
  uuid_String : UUID → string;
  uuid_Parse : string → error + UUID
}.

Class UUIDTextOk `{UUIDText} :=
  uuid_Parse_String : ∀ id, uuid_Parse (uuid_String id) = inr id.

(** * Finding a value in a map *)

Section find_value.
  Context {K V : Type} `{Countable K}.
  Implicit Types (l : list (K * V)) (m : gmap K V).

(** The first entry of [l] whose value satisfies [P]. *)
Fixpoint find_value (P : V → bool) l : option V :=
  match l with
  | [] => None
  | (_, v) :: l => if P v then Some v else find_value P l
  end.

Lemma find_value_Some P l v :
  find_value P l = Some v → P v = true ∧ ∃ k, (k, v) ∈ l.
Proof.
  induction l as [|[k w] l IH]; simpl; [done|].
  destruct (P w) eqn:HP.
  - intros [= ->]. split; [done|]. exists k. left.
  - intros [? [k' ?]]%IH. split; [done|]. exists k'. by right.
Qed.

Lemma find_value_None P l k v : find_value P l = None → (k, v) ∈ l → P v = false.
Proof.
  induction l as [|[k' w] l IH]; simpl; [by intros _ ?%elem_of_nil|].
  destruct (P w) eqn:HP; [done|]. intros ? [[= -> ->]|]%elem_of_cons; auto.
Qed.

Lemma find_value_Some_lookup P m l v :
  l ≡ₚ map_to_list m → find_value P l = Some v →
  P v = true ∧ ∃ k, m !! k = Some v.
Proof.
  intros Hl [? [k Hk]]%find_value_Some. split; [done|]. exists k.
  rewrite Hl in Hk. by apply elem_of_map_to_list.
Qed.

Lemma find_value_None_lookup P m l k v :
  l ≡ₚ map_to_list m → find_value P l = None → m !! k = Some v → P v = false.
Proof.
  intros Hl Hf Hk. eapply find_value_None; [done|].
  rewrite Hl. by apply elem_of_map_to_list.
Qed.

(** The same search, with the key of the entry found. *)
Definition find_entry (P : V → bool) l : option (K * V) := List.find (λ kv, P kv.2) l.

Lemma find_entry_Some P m l k v :
  l ≡ₚ map_to_list m → find_entry P l = Some (k, v) → P v = true ∧ m !! k = Some v.
Proof.
  intros Hl [Hin HP]%List.find_some. split; [done|].
  by rewrite <-list_elem_of_In, Hl, elem_of_map_to_list in Hin.
Qed.

Lemma find_entry_None P m l k v :
  l ≡ₚ map_to_list m → find_entry P l = None → m !! k = Some v → P v = false.
Proof.
  intros Hl Hf Hk. apply (List.find_none _ _ Hf (k, v)).
  by rewrite <-list_elem_of_In, Hl, elem_of_map_to_list.
Qed.

End find_value.

(** Go ranges over a map in an unspecified order: a program that ranges over
    one is modelled over every enumeration of its entries. *)
Class MapRange := {
  map_range : ∀ {K V} `{Countable K}, gmap K V → list (K * V);
  map_range_perm : ∀ {K V} `{Countable K} (m : gmap K V),
    map_range m ≡ₚ map_to_list m
}.

Lemma filter_perm {A} (f : A → bool) (l l' : list A) : l ≡ₚ l' → List.filter f l ≡ₚ List.filter f l'.
Proof.
  induction 1 as [|x l l' _ IH|x y l|l1 l2 l3 _ IH1 _ IH2]; simpl; repeat case_match; try done.
  - by constructor.
  - apply Permutation_swap.
  - by rewrite IH1.
Qed.

(** One of these orders, for examples. *)
Definition range_in_order : MapRange := {|
  map_range _ _ _ _ m := map_to_list m;
  map_range_perm _ _ _ _ _ := Permutation_refl _
|}.

Create HintDb go.
#[export] Hint Resolve map_range_perm : go.
