(* ===== verification/GoStrings.v ===== *)
(** The functions of Go's [strings], [net/url], [html] and
    [encoding/base64] packages that the program uses, on byte strings, with
    the lemmas the components share. *)
From Stdlib Require Import ZArith Lia Ascii Sorting.Sorted.
From stdpp Require Import base strings list pretty.
From S2P Require Import Prelude.

#[global] Arguments String.append : simpl nomatch.

(** * Bytes *)

(** A string from its bytes. *)
Fixpoint bytes (l : list nat) : string :=
  match l with
  | [] => EmptyString
  | n :: l => String (ascii_of_nat n) (bytes l)
  end.

(** A template of the source written with backquotes for double quotes. *)
Fixpoint q (s : string) : string :=
  match s with
  | EmptyString => EmptyString
  | String c s => String (if Ascii.eqb c "`" then ascii_of_nat 34 else c) (q s)
  end.

Fixpoint all_bytes (P : ascii → bool) (s : string) : bool :=
  match s with
  | EmptyString => true
  | String c s => P c && all_bytes P s
  end.

Fixpoint concat_map (f : ascii → string) (s : string) : string :=
  match s with
  | EmptyString => EmptyString
  | String c s => f c +:+ concat_map f s
  end.

Fixpoint string_drop (n : nat) (s : string) : string :=
  match n, s with
  | S n, String _ s => string_drop n s
  | _, _ => s
  end.

Fixpoint string_take (n : nat) (s : string) : string :=
  match n, s with
  | S n, String c s => String c (string_take n s)
  | _, _ => EmptyString
  end.

(** * Package [strings] *)

Definition HasPrefix (s p : string) : bool := String.prefix p s.

Definition HasSuffix (s p : string) : bool :=
  (String.length p <=? String.length s) &&
  String.eqb (string_drop (String.length s - String.length p) s) p.

Definition TrimPrefix (s p : string) : string :=
  if HasPrefix s p then string_drop (String.length p) s else s.

Definition TrimSuffix (s p : string) : string :=
  if HasSuffix s p then string_take (String.length s - String.length p) s else s.

(** [strings.Cut] at a one-byte separator. *)
Fixpoint Cut (s : string) (sep : ascii) : option (string * string) :=
  match s with
  | EmptyString => None
  | String c s =>
      if Ascii.eqb c sep then Some (EmptyString, s)
      else match Cut s sep with
           | Some (a, b) => Some (String c a, b)
           | None => None
           end
  end.

(** [strings.SplitN(s, sep, 2)] for a one-byte [sep]. *)
Definition SplitN2 (s : string) (sep : ascii) : list string :=
  match Cut s sep with
  | Some (a, b) => [a; b]
  | None => [s]
  end.

(** [strings.Replace(s, old, new, 1)] for a non-empty [old]. *)
Fixpoint Replace1 (s old new : string) : string :=
  if HasPrefix s old then new +:+ string_drop (String.length old) s
  else match s with
       | EmptyString => EmptyString
       | String c s => String c (Replace1 s old new)
       end.

(** The encodings of the code points for which [unicode.IsSpace] holds. *)
Definition space_runes : list string :=
  map (λ n, bytes [n]) [9; 10; 11; 12; 13; 32] ++
  [bytes [194; 133]; bytes [194; 160]; bytes [225; 154; 128]] ++
  map (λ n, bytes [226; 128; n]) [128; 129; 130; 131; 132; 133; 134; 135; 136;
    137; 138; 168; 169; 175] ++
  [bytes [226; 129; 159]; bytes [227; 128; 128]].

Definition space_at_front (s : string) : option nat :=
  String.length <$> List.find (HasPrefix s) space_runes.

Definition space_at_end (s : string) : option nat :=
  String.length <$> List.find (HasSuffix s) space_runes.

(** One round per space removed; [String.length s] rounds are enough. *)
Fixpoint TrimLeftSpace (fuel : nat) (s : string) : string :=
  match fuel, space_at_front s with
  | S fuel, Some n => TrimLeftSpace fuel (string_drop n s)
  | _, _ => s
  end.

Fixpoint TrimRightSpace (fuel : nat) (s : string) : string :=
  match fuel, space_at_end s with
  | S fuel, Some n => TrimRightSpace fuel (string_take (String.length s - n) s)
  | _, _ => s
  end.

Definition TrimSpace (s : string) : string :=
  let l := TrimLeftSpace (String.length s) s in TrimRightSpace (String.length l) l.

(** * Package [html] *)

Definition html_escape_byte (c : ascii) : string :=
  if Ascii.eqb c "&" then "&amp;"
  else if Ascii.eqb c "'" then "&#39;"
  else if Ascii.eqb c "<" then "&lt;"
  else if Ascii.eqb c ">" then "&gt;"
  else if Ascii.eqb c (ascii_of_nat 34) then "&#34;"
  else String c EmptyString.

Definition EscapeString (s : string) : string := concat_map html_escape_byte s.

(** A byte that cannot open a tag or leave a quoted attribute. *)
Definition html_inert (c : ascii) : bool :=
  negb (Ascii.eqb c "<" || Ascii.eqb c ">" || Ascii.eqb c (ascii_of_nat 34) || Ascii.eqb c "'").

(** * Package [net/url] *)

Definition is_alnum (c : ascii) : bool :=
  let n := nat_of_ascii c in
  (48 <=? n) && (n <=? 57) || (65 <=? n) && (n <=? 90) || (97 <=? n) && (n <=? 122).

Definition is_unreserved (c : ascii) : bool :=
  is_alnum c || Ascii.eqb c "-" || Ascii.eqb c "_" || Ascii.eqb c "." || Ascii.eqb c "~".

Definition hex_digit (n : nat) : ascii :=
  ascii_of_nat (if n <? 10 then 48 + n else 55 + n).

Definition query_escape_byte (c : ascii) : string :=
  if is_unreserved c then String c EmptyString
  else if Ascii.eqb c " " then "+"
  else let n := nat_of_ascii c in
       String "%" (String (hex_digit (n / 16)) (String (hex_digit (n mod 16)) EmptyString)).

Definition QueryEscape (s : string) : string := concat_map query_escape_byte s.

Definition unhex (c : ascii) : option nat :=
  let n := nat_of_ascii c in
  if (48 <=? n) && (n <=? 57) then Some (n - 48)
  else if (65 <=? n) && (n <=? 70) then Some (n - 55)
  else if (97 <=? n) && (n <=? 102) then Some (n - 87)
  else None.

(** [url.QueryUnescape]; [None] for a malformed escape. *)
Fixpoint QueryUnescape (s : string) : option string :=
  match s with
  | EmptyString => Some EmptyString
  | String c s =>
      if Ascii.eqb c "%" then
        match s with
        | String h (String l s') =>
            match unhex h, unhex l, QueryUnescape s' with
            | Some a, Some b, Some t => Some (String (ascii_of_nat (16 * a + b)) t)
            | _, _, _ => None
            end
        | _ => None
        end
      else match QueryUnescape s with
           | Some t => Some (String (if Ascii.eqb c "+" then " "%char else c) t)
           | None => None
           end
  end.

(** [url.Values] with one value per key, as the program builds them, and
    [Encode], which sorts by key. *)
Definition Values_Set (k v : string) (vs : list (string * string)) : list (string * string) :=
  (k, v) :: List.filter (λ kv, negb (String.eqb kv.1 k)) vs.

Fixpoint insert_sorted {A} (leb : A → A → bool) (x : A) (l : list A) : list A :=
  match l with
  | [] => [x]
  | y :: l' => if leb x y then x :: l else y :: insert_sorted leb x l'
  end.

(** The result of [sort.Strings] and of a sort by key. *)
Definition sort_by {A} (leb : A → A → bool) (l : list A) : list A :=
  foldr (insert_sorted leb) [] l.

Definition Values_Encode (vs : list (string * string)) : string :=
  String.concat "&" ((λ kv, QueryEscape kv.1 +:+ "=" +:+ QueryEscape kv.2) <$>
    sort_by (λ a b, String.leb a.1 b.1) vs).

Definition Values_Get (k : string) (vs : list (string * string)) : string :=
  match List.find (λ kv, String.eqb kv.1 k) vs with
  | Some (_, v) => v
  | None => EmptyString
  end.

(** * Package [encoding/base64], [RawURLEncoding] *)

Definition b64_char (n : nat) : ascii :=
  if n <? 26 then ascii_of_nat (65 + n)
  else if n <? 52 then ascii_of_nat (71 + n)
  else if n <? 62 then ascii_of_nat (n - 4)
  else if n =? 62 then "-"%char
  else "_"%char.

Fixpoint RawURLEncode (s : string) : string :=
  match s with
  | EmptyString => EmptyString
  | String a EmptyString =>
      let n := nat_of_ascii a in
      String (b64_char (n / 4)) (String (b64_char (n mod 4 * 16)) EmptyString)
  | String a (String b EmptyString) =>
      let n := nat_of_ascii a in let m := nat_of_ascii b in
      String (b64_char (n / 4)) (String (b64_char (n mod 4 * 16 + m / 16))
        (String (b64_char (m mod 16 * 4)) EmptyString))
  | String a (String b (String c s)) =>
      let n := nat_of_ascii a in let m := nat_of_ascii b in let k := nat_of_ascii c in
      String (b64_char (n / 4)) (String (b64_char (n mod 4 * 16 + m / 16))
        (String (b64_char (m mod 16 * 4 + k / 64)) (String (b64_char (k mod 64))
          (RawURLEncode s))))
  end.

Definition is_b64 (c : ascii) : bool :=
  is_alnum c || Ascii.eqb c "-" || Ascii.eqb c "_".

(** * Lemmas *)

Lemma string_app_nil_r (s : string) : s +:+ EmptyString = s.
Proof. induction s; simpl; congruence. Qed.

Lemma string_app_assoc (s t u : string) : (s +:+ t) +:+ u = s +:+ (t +:+ u).
Proof. induction s; simpl; congruence. Qed.

Lemma all_bytes_app P s t : all_bytes P (s +:+ t) = all_bytes P s && all_bytes P t.
Proof. induction s; simpl; [done|]. by rewrite IHs, andb_assoc. Qed.

Lemma all_bytes_impl (P Q : ascii → bool) s :
  (∀ c, P c = true → Q c = true) → all_bytes P s = true → all_bytes Q s = true.
Proof. intros HPQ. induction s; simpl; [done|]. rewrite !andb_true_iff. intros [??]; auto. Qed.

Lemma all_bytes_concat_map P f s :
  (∀ c, all_bytes P (f c) = true) → all_bytes P (concat_map f s) = true.
Proof. intros Hf. induction s; simpl; [done|]. by rewrite all_bytes_app, Hf. Qed.

Lemma string_drop_app s t : string_drop (String.length s) (s +:+ t) = t.
Proof. by induction s. Qed.

Lemma string_take_all s : string_take (String.length s) s = s.
Proof. induction s as [|c s IH]; simpl; [done|]. by rewrite IH. Qed.

Lemma string_take_drop n s : string_take n s +:+ string_drop n s = s.
Proof. revert s. induction n; intros [|c s]; simpl; congruence. Qed.

(** ** Prefixes *)

Lemma HasPrefix_app p s : HasPrefix (p +:+ s) p = true.
Proof.
  unfold HasPrefix. induction p as [|c p IH]; simpl; [by destruct s|].
  by destruct (ascii_dec c c).
Qed.

Lemma HasPrefix_inv s p : HasPrefix s p = true → ∃ t, s = p +:+ t.
Proof.
  unfold HasPrefix. revert s. induction p as [|c p IH]; intros s; simpl; [by intros _; exists s|].
  destruct s as [|d s]; simpl; [done|]. destruct (ascii_dec c d) as [->|]; [|done].
  intros [t ->]%IH. by exists t.
Qed.

Lemma TrimPrefix_app p s : TrimPrefix (p +:+ s) p = s.
Proof. unfold TrimPrefix. by rewrite HasPrefix_app, string_drop_app. Qed.

Lemma HasSuffix_inv s p : HasSuffix s p = true → ∃ t, s = t +:+ p.
Proof.
  unfold HasSuffix. rewrite andb_true_iff, String.eqb_eq. intros [_ Hd].
  exists (string_take (String.length s - String.length p) s). by rewrite <-Hd at 2; rewrite string_take_drop.
Qed.

(** ** White space *)

(** A printing ASCII character other than the space. *)
Definition is_graph (c : ascii) : bool :=
  let n := nat_of_ascii c in (33 <=? n) && (n <=? 126).

Lemma find_rune_None (f : string → bool) s :
  all_bytes is_graph s = true → (∀ r, f r = true → ∃ t u, s = t +:+ (r +:+ u)) →
  List.find f space_runes = None.
Proof.
  intros Hs Hf. destruct (List.find f space_runes) as [r|] eqn:Hr; [|done]. exfalso.
  apply List.find_some in Hr as [Hin Hfr]. destruct (Hf r Hfr) as (t & u & ->).
  rewrite !all_bytes_app, !andb_true_iff in Hs. destruct Hs as (_ & Hg & _).
  assert (forallb (λ r, negb (all_bytes is_graph r)) space_runes = true) as Hall by (vm_compute; reflexivity).
  rewrite forallb_forall in Hall. specialize (Hall r Hin). by rewrite Hg in Hall.
Qed.

(** Text without white space is left as it is. *)
Lemma TrimSpace_graph s : all_bytes is_graph s = true → TrimSpace s = s.
Proof.
  intros Hs. unfold TrimSpace.
  assert (space_at_front s = None) as Hl.
  { unfold space_at_front. rewrite (find_rune_None _ s Hs); [done|].
    intros r [t ->]%HasPrefix_inv. by exists EmptyString, t. }
  assert (space_at_end s = None) as Hr.
  { unfold space_at_end. rewrite (find_rune_None _ s Hs); [done|].
    intros r [t ->]%HasSuffix_inv. exists t, EmptyString. by rewrite string_app_nil_r. }
  assert (∀ n, TrimLeftSpace n s = s) as -> by (intros [|n]; simpl; by rewrite ?Hl).
  destruct (String.length s); simpl; by rewrite ?Hr.
Qed.

(** ** Splitting *)

Definition no_byte (c : ascii) (s : string) : bool := all_bytes (λ d, negb (Ascii.eqb d c)) s.

Lemma Cut_app a c b : no_byte c a = true → Cut (a +:+ String c b) c = Some (a, b).
Proof.
  induction a as [|d a IH]; simpl; [by rewrite Ascii.eqb_refl|].
  intros [Hd Ha]%andb_true_iff. apply negb_true_iff in Hd. rewrite Hd.
  by rewrite IH.
Qed.

Lemma Cut_Some s c a b : Cut s c = Some (a, b) → s = a +:+ String c b ∧ no_byte c a = true.
Proof.
  revert a. induction s as [|d s IH]; intros a; simpl; [done|].
  destruct (Ascii.eqb d c) eqn:Hd.
  - intros [= <- <-]. by apply Ascii.eqb_eq in Hd as ->.
  - destruct (Cut s c) as [[a' b']|]; [|done]. intros [= <- <-].
    destruct (IH a') as [-> ?]; [done|]. simpl. unfold no_byte in *. simpl.
    by rewrite Hd.
Qed.

Lemma Cut_None s c : Cut s c = None ↔ no_byte c s = true.
Proof.
  unfold no_byte. induction s as [|d s IH]; simpl; [done|].
  destruct (Ascii.eqb d c); simpl; [done|].
  rewrite <-IH. by destruct (Cut s c) as [[]|].
Qed.

(** ** Escaping *)

Lemma EscapeString_inert s : all_bytes html_inert (EscapeString s) = true.
Proof.
  apply all_bytes_concat_map. by intros [[] [] [] [] [] [] [] []].
Qed.

(** What [query_escape_byte] writes for [c], as a test run over all bytes. *)
Definition escapes_to (c : ascii) (s : string) : bool :=
  match s with
  | String d EmptyString =>
      negb (Ascii.eqb d "%") && Ascii.eqb (if Ascii.eqb d "+" then " "%char else d) c
  | String p (String h (String l EmptyString)) =>
      Ascii.eqb p "%" &&
      match unhex h, unhex l with
      | Some a, Some b => Ascii.eqb (ascii_of_nat (16 * a + b)) c
      | _, _ => false
      end
  | _ => false
  end.

Lemma query_escape_byte_ok c : escapes_to c (query_escape_byte c) = true.
Proof. destruct c as [[] [] [] [] [] [] [] []]; vm_compute; reflexivity. Qed.

Lemma QueryUnescape_byte c t :
  QueryUnescape (query_escape_byte c +:+ t) = String c <$> QueryUnescape t.
Proof.
  pose proof (query_escape_byte_ok c) as H.
  destruct (query_escape_byte c) as [|d [|h [|l [|? ?]]]]; try done; cbn -[unhex] in H |- *.
  - apply andb_true_iff in H as [->%negb_true_iff ->%Ascii.eqb_eq].
    by destruct (QueryUnescape t).
  - apply andb_true_iff in H as [-> H].
    destruct (unhex h), (unhex l); try done. apply Ascii.eqb_eq in H. cbn in H.
    rewrite H. by destruct (QueryUnescape t).
Qed.

(** [url.QueryUnescape] inverts [url.QueryEscape]. *)
Lemma QueryUnescape_QueryEscape s : QueryUnescape (QueryEscape s) = Some s.
Proof.
  unfold QueryEscape. induction s as [|c s IH]; simpl; [done|].
  by rewrite QueryUnescape_byte, IH.
Qed.

(** ** Base64 *)

Lemma b64_char_ok n : is_b64 (b64_char n) = true.
Proof.
  destruct (decide (n < 64)) as [Hn|Hn].
  - do 64 (destruct n as [|n]; [done|]). lia.
  - unfold b64_char. by rewrite !(proj2 (Nat.ltb_ge _ _)), (proj2 (Nat.eqb_neq _ _)) by lia.
Qed.

Lemma RawURLEncode_ok s : all_bytes is_b64 (RawURLEncode s) = true.
Proof.
  induction s as [s IH] using (well_founded_induction
    (Wf_nat.well_founded_ltof _ String.length)).
  destruct s as [|a [|b [|c s]]]; [done|..];
    cbn -[Nat.div Nat.modulo b64_char is_b64]; rewrite ?b64_char_ok; [done..|].
  apply IH. unfold Wf_nat.ltof. simpl. lia.
Qed.

(** ** Sorting *)

Lemma sort_by_Permutation {A} (leb : A → A → bool) (l : list A) : sort_by leb l ≡ₚ l.
Proof.
  assert (∀ x l, insert_sorted leb x l ≡ₚ x :: l) as Hi.
  { intros x l'. induction l' as [|y l' IH]; simpl; [done|].
    destruct (leb x y); [done|]. rewrite IH. by apply Permutation_swap. }
  induction l as [|x l IH]; simpl; [done|]. by rewrite Hi, IH.
Qed.

Lemma insert_sorted_Sorted {A} (leb : A → A → bool) x l :
  (∀ a b, leb a b = true ∨ leb b a = true) →
  Sorted (λ a b, leb a b = true) l → Sorted (λ a b, leb a b = true) (insert_sorted leb x l).
Proof.
  intros Htot. induction 1 as [|y l Hs IH Hhd]; simpl; [by repeat constructor|].
  destruct (leb x y) eqn:Hxy; [by repeat constructor|].
  constructor; [done|]. assert (leb y x = true) by (destruct (Htot x y); congruence).
  destruct Hhd as [|z l Hyz]; simpl; [by constructor|]. destruct (leb x z); by constructor.
Qed.

Lemma sort_by_Sorted {A} (leb : A → A → bool) l :
  (∀ a b, leb a b = true ∨ leb b a = true) → Sorted (λ a b, leb a b = true) (sort_by leb l).
Proof. intros ?. induction l; simpl; [constructor|by apply insert_sorted_Sorted]. Qed.

Example TrimSpace_ex : TrimSpace (" a b" +:+ bytes [226;128;137;9]) = "a b".
Proof. vm_compute. reflexivity. Qed.
Example Replace1_ex : Replace1 "ws://h" "ws://" "http://" = "http://h".
Proof. reflexivity. Qed.
Example b64_ex : RawURLEncode "hello>?" = "aGVsbG8-Pw".
Proof. vm_compute. reflexivity. Qed.
Example enc_ex : Values_Encode (Values_Set "b" "x y" [("c","/");("a","1")]) = "a=1&b=x+y&c=%2F".
Proof. vm_compute. reflexivity. Qed.
