(* ===== verification/StoreSpec.v ===== *)
(** The durable data of the relay (internal/store/store.go and
    internal/store/migrations), the [DataStore] interface of
    internal/relay/server.go, and its contract: what each operation promises
    about the tables, errors included.  [PgStore] and [FakeStore] discharge
    the contract; the relay's handlers are verified against it. *)
From Stdlib Require Import ZArith Lia.
From stdpp Require Import base gmap strings list.
From S2P Require Import Prelude.

(** * Rows *)

Record Tenant := mkTenant {
  Tenant_ID : UUID;
  Tenant_Name : string;
  Tenant_CreatedAt : Time
}.

Record User := mkUser {
  User_ID : UUID;
  User_TenantID : UUID;
  User_Provider : string;
  User_Subject : string;
  User_Email : string;
  User_CreatedAt : Time
}.

Record Machine := mkMachine {
  Machine_ID : UUID;
  Machine_TenantID : UUID;
  Machine_Name : string;
  Machine_Hostname : string;
  Machine_Fingerprint : string;
  Machine_CreatedAt : Time;
  Machine_LastSeenAt : option Time
}.

(** A row of [api_keys]. *)
Record APIKey := mkAPIKey {
  APIKey_UserID : UUID;
  APIKey_RevokedAt : option Time
}.

Definition User_set_email (e : string) (u : User) : User :=
  mkUser (User_ID u) (User_TenantID u) (User_Provider u) (User_Subject u) e (User_CreatedAt u).

Definition Machine_set_name (n : string) (m : Machine) : Machine :=
  mkMachine (Machine_ID m) (Machine_TenantID m) n (Machine_Hostname m)
    (Machine_Fingerprint m) (Machine_CreatedAt m) (Machine_LastSeenAt m).

Definition Machine_touch (t : Time) (m : Machine) : Machine :=
  mkMachine (Machine_ID m) (Machine_TenantID m) (Machine_Name m) (Machine_Hostname m)
    (Machine_Fingerprint m) (Machine_CreatedAt m) (Some t).

Definition APIKey_revoke (t : Time) (k : APIKey) : APIKey := mkAPIKey (APIKey_UserID k) (Some t).

#[export] Instance User_eq_dec : EqDecision User.
Proof. solve_decision. Defined.
#[export] Instance Machine_eq_dec : EqDecision Machine.
Proof. solve_decision. Defined.

(** * Tables *)

Record Tables := mkTables {
  tenants : gmap UUID Tenant;
  users : gmap UUID User;
  machines : gmap UUID Machine;
  api_keys : gmap string APIKey
}.

Definition empty_tables : Tables := mkTables ∅ ∅ ∅ ∅.

Definition with_tenants (f : gmap UUID Tenant → gmap UUID Tenant) (t : Tables) : Tables :=
  mkTables (f (tenants t)) (users t) (machines t) (api_keys t).
Definition with_users (f : gmap UUID User → gmap UUID User) (t : Tables) : Tables :=
  mkTables (tenants t) (f (users t)) (machines t) (api_keys t).
Definition with_machines (f : gmap UUID Machine → gmap UUID Machine) (t : Tables) : Tables :=
  mkTables (tenants t) (users t) (f (machines t)) (api_keys t).
Definition with_api_keys (f : gmap string APIKey → gmap string APIKey) (t : Tables) : Tables :=
  mkTables (tenants t) (users t) (machines t) (f (api_keys t)).

Definition is_user (provider subject : string) (u : User) : bool :=
  String.eqb (User_Provider u) provider && String.eqb (User_Subject u) subject.

Definition has_fingerprint (fp : string) (m : Machine) : bool :=
  String.eqb (Machine_Fingerprint m) fp.

Definition has_name (tenantID : UUID) (name : string) (m : Machine) : bool :=
  N.eqb (Machine_TenantID m) tenantID && String.eqb (Machine_Name m) name.

Lemma is_user_true p s u : is_user p s u = true ↔ User_Provider u = p ∧ User_Subject u = s.
Proof. unfold is_user. by rewrite andb_true_iff, !String.eqb_eq. Qed.

Lemma has_fingerprint_true fp m : has_fingerprint fp m = true ↔ Machine_Fingerprint m = fp.
Proof. unfold has_fingerprint. by rewrite String.eqb_eq. Qed.

Lemma has_name_true t n m : has_name t n m = true ↔ Machine_TenantID m = t ∧ Machine_Name m = n.
Proof. unfold has_name. by rewrite andb_true_iff, N.eqb_eq, String.eqb_eq. Qed.

(** The constraints of migration 001 both stores enforce: primary keys,
    UNIQUE (provider, subject), UNIQUE fingerprint, UNIQUE (tenant_id, name),
    and the tenant of a user and of a machine. *)
Record Tables_ok (t : Tables) : Prop := {
  tenants_pkey : ∀ k x, tenants t !! k = Some x → Tenant_ID x = k;
  users_pkey : ∀ k u, users t !! k = Some u → User_ID u = k;
  machines_pkey : ∀ k m, machines t !! k = Some m → Machine_ID m = k;
  users_provider_subject_key : ∀ k1 k2 u1 u2,
    users t !! k1 = Some u1 → users t !! k2 = Some u2 →
    User_Provider u1 = User_Provider u2 → User_Subject u1 = User_Subject u2 → k1 = k2;
  users_tenant_id_fkey : ∀ k u, users t !! k = Some u → is_Some (tenants t !! User_TenantID u);
  machines_tenant_id_fkey : ∀ k m,
    machines t !! k = Some m → is_Some (tenants t !! Machine_TenantID m);
  machines_fingerprint_key : ∀ k1 k2 m1 m2,
    machines t !! k1 = Some m1 → machines t !! k2 = Some m2 →
    Machine_Fingerprint m1 = Machine_Fingerprint m2 → k1 = k2;
  machines_tenant_id_name_key : ∀ k1 k2 m1 m2,
    machines t !! k1 = Some m1 → machines t !! k2 = Some m2 →
    Machine_TenantID m1 = Machine_TenantID m2 → Machine_Name m1 = Machine_Name m2 → k1 = k2
}.

Lemma empty_tables_ok : Tables_ok empty_tables.
Proof. by split; simpl; intros *; rewrite ?lookup_empty. Qed.

(** [alter] at a key that is present. *)
Lemma alter_insert_Some {A} (f : A → A) (k : UUID) (m : gmap UUID A) x :
  m !! k = Some x → alter f k m = <[k := f x]> m.
Proof.
  intros Hk. apply map_eq. intros j. rewrite lookup_alter, lookup_insert.
  case_decide; subst; [|done]. by rewrite Hk.
Qed.

Lemma with_users_alter f k t u :
  users t !! k = Some u → with_users (alter f k) t = with_users <[k := f u]> t.
Proof. intros Hk. unfold with_users. by rewrite (alter_insert_Some f k _ u). Qed.

Lemma with_machines_alter f k t m :
  machines t !! k = Some m → with_machines (alter f k) t = with_machines <[k := f m]> t.
Proof. intros Hk. unfold with_machines. by rewrite (alter_insert_Some f k _ m). Qed.

Lemma with_users_id k t u : users t !! k = Some u → with_users <[k := u]> t = t.
Proof. intros Hk. unfold with_users. rewrite insert_id by done. by destruct t. Qed.

(** ** What preserves the constraints *)

Section preserve.
  Context (t : Tables) (Hok : Tables_ok t).

(** A login: the row of a user is replaced by one with the same identity. *)
Lemma ok_update_user u0 u :
  users t !! User_ID u = Some u0 →
  User_Provider u = User_Provider u0 → User_Subject u = User_Subject u0 →
  User_TenantID u = User_TenantID u0 →
  Tables_ok (with_users <[User_ID u := u]> t).
Proof using Hok.
  intros Hu Hp Hs Ht. destruct Hok. split; simpl; try done.
  - intros k v [[<- <-]|[? ?]]%lookup_insert_Some; eauto.
  - intros k1 k2 u1 u2 [[<- <-]|[? ?]]%lookup_insert_Some [[<- <-]|[? ?]]%lookup_insert_Some ??;
      try done; eapply users_provider_subject_key0; eauto; congruence.
  - intros k v [[<- <-]|[? ?]]%lookup_insert_Some; [rewrite Ht|]; eauto.
Qed.

(** A first login: a personal tenant and its user are added. *)
Lemma ok_add_user u tn :
  users t !! User_ID u = None → tenants t !! User_TenantID u = None →
  Tenant_ID tn = User_TenantID u →
  (∀ k u0, users t !! k = Some u0 → is_user (User_Provider u) (User_Subject u) u0 = false) →
  Tables_ok (with_users <[User_ID u := u]> (with_tenants <[User_TenantID u := tn]> t)).
Proof using Hok.
  intros Hu Ht Htn Hnew. destruct Hok. split; simpl; try done.
  - intros k v [[<- <-]|[? ?]]%lookup_insert_Some; eauto.
  - intros k v [[<- <-]|[? ?]]%lookup_insert_Some; eauto.
  - intros k1 k2 u1 u2 [[<- <-]|[? H1]]%lookup_insert_Some [[<- <-]|[? H2]]%lookup_insert_Some ??;
      try done; [| |eauto].
    + apply Hnew in H2. by rewrite (proj2 (is_user_true _ _ _)) in H2 by done.
    + apply Hnew in H1. by rewrite (proj2 (is_user_true _ _ _)) in H1 by done.
  - intros k v [[<- <-]|[? ?]]%lookup_insert_Some; apply lookup_insert_is_Some'; eauto.
  - intros k v ?. apply lookup_insert_is_Some'; eauto.
Qed.

Lemma ok_add_machine m :
  is_Some (tenants t !! Machine_TenantID m) →
  machines t !! Machine_ID m = None →
  (∀ k m0, machines t !! k = Some m0 →
    Machine_Fingerprint m0 ≠ Machine_Fingerprint m ∧
    (Machine_TenantID m0 = Machine_TenantID m → Machine_Name m0 ≠ Machine_Name m)) →
  Tables_ok (with_machines <[Machine_ID m := m]> t).
Proof using Hok.
  intros Ht Hm Hnew. destruct Hok. split; simpl; try done.
  - intros k v [[<- <-]|[? ?]]%lookup_insert_Some; eauto.
  - intros k v [[<- <-]|[? ?]]%lookup_insert_Some; eauto.
  - intros k1 k2 m1 m2 [[<- <-]|[? H1]]%lookup_insert_Some [[<- <-]|[? H2]]%lookup_insert_Some ?;
      try done; [apply Hnew in H2|apply Hnew in H1|eauto]; naive_solver.
  - intros k1 k2 m1 m2 [[<- <-]|[? H1]]%lookup_insert_Some [[<- <-]|[? H2]]%lookup_insert_Some ??;
      try done; [apply Hnew in H2|apply Hnew in H1|eauto]; naive_solver.
Qed.

(** A machine's row is changed in place, keeping its tenant and its key. *)
Lemma ok_alter_machine f id :
  (∀ m, Machine_ID (f m) = Machine_ID m ∧ Machine_TenantID (f m) = Machine_TenantID m ∧
        Machine_Fingerprint (f m) = Machine_Fingerprint m) →
  (∀ m k m0, machines t !! id = Some m → machines t !! k = Some m0 → k ≠ id →
    Machine_TenantID m0 = Machine_TenantID m → Machine_Name m0 ≠ Machine_Name (f m)) →
  Tables_ok (with_machines (alter f id) t).
Proof using Hok.
  intros Hf Hname. destruct Hok.
  assert (∀ k m, alter f id (machines t) !! k = Some m →
    ∃ m0, machines t !! k = Some m0 ∧ m = if decide (k = id) then f m0 else m0) as Hinv.
  { intros k m. rewrite lookup_alter. case_decide; subst.
    - intros (m0 & -> & ?)%fmap_Some. exists m0. rewrite decide_True by done. eauto.
    - intros. exists m. by rewrite decide_False by done. }
  split; simpl; try done.
  - intros k m (m0 & ? & ->)%Hinv. case_decide; [destruct (Hf m0) as (->&_)|]; eauto.
  - intros k m (m0 & ? & ->)%Hinv. case_decide; [destruct (Hf m0) as (_&->&_)|]; eauto.
  - intros k1 k2 m1 m2 (n1 & ? & ->)%Hinv (n2 & ? & ->)%Hinv Heq.
    eapply machines_fingerprint_key0; [done..|].
    destruct (Hf n1) as (_&_&E1), (Hf n2) as (_&_&E2). repeat case_decide; congruence.
  - intros k1 k2 m1 m2 (n1 & H1 & ->)%Hinv (n2 & H2 & ->)%Hinv Ht Hn.
    destruct (Hf n1) as (_&E1&_), (Hf n2) as (_&E2&_).
    repeat case_decide; subst; try done; [| |by eauto].
    + destruct (Hname n1 k2 n2); congruence.
    + destruct (Hname n2 k1 n1); congruence.
Qed.

Lemma ok_touch_machine ts id : Tables_ok (with_machines (alter (Machine_touch ts) id) t).
Proof using Hok.
  apply ok_alter_machine; [done|]. intros m k m0 ?? Hne ??.
  by eapply Hne, (machines_tenant_id_name_key _ Hok).
Qed.

Lemma ok_delete_machine id : Tables_ok (with_machines (delete id) t).
Proof using Hok.
  destruct Hok. split; simpl; try done.
  - intros k m [? ?]%lookup_delete_Some; eauto.
  - intros k m [? ?]%lookup_delete_Some; eauto.
  - intros k1 k2 m1 m2 [? ?]%lookup_delete_Some [? ?]%lookup_delete_Some; eauto.
  - intros k1 k2 m1 m2 [? ?]%lookup_delete_Some [? ?]%lookup_delete_Some; eauto.
Qed.

Lemma ok_api_keys f : Tables_ok (with_api_keys f t).
Proof using Hok. by destruct Hok. Qed.

(** The machines of a tenant, in any enumeration of the table. *)
Lemma tenant_rows tid l :
  l ≡ₚ map_to_list (machines t) →
  let ms := List.filter (λ m, N.eqb (Machine_TenantID m) tid) l.*2 in
  NoDup ms ∧ ∀ m, m ∈ ms ↔ machines t !! Machine_ID m = Some m ∧ Machine_TenantID m = tid.
Proof using Hok.
  intros Hl ms. assert (∀ k m, (k, m) ∈ l ↔ machines t !! k = Some m) as Hin.
  { intros. by rewrite Hl, elem_of_map_to_list. }
  split.
  - apply NoDup_ListNoDup, List.NoDup_filter, NoDup_ListNoDup.
    apply NoDup_fmap_2_strong.
    + intros [k1 m1] [k2 m2] ?%Hin ?%Hin ?; simplify_eq/=. f_equal.
      by rewrite <-(machines_pkey _ Hok k1 m2), <-(machines_pkey _ Hok k2 m2).
    + rewrite Hl. apply NoDup_map_to_list.
  - intros m. unfold ms. rewrite list_elem_of_In, List.filter_In, <-list_elem_of_In, N.eqb_eq.
    rewrite list_elem_of_fmap. split.
    + intros [([k m'] & -> & Hk%Hin) ?]. simpl in *. by rewrite (machines_pkey _ Hok k m').
    + intros [? ?]. split; [|done]. exists (Machine_ID m, m). by rewrite Hin.
Qed.

End preserve.

(** ** Fresh identifiers

    The identifiers still to be drawn are distinct and unused. *)
Record fresh_supply (t : Tables) (e : Env) : Prop := {
  supply_tenants : ∀ n, uuid_pos e ≤ n → tenants t !! uuid_src e n = None;
  supply_users : ∀ n, uuid_pos e ≤ n → users t !! uuid_src e n = None;
  supply_machines : ∀ n, uuid_pos e ≤ n → machines t !! uuid_src e n = None;
  supply_inj : ∀ n m, uuid_pos e ≤ n → uuid_pos e ≤ m → uuid_src e n = uuid_src e m → n = m
}.

Lemma supply_next t e : fresh_supply t e → fresh_supply t (Env_next e).
Proof. intros []. split; simpl; eauto with lia. Qed.

(** The tables may grow by rows under identifiers already drawn. *)
Lemma supply_weaken t t' e :
  fresh_supply t e →
  (∀ n, uuid_pos e ≤ n → is_Some (tenants t' !! uuid_src e n) → is_Some (tenants t !! uuid_src e n)) →
  (∀ n, uuid_pos e ≤ n → is_Some (users t' !! uuid_src e n) → is_Some (users t !! uuid_src e n)) →
  (∀ n, uuid_pos e ≤ n → is_Some (machines t' !! uuid_src e n) → is_Some (machines t !! uuid_src e n)) →
  fresh_supply t' e.
Proof.
  intros [H1 H2 H3 H4] T U V.
  split; try done; intros n Hn; apply eq_None_not_Some; intros Hs.
  - apply T in Hs; [|done]. rewrite H1 in Hs by done. by destruct Hs.
  - apply U in Hs; [|done]. rewrite H2 in Hs by done. by destruct Hs.
  - apply V in Hs; [|done]. rewrite H3 in Hs by done. by destruct Hs.
Qed.

Section supply.
  Context (t : Tables) (e : Env) (Hs : fresh_supply t e).

(** An update in place, or a deletion, needs no new identifier. *)
Lemma supply_with_users k u : is_Some (users t !! k) → fresh_supply (with_users <[k := u]> t) e.
Proof using Hs.
  intros Hk. eapply supply_weaken; [done|done| |done].
  intros n Hn; simpl; intros [<-|[? ?]]%lookup_insert_is_Some; done.
Qed.

Lemma supply_with_machines f :
  (∀ k, is_Some (f (machines t) !! k) → is_Some (machines t !! k)) →
  fresh_supply (with_machines f t) e.
Proof using Hs. intros Hf. eapply supply_weaken; [done|done|done|]. simpl. auto. Qed.

Lemma supply_with_api_keys f : fresh_supply (with_api_keys f t) e.
Proof using Hs. by destruct Hs. Qed.

(** The identifier drawn next is unused. *)
Lemma fresh_tenant : tenants t !! Env_fresh e = None.
Proof using Hs. by apply Hs. Qed.
Lemma fresh_user : users t !! Env_fresh e = None.
Proof using Hs. by apply Hs. Qed.
Lemma fresh_machine : machines t !! Env_fresh e = None.
Proof using Hs. by apply Hs. Qed.

(** The identifier drawn next is not one still to come. *)
Lemma supply_next_ne n : uuid_pos (Env_next e) ≤ n → Env_fresh e ≠ uuid_src (Env_next e) n.
Proof using Hs.
  intros Hn Heq. destruct Hs. unfold Env_fresh in Heq. simpl in *.
  apply supply_inj0 in Heq; lia.
Qed.

Lemma supply_add_tenant tn : fresh_supply (with_tenants <[Env_fresh e := tn]> t) (Env_next e).
Proof using Hs.
  eapply supply_weaken; [by apply supply_next| |done|done].
  intros n Hn; simpl; intros [Heq|[? ?]]%lookup_insert_is_Some; [|done]. by apply supply_next_ne in Heq.
Qed.

Lemma supply_add_user u : fresh_supply (with_users <[Env_fresh e := u]> t) (Env_next e).
Proof using Hs.
  eapply supply_weaken; [by apply supply_next|done| |done].
  intros n Hn; simpl; intros [Heq|[? ?]]%lookup_insert_is_Some; [|done]. by apply supply_next_ne in Heq.
Qed.

Lemma supply_add_machine m : fresh_supply (with_machines <[Env_fresh e := m]> t) (Env_next e).
Proof using Hs.
  eapply supply_weaken; [by apply supply_next|done|done|].
  intros n Hn; simpl; intros [Heq|[? ?]]%lookup_insert_is_Some; [|done]. by apply supply_next_ne in Heq.
Qed.

End supply.

#[export] Hint Resolve fresh_tenant fresh_user fresh_machine supply_next supply_with_users supply_with_api_keys
  supply_add_tenant supply_add_user supply_add_machine : go.
#[export] Hint Resolve ok_update_user ok_add_user ok_add_machine ok_delete_machine ok_api_keys : go.

(** * The interface *)

Class DataStore (S : Type) := {
  ds_GetOrCreateUser : string → string → string → M S error User;
  ds_GetUserByID : UUID → M S error User;
  ds_CreateMachine : UUID → string → string → string → M S error Machine;
  ds_GetMachine : UUID → M S error Machine;
  ds_GetMachineByFingerprint : string → M S error Machine;
  ds_ListMachines : UUID → M S error (list Machine);
  ds_TouchMachine : UUID → M S error unit;
  ds_RenameMachine : UUID → string → M S error unit;
  ds_DeleteMachine : UUID → M S error unit;
  ds_RecordAPIKey : string → UUID → M S error unit;
  ds_IsAPIKeyRevoked : string → M S error bool;
  ds_RevokeAPIKey : string → UUID → M S error unit
}.

(** * The contract

    [<op>_post args t r t'] relates the tables before, the result and the
    tables after.  Every error leaves the tables as they were. *)

(** The name of a personal tenant. *)
Definition tenant_name (provider subject email : string) : string :=
  if String.eqb email EmptyString then (provider +:+ ":" +:+ subject)%stdpp else email.

(** The row a login by an existing user ends with. *)
Definition refresh_email (email : string) (u : User) : User :=
  if String.eqb email EmptyString then u else User_set_email email u.

Definition GetOrCreateUser_post (provider subject email : string)
    (t : Tables) (r : error + User) (t' : Tables) : Prop :=
  match r with
  | inl _ => t' = t
  | inr u =>
      is_user provider subject u = true ∧
      ((∃ u0, users t !! User_ID u = Some u0 ∧ u = refresh_email email u0 ∧
              t' = with_users <[User_ID u := u]> t) ∨
       (∃ tn, (∀ k u0, users t !! k = Some u0 → is_user provider subject u0 = false) ∧
              users t !! User_ID u = None ∧ tenants t !! User_TenantID u = None ∧
              User_Email u = email ∧
              Tenant_ID tn = User_TenantID u ∧ Tenant_Name tn = tenant_name provider subject email ∧
              t' = with_users <[User_ID u := u]> (with_tenants <[User_TenantID u := tn]> t)))
  end.

(** What a successful login leaves in the tables. *)
Lemma GetOrCreateUser_post_row p sub e t u t' :
  GetOrCreateUser_post p sub e t (inr u) t' →
  users t' !! User_ID u = Some u ∧ machines t' = machines t ∧ api_keys t' = api_keys t.
Proof.
  intros [_ [(u0 & _ & _ & ->)|(tn & _ & _ & _ & _ & _ & _ & ->)]]; simpl; by rewrite lookup_insert_eq.
Qed.

Definition GetUserByID_post (id : UUID) (t : Tables) (r : error + User) (t' : Tables) : Prop :=
  t' = t ∧
  match r with
  | inl e => errors_Is e ErrNotFound = true → users t !! id = None
  | inr u => users t !! id = Some u
  end.

Definition CreateMachine_post (tenantID : UUID) (name hostname fingerprint : string)
    (t : Tables) (r : error + Machine) (t' : Tables) : Prop :=
  match r with
  | inl e =>
      t' = t ∧
      (errors_Is e ErrDuplicateFingerprint = true →
        ∃ k m, machines t !! k = Some m ∧ Machine_Fingerprint m = fingerprint) ∧
      (errors_Is e ErrDuplicateName = true →
        ∃ k m, machines t !! k = Some m ∧ Machine_TenantID m = tenantID ∧ Machine_Name m = name)
  | inr m =>
      (∀ k m0, machines t !! k = Some m0 →
        Machine_Fingerprint m0 ≠ fingerprint ∧
        (Machine_TenantID m0 = tenantID → Machine_Name m0 ≠ name)) ∧
      machines t !! Machine_ID m = None ∧
      Machine_TenantID m = tenantID ∧ Machine_Name m = name ∧ Machine_Hostname m = hostname ∧
      Machine_Fingerprint m = fingerprint ∧ Machine_LastSeenAt m = None ∧
      t' = with_machines <[Machine_ID m := m]> t
  end.

Definition GetMachine_post (id : UUID) (t : Tables) (r : error + Machine) (t' : Tables) : Prop :=
  t' = t ∧
  match r with
  | inl e => errors_Is e ErrNotFound = true → machines t !! id = None
  | inr m => machines t !! id = Some m
  end.

Definition GetMachineByFingerprint_post (fp : string)
    (t : Tables) (r : error + Machine) (t' : Tables) : Prop :=
  t' = t ∧
  match r with
  | inl e => errors_Is e ErrNotFound = true →
      ∀ k m, machines t !! k = Some m → Machine_Fingerprint m ≠ fp
  | inr m => machines t !! Machine_ID m = Some m ∧ Machine_Fingerprint m = fp
  end.

Definition ListMachines_post (tenantID : UUID)
    (t : Tables) (r : error + list Machine) (t' : Tables) : Prop :=
  t' = t ∧
  match r with
  | inl _ => True
  | inr ms => NoDup ms ∧ ∀ m, m ∈ ms ↔ machines t !! Machine_ID m = Some m ∧ Machine_TenantID m = tenantID
  end.

Definition TouchMachine_post (id : UUID) (t : Tables) (r : error + unit) (t' : Tables) : Prop :=
  match r with
  | inl e => t' = t ∧ (errors_Is e ErrNotFound = true → machines t !! id = None)
  | inr _ => ∃ ts, t' = with_machines (alter (Machine_touch ts) id) t
  end.

Definition RenameMachine_post (id : UUID) (name : string)
    (t : Tables) (r : error + unit) (t' : Tables) : Prop :=
  match r with
  | inl e =>
      t' = t ∧ (errors_Is e ErrNotFound = true → machines t !! id = None) ∧
      (errors_Is e ErrDuplicateName = true →
        ∃ k m m0, machines t !! id = Some m ∧ machines t !! k = Some m0 ∧ k ≠ id ∧
          Machine_TenantID m0 = Machine_TenantID m ∧ Machine_Name m0 = name)
  | inr _ => is_Some (machines t !! id) ∧ t' = with_machines (alter (Machine_set_name name) id) t
  end.

Definition DeleteMachine_post (id : UUID) (t : Tables) (r : error + unit) (t' : Tables) : Prop :=
  match r with
  | inl e => t' = t ∧ (errors_Is e ErrNotFound = true → machines t !! id = None)
  | inr _ => is_Some (machines t !! id) ∧ t' = with_machines (delete id) t
  end.

Definition RecordAPIKey_post (keyID : string) (userID : UUID)
    (t : Tables) (r : error + unit) (t' : Tables) : Prop :=
  match r with
  | inl _ => t' = t
  | inr _ => t' = with_api_keys <[keyID := mkAPIKey userID None]> t
  end.

(** Unknown key IDs count as revoked. *)
Definition key_revoked (keyID : string) (t : Tables) : bool :=
  match api_keys t !! keyID with
  | None => true
  | Some k => bool_decide (is_Some (APIKey_RevokedAt k))
  end.

Definition IsAPIKeyRevoked_post (keyID : string)
    (t : Tables) (r : error + bool) (t' : Tables) : Prop :=
  t' = t ∧ match r with inl _ => True | inr b => b = key_revoked keyID t end.

Definition RevokeAPIKey_post (keyID : string) (userID : UUID)
    (t : Tables) (r : error + unit) (t' : Tables) : Prop :=
  match r with
  | inl e => t' = t ∧
      (errors_Is e ErrNotFound = true →
        ∀ k, api_keys t !! keyID = Some k → APIKey_UserID k ≠ userID ∨ is_Some (APIKey_RevokedAt k))
  | inr _ => ∃ k ts, api_keys t !! keyID = Some k ∧ APIKey_UserID k = userID ∧
      APIKey_RevokedAt k = None ∧ t' = with_api_keys <[keyID := APIKey_revoke ts k]> t
  end.

(** A store keeps the contract when each operation, run in a state that
    satisfies the store's invariant, ends in such a state and relates the
    tables it views by the postcondition.  [CreateMachine] is only ever
    called with the tenant of an existing user. *)
Definition keeps_if {S A} (view : S → Tables) (inv : S → Prop) (pre : Tables → Prop)
    (m : M S error A) (post : Tables → error + A → Tables → Prop) : Prop :=
  ∀ s, inv s → pre (view s) → wp m (λ r s', inv s' ∧ post (view s) r (view s')) s.

Definition keeps {S A} (view : S → Tables) (inv : S → Prop)
    (m : M S error A) (post : Tables → error + A → Tables → Prop) : Prop :=
  ∀ s, inv s → wp m (λ r s', inv s' ∧ post (view s) r (view s')) s.

Class DataStoreOk (S : Type) `{DataStore S} := {
  ds_view : S → Tables;
  ds_inv : S → Prop;
  ds_inv_ok : ∀ s, ds_inv s → Tables_ok (ds_view s);
  ds_GetOrCreateUser_ok : ∀ p sub e,
    keeps ds_view ds_inv (ds_GetOrCreateUser p sub e) (GetOrCreateUser_post p sub e);
  ds_GetUserByID_ok : ∀ id, keeps ds_view ds_inv (ds_GetUserByID id) (GetUserByID_post id);
  ds_CreateMachine_ok : ∀ tid n h fp,
    keeps_if ds_view ds_inv (λ t, is_Some (tenants t !! tid))
      (ds_CreateMachine tid n h fp) (CreateMachine_post tid n h fp);
  ds_GetMachine_ok : ∀ id, keeps ds_view ds_inv (ds_GetMachine id) (GetMachine_post id);
  ds_GetMachineByFingerprint_ok : ∀ fp,
    keeps ds_view ds_inv (ds_GetMachineByFingerprint fp) (GetMachineByFingerprint_post fp);
  ds_ListMachines_ok : ∀ tid,
    keeps ds_view ds_inv (ds_ListMachines tid) (ListMachines_post tid);
  ds_TouchMachine_ok : ∀ id, keeps ds_view ds_inv (ds_TouchMachine id) (TouchMachine_post id);
  ds_RenameMachine_ok : ∀ id n,
    keeps ds_view ds_inv (ds_RenameMachine id n) (RenameMachine_post id n);
  ds_DeleteMachine_ok : ∀ id, keeps ds_view ds_inv (ds_DeleteMachine id) (DeleteMachine_post id);
  ds_RecordAPIKey_ok : ∀ k uid,
    keeps ds_view ds_inv (ds_RecordAPIKey k uid) (RecordAPIKey_post k uid);
  ds_IsAPIKeyRevoked_ok : ∀ k,
    keeps ds_view ds_inv (ds_IsAPIKeyRevoked k) (IsAPIKeyRevoked_post k);
  ds_RevokeAPIKey_ok : ∀ k uid,
    keeps ds_view ds_inv (ds_RevokeAPIKey k uid) (RevokeAPIKey_post k uid)
}.

(** * Runs

    A client's calls as data, so that a store's runs can be compared with
    the runs the contract allows. *)

Inductive store_op :=
  | OpGetOrCreateUser (provider subject email : string)
  | OpGetUserByID (id : UUID)
  | OpCreateMachine (tenantID : UUID) (name hostname fingerprint : string)
  | OpGetMachine (id : UUID)
  | OpGetMachineByFingerprint (fingerprint : string)
  | OpListMachines (tenantID : UUID)
  | OpTouchMachine (id : UUID)
  | OpRenameMachine (id : UUID) (name : string)
  | OpDeleteMachine (id : UUID)
  | OpRecordAPIKey (keyID : string) (userID : UUID)
  | OpIsAPIKeyRevoked (keyID : string)
  | OpRevokeAPIKey (keyID : string) (userID : UUID).

Inductive store_reply :=
  | RUser (u : User)
  | RMachine (m : Machine)
  | RMachines (ms : list Machine)
  | RBool (b : bool)
  | RNil.

Definition reply {S A} (f : A → store_reply) (m : M S error A) : M S error store_reply :=
  let! a := m in ret (f a).

Definition run_op {S} `{DataStore S} (o : store_op) : M S error store_reply :=
  match o with
  | OpGetOrCreateUser p s e => reply RUser (ds_GetOrCreateUser p s e)
  | OpGetUserByID id => reply RUser (ds_GetUserByID id)
  | OpCreateMachine tid n h fp => reply RMachine (ds_CreateMachine tid n h fp)
  | OpGetMachine id => reply RMachine (ds_GetMachine id)
  | OpGetMachineByFingerprint fp => reply RMachine (ds_GetMachineByFingerprint fp)
  | OpListMachines tid => reply RMachines (ds_ListMachines tid)
  | OpTouchMachine id => reply (λ _, RNil) (ds_TouchMachine id)
  | OpRenameMachine id n => reply (λ _, RNil) (ds_RenameMachine id n)
  | OpDeleteMachine id => reply (λ _, RNil) (ds_DeleteMachine id)
  | OpRecordAPIKey k uid => reply (λ _, RNil) (ds_RecordAPIKey k uid)
  | OpIsAPIKeyRevoked k => reply RBool (ds_IsAPIKeyRevoked k)
  | OpRevokeAPIKey k uid => reply (λ _, RNil) (ds_RevokeAPIKey k uid)
  end.

Definition op_pre (o : store_op) (t : Tables) : Prop :=
  match o with OpCreateMachine tid _ _ _ => is_Some (tenants t !! tid) | _ => True end.

(** [post] seen through the reply. *)
Definition replies {A} (f : A → store_reply) (post : Tables → error + A → Tables → Prop)
    (t : Tables) (r : error + store_reply) (t' : Tables) : Prop :=
  match r with
  | inl e => post t (inl e) t'
  | inr x => ∃ a, x = f a ∧ post t (inr a) t'
  end.

Definition op_post (o : store_op) : Tables → error + store_reply → Tables → Prop :=
  match o with
  | OpGetOrCreateUser p s e => replies RUser (GetOrCreateUser_post p s e)
  | OpGetUserByID id => replies RUser (GetUserByID_post id)
  | OpCreateMachine tid n h fp => replies RMachine (CreateMachine_post tid n h fp)
  | OpGetMachine id => replies RMachine (GetMachine_post id)
  | OpGetMachineByFingerprint fp => replies RMachine (GetMachineByFingerprint_post fp)
  | OpListMachines tid => replies RMachines (ListMachines_post tid)
  | OpTouchMachine id => replies (λ _, RNil) (TouchMachine_post id)
  | OpRenameMachine id n => replies (λ _, RNil) (RenameMachine_post id n)
  | OpDeleteMachine id => replies (λ _, RNil) (DeleteMachine_post id)
  | OpRecordAPIKey k uid => replies (λ _, RNil) (RecordAPIKey_post k uid)
  | OpIsAPIKeyRevoked k => replies RBool (IsAPIKeyRevoked_post k)
  | OpRevokeAPIKey k uid => replies (λ _, RNil) (RevokeAPIKey_post k uid)
  end.

(** The runs the contract allows: calls with the replies they get. *)
Inductive spec_run : Tables → list (store_op * (error + store_reply)) → Tables → Prop :=
  | spec_nil t : spec_run t [] t
  | spec_call t o r t1 tr t2 :
      op_pre o t → op_post o t r t1 → Tables_ok t1 → spec_run t1 tr t2 →
      spec_run t ((o, r) :: tr) t2.

(** The store's run, with the replies it gives. *)
Fixpoint run_ops {S} `{DataStore S} (os : list store_op) (s : S) : list (store_op * (error + store_reply)) * S :=
  match os with
  | [] => ([], s)
  | o :: os =>
      let '(r, s1) := run_op o s in
      let '(tr, s2) := run_ops os s1 in ((o, r) :: tr, s2)
  end.

Section runs.
  Context {S : Type} `{DataStoreOk S}.

(** Machines are only created for tenants that exist. *)
Fixpoint valid_ops (os : list store_op) (s : S) : Prop :=
  match os with
  | [] => True
  | o :: os => op_pre o (ds_view s) ∧ valid_ops os (run_op o s).2
  end.

Lemma keeps_reply {A} (f : A → store_reply) (m : M S error A) post s :
  keeps ds_view ds_inv m post → ds_inv s →
  wp (reply f m) (λ r s', ds_inv s' ∧ replies f post (ds_view s) r (ds_view s')) s.
Proof.
  intros Hm Hs. unfold reply. wp_simpl. wp_use (Hm s Hs).
  intros [e|a] s' [? ?]; [done|]. wp_simpl. split; [done|]. by exists a.
Qed.

(** One call of a store that keeps the contract is one the contract allows. *)
Lemma run_op_ok o s :
  ds_inv s → op_pre o (ds_view s) →
  wp (run_op o) (λ r s', ds_inv s' ∧ op_post o (ds_view s) r (ds_view s')) s.
Proof.
  intros Hs Hpre. destruct o; cbn in *;
    try (apply keeps_reply; [|done]; by (apply ds_GetOrCreateUser_ok || apply ds_GetUserByID_ok ||
      apply ds_GetMachine_ok || apply ds_GetMachineByFingerprint_ok || apply ds_ListMachines_ok ||
      apply ds_TouchMachine_ok || apply ds_RenameMachine_ok || apply ds_DeleteMachine_ok ||
      apply ds_RecordAPIKey_ok || apply ds_IsAPIKeyRevoked_ok || apply ds_RevokeAPIKey_ok)).
  unfold reply. wp_simpl. wp_use (ds_CreateMachine_ok tenantID name hostname fingerprint s Hs Hpre).
  intros [e|m] s' [? ?]; [done|]. wp_simpl. split; [done|]. by exists m.
Qed.

Lemma run_ops_simulation os s tr s' :
  ds_inv s → valid_ops os s → run_ops os s = (tr, s') →
  ds_inv s' ∧ spec_run (ds_view s) tr (ds_view s').
Proof.
  revert s tr. induction os as [|o os IH]; intros s tr Hs Hv; simpl.
  { intros [= <- <-]. split; [done|constructor]. }
  destruct Hv as [Hpre Hv]. pose proof (run_op_ok o s Hs Hpre) as Hwp. unfold wp in Hwp.
  destruct (run_op o s) as [r s1]; simpl in *. destruct Hwp as [Hs1 Hpost].
  destruct (run_ops os s1) as [tr' s2] eqn:Hrun. intros [= <- <-].
  destruct (IH _ _ Hs1 Hv Hrun). split; [done|]. econstructor; eauto using ds_inv_ok.
Qed.

End runs.
