(* ===== verification/PgStore.v ===== *)
(** The Postgres store of internal/store/store.go over the schema of
    internal/store/migrations/001_init.up.sql.

    Postgres itself is outside the repository.  Its state is the four tables,
    the source of [gen_random_uuid()] and [now()], and, for every statement
    still to come, whether it fails with a connection error.  A statement
    that fails has no effect; a statement that breaks several unique
    constraints reports one of them, chosen by [pg_report]. *)
From Stdlib Require Import ZArith Lia.
From stdpp Require Import base gmap strings list sorting.
From S2P Require Import Prelude GoStrings StoreSpec.

(** Which broken constraint a 23505 error names. *)
Class PgReport := {
  pg_report : string → list string → string;
  pg_report_in : ∀ c cs, pg_report c cs ∈ c :: cs
}.

Record Pg := mkPg { pg_tables : Tables; pg_env : Env; pg_faults : list bool }.

Definition pg_set_tables (t : Tables) (s : Pg) : Pg := mkPg t (pg_env s) (pg_faults s).

Definition pg_update (f : Tables → Tables) : M Pg error unit :=
  modify (λ s, pg_set_tables (f (pg_tables s)) s).

(** [gen_random_uuid()] *)
Definition gen_random_uuid : M Pg error UUID :=
  let! id := gets (λ s, Env_fresh (pg_env s)) in
  do! modify (λ s, mkPg (pg_tables s) (Env_next (pg_env s)) (pg_faults s)) in
  ret id.

(** One round trip to the server. *)
Definition pg_stmt {A} (run : M Pg error A) : M Pg error A :=
  let! fs := gets pg_faults in
  do! modify (λ s, mkPg (pg_tables s) (pg_env s) (tail fs)) in
  match fs with
  | true :: _ => throw (ErrExternal "connection failure")
  | _ => run
  end.

(** * SQL statements *)

Section statements.
  Context `{PgReport}.

Definition unique_violation (violated : list string) : M Pg error unit :=
  match violated with
  | [] => ret tt
  | c :: cs => throw (PgError "23505" (pg_report c cs))
  end.

Definition fk_violation (ok : bool) (constraint : string) : M Pg error unit :=
  if ok then ret tt else throw (PgError "23503" constraint).

Definition broken (b : bool) (constraint : string) : list string :=
  if b then [constraint] else [].

(** [SELECT ... FROM users WHERE P], one row *)
Definition select_user (P : User → bool) : M Pg error User :=
  let! t := gets pg_tables in
  match find_value P (map_to_list (users t)) with
  | Some u => ret u
  | None => throw ErrNoRows
  end.

(** [INSERT INTO tenants (name) VALUES ($1) RETURNING id] *)
Definition insert_tenant (name : string) : M Pg error UUID :=
  let! id := gen_random_uuid in
  let! s := get in
  do! unique_violation (broken (bool_decide (is_Some (tenants (pg_tables s) !! id))) "tenants_pkey") in
  do! pg_update (with_tenants <[id := mkTenant id name (now (pg_env s))]>) in
  ret id.

(** [INSERT INTO users ... ON CONFLICT (provider, subject) DO NOTHING
    RETURNING id, created_at]; no row is returned on a conflict. *)
Definition insert_user (tenantID : UUID) (provider subject email : string) : M Pg error (UUID * Time) :=
  let! id := gen_random_uuid in
  let! s := get in
  match find_value (is_user provider subject) (map_to_list (users (pg_tables s))) with
  | Some _ => throw ErrNoRows
  | None =>
      do! unique_violation (broken (bool_decide (is_Some (users (pg_tables s) !! id))) "users_pkey") in
      do! fk_violation (bool_decide (is_Some (tenants (pg_tables s) !! tenantID))) "users_tenant_id_fkey" in
      do! pg_update (with_users <[id := mkUser id tenantID provider subject email (now (pg_env s))]>) in
      ret (id, now (pg_env s))
  end.

(** [UPDATE users SET email = $1 WHERE id = $2] *)
Definition update_email (email : string) (id : UUID) : M Pg error unit :=
  pg_update (with_users (alter (User_set_email email) id)).

(** [INSERT INTO machines ... RETURNING id, created_at] *)
Definition insert_machine (tenantID : UUID) (name hostname fingerprint : string) : M Pg error (UUID * Time) :=
  let! id := gen_random_uuid in
  let! s := get in
  let ms := machines (pg_tables s) in
  let found P := bool_decide (is_Some (find_value P (map_to_list ms))) in
  do! unique_violation
        (broken (bool_decide (is_Some (ms !! id))) "machines_pkey" ++
         broken (found (has_fingerprint fingerprint)) "machines_fingerprint_key" ++
         broken (found (has_name tenantID name)) "machines_tenant_id_name_key") in
  do! fk_violation (bool_decide (is_Some (tenants (pg_tables s) !! tenantID))) "machines_tenant_id_fkey" in
  do! pg_update (with_machines <[id := mkMachine id tenantID name hostname fingerprint (now (pg_env s)) None]>) in
  ret (id, now (pg_env s)).

(** [SELECT machineCols FROM machines WHERE P], one row *)
Definition select_machine (P : Machine → bool) : M Pg error Machine :=
  let! t := gets pg_tables in
  match find_value P (map_to_list (machines t)) with
  | Some m => ret m
  | None => throw ErrNoRows
  end.

(** [SELECT machineCols FROM machines WHERE tenant_id = $1 ORDER BY name] *)
Definition select_machines (tenantID : UUID) : M Pg error (list Machine) :=
  let! t := gets pg_tables in
  ret (sort_by (λ a b, String.leb (Machine_Name a) (Machine_Name b))
    (List.filter (λ m, N.eqb (Machine_TenantID m) tenantID) (map_to_list (machines t)).*2)).

(** [UPDATE machines SET last_seen_at = now() WHERE id = $1] *)
Definition update_last_seen (id : UUID) : M Pg error unit :=
  let! s := get in
  pg_update (with_machines (alter (Machine_touch (now (pg_env s))) id)).

(** [UPDATE machines SET name = $1 WHERE id = $2]; the rows affected *)
Definition update_name (name : string) (id : UUID) : M Pg error nat :=
  let! t := gets pg_tables in
  match machines t !! id with
  | None => ret 0
  | Some m =>
      do! unique_violation (broken (bool_decide (is_Some
            (find_value (has_name (Machine_TenantID m) name) (map_to_list (delete id (machines t))))))
            "machines_tenant_id_name_key") in
      do! pg_update (with_machines (alter (Machine_set_name name) id)) in
      ret 1
  end.

(** [DELETE FROM machines WHERE id = $1]; the rows affected *)
Definition delete_machine (id : UUID) : M Pg error nat :=
  let! t := gets pg_tables in
  match machines t !! id with
  | None => ret 0
  | Some _ => do! pg_update (with_machines (delete id)) in ret 1
  end.

(** [INSERT INTO api_keys (key_id, user_id) VALUES ($1, $2)] *)
Definition insert_api_key (keyID : string) (userID : UUID) : M Pg error unit :=
  let! t := gets pg_tables in
  do! unique_violation (broken (bool_decide (is_Some (api_keys t !! keyID))) "api_keys_pkey") in
  do! fk_violation (bool_decide (is_Some (users t !! userID))) "api_keys_user_id_fkey" in
  pg_update (with_api_keys <[keyID := mkAPIKey userID None]>).

(** [SELECT revoked_at FROM api_keys WHERE key_id = $1] *)
Definition select_revoked_at (keyID : string) : M Pg error (option Time) :=
  let! t := gets pg_tables in
  match api_keys t !! keyID with
  | Some k => ret (APIKey_RevokedAt k)
  | None => throw ErrNoRows
  end.

(** [UPDATE api_keys SET revoked_at = now() WHERE key_id = $1 AND
    user_id = $2 AND revoked_at IS NULL]; the rows affected *)
Definition update_revoked_at (keyID : string) (userID : UUID) : M Pg error nat :=
  let! s := get in
  match api_keys (pg_tables s) !! keyID with
  | Some k =>
      if N.eqb (APIKey_UserID k) userID && bool_decide (APIKey_RevokedAt k = None) then
        do! pg_update (with_api_keys <[keyID := APIKey_revoke (now (pg_env s)) k]>) in ret 1
      else ret 0
  | None => ret 0
  end.

(** * Transactions *)

(** How a transaction's body ends without committing. *)
Inductive tx_abort :=
  | Lost                    (** the create race was lost *)
  | Failed (err : error).

(** [tx, err := s.pool.Begin(ctx); defer tx.Rollback(ctx)]: unless the body
    committed, the tables are those at [Begin].  [None] is a lost race. *)
Definition with_tx {A} (body : M Pg tx_abort A) : M Pg error (option A) :=
  λ s, match body s with
       | (inr a, s') => (inr (Some a), s')
       | (inl Lost, s') => (inr None, pg_set_tables (pg_tables s) s')
       | (inl (Failed e), s') => (inl e, pg_set_tables (pg_tables s) s')
       end.

Definition pg_begin : M Pg error unit := pg_stmt (ret tt).
Definition pg_commit : M Pg error unit := pg_stmt (ret tt).

(** * The operations of [*Store] *)

Definition Store_getUser (provider subject : string) : M Pg error User :=
  pg_stmt (select_user (is_user provider subject))
    else_return (λ err, if errors_Is err ErrNoRows then ErrNotFound else err).

(** The transaction of [GetOrCreateUser]; [None] when another login has
    already created the user. *)
Definition Store_createUserTx (provider subject email : string) : M Pg error (option User) :=
  let tenantName := if String.eqb email EmptyString
                    then (provider +:+ ":" +:+ subject)%stdpp else email in
  do! pg_begin else_return (WrapError "beginning tx") in
  with_tx
    (let! tenantID := pg_stmt (insert_tenant tenantName)
        else_return (λ err, Failed (WrapError "creating tenant" err)) in
     let! row := pg_stmt (insert_user tenantID provider subject email)
        else_return (λ err, if errors_Is err ErrNoRows then Lost
                            else Failed (WrapError "creating user" err)) in
     do! pg_commit else_return (λ err, Failed (WrapError "committing" err)) in
     ret (mkUser row.1 tenantID provider subject email row.2)).

Definition Store_GetOrCreateUser (provider subject email : string) : M Pg error User :=
  let! r := attempt (Store_getUser provider subject) in
  match r with
  | inr u =>
      if negb (String.eqb email EmptyString) && negb (String.eqb (User_Email u) email) then
        do! pg_stmt (update_email email (User_ID u)) else_return (WrapError "updating email") in
        ret (User_set_email email u)
      else ret u
  | inl err =>
      if errors_Is err ErrNotFound then
        let! created := Store_createUserTx provider subject email in
        match created with
        | Some u => ret u
        | None => Store_getUser provider subject
        end
      else throw err
  end.

Definition Store_GetUserByID (id : UUID) : M Pg error User :=
  pg_stmt (select_user (λ u, N.eqb (User_ID u) id))
    else_return (λ err, if errors_Is err ErrNoRows then ErrNotFound else err).

Definition Store_CreateMachine (tenantID : UUID) (name hostname fingerprint : string) : M Pg error Machine :=
  let! row := pg_stmt (insert_machine tenantID name hostname fingerprint)
    else_return (λ err,
      match errors_As_PgError err with
      | Some (code, constraint) =>
          if String.eqb code "23505" then
            if String.eqb constraint "machines_fingerprint_key" then ErrDuplicateFingerprint
            else ErrDuplicateName
          else WrapError "creating machine" err
      | None => WrapError "creating machine" err
      end) in
  ret (mkMachine row.1 tenantID name hostname fingerprint row.2 None).

Definition scanMachine (row : M Pg error Machine) : M Pg error Machine :=
  row else_return (λ err, if errors_Is err ErrNoRows then ErrNotFound else err).

Definition Store_GetMachine (id : UUID) : M Pg error Machine :=
  scanMachine (pg_stmt (select_machine (λ m, N.eqb (Machine_ID m) id))).

Definition Store_GetMachineByFingerprint (fingerprint : string) : M Pg error Machine :=
  scanMachine (pg_stmt (select_machine (has_fingerprint fingerprint))).

Definition Store_ListMachines (tenantID : UUID) : M Pg error (list Machine) :=
  pg_stmt (select_machines tenantID).

Definition Store_TouchMachine (id : UUID) : M Pg error unit :=
  pg_stmt (update_last_seen id).

Definition Store_RenameMachine (id : UUID) (name : string) : M Pg error unit :=
  let! affected := pg_stmt (update_name name id)
    else_return (λ err,
      match errors_As_PgError err with
      | Some (code, _) => if String.eqb code "23505" then ErrDuplicateName else err
      | None => err
      end) in
  if Nat.eqb affected 0 then throw ErrNotFound else ret tt.

Definition Store_DeleteMachine (id : UUID) : M Pg error unit :=
  let! affected := pg_stmt (delete_machine id) in
  if Nat.eqb affected 0 then throw ErrNotFound else ret tt.

Definition Store_RecordAPIKey (keyID : string) (userID : UUID) : M Pg error unit :=
  pg_stmt (insert_api_key keyID userID).

Definition Store_IsAPIKeyRevoked (keyID : string) : M Pg error bool :=
  let! r := attempt (pg_stmt (select_revoked_at keyID)) in
  match r with
  | inl err => if errors_Is err ErrNoRows then ret true else throw err
  | inr revokedAt => ret (bool_decide (is_Some revokedAt))
  end.

Definition Store_RevokeAPIKey (keyID : string) (userID : UUID) : M Pg error unit :=
  let! affected := pg_stmt (update_revoked_at keyID userID) in
  if Nat.eqb affected 0 then throw ErrNotFound else ret tt.

#[export] Instance Store_DataStore : DataStore Pg := {
  ds_GetOrCreateUser := Store_GetOrCreateUser;
  ds_GetUserByID := Store_GetUserByID;
  ds_CreateMachine := Store_CreateMachine;
  ds_GetMachine := Store_GetMachine;
  ds_GetMachineByFingerprint := Store_GetMachineByFingerprint;
  ds_ListMachines := Store_ListMachines;
  ds_TouchMachine := Store_TouchMachine;
  ds_RenameMachine := Store_RenameMachine;
  ds_DeleteMachine := Store_DeleteMachine;
  ds_RecordAPIKey := Store_RecordAPIKey;
  ds_IsAPIKeyRevoked := Store_IsAPIKeyRevoked;
  ds_RevokeAPIKey := Store_RevokeAPIKey
}.


(** * The store keeps the contract *)

(** The constraints hold and the identifiers still to be generated are new. *)
Definition pg_inv (s : Pg) : Prop :=
  Tables_ok (pg_tables s) ∧ fresh_supply (pg_tables s) (pg_env s).

(** The state a statement runs in. *)
Definition pg_pop (s : Pg) : Pg := mkPg (pg_tables s) (pg_env s) (tail (pg_faults s)).

Lemma pg_inv_pop s : pg_inv s → pg_inv (pg_pop s).
Proof. done. Qed.

Lemma wp_pg_stmt {A} (run : M Pg error A) (Q : error + A → Pg → Prop) s :
  Q (inl (ErrExternal "connection failure")) (pg_pop s) →
  wp run Q (pg_pop s) → wp (pg_stmt run) Q s.
Proof. intros ??. unfold pg_stmt. wp_simpl. by destruct s as [t e [|[] fs]]. Qed.

Lemma wp_select_user P (Q : error + User → Pg → Prop) s :
  pg_inv s →
  (∀ u, P u = true → users (pg_tables s) !! User_ID u = Some u → Q (inr u) s) →
  ((∀ k u, users (pg_tables s) !! k = Some u → P u = false) → Q (inl ErrNoRows) s) →
  wp (select_user P) Q s.
Proof.
  intros [Hok _] Hu He. unfold select_user. wp_simpl. case_match eqn:Hf; wp_simpl.
  - apply find_value_Some_lookup with (m := users (pg_tables s)) in Hf as [? [k Hk]]; [|done].
    apply Hu; [done|]. by rewrite (users_pkey _ Hok k).
  - apply He. intros k u Hk. by eapply find_value_None_lookup.
Qed.

Lemma wp_select_machine P (Q : error + Machine → Pg → Prop) s :
  pg_inv s →
  (∀ m, P m = true → machines (pg_tables s) !! Machine_ID m = Some m → Q (inr m) s) →
  ((∀ k m, machines (pg_tables s) !! k = Some m → P m = false) → Q (inl ErrNoRows) s) →
  wp (select_machine P) Q s.
Proof.
  intros [Hok _] Hu He. unfold select_machine. wp_simpl. case_match eqn:Hf; wp_simpl.
  - apply find_value_Some_lookup with (m := machines (pg_tables s)) in Hf as [? [k Hk]]; [|done].
    apply Hu; [done|]. by rewrite (machines_pkey _ Hok k).
  - apply He. intros k u Hk. by eapply find_value_None_lookup.
Qed.

Lemma Store_getUser_ok provider subject s :
  pg_inv s →
  wp (Store_getUser provider subject) (λ r s',
    s' = pg_pop s ∧
    match r with
    | inl e => errors_Is e ErrNotFound = true →
        ∀ k u, users (pg_tables s) !! k = Some u → is_user provider subject u = false
    | inr u => is_user provider subject u = true ∧ users (pg_tables s) !! User_ID u = Some u
    end) s.
Proof.
  intros Hs. unfold Store_getUser. wp_simpl. apply wp_pg_stmt; [done|].
  apply wp_select_user; [done| |]; eauto.
Qed.

Lemma Store_GetUserByID_ok id :
  keeps pg_tables pg_inv (Store_GetUserByID id) (GetUserByID_post id).
Proof.
  intros s Hs. unfold Store_GetUserByID. wp_simpl. apply wp_pg_stmt; [done|].
  apply wp_select_user; [done| |].
  - intros u ->%N.eqb_eq ?. done.
  - intros Hn. split; [done|]. split; [done|]. intros _. apply eq_None_not_Some. intros [u Hu].
    specialize (Hn _ _ Hu). rewrite (users_pkey _ (proj1 Hs) _ _ Hu), N.eqb_refl in Hn. done.
Qed.

Lemma Store_GetMachine_ok id : keeps pg_tables pg_inv (Store_GetMachine id) (GetMachine_post id).
Proof.
  intros s Hs. unfold Store_GetMachine, scanMachine. wp_simpl. apply wp_pg_stmt; [done|].
  apply wp_select_machine; [done| |].
  - intros m ->%N.eqb_eq ?. done.
  - intros Hn. split; [done|]. split; [done|]. intros _. apply eq_None_not_Some. intros [m Hm].
    specialize (Hn _ _ Hm). rewrite (machines_pkey _ (proj1 Hs) _ _ Hm), N.eqb_refl in Hn. done.
Qed.

Lemma Store_GetMachineByFingerprint_ok fp :
  keeps pg_tables pg_inv (Store_GetMachineByFingerprint fp) (GetMachineByFingerprint_post fp).
Proof.
  intros s Hs. unfold Store_GetMachineByFingerprint, scanMachine. wp_simpl.
  apply wp_pg_stmt; [done|]. apply wp_select_machine; [done| |].
  - intros m ?%has_fingerprint_true ?. done.
  - intros Hn. split; [done|]. split; [done|]. intros _ k m Hm Hfp%has_fingerprint_true.
    specialize (Hn _ _ Hm). congruence.
Qed.


Lemma wp_gen_random_uuid (Q : error + UUID → Pg → Prop) s :
  Q (inr (Env_fresh (pg_env s))) (mkPg (pg_tables s) (Env_next (pg_env s)) (pg_faults s)) →
  wp gen_random_uuid Q s.
Proof. done. Qed.

Lemma wp_unique_violation violated (Q : error + unit → Pg → Prop) s :
  (violated = [] → Q (inr tt) s) →
  (∀ c, c ∈ violated → Q (inl (PgError "23505" c)) s) →
  wp (unique_violation violated) Q s.
Proof.
  intros Hok He. destruct violated as [|c cs]; [by apply Hok|].
  apply He, pg_report_in.
Qed.

Lemma wp_fk_violation ok c (Q : error + unit → Pg → Prop) s :
  (ok = true → Q (inr tt) s) → (ok = false → Q (inl (PgError "23503" c)) s) →
  wp (fk_violation ok c) Q s.
Proof. intros ??. destruct ok; unfold fk_violation; wp_simpl; auto. Qed.

Lemma broken_nil b c : broken b c = [] ↔ b = false.
Proof. by destruct b. Qed.

Lemma elem_of_broken b c c' : c' ∈ broken b c ↔ b = true ∧ c' = c.
Proof. destruct b; unfold broken; set_solver. Qed.

(** [SELECT 1 FROM m WHERE P] *)
Lemma found_true {V} (P : V → bool) (m : gmap UUID V) :
  bool_decide (is_Some (find_value P (map_to_list m))) = true ↔
  ∃ k v, m !! k = Some v ∧ P v = true.
Proof.
  rewrite bool_decide_eq_true. split.
  - intros [v Hf]. by apply find_value_Some_lookup with (m := m) in Hf as [? [k ?]]; eauto.
  - intros (k & v & Hk & HP). destruct (find_value P (map_to_list m)) eqn:Hf; [done|].
    eapply find_value_None_lookup in Hf; [|done|exact Hk]. congruence.
Qed.

Lemma found_false {V} (P : V → bool) (m : gmap UUID V) :
  bool_decide (is_Some (find_value P (map_to_list m))) = false ↔
  ∀ k v, m !! k = Some v → P v = false.
Proof.
  split.
  - intros Hf k v Hk. destruct (P v) eqn:HP; [|done].
    by rewrite (proj2 (found_true P m)) in Hf by eauto.
  - intros Hn. apply not_true_iff_false. rewrite found_true. intros (k & v & Hk & HP).
    by rewrite (Hn k v) in HP.
Qed.

Lemma not_present {V} (m : gmap UUID V) k : m !! k = None → bool_decide (is_Some (m !! k)) = false.
Proof. intros ->. by apply bool_decide_eq_false, is_Some_None. Qed.

Lemma Store_CreateMachine_ok tid name host fp :
  keeps_if pg_tables pg_inv (λ t, is_Some (tenants t !! tid))
    (Store_CreateMachine tid name host fp) (CreateMachine_post tid name host fp).
Proof.
  intros s [Hok Hs] Htid. unfold Store_CreateMachine. wp_simpl. apply wp_pg_stmt; [done|].
  unfold insert_machine. wp_simpl. apply wp_gen_random_uuid. cbn. wp_simpl. cbn.
  rewrite (not_present _ _ (fresh_machine _ _ Hs)).
  apply wp_unique_violation; cbn.
  - intros [Hfp%broken_nil Hname%broken_nil]%app_nil.
    wp_simpl. apply wp_fk_violation; rewrite bool_decide_true by done; [intros _|done].
    unfold pg_update. wp_simpl. cbn. rewrite found_false in Hfp, Hname.
    assert (∀ k m0, machines (pg_tables s) !! k = Some m0 → Machine_Fingerprint m0 ≠ fp ∧
      (Machine_TenantID m0 = tid → Machine_Name m0 ≠ name)) as Hnew.
    { intros k m0 Hk. split.
      - intros Heq%has_fingerprint_true. by rewrite (Hfp k) in Heq.
      - intros ??. specialize (Hname _ _ Hk). by rewrite (proj2 (has_name_true tid name m0)) in Hname. }
    split; [split; cbn|].
    + apply (ok_add_machine _ Hok (mkMachine _ _ _ _ _ _ _)); eauto with go.
    + eauto with go.
    + repeat split; eauto with go.
      * by eapply Hnew.
      * by eapply Hnew.
  - intros c Hc. split; [split; eauto with go|]. split; [done|].
    rewrite !elem_of_app, !elem_of_broken, !found_true in Hc.
    destruct Hc as [[(k & m & ? & ?%has_fingerprint_true) ->]|[(k & m & ? & [??]%has_name_true) ->]];
      cbn; naive_solver.
Qed.


Lemma Store_ListMachines_ok tid :
  keeps pg_tables pg_inv (Store_ListMachines tid) (ListMachines_post tid).
Proof.
  intros s Hs. unfold Store_ListMachines. apply wp_pg_stmt; [done|].
  unfold select_machines. wp_simpl. split; [done|]. split; [done|]. cbn.
  setoid_rewrite sort_by_Permutation. by apply tenant_rows; [apply Hs|].
Qed.

Lemma Store_TouchMachine_ok id :
  keeps pg_tables pg_inv (Store_TouchMachine id) (TouchMachine_post id).
Proof.
  intros s [Hok Hs]. unfold Store_TouchMachine. apply wp_pg_stmt; [done|].
  unfold update_last_seen, pg_update. wp_simpl. split; [split|by eexists]; cbn.
  - by apply ok_touch_machine.
  - apply supply_with_machines; [done|]. intros k. by rewrite lookup_alter_is_Some.
Qed.

Lemma Store_RenameMachine_ok id name :
  keeps pg_tables pg_inv (Store_RenameMachine id name) (RenameMachine_post id name).
Proof.
  intros s [Hok Hs]. unfold Store_RenameMachine. wp_simpl. apply wp_pg_stmt; [done|].
  unfold update_name. wp_simpl. cbn. destruct (machines (pg_tables s) !! id) as [m|] eqn:Hm;
    wp_simpl; [|done].
  apply wp_unique_violation; cbn.
  - intros Hn%broken_nil. rewrite found_false in Hn. unfold pg_update. wp_simpl. cbn.
    split; [split; cbn|].
    + apply ok_alter_machine; [done|done|]. intros m' k m0 ?? Hk Ht Hname. simplify_eq.
      specialize (Hn k m0). rewrite lookup_delete_ne in Hn by done.
      by rewrite (proj2 (has_name_true _ name m0)) in Hn; [apply Hn in H1|].
    + apply supply_with_machines; [done|]. intros k. by rewrite lookup_alter_is_Some.
    + done.
  - intros c [(k & m0 & [? ?]%lookup_delete_Some & [? ?]%has_name_true)%found_true ->]%elem_of_broken.
    split; [done|]. split; [done|]. cbn. split; [done|]. intros _. by exists k, m, m0.
Qed.

Lemma Store_DeleteMachine_ok id :
  keeps pg_tables pg_inv (Store_DeleteMachine id) (DeleteMachine_post id).
Proof.
  intros s [Hok Hs]. unfold Store_DeleteMachine. wp_simpl. apply wp_pg_stmt; [done|].
  unfold delete_machine. wp_simpl. cbn. destruct (machines (pg_tables s) !! id) as [m|] eqn:Hm;
    unfold pg_update; wp_simpl; cbn; [|done].
  split; [split; cbn|done]; [eauto with go|].
  apply supply_with_machines; [done|]. intros k. rewrite lookup_delete_is_Some. tauto.
Qed.

Lemma Store_RecordAPIKey_ok k uid :
  keeps pg_tables pg_inv (Store_RecordAPIKey k uid) (RecordAPIKey_post k uid).
Proof.
  intros s [Hok Hs]. unfold Store_RecordAPIKey. apply wp_pg_stmt; [done|].
  unfold insert_api_key. wp_simpl. apply wp_unique_violation; [intros _|done].
  wp_simpl. apply wp_fk_violation; [intros _|done].
  unfold pg_update. wp_simpl. split; [split|done]; cbn; eauto with go.
Qed.

Lemma Store_IsAPIKeyRevoked_ok k :
  keeps pg_tables pg_inv (Store_IsAPIKeyRevoked k) (IsAPIKeyRevoked_post k).
Proof.
  intros s Hs. unfold Store_IsAPIKeyRevoked. wp_simpl. apply wp_pg_stmt; [done|].
  unfold select_revoked_at. wp_simpl. unfold IsAPIKeyRevoked_post, key_revoked. cbn.
  by destruct (api_keys (pg_tables s) !! k).
Qed.

Lemma Store_RevokeAPIKey_ok k uid :
  keeps pg_tables pg_inv (Store_RevokeAPIKey k uid) (RevokeAPIKey_post k uid).
Proof.
  intros s [Hok Hs]. unfold Store_RevokeAPIKey. wp_simpl. apply wp_pg_stmt; [done|].
  unfold update_revoked_at. wp_simpl. unfold RevokeAPIKey_post. cbn. destruct (api_keys (pg_tables s) !! k) as [x|] eqn:Hx;
    [|split; [done|]; split; [done|]; by intros _ ? [=]].
  destruct (_ && _) eqn:Hb; unfold pg_update; wp_simpl; cbn.
  - apply andb_true_iff in Hb as [?%N.eqb_eq ?%bool_decide_eq_true].
    split; [split; cbn; eauto with go|]. by exists x, (now (pg_env s)).
  - split; [done|]. split; [done|]. cbn. intros _ x' Hx'. simplify_eq.
    apply andb_false_iff in Hb as [?%N.eqb_neq|Hr%bool_decide_eq_false]; [by left|right].
    by destruct (APIKey_RevokedAt x').
Qed.


Lemma wp_with_tx {A} (body : M Pg tx_abort A) (Q : error + option A → Pg → Prop) s :
  wp body (λ r s', match r with
    | inr a => Q (inr (Some a)) s'
    | inl Lost => Q (inr None) (pg_set_tables (pg_tables s) s')
    | inl (Failed e) => Q (inl e) (pg_set_tables (pg_tables s) s')
    end) s →
  wp (with_tx body) Q s.
Proof. unfold wp, with_tx. by destruct (body s) as [[[]|] ?]. Qed.

(** The transaction: it either adds the tenant and the user, or, when the
    user exists or a statement fails, changes no table. *)
Lemma Store_createUserTx_ok provider subject email s :
  pg_inv s →
  wp (Store_createUserTx provider subject email) (λ r s',
    pg_inv s' ∧
    match r with
    | inl e => pg_tables s' = pg_tables s ∧ errors_Is e ErrNotFound = false
    | inr None => pg_tables s' = pg_tables s ∧
        ∃ k u, users (pg_tables s) !! k = Some u ∧ is_user provider subject u = true
    | inr (Some u) => GetOrCreateUser_post provider subject email (pg_tables s) (inr u) (pg_tables s') ∧
        User_Email u = email ∧ users (pg_tables s) !! User_ID u = None
    end) s.
Proof.
  intros [Hok Hs]. unfold Store_createUserTx, pg_begin, pg_commit. wp_simpl.
  apply wp_pg_stmt; [done|]. wp_simpl. apply wp_with_tx. wp_simpl.
  apply wp_pg_stmt; [done|]. unfold insert_tenant, pg_update. wp_cbn.
  rewrite (not_present _ _ (fresh_tenant _ _ Hs)).
  apply wp_unique_violation; [intros _|by intros ? ?%elem_of_nil]. wp_cbn.
  apply wp_pg_stmt; [split; [split; cbn; eauto with go|done]|].
  unfold insert_user. wp_cbn.
  destruct (find_value _ _) as [u0|] eqn:Hf.
  { wp_cbn. apply find_value_Some_lookup with (m := users (pg_tables s)) in Hf as [? [k ?]]; [|done].
    split; [split; cbn; eauto with go|]. eauto. }
  set (e1 := Env_next (pg_env s)).
  assert (fresh_supply (pg_tables s) e1) as Hs1 by (unfold e1; eauto with go).
  rewrite (not_present _ _ (fresh_user _ _ Hs1)). wp_simpl.
  apply wp_unique_violation; [intros _|by intros ? ?%elem_of_nil]. wp_simpl.
  apply wp_fk_violation; cbn; rewrite lookup_insert_eq, bool_decide_true by done; [intros _|done].
  unfold pg_update. wp_cbn. apply wp_pg_stmt; [split; [split; cbn; eauto with go|done]|].
  wp_cbn.
  assert (∀ k u0, users (pg_tables s) !! k = Some u0 → is_user provider subject u0 = false) as Hnew.
  { intros k u0 Hk. by eapply find_value_None_lookup in Hf. }
  split; [split; cbn|split; [split|]; cbn].
  - apply (ok_add_user _ Hok (mkUser (Env_fresh e1) (Env_fresh (pg_env s)) provider subject email _));
      eauto with go.
  - apply (supply_add_user (with_tenants _ (pg_tables s)) e1). unfold e1. eauto with go.
  - by apply is_user_true.
  - right. eexists. repeat split; eauto with go; done.
  - eauto with go.
Qed.


Lemma Store_GetOrCreateUser_ok p sub e :
  keeps pg_tables pg_inv (Store_GetOrCreateUser p sub e) (GetOrCreateUser_post p sub e).
Proof.
  intros s Hs. unfold Store_GetOrCreateUser. wp_simpl.
  wp_use (Store_getUser_ok p sub s Hs). intros [err|u] s1 [-> Hr].
  - destruct (errors_Is err ErrNotFound) eqn:Hnf; wp_simpl; [|done].
    wp_use (Store_createUserTx_ok p sub e _ (pg_inv_pop _ Hs)).
    intros [err'|[u|]] s2 [Hs2 Hr2]; wp_simpl; [by destruct Hr2..|].
    destruct Hr2 as (_ & k & u & Hk & Hu). by rewrite (Hr eq_refl k) in Hu.
  - destruct Hr as [Hu Hin]. destruct Hs as [Hok Hsup].
    unfold GetOrCreateUser_post, refresh_email.
    destruct (String.eqb_spec e EmptyString) as [->|He]; cbn.
    { wp_simpl. split; [done|]. split; [done|]. left. exists u. split; [done|].
      split; [done|]. by rewrite with_users_id. }
    destruct (String.eqb_spec (User_Email u) e) as [<-|Hne]; cbn.
    { wp_simpl. split; [done|]. split; [done|]. left. exists u. split; [done|].
      split; [by destruct u|]. by rewrite with_users_id. }
    wp_simpl. apply wp_pg_stmt; [done|]. unfold update_email, pg_update. wp_cbn.
    rewrite (with_users_alter _ _ _ u Hin). split; [split; cbn|].
    + by apply (ok_update_user _ Hok u (User_set_email e u)).
    + by apply supply_with_users; [|rewrite Hin].
    + split; [by apply is_user_true; apply is_user_true in Hu|]. left. by exists u.
Qed.

(** Discharges the relay's contract on its store. *)
#[export] Instance Store_DataStoreOk : DataStoreOk Pg := {
  ds_view := pg_tables;
  ds_inv := pg_inv;
  ds_inv_ok := λ s H, proj1 H;
  ds_GetOrCreateUser_ok := Store_GetOrCreateUser_ok;
  ds_GetUserByID_ok := Store_GetUserByID_ok;
  ds_CreateMachine_ok := Store_CreateMachine_ok;
  ds_GetMachine_ok := Store_GetMachine_ok;
  ds_GetMachineByFingerprint_ok := Store_GetMachineByFingerprint_ok;
  ds_ListMachines_ok := Store_ListMachines_ok;
  ds_TouchMachine_ok := Store_TouchMachine_ok;
  ds_RenameMachine_ok := Store_RenameMachine_ok;
  ds_DeleteMachine_ok := Store_DeleteMachine_ok;
  ds_RecordAPIKey_ok := Store_RecordAPIKey_ok;
  ds_IsAPIKeyRevoked_ok := Store_IsAPIKeyRevoked_ok;
  ds_RevokeAPIKey_ok := Store_RevokeAPIKey_ok
}.

End statements.
