(* ===== verification/FakeStore.v ===== *)
(** The in-memory store of internal/store/fake.go, and its proof that it
    keeps the contract of [StoreSpec].

    The operations hold [f.mu] throughout, so each is one step.  The rows
    handed out are copies ([c := *u]), so callers share nothing with the
    maps. *)
From Stdlib Require Import ZArith Lia.
From stdpp Require Import base gmap strings list.
From S2P Require Import Prelude GoStrings StoreSpec.

Record Fake := mkFake { fake_tables : Tables; fake_env : Env }.

Section fake.
  Context `{MapRange}.

Definition NewFake (env : Env) : Fake := mkFake empty_tables env.

Definition fake_update (f : Tables → Tables) : M Fake error unit :=
  modify (λ s, mkFake (f (fake_tables s)) (fake_env s)).

(** [uuid.New()] *)
Definition uuid_New : M Fake error UUID :=
  let! id := gets (λ s, Env_fresh (fake_env s)) in
  do! modify (λ s, mkFake (fake_tables s) (Env_next (fake_env s))) in
  ret id.

Definition time_Now : M Fake error Time := gets (λ s, now (fake_env s)).

Definition Fake_GetOrCreateUser (provider subject email : string) : M Fake error User :=
  let! t := gets fake_tables in
  match find_entry (is_user provider subject) (map_range (users t)) with
  | Some (k, u) =>
      let u := if negb (String.eqb email EmptyString) && negb (String.eqb (User_Email u) email)
               then User_set_email email u else u in
      do! fake_update (with_users <[k := u]>) in
      ret u
  | None =>
      let tenantName := if String.eqb email EmptyString
                        then (provider +:+ ":" +:+ subject)%stdpp else email in
      let! tid := uuid_New in
      let! tnow := time_Now in
      do! fake_update (with_tenants <[tid := mkTenant tid tenantName tnow]>) in
      let! uid := uuid_New in
      let! unow := time_Now in
      let u := mkUser uid tid provider subject email unow in
      do! fake_update (with_users <[uid := u]>) in
      ret u
  end.

Definition Fake_GetUserByID (id : UUID) : M Fake error User :=
  let! t := gets fake_tables in
  match users t !! id with
  | Some u => ret u
  | None => throw ErrNotFound
  end.

(** The loop of [CreateMachine]: the first machine in range order that
    conflicts decides the error. *)
Fixpoint first_conflict (tenantID : UUID) (name fingerprint : string) (ms : list (UUID * Machine)) : option error :=
  match ms with
  | [] => None
  | (_, m) :: ms =>
      if String.eqb (Machine_Fingerprint m) fingerprint then Some ErrDuplicateFingerprint
      else if N.eqb (Machine_TenantID m) tenantID && String.eqb (Machine_Name m) name
           then Some ErrDuplicateName
      else first_conflict tenantID name fingerprint ms
  end.

Definition Fake_CreateMachine (tenantID : UUID) (name hostname fingerprint : string) : M Fake error Machine :=
  let! t := gets fake_tables in
  match first_conflict tenantID name fingerprint (map_range (machines t)) with
  | Some err => throw err
  | None =>
      let! id := uuid_New in
      let! created := time_Now in
      let m := mkMachine id tenantID name hostname fingerprint created None in
      do! fake_update (with_machines <[id := m]>) in
      ret m
  end.

Definition Fake_GetMachine (id : UUID) : M Fake error Machine :=
  let! t := gets fake_tables in
  match machines t !! id with
  | Some m => ret m
  | None => throw ErrNotFound
  end.

Definition Fake_GetMachineByFingerprint (fingerprint : string) : M Fake error Machine :=
  let! t := gets fake_tables in
  match find_entry (has_fingerprint fingerprint) (map_range (machines t)) with
  | Some (_, m) => ret m
  | None => throw ErrNotFound
  end.

Definition Fake_ListMachines (tenantID : UUID) : M Fake error (list Machine) :=
  let! t := gets fake_tables in
  ret (List.filter (λ m, N.eqb (Machine_TenantID m) tenantID) (map_range (machines t)).*2).

Definition Fake_TouchMachine (id : UUID) : M Fake error unit :=
  let! t := gets fake_tables in
  match machines t !! id with
  | None => throw ErrNotFound
  | Some m =>
      let! now := time_Now in
      fake_update (with_machines <[id := Machine_touch now m]>)
  end.

Definition Fake_RenameMachine (id : UUID) (name : string) : M Fake error unit :=
  let! t := gets fake_tables in
  match machines t !! id with
  | None => throw ErrNotFound
  | Some m =>
      if existsb (λ kv, negb (N.eqb (Machine_ID kv.2) id) && has_name (Machine_TenantID m) name kv.2)
           (map_range (machines t))
      then throw ErrDuplicateName
      else fake_update (with_machines <[id := Machine_set_name name m]>)
  end.

Definition Fake_DeleteMachine (id : UUID) : M Fake error unit :=
  let! t := gets fake_tables in
  match machines t !! id with
  | None => throw ErrNotFound
  | Some _ => fake_update (with_machines (delete id))
  end.

Definition Fake_RecordAPIKey (keyID : string) (userID : UUID) : M Fake error unit :=
  fake_update (with_api_keys <[keyID := mkAPIKey userID None]>).

Definition Fake_IsAPIKeyRevoked (keyID : string) : M Fake error bool :=
  let! t := gets fake_tables in
  match api_keys t !! keyID with
  | None => ret true
  | Some k => ret (bool_decide (is_Some (APIKey_RevokedAt k)))
  end.

Definition Fake_RevokeAPIKey (keyID : string) (userID : UUID) : M Fake error unit :=
  let! t := gets fake_tables in
  match api_keys t !! keyID with
  | None => throw ErrNotFound
  | Some k =>
      if negb (N.eqb (APIKey_UserID k) userID) || bool_decide (is_Some (APIKey_RevokedAt k))
      then throw ErrNotFound
      else let! now := time_Now in
           fake_update (with_api_keys <[keyID := APIKey_revoke now k]>)
  end.

#[export] Instance Fake_DataStore : DataStore Fake := {
  ds_GetOrCreateUser := Fake_GetOrCreateUser;
  ds_GetUserByID := Fake_GetUserByID;
  ds_CreateMachine := Fake_CreateMachine;
  ds_GetMachine := Fake_GetMachine;
  ds_GetMachineByFingerprint := Fake_GetMachineByFingerprint;
  ds_ListMachines := Fake_ListMachines;
  ds_TouchMachine := Fake_TouchMachine;
  ds_RenameMachine := Fake_RenameMachine;
  ds_DeleteMachine := Fake_DeleteMachine;
  ds_RecordAPIKey := Fake_RecordAPIKey;
  ds_IsAPIKeyRevoked := Fake_IsAPIKeyRevoked;
  ds_RevokeAPIKey := Fake_RevokeAPIKey
}.

(** * The contract *)

Definition fake_inv (s : Fake) : Prop :=
  Tables_ok (fake_tables s) ∧ fresh_supply (fake_tables s) (fake_env s).

Lemma Fake_GetOrCreateUser_ok p sub e :
  keeps fake_tables fake_inv (Fake_GetOrCreateUser p sub e) (GetOrCreateUser_post p sub e).
Proof.
  intros s [Hok Hs]. unfold Fake_GetOrCreateUser. wp_simpl.
  destruct (find_entry _ _) as [[k u]|] eqn:Hf.
  - apply find_entry_Some with (m := users (fake_tables s)) in Hf as [Hu Hk]; [|apply map_range_perm].
    assert (k = User_ID u) as -> by (symmetry; by eapply users_pkey).
    set (u' := if negb (String.eqb e EmptyString) && negb (String.eqb (User_Email u) e)
      then User_set_email e u else u).
    assert (u' = refresh_email e u) as Hu'.
    { unfold u', refresh_email. destruct (String.eqb_spec e EmptyString); [done|].
      destruct (String.eqb_spec (User_Email u) e) as [<-|]; [by destruct u|done]. }
    assert (User_ID u' = User_ID u ∧ User_TenantID u' = User_TenantID u ∧
      User_Provider u' = User_Provider u ∧ User_Subject u' = User_Subject u) as (E1 & E2 & E3 & E4).
    { rewrite Hu'. unfold refresh_email. by case_match. }
    unfold fake_update. wp_cbn. rewrite <-E1 in Hk |- *. apply is_user_true in Hu as [<- <-].
    split; [split; cbn|].
    + by eapply ok_update_user.
    + by apply supply_with_users; [|rewrite Hk].
    + split; [by apply is_user_true|]. left. by exists u.
  - unfold uuid_New, time_Now, fake_update. wp_cbn.
    assert (∀ k u0, users (fake_tables s) !! k = Some u0 → is_user p sub u0 = false) as Hnew.
    { intros k u0 Hk. by eapply find_entry_None in Hf; [|apply map_range_perm|exact Hk]. }
    set (e1 := Env_next (fake_env s)).
    assert (fresh_supply (fake_tables s) e1) as Hs1 by (unfold e1; eauto with go).
    set (u := mkUser (Env_fresh e1) (Env_fresh (fake_env s)) p sub e (now (Env_next e1))).
    split; [split; cbn|split; cbn].
    + by apply (ok_add_user _ Hok u); [exact (fresh_user _ _ Hs1)|exact (fresh_tenant _ _ Hs)|..].
    + apply (supply_add_user (with_tenants _ (fake_tables s)) e1). unfold e1. eauto with go.
    + by apply is_user_true.
    + right. eexists. repeat split; eauto with go; done.
Qed.


Lemma Fake_GetUserByID_ok id :
  keeps fake_tables fake_inv (Fake_GetUserByID id) (GetUserByID_post id).
Proof. intros s Hs. unfold Fake_GetUserByID, GetUserByID_post. wp_simpl. by case_match. Qed.

Lemma Fake_GetMachine_ok id :
  keeps fake_tables fake_inv (Fake_GetMachine id) (GetMachine_post id).
Proof. intros s Hs. unfold Fake_GetMachine, GetMachine_post. wp_simpl. by case_match. Qed.

Lemma Fake_GetMachineByFingerprint_ok fp :
  keeps fake_tables fake_inv (Fake_GetMachineByFingerprint fp) (GetMachineByFingerprint_post fp).
Proof.
  intros s [Hok Hs]. unfold Fake_GetMachineByFingerprint. wp_simpl.
  destruct (find_entry _ _) as [[k m]|] eqn:Hf; wp_simpl; split; try done; split; try done.
  - eapply find_entry_Some in Hf as [?%has_fingerprint_true Hk]; [|apply map_range_perm].
    by rewrite (machines_pkey _ Hok _ _ Hk).
  - intros _ k m Hk Hfp%has_fingerprint_true.
    eapply find_entry_None in Hf; [|apply map_range_perm|exact Hk]. congruence.
Qed.

(** [first_conflict] reports a machine that is there, whatever the order. *)
Lemma first_conflict_Some tid name fp l e :
  first_conflict tid name fp l = Some e →
  ∃ k m, (k, m) ∈ l ∧
    (e = ErrDuplicateFingerprint ∧ Machine_Fingerprint m = fp ∨
     e = ErrDuplicateName ∧ Machine_TenantID m = tid ∧ Machine_Name m = name).
Proof.
  induction l as [|[k m] l IH]; simpl; [done|].
  destruct (String.eqb_spec (Machine_Fingerprint m) fp).
  { intros [= <-]. exists k, m. split; [left|auto]. }
  destruct (has_name tid name m) eqn:Hn; unfold has_name in Hn; rewrite Hn.
  { intros [= <-]. apply has_name_true in Hn. exists k, m. split; [left|auto]. }
  intros (k' & m' & ? & ?)%IH. exists k', m'. split; [by right|done].
Qed.

Lemma first_conflict_None tid name fp l k m :
  first_conflict tid name fp l = None → (k, m) ∈ l →
  Machine_Fingerprint m ≠ fp ∧ (Machine_TenantID m = tid → Machine_Name m ≠ name).
Proof.
  induction l as [|[k' m'] l IH]; simpl; [by intros _ ?%elem_of_nil|].
  destruct (String.eqb_spec (Machine_Fingerprint m') fp); [done|].
  destruct (has_name tid name m') eqn:Hn; unfold has_name in Hn; rewrite Hn; [done|].
  intros Hf [[= -> ->]|?]%elem_of_cons; [|auto]. split; [done|]. intros Ht Hname.
  assert (has_name tid name m' = true) by (by apply has_name_true). unfold has_name in *. congruence.
Qed.

Lemma Fake_CreateMachine_ok tid name host fp :
  keeps_if fake_tables fake_inv (λ t, is_Some (tenants t !! tid))
    (Fake_CreateMachine tid name host fp) (CreateMachine_post tid name host fp).
Proof.
  intros s [Hok Hs] Htid. unfold Fake_CreateMachine. wp_simpl.
  destruct (first_conflict _ _ _ _) as [err|] eqn:Hf; wp_simpl.
  - split; [done|]. split; [done|].
    apply first_conflict_Some in Hf as (k & m & Hm & Herr).
    rewrite map_range_perm, elem_of_map_to_list in Hm.
    split; intros He; exists k, m; naive_solver.
  - unfold uuid_New, time_Now, fake_update. wp_cbn.
    assert (∀ k m0, machines (fake_tables s) !! k = Some m0 → Machine_Fingerprint m0 ≠ fp ∧
      (Machine_TenantID m0 = tid → Machine_Name m0 ≠ name)) as Hnew.
    { intros k m0 Hk. eapply first_conflict_None; [done|].
      by rewrite map_range_perm, elem_of_map_to_list. }
    split; [split; cbn|].
    + apply (ok_add_machine _ Hok (mkMachine (Env_fresh (fake_env s)) _ _ _ _ _ _)); eauto with go.
    + eauto with go.
    + repeat split; eauto with go; by eapply Hnew.
Qed.

Lemma Fake_ListMachines_ok tid :
  keeps fake_tables fake_inv (Fake_ListMachines tid) (ListMachines_post tid).
Proof.
  intros s Hs. unfold Fake_ListMachines. wp_simpl. split; [done|]. split; [done|].
  apply tenant_rows; [apply Hs|apply map_range_perm].
Qed.

Lemma Fake_TouchMachine_ok id :
  keeps fake_tables fake_inv (Fake_TouchMachine id) (TouchMachine_post id).
Proof.
  intros s [Hok Hs]. unfold Fake_TouchMachine, time_Now, fake_update. wp_simpl.
  destruct (machines (fake_tables s) !! id) as [m|] eqn:Hm; wp_cbn; [|done].
  rewrite <-(with_machines_alter (Machine_touch (now (fake_env s)))) by done.
  split; [split; cbn|by eexists].
  - by apply ok_touch_machine.
  - apply supply_with_machines; [done|]. intros k. by rewrite lookup_alter_is_Some.
Qed.

Lemma Fake_RenameMachine_ok id name :
  keeps fake_tables fake_inv (Fake_RenameMachine id name) (RenameMachine_post id name).
Proof.
  intros s [Hok Hs]. unfold Fake_RenameMachine, fake_update. wp_simpl.
  destruct (machines (fake_tables s) !! id) as [m|] eqn:Hm; wp_cbn; [|done].
  destruct (existsb _ _) eqn:Hex; wp_cbn.
  - split; [done|]. split; [done|]. split; [done|]. intros _.
    apply List.existsb_exists in Hex as ([k m0] & Hin & [Hne%negb_true_iff%N.eqb_neq [??]%has_name_true]%andb_true_iff).
    rewrite <-list_elem_of_In, map_range_perm, elem_of_map_to_list in Hin. simpl in *.
    exists k, m, m0. rewrite (machines_pkey _ Hok _ _ Hin) in Hne. done.
  - rewrite <-(with_machines_alter (Machine_set_name name)) by done.
    split; [split; cbn|by rewrite Hm].
    + apply ok_alter_machine; [done|done|]. intros m' k m0 ? Hk Hne Ht Hname. simplify_eq.
      apply not_true_iff_false in Hex. apply Hex, List.existsb_exists. exists (k, m0). split.
      * by rewrite <-list_elem_of_In, map_range_perm, elem_of_map_to_list.
      * apply andb_true_iff. rewrite negb_true_iff, N.eqb_neq, has_name_true. simpl.
        by rewrite (machines_pkey _ Hok _ _ Hk).
    + apply supply_with_machines; [done|]. intros k. by rewrite lookup_alter_is_Some.
Qed.

Lemma Fake_DeleteMachine_ok id :
  keeps fake_tables fake_inv (Fake_DeleteMachine id) (DeleteMachine_post id).
Proof.
  intros s [Hok Hs]. unfold Fake_DeleteMachine, fake_update. wp_simpl.
  destruct (machines (fake_tables s) !! id) as [m|] eqn:Hm; wp_cbn; [|done].
  split; [split; cbn|by rewrite Hm]; [eauto with go|].
  apply supply_with_machines; [done|]. intros k. rewrite lookup_delete_is_Some. tauto.
Qed.

Lemma Fake_RecordAPIKey_ok k uid :
  keeps fake_tables fake_inv (Fake_RecordAPIKey k uid) (RecordAPIKey_post k uid).
Proof.
  intros s [Hok Hs]. unfold Fake_RecordAPIKey, fake_update. wp_cbn.
  split; [split|done]; cbn; eauto with go.
Qed.

Lemma Fake_IsAPIKeyRevoked_ok k :
  keeps fake_tables fake_inv (Fake_IsAPIKeyRevoked k) (IsAPIKeyRevoked_post k).
Proof.
  intros s Hs. unfold Fake_IsAPIKeyRevoked, IsAPIKeyRevoked_post, key_revoked. wp_simpl.
  by destruct (api_keys (fake_tables s) !! k).
Qed.

Lemma Fake_RevokeAPIKey_ok k uid :
  keeps fake_tables fake_inv (Fake_RevokeAPIKey k uid) (RevokeAPIKey_post k uid).
Proof.
  intros s [Hok Hs]. unfold Fake_RevokeAPIKey, RevokeAPIKey_post, fake_update, time_Now. wp_simpl.
  destruct (api_keys (fake_tables s) !! k) as [x|] eqn:Hx; [|split; [done|]; split; [done|]; by intros _ ? [=]].
  destruct (_ || _) eqn:Hb; wp_cbn.
  - split; [done|]. split; [done|]. intros _ x' Hx'. simplify_eq.
    apply orb_true_iff in Hb as [?%negb_true_iff%N.eqb_neq|?%bool_decide_eq_true]; auto.
  - apply orb_false_iff in Hb as [?%negb_false_iff%N.eqb_eq ?%bool_decide_eq_false%eq_None_not_Some].
    split; [split; cbn; eauto with go|]. by exists x, (now (fake_env s)).
Qed.

#[export] Instance Fake_DataStoreOk : DataStoreOk Fake := {
  ds_view := fake_tables;
  ds_inv := fake_inv;
  ds_inv_ok := λ s H, proj1 H;
  ds_GetOrCreateUser_ok := Fake_GetOrCreateUser_ok;
  ds_GetUserByID_ok := Fake_GetUserByID_ok;
  ds_CreateMachine_ok := Fake_CreateMachine_ok;
  ds_GetMachine_ok := Fake_GetMachine_ok;
  ds_GetMachineByFingerprint_ok := Fake_GetMachineByFingerprint_ok;
  ds_ListMachines_ok := Fake_ListMachines_ok;
  ds_TouchMachine_ok := Fake_TouchMachine_ok;
  ds_RenameMachine_ok := Fake_RenameMachine_ok;
  ds_DeleteMachine_ok := Fake_DeleteMachine_ok;
  ds_RecordAPIKey_ok := Fake_RecordAPIKey_ok;
  ds_IsAPIKeyRevoked_ok := Fake_IsAPIKeyRevoked_ok;
  ds_RevokeAPIKey_ok := Fake_RevokeAPIKey_ok
}.

End fake.
