(* ===== verification/StoreFresh.v ===== *)
(** Identifiers are never used twice: what the stores promise about the IDs
    of machines beyond the contract of [StoreSpec], over any sequence of
    operations. *)
From Stdlib Require Import ZArith Lia.
From stdpp Require Import base gmap strings list.
From S2P Require Import Prelude GoStrings StoreSpec PgStore FakeStore.

(** An identifier is spent once it can no longer be drawn.  The IDs of stored
    machines are spent, spent IDs stay spent, and a new machine's was not. *)
Class DataStoreFresh (S : Type) `{DataStoreOk S} := {
  ds_spent : S → UUID → Prop;
  ds_spent_machine : ∀ s id, ds_inv s → is_Some (machines (ds_view s) !! id) → ds_spent s id;
  ds_spent_op : ∀ o s id, ds_spent s id → ds_spent (run_op o s).2 id;
  ds_fresh_machine : ∀ tid n h fp s m,
    (ds_CreateMachine tid n h fp s).1 = inr m → ¬ ds_spent s (Machine_ID m)
}.

(** * Over a stream of identifiers *)

(** The environment only moves on. *)
Definition advances (e e' : Env) : Prop := uuid_src e' = uuid_src e ∧ uuid_pos e ≤ uuid_pos e'.

#[export] Instance advances_preorder : PreOrder advances.
Proof. split; [by split|]. intros e1 e2 e3 [E1 ?] [E2 ?]. split; [congruence|lia]. Qed.

Lemma advances_next e : advances e (Env_next e).
Proof. unfold Env_next. split; cbn; [done|lia]. Qed.

Definition spent_in (e : Env) (id : UUID) : Prop := ∀ n, uuid_pos e ≤ n → uuid_src e n ≠ id.

Lemma spent_in_advances e e' id : advances e e' → spent_in e id → spent_in e' id.
Proof. intros [E Hle] Hs n Hn. rewrite E. apply Hs. lia. Qed.

Lemma fresh_not_spent e : ¬ spent_in e (Env_fresh e).
Proof. intros Hs. by apply (Hs (uuid_pos e)). Qed.

Lemma stored_spent t e id : fresh_supply t e → is_Some (machines t !! id) → spent_in e id.
Proof. intros Hf Hid n Hn <-. rewrite (supply_machines _ _ Hf n Hn) in Hid. by destruct Hid. Qed.

(** * The in-memory store *)

Definition fake_advances (s s' : Fake) : Prop := advances (fake_env s) (fake_env s').

#[export] Instance fake_advances_preorder : PreOrder fake_advances.
Proof. split; [intros s; unfold fake_advances; reflexivity|]. intros s1 s2 s3 H1 H2. unfold fake_advances. by etransitivity. Qed.

Section fake.
  Context `{MapRange}.

Lemma fake_update_advances f : follows fake_advances (fake_update f).
Proof. apply follows_modify. intros s. unfold fake_advances. reflexivity. Qed.

Lemma uuid_New_advances : follows fake_advances uuid_New.
Proof. intros s. apply advances_next. Qed.

Hint Resolve fake_update_advances uuid_New_advances : follows.

Lemma fake_op_advances o : follows fake_advances (run_op (S := Fake) o).
Proof.
  destruct o; cbn; unfold reply, Fake_GetOrCreateUser, Fake_GetUserByID, Fake_CreateMachine, Fake_GetMachine,
    Fake_GetMachineByFingerprint, Fake_ListMachines, Fake_TouchMachine, Fake_RenameMachine, Fake_DeleteMachine,
    Fake_RecordAPIKey, Fake_IsAPIKeyRevoked, Fake_RevokeAPIKey, time_Now; solve_follows.
Qed.

Lemma Fake_CreateMachine_id tid n h fp s m :
  (Fake_CreateMachine tid n h fp s).1 = inr m → Machine_ID m = Env_fresh (fake_env s).
Proof.
  unfold Fake_CreateMachine, bind, gets. destruct (first_conflict _ _ _ _); [done|]. cbn. by intros [= <-].
Qed.

#[export] Program Instance Fake_DataStoreFresh : DataStoreFresh Fake := {|
  ds_spent s id := spent_in (fake_env s) id
|}.
Next Obligation. intros s id [_ Hf]. by apply stored_spent. Qed.
Next Obligation. intros o s id. apply spent_in_advances, fake_op_advances. Qed.
Next Obligation. intros * Hm%Fake_CreateMachine_id. rewrite Hm. apply fresh_not_spent. Qed.

End fake.

(** * The Postgres store *)

Definition pg_advances (s s' : Pg) : Prop := advances (pg_env s) (pg_env s').

#[export] Instance pg_advances_preorder : PreOrder pg_advances.
Proof. split; [intros s; unfold pg_advances; reflexivity|]. intros s1 s2 s3 H1 H2. unfold pg_advances. by etransitivity. Qed.

Section pg.
  Context `{PgReport}.

Lemma pg_update_advances f : follows pg_advances (pg_update f).
Proof. apply follows_modify. intros s. unfold pg_advances. reflexivity. Qed.

Lemma gen_random_uuid_advances : follows pg_advances gen_random_uuid.
Proof. intros s. apply advances_next. Qed.

Lemma pg_stmt_advances {A} (run : M Pg error A) : follows pg_advances run → follows pg_advances (pg_stmt run).
Proof.
  intros Hr [t e [|[] fs]]; [exact (Hr (mkPg t e []))|unfold pg_advances; reflexivity|exact (Hr (mkPg t e fs))].
Qed.

Lemma with_tx_advances {A} (body : M Pg tx_abort A) : follows pg_advances body → follows pg_advances (with_tx body).
Proof. intros Hb s. specialize (Hb s). unfold with_tx. by destruct (body s) as [[[]|] ?]. Qed.

Lemma violations_advance vs ok c : follows pg_advances (unique_violation vs) ∧ follows pg_advances (fk_violation ok c).
Proof. unfold unique_violation, fk_violation. split; solve_follows. Qed.

Lemma unique_violation_advances vs : follows pg_advances (unique_violation vs).
Proof. apply (violations_advance vs true EmptyString). Qed.

Lemma fk_violation_advances ok c : follows pg_advances (fk_violation ok c).
Proof. apply (violations_advance [] ok c). Qed.

Hint Resolve pg_update_advances gen_random_uuid_advances unique_violation_advances fk_violation_advances : follows.

(** Statement by statement. *)
Ltac solve_pg :=
  repeat first
    [ apply pg_stmt_advances | apply with_tx_advances
    | apply follows_bind; [typeclasses eauto|..] | apply follows_or_return | apply follows_attempt
    | progress intros | solve [eauto 2 with follows typeclass_instances] | case_match ].

Lemma getUser_advances p sub : follows pg_advances (Store_getUser p sub).
Proof. unfold Store_getUser, select_user. solve_pg. Qed.

Lemma createUserTx_advances p sub e : follows pg_advances (Store_createUserTx p sub e).
Proof. unfold Store_createUserTx, pg_begin, pg_commit, insert_tenant, insert_user. solve_pg. Qed.

Hint Resolve getUser_advances createUserTx_advances : follows.

Lemma pg_op_advances o : follows pg_advances (run_op (S := Pg) o).
Proof.
  destruct o; cbn; unfold reply, Store_GetOrCreateUser, Store_GetUserByID, Store_CreateMachine, Store_GetMachine,
    Store_GetMachineByFingerprint, scanMachine, Store_ListMachines, Store_TouchMachine, Store_RenameMachine,
    Store_DeleteMachine, Store_RecordAPIKey, Store_IsAPIKeyRevoked, Store_RevokeAPIKey, select_user, select_machine,
    select_machines, insert_machine, update_email, update_last_seen, update_name, delete_machine, insert_api_key,
    select_revoked_at, update_revoked_at; solve_pg.
Qed.

Lemma Store_CreateMachine_id tid n h fp s :
  wp (Store_CreateMachine tid n h fp)
    (λ r _, match r with inl _ => True | inr m => Machine_ID m = Env_fresh (pg_env s) end) s.
Proof.
  unfold Store_CreateMachine. wp_simpl. apply wp_pg_stmt; [done|].
  unfold insert_machine. wp_simpl. apply wp_gen_random_uuid. cbn. wp_simpl. cbn.
  apply wp_unique_violation; [intros _|done]. wp_simpl. apply wp_fk_violation; [intros _|done].
  unfold pg_update. by wp_simpl.
Qed.

#[export] Program Instance Store_DataStoreFresh : DataStoreFresh Pg := {|
  ds_spent s id := spent_in (pg_env s) id
|}.
Next Obligation. intros s id [_ Hf]. by apply stored_spent. Qed.
Next Obligation. intros o s id. apply spent_in_advances, pg_op_advances. Qed.
Next Obligation.
  intros tid n h fp s m Hm. pose proof (Store_CreateMachine_id tid n h fp s) as Hid. unfold wp in Hid.
  change (ds_CreateMachine tid n h fp s).1 with (Store_CreateMachine tid n h fp s).1 in Hm.
  rewrite Hm in Hid. rewrite Hid. apply fresh_not_spent.
Qed.

End pg.
