(* ===== verification/UserRace.v ===== *)
(** Concurrent first logins (internal/store/store.go, [GetOrCreateUser]).

    [GetOrCreateUser] is a read, and, when the user is missing, a
    transaction: between the two other relay requests run their own logins.
    Each login is cut at the points where the code leaves the database, and
    any number of them interleave as a step relation.  The transaction itself
    is one step, as its INSERT ... ON CONFLICT decides the race. *)
From Stdlib Require Import ZArith Lia.
From stdpp Require Import base gmap strings list relations.
From S2P Require Import Prelude GoStrings StoreSpec PgStore.

(** Where a login is. *)
Inductive login_pc :=
  | LStart                        (** about to read the user *)
  | LUpdate (u : User)            (** found, its stored email is stale *)
  | LCreate                       (** not found *)
  | LReread                       (** lost the race *)
  | LDone (r : error + User).

Record login := mkLogin {
  lg_provider : string;
  lg_subject : string;
  lg_email : string;
  lg_pc : login_pc
}.

Definition lg_goto (pc : login_pc) (l : login) : login :=
  mkLogin (lg_provider l) (lg_subject l) (lg_email l) pc.

Section race.
  Context `{PgReport}.

(** The next segment of [GetOrCreateUser]. *)
Definition login_step (l : login) : M Pg error login_pc :=
  let email := lg_email l in
  match lg_pc l with
  | LStart =>
      let! r := attempt (Store_getUser (lg_provider l) (lg_subject l)) in
      match r with
      | inr u =>
          if negb (String.eqb email EmptyString) && negb (String.eqb (User_Email u) email)
          then ret (LUpdate u) else ret (LDone (inr u))
      | inl err => if errors_Is err ErrNotFound then ret LCreate else ret (LDone (inl err))
      end
  | LUpdate u =>
      let! r := attempt (pg_stmt (update_email email (User_ID u))) in
      match r with
      | inl err => ret (LDone (inl (WrapError "updating email" err)))
      | inr _ => ret (LDone (inr (User_set_email email u)))
      end
  | LCreate =>
      let! r := attempt (Store_createUserTx (lg_provider l) (lg_subject l) email) in
      match r with
      | inl err => ret (LDone (inl err))
      | inr (Some u) => ret (LDone (inr u))
      | inr None => ret LReread
      end
  | LReread =>
      let! r := attempt (Store_getUser (lg_provider l) (lg_subject l)) in
      ret (LDone r)
  | LDone r => ret (LDone r)
  end.

(** The segments, run one after the other. *)
Fixpoint login_run (fuel : nat) (l : login) : M Pg error User :=
  match fuel, lg_pc l with
  | _, LDone (inr u) => ret u
  | _, LDone (inl e) => throw e
  | 0, _ => throw (ErrorString "out of fuel")
  | S fuel, _ => let! pc := login_step l in login_run fuel (lg_goto pc l)
  end.

(** Any login takes its next segment; or another client runs statements on
    machines and keys, which leave users and tenants alone. *)
Inductive race_step : Pg * list login → Pg * list login → Prop :=
  | race_login db db' ls i l pc :
      ls !! i = Some l → login_step l db = (inr pc, db') →
      race_step (db, ls) (db', <[i := lg_goto pc l]> ls)
  | race_other db db' ls :
      pg_inv db' → users (pg_tables db') = users (pg_tables db) →
      tenants (pg_tables db') = tenants (pg_tables db) →
      race_step (db, ls) (db', ls).

(** * The segments are the code *)

(** Without interleaving, three segments are [GetOrCreateUser]. *)
Lemma login_run_seq p sub e s :
  login_run 3 (mkLogin p sub e LStart) s = Store_GetOrCreateUser p sub e s.
Proof.
  unfold Store_GetOrCreateUser. cbn [login_run lg_pc]. unfold bind at 1. unfold login_step at 1.
  cbn [lg_pc lg_email lg_provider lg_subject]. unfold bind, attempt.
  destruct (Store_getUser p sub s) as [[err|u] s1]; cbn -[Store_createUserTx Store_getUser pg_stmt].
  - destruct (errors_Is err ErrNotFound); cbn -[Store_createUserTx Store_getUser pg_stmt]; [|done].
    unfold bind, attempt.
    destruct (Store_createUserTx p sub e s1) as [[err'|[u|]] s2]; cbn -[Store_getUser]; [done..|].
    unfold bind, attempt. by destruct (Store_getUser p sub s2) as [[] ?].
  - destruct (_ && _); cbn -[pg_stmt]; [|done]. unfold bind, attempt, or_return.
    by destruct (pg_stmt (update_email e (User_ID u)) s1) as [[] ?].
Qed.


(** * What holds whatever the interleaving *)

(** A row keeps its identity and its tenant. *)
Definition same_account (u u' : User) : Prop :=
  User_ID u' = User_ID u ∧ User_Provider u' = User_Provider u ∧
  User_Subject u' = User_Subject u ∧ User_TenantID u' = User_TenantID u.

Definition users_grow (t t' : Tables) : Prop :=
  ∀ k u, users t !! k = Some u → ∃ u', users t' !! k = Some u' ∧ same_account u u'.

#[local] Instance same_account_refl : Reflexive same_account.
Proof. done. Qed.

#[local] Instance same_account_trans : Transitive same_account.
Proof. unfold same_account. intros u1 u2 u3 H1 H2. intuition congruence. Qed.

#[local] Instance users_grow_refl : Reflexive users_grow.
Proof. intros t k u ?. by exists u. Qed.

Lemma users_grow_insert t u0 u :
  users t !! User_ID u = Some u0 → same_account u0 u → users_grow t (with_users <[User_ID u := u]> t).
Proof.
  intros Hu0 Hs k v Hk. simpl. destruct (decide (User_ID u = k)) as [<-|].
  - simplify_eq. exists u. by rewrite lookup_insert_eq.
  - exists v. by rewrite lookup_insert_ne.
Qed.

(** The account [u] stands for is stored. *)
Definition stored (t : Tables) (u : User) : Prop :=
  ∃ u', users t !! User_ID u = Some u' ∧ same_account u u'.

Lemma stored_grow t t' u : users_grow t t' → stored t u → stored t' u.
Proof.
  intros Hg (u' & Hu & Hsame). destruct (Hg _ _ Hu) as (u'' & ? & ?).
  exists u''. split; [done|]. by transitivity u'.
Qed.

(** Every tenant was there at the start or belongs to a user. *)
Definition no_orphans (t0 t : Tables) : Prop :=
  ∀ tid, is_Some (tenants t !! tid) →
    is_Some (tenants t0 !! tid) ∨ ∃ k u, users t !! k = Some u ∧ User_TenantID u = tid.

Lemma no_orphans_grow t0 t t' :
  users_grow t t' → tenants t' = tenants t → no_orphans t0 t → no_orphans t0 t'.
Proof.
  intros Hg Ht Ho tid. rewrite Ht. intros [|(k & u & Hu & <-)]%Ho; [by left|right].
  destruct (Hg _ _ Hu) as (u' & ? & (_&_&_&?)). eauto.
Qed.

Definition login_inv (t : Tables) (l : login) : Prop :=
  match lg_pc l with
  | LStart | LCreate => True
  | LUpdate u | LDone (inr u) => is_user (lg_provider l) (lg_subject l) u = true ∧ stored t u
  | LReread => ∃ k u, users t !! k = Some u ∧ is_user (lg_provider l) (lg_subject l) u = true
  | LDone (inl e) => errors_Is e ErrNotFound = false
  end.

Lemma login_inv_grow t t' l : users_grow t t' → login_inv t l → login_inv t' l.
Proof.
  intros Hg. unfold login_inv. destruct (lg_pc l) as [|u| | |[e|u]]; try done.
  - intros [? ?]. eauto using stored_grow.
  - intros (k & u & Hk & Hu). destruct (Hg _ _ Hk) as (u' & ? & (_&E1&E2&_)).
    exists k, u'. split; [done|]. apply is_user_true. apply is_user_true in Hu. by rewrite E1, E2.
  - intros [? ?]. eauto using stored_grow.
Qed.

Definition race_inv (t0 : Tables) (c : Pg * list login) : Prop :=
  pg_inv c.1 ∧ no_orphans t0 (pg_tables c.1) ∧ Forall (login_inv (pg_tables c.1)) c.2.

(** One segment. *)
Definition segment_ok (t0 : Tables) (l : login) (db : Pg) (r : error + login_pc) (db' : Pg) : Prop :=
  pg_inv db' ∧ users_grow (pg_tables db) (pg_tables db') ∧ no_orphans t0 (pg_tables db') ∧
  match r with inr pc => login_inv (pg_tables db') (lg_goto pc l) | inl _ => False end.

(** A segment that leaves the tables as they are. *)
Lemma segment_read t0 l db db' pc :
  pg_inv db' → pg_tables db' = pg_tables db → no_orphans t0 (pg_tables db) →
  login_inv (pg_tables db) (lg_goto pc l) → segment_ok t0 l db (inr pc) db'.
Proof. intros ? E ??. split; [done|]. by rewrite E. Qed.

Lemma segment_start t0 l db :
  lg_pc l = LStart → pg_inv db → no_orphans t0 (pg_tables db) →
  wp (login_step l) (segment_ok t0 l db) db.
Proof.
  intros Hpc Hdb Ho. unfold login_step. rewrite Hpc. wp_simpl.
  wp_use (Store_getUser_ok (lg_provider l) (lg_subject l) db Hdb). intros [e|u] s' [-> Hr].
  - destruct (errors_Is e ErrNotFound) eqn:He; wp_simpl; by apply segment_read.
  - destruct Hr as [Hu Hk].
    assert (stored (pg_tables db) u) by (by exists u).
    destruct (_ && _); wp_simpl; by apply segment_read.
Qed.

Lemma segment_update t0 l u db :
  lg_pc l = LUpdate u → pg_inv db → no_orphans t0 (pg_tables db) →
  login_inv (pg_tables db) l → wp (login_step l) (segment_ok t0 l db) db.
Proof.
  intros Hpc [Hok Hs] Ho Hl. unfold login_step. rewrite Hpc. wp_simpl.
  pose proof (segment_read t0 l db) as Hread.
  apply wp_pg_stmt; [wp_simpl; by apply Hread|]. clear Hread.
  unfold update_email, pg_update. wp_cbn. unfold login_inv in Hl. rewrite Hpc in Hl.
  destruct Hl as [Hu (u' & Hu' & Hsame)]. pose proof Hsame as (E1 & E2 & E3 & E4).
  set (u1 := User_set_email (lg_email l) u').
  assert (User_ID u1 = User_ID u) as Hid by (simpl; congruence).
  assert (users_grow (pg_tables db) (with_users <[User_ID u1 := u1]> (pg_tables db))) as Hg.
  { by eapply users_grow_insert; [rewrite Hid|]. }
  rewrite (with_users_alter _ _ _ u' Hu'). fold u1. rewrite <-Hid.
  split; [split; cbn|split; [done|split]].
  - apply (ok_update_user _ Hok u' u1); [by rewrite Hid|done..].
  - apply supply_with_users; [done|]. by rewrite E1, Hu'.
  - by eapply no_orphans_grow.
  - split; [by apply is_user_true; apply is_user_true in Hu|].
    exists u1. simpl. rewrite E1, lookup_insert_eq. split; [done|]. by repeat split.
Qed.

Lemma segment_create t0 l db :
  lg_pc l = LCreate → pg_inv db → no_orphans t0 (pg_tables db) →
  wp (login_step l) (segment_ok t0 l db) db.
Proof.
  intros Hpc Hdb Ho. unfold login_step. rewrite Hpc. wp_simpl.
  wp_use (Store_createUserTx_ok (lg_provider l) (lg_subject l) (lg_email l) db Hdb).
  intros [e|[u|]] db' [Hdb' Hr]; wp_simpl.
  - destruct Hr as [??]. by apply segment_read.
  - destruct Hr as ([Hu Hr] & He & Hnew). destruct Hr as [(u0 & Hk & _)|(tn & _ & Hn & Ht & _ & Hid & _ & Htab)].
    { by rewrite Hnew in Hk. }
    assert (users (with_users <[User_ID u:=u]> (with_tenants <[User_TenantID u:=tn]> (pg_tables db))) !! User_ID u = Some u)
      as Hin by apply lookup_insert_eq.
    split; [done|]. rewrite Htab. split; [|split; [|split; [done|by exists u]]].
    + intros k v Hk. exists v. split; [|done]. simpl. rewrite lookup_insert_ne; [done|]. congruence.
    + intros tid. cbn. intros [<-|[? [Hs|(k & v & Hk & ?)]%Ho]]%lookup_insert_is_Some; [by right; eauto|by left|].
      right. exists k, v. split; [|done]. simpl. rewrite lookup_insert_ne; [done|]. congruence.
  - destruct Hr as [? (k & u & ? & ?)]. apply segment_read; try done. by exists k, u.
Qed.

Lemma segment_reread t0 l db :
  lg_pc l = LReread → pg_inv db → no_orphans t0 (pg_tables db) →
  login_inv (pg_tables db) l → wp (login_step l) (segment_ok t0 l db) db.
Proof.
  intros Hpc Hdb Ho Hl. unfold login_step. rewrite Hpc. wp_simpl.
  wp_use (Store_getUser_ok (lg_provider l) (lg_subject l) db Hdb).
  unfold login_inv in Hl. rewrite Hpc in Hl. destruct Hl as (k & u & Hk & Hu).
  intros [e|u'] s' [-> Hr]; apply segment_read; try done; cbn.
  - destruct (errors_Is e ErrNotFound) eqn:He; [|done].
    rewrite (Hr eq_refl _ _ Hk) in Hu. done.
  - destruct Hr as [? ?]. split; [done|]. by exists u'.
Qed.

Lemma segment_step t0 l db :
  pg_inv db → no_orphans t0 (pg_tables db) → login_inv (pg_tables db) l →
  wp (login_step l) (segment_ok t0 l db) db.
Proof.
  intros Hdb Ho Hl. destruct (lg_pc l) eqn:Hpc;
    eauto using segment_start, segment_update, segment_create, segment_reread.
  unfold login_step. rewrite Hpc. wp_simpl. apply segment_read; try done.
  unfold login_inv in *. by rewrite Hpc in Hl.
Qed.

Lemma race_inv_step t0 c c' : race_inv t0 c → race_step c c' → race_inv t0 c'.
Proof.
  intros (Hdb & Ho & Hls) Hstep. destruct Hstep as [db db' ls i l pc Hi Hrun|db db' ls Hdb' Hu Ht]; cbn in *.
  - pose proof (proj1 (Forall_lookup _ _) Hls _ _ Hi) as Hl.
    destruct (wp_run _ _ _ _ _ (segment_step t0 l db Hdb Ho Hl) Hrun) as (? & Hg & ? & ?).
    split; [done|]. split; [done|]. cbn. apply Forall_insert; [|done].
    eapply Forall_impl; [done|]. intros. by eapply login_inv_grow.
  - assert (users_grow (pg_tables db) (pg_tables db')) as Hg.
    { intros k u Hk. exists u. by rewrite Hu. }
    split; [done|]. split; [by eapply no_orphans_grow|].
    eapply Forall_impl; [done|]. intros. by eapply login_inv_grow.
Qed.

Lemma race_inv_steps t0 c c' : race_inv t0 c → rtc race_step c c' → race_inv t0 c'.
Proof. intros Hc Hs. induction Hs; eauto using race_inv_step. Qed.

End race.
