(* ===== verification/StoreProps.v ===== *)
(** What the two stores guarantee: every run of the Postgres store and of the
    in-memory store is a run of the contract of [StoreSpec], and concurrent
    first logins share one account. *)
From Stdlib Require Import ZArith Lia.
From stdpp Require Import base gmap strings list relations.
From S2P Require Import Prelude GoStrings StoreSpec PgStore FakeStore UserRace.

(** * Concrete instances

    Used by the examples of this and of the later files. *)

Definition report_first : PgReport := {|
  pg_report c _ := c;
  pg_report_in c cs := list_elem_of_here c cs
|}.

(** UUIDs count from 1. *)
Definition env0 : Env := mkEnv 0 (λ n, N.of_nat (S n)) 0.

Definition pg0 (faults : list bool) : Pg := mkPg empty_tables env0 faults.

Lemma fresh_supply0 : fresh_supply empty_tables env0.
Proof. split; simpl; intros; rewrite ?lookup_empty; try done. lia. Qed.

Lemma pg_inv0 faults : pg_inv (pg0 faults).
Proof. split; [apply empty_tables_ok|apply fresh_supply0]. Qed.

Lemma fake_inv0 : fake_inv (NewFake env0).
Proof. split; [apply empty_tables_ok|apply fresh_supply0]. Qed.

(** A client's session: a login, an enrollment, a second one under a taken
    name, a second login, and a key recorded, revoked and queried.  The first
    login creates tenant 1 and user 2. *)
Definition ops0 : list store_op :=
  [ OpGetOrCreateUser "google" "s1" "a@x";
    OpCreateMachine 1 "laptop" "host" "SHA256:aa";
    OpCreateMachine 1 "laptop" "host2" "SHA256:bb";
    OpGetOrCreateUser "google" "s1" "b@x";
    OpRenameMachine 3 "desk";
    OpTouchMachine 3;
    OpListMachines 1;
    OpRecordAPIKey "k1" 2;
    OpIsAPIKeyRevoked "k1";
    OpRevokeAPIKey "k1" 2;
    OpIsAPIKeyRevoked "k1";
    OpDeleteMachine 3;
    OpGetMachine 3 ].

(** * Refinement *)

Section refine.
  Context `{PgReport} `{MapRange}.


(** The in-memory store of the tests, whatever the order in which Go
    ranges over its maps, keeps the same contract as the Postgres store. *)
Theorem Fake_refines_spec (os : list store_op) (s s' : Fake) tr :
  fake_inv s → valid_ops os s → run_ops os s = (tr, s') →
  fake_inv s' ∧ spec_run (fake_tables s) tr (fake_tables s').
Proof. exact (run_ops_simulation os s tr s'). Qed.

End refine.

#[local] Existing Instances report_first range_in_order.


Lemma Fake_refines_spec_witness :
  (run_ops ops0 (NewFake env0)).1 !! 2 = 
    Some (OpCreateMachine 1 "laptop" "host2" "SHA256:bb", inl ErrDuplicateName) ∧
  spec_run empty_tables (run_ops ops0 (NewFake env0)).1 (fake_tables (run_ops ops0 (NewFake env0)).2).
Proof.
  split; [vm_compute; reflexivity|].
  refine (proj2 (Fake_refines_spec ops0 (NewFake env0) _ _ fake_inv0 _ _)); [|by destruct (run_ops _ _)].
  vm_compute. repeat split. all: eauto.
Defined.

(** * Concurrent logins *)

Section races.
  Context `{PgReport}.

(** C24: Any number of logins interleaved at every point where
    [GetOrCreateUser] leaves the database: the constraints hold throughout;
    two logins of one identity end with the same user and the same tenant;
    the account a login ends with is stored; no tenant is left without a user
    by a lost race; and no login ends with "not found". *)
Theorem GetOrCreateUser_race_safe (db0 db : Pg) (ls0 ls : list login) :
  pg_inv db0 → Forall (λ l, lg_pc l = LStart) ls0 → rtc race_step (db0, ls0) (db, ls) →
  Tables_ok (pg_tables db) ∧ no_orphans (pg_tables db0) (pg_tables db) ∧
  (∀ i l u, ls !! i = Some l → lg_pc l = LDone (inr u) →
    is_user (lg_provider l) (lg_subject l) u = true ∧ stored (pg_tables db) u) ∧
  (∀ i j l1 l2 u1 u2, ls !! i = Some l1 → ls !! j = Some l2 →
    lg_provider l1 = lg_provider l2 → lg_subject l1 = lg_subject l2 →
    lg_pc l1 = LDone (inr u1) → lg_pc l2 = LDone (inr u2) →
    User_ID u1 = User_ID u2 ∧ User_TenantID u1 = User_TenantID u2) ∧
  (∀ i l e, ls !! i = Some l → lg_pc l = LDone (inl e) → errors_Is e ErrNotFound = false).
Proof.
  intros Hdb Hls Hs. assert (race_inv (pg_tables db0) (db, ls)) as ([Hok _] & Ho & Hinv).
  { eapply race_inv_steps; [|exact Hs]. split; [done|]. split; [by intros tid ?; left|].
    eapply Forall_impl; [done|]. intros l Hl. unfold login_inv. by rewrite Hl. }
  assert (∀ i l r, ls !! i = Some l → lg_pc l = LDone r → login_inv (pg_tables db) (lg_goto (LDone r) l)) as Hdone.
  { intros i l r Hi Hpc. pose proof (proj1 (Forall_lookup _ _) Hinv _ _ Hi) as Hl. cbn in Hl.
    unfold login_inv in *. by rewrite Hpc in Hl. }
  split; [done|]. split; [done|]. split; [|split].
  - intros i l u Hi Hpc. exact (Hdone i l (inr u) Hi Hpc).
  - intros i j l1 l2 u1 u2 Hi Hj Hp Hsub H1 H2.
    destruct (Hdone _ _ _ Hi H1) as [U1 (v1 & V1 & A1)], (Hdone _ _ _ Hj H2) as [U2 (v2 & V2 & A2)].
    apply is_user_true in U1, U2. unfold same_account in *. simpl in *.
    assert (User_ID u1 = User_ID u2) as Heq.
    { eapply (users_provider_subject_key _ Hok); [done|done|intuition congruence..]. }
    split; [done|]. rewrite Heq in V1. simplify_eq. intuition congruence.
  - intros i l e Hi Hpc. exact (Hdone i l (inl e) Hi Hpc).
Qed.

(** The segments a login still has to run. *)
Definition login_rank (pc : login_pc) : nat :=
  match pc with LStart => 3 | LCreate => 2 | LUpdate _ | LReread => 1 | LDone _ => 0 end.

Lemma login_step_total l db :
  wp (login_step l) (λ r _, ∃ pc, r = inr pc ∧ (login_rank pc = 0 ∨ login_rank pc < login_rank (lg_pc l))) db.
Proof.
  unfold login_step. destruct (lg_pc l) as [|u| | |r]; wp_simpl; [| | | |by exists (LDone r); auto].
  - unfold wp. destruct (Store_getUser _ _ db).1; case_match; wp_simpl; eexists; split; simpl; eauto.
  - unfold wp. destruct (pg_stmt _ db).1; wp_simpl; eexists; split; simpl; eauto.
  - unfold wp. destruct (Store_createUserTx _ _ _ db).1 as [|[]]; wp_simpl; eexists; split; simpl; eauto.
  - unfold wp. wp_simpl. eexists; split; simpl; eauto.
Qed.

(** One segment, after the other clients have changed the database by [f]. *)
Definition login_after (f : Pg → Pg) (c : login * Pg) : login * Pg :=
  match login_step c.1 (f c.2) with
  | (inr pc, db) => (lg_goto pc c.1, db)
  | (inl e, db) => (lg_goto (LDone (inl e)) c.1, db)
  end.

Lemma login_after_rank f c n :
  login_rank (lg_pc c.1) ≤ S n → login_rank (lg_pc (login_after f c).1) ≤ n.
Proof.
  intros Hn. pose proof (login_step_total c.1 (f c.2)) as Hw. unfold wp in Hw. unfold login_after.
  destruct (login_step c.1 (f c.2)) as [r db]; cbn in *. destruct Hw as (pc & -> & Hpc). simpl. lia.
Qed.

(** A login ends after at most three segments, whatever other clients
    do to the database between them; and the three segments, with nothing in
    between, are the code of [GetOrCreateUser]. *)
Theorem GetOrCreateUser_terminates (f1 f2 f3 : Pg → Pg) (p sub e : string) (db : Pg) :
  (∃ r, lg_pc (login_after f3 (login_after f2 (login_after f1 (mkLogin p sub e LStart, db)))).1 = LDone r) ∧
  login_run 3 (mkLogin p sub e LStart) db = Store_GetOrCreateUser p sub e db.
Proof.
  split; [|apply login_run_seq].
  pose proof (login_after_rank f1 (mkLogin p sub e LStart, db) 2 (le_n _)) as H1.
  pose proof (login_after_rank f2 _ 1 H1) as H2. pose proof (login_after_rank f3 _ 0 H2) as H3.
  destruct (lg_pc (login_after f3 _).1) as [|u| | |r]; simpl in H3; [lia..|]. by exists r.
Qed.

End races.

(** Two first logins of one identity: the first is overtaken between its read
    and its transaction, loses the race, and ends with the user of the other;
    the tenant it had inserted is rolled back. *)
Definition racers : list login :=
  [mkLogin "google" "s1" "a@x" LStart; mkLogin "google" "s1" "b@x" LStart].

Fixpoint race_exec (sched : list nat) (c : Pg * list login) : Pg * list login :=
  match sched with
  | [] => c
  | i :: sched =>
      match c.2 !! i with
      | Some l => match login_step l c.1 with
                  | (inr pc, db) => race_exec sched (db, <[i := lg_goto pc l]> c.2)
                  | _ => c
                  end
      | None => c
      end
  end.

Lemma race_exec_steps sched c : rtc race_step c (race_exec sched c).
Proof.
  revert c. induction sched as [|i sched IH]; intros [db ls]; simpl; [done|].
  destruct (ls !! i) as [l|] eqn:Hi; [|done].
  destruct (login_step l db) as [[e|pc] db'] eqn:Hs; [done|].
  eapply rtc_l; [by eapply race_login|apply IH].
Qed.

Lemma GetOrCreateUser_race_safe_witness :
  let c := race_exec [0; 1; 1; 0; 0] (pg0 [], racers) in
  tenants (pg_tables c.1) !! 3%N = None ∧
  lg_pc <$> c.2 !! 0 = Some (LDone (inr (mkUser 2 1 "google" "s1" "b@x" 0))) ∧
  ∀ i j l1 l2 u1 u2, c.2 !! i = Some l1 → c.2 !! j = Some l2 →
    lg_provider l1 = lg_provider l2 → lg_subject l1 = lg_subject l2 →
    lg_pc l1 = LDone (inr u1) → lg_pc l2 = LDone (inr u2) →
    User_ID u1 = User_ID u2 ∧ User_TenantID u1 = User_TenantID u2.
Proof.
  intros c. split; [vm_compute; reflexivity|]. split; [vm_compute; reflexivity|].
  refine (proj1 (proj2 (proj2 (proj2 (GetOrCreateUser_race_safe (pg0 []) c.1 racers c.2 (pg_inv0 []) _ _))))).
  - repeat constructor.
  - rewrite <-surjective_pairing. apply race_exec_steps.
Defined.
