(* ===== verification/StoreEquiv.v ===== *)
(** The two stores are interchangeable: called the way the relay calls its
    store, the Postgres store (internal/store/store.go) and the in-memory
    store of the tests (internal/store/fake.go) cannot be told apart; and the
    calls on which they differ. *)
From Stdlib Require Import ZArith Lia.
From stdpp Require Import base gmap strings list.
From S2P Require Import Prelude GoStrings StoreSpec PgStore FakeStore StoreProps.

(** * The calls, their replies, the identifiers they draw *)

(** A call the relay makes: a machine is created for a tenant that exists and
    touched while it exists, and a key is recorded once, for a user that
    exists. *)
Definition op_common (o : store_op) (t : Tables) : Prop :=
  match o with
  | OpCreateMachine tid _ _ _ => is_Some (tenants t !! tid)
  | OpTouchMachine id => is_Some (machines t !! id)
  | OpRecordAPIKey k uid => api_keys t !! k = None ∧ is_Some (users t !! uid)
  | _ => True
  end.

Fixpoint common_ops {S} `{DataStoreOk S} (os : list store_op) (s : S) : Prop :=
  match os with
  | [] => True
  | o :: os => op_common o (ds_view s) ∧ common_ops os (run_op o s).2
  end.

Definition is_duplicate (e : error) : bool :=
  errors_Is e ErrDuplicateName || errors_Is e ErrDuplicateFingerprint.

(** Replies a client of the interface has to take for the same: the order of
    a list is not promised, nor which of two broken constraints is named. *)
Definition same_reply (o : store_op) (r r' : error + store_reply) : Prop :=
  match o, r, r' with
  | OpListMachines _, inr (RMachines ms), inr (RMachines ms') => ms ≡ₚ ms'
  | OpCreateMachine _ _ _ _, inl e, inl e' => e = e' ∨ is_duplicate e = true ∧ is_duplicate e' = true
  | _, _, _ => r = r'
  end.

#[export] Instance same_reply_refl o : Reflexive (same_reply o).
Proof. intros [e|[]]; destruct o; simpl; auto. Qed.

Definition same_call (c c' : store_op * (error + store_reply)) : Prop :=
  c.1 = c'.1 ∧ same_reply c.1 c.2 c'.2.

Definition known_user (p sub : string) (t : Tables) : bool :=
  bool_decide (is_Some (find_value (is_user p sub) (map_to_list (users t)))).

Definition machine_taken (tid : UUID) (name fp : string) (t : Tables) : bool :=
  bool_decide (is_Some (find_value (λ m, has_fingerprint fp m || has_name tid name m) (map_to_list (machines t)))).

(** The identifiers a call uses.  An INSERT that breaks a constraint has
    drawn one in vain. *)
Definition used_ids (o : store_op) (t : Tables) : nat :=
  match o with
  | OpGetOrCreateUser p sub _ => if known_user p sub t then 0 else 2
  | OpCreateMachine tid name _ fp => if machine_taken tid name fp t then 0 else 1
  | _ => 0
  end.

Definition wasted_ids (o : store_op) (t : Tables) : nat :=
  match o with
  | OpCreateMachine tid name _ fp => if machine_taken tid name fp t then 1 else 0
  | _ => 0
  end.

Definition Env_skip (k : nat) (e : Env) : Env := mkEnv (now e) (uuid_src e) (uuid_pos e + k).

Lemma Env_skip_0 e : Env_skip 0 e = e.
Proof. unfold Env_skip. rewrite Nat.add_0_r. by destruct e. Qed.

Lemma Env_next_skip k e : Env_next (Env_skip k e) = Env_skip (S k) e.
Proof. unfold Env_next, Env_skip. simpl. by rewrite Nat.add_succ_r. Qed.

Lemma Env_next_1 e : Env_next e = Env_skip 1 e.
Proof. by rewrite <-Env_next_skip, Env_skip_0. Qed.

Lemma Env_skip_skip j k e : Env_skip j (Env_skip k e) = Env_skip (k + j) e.
Proof. unfold Env_skip. simpl. by rewrite Nat.add_assoc. Qed.

(** * One call *)

Section agree.
  Context `{PgReport} `{MapRange}.

(** Started with the same tables, [m] without connection failures and [m']
    end with the same tables and replies, having drawn [k] and [k']
    identifiers. *)
Definition agree {A} (same : error + A → error + A → Prop) (m : M Pg error A) (m' : M Fake error A)
    (k k' : nat) (t : Tables) (e e' : Env) : Prop :=
  wp m (λ r s, wp m' (λ r' f, same r r' ∧
    ∃ t', s = mkPg t' (Env_skip k e) [] ∧ f = mkFake t' (Env_skip k' e')) (mkFake t e')) (mkPg t e []).

(** Ends with the tables at hand. *)
Ltac agree_done := rewrite ?(bool_decide_true (ErrNoRows = ErrNoRows)) by done; wp_cbn; split; [try done|eexists; rewrite ?Env_next_1, ?Env_skip_skip, ?Env_skip_0; done].

(** A round trip that does not fail. *)
Lemma wp_pg_run {A} (run : M Pg error A) (Q : error + A → Pg → Prop) s :
  pg_faults s = [] → wp (pg_stmt run) Q s ↔ wp run Q s.
Proof. destruct s as [t e fs]. simpl. by intros ->. Qed.

Section calls.
  Context (t : Tables) (Hok : Tables_ok t) (e e' : Env).

(** The two ways of finding the user of an identity. *)
Lemma find_user_agree p sub :
  match find_value (is_user p sub) (map_to_list (users t)) with
  | Some u => find_entry (is_user p sub) (map_range (users t)) = Some (User_ID u, u)
  | None => find_entry (is_user p sub) (map_range (users t)) = None
  end.
Proof using Hok.
  destruct (find_value _ _) as [u|] eqn:Hf, (find_entry _ _) as [[k v]|] eqn:He; try done.
  - apply find_value_Some_lookup with (m := users t) in Hf as [[Hp Hs]%is_user_true [j Hj]]; [|done].
    apply find_entry_Some with (m := users t) in He as [[Hp' Hs']%is_user_true Hk]; [|apply map_range_perm].
    assert (k = j) as -> by (eapply (users_provider_subject_key _ Hok); [done|done|congruence..]).
    simplify_eq. by rewrite (users_pkey _ Hok _ _ Hj).
  - apply find_value_Some_lookup with (m := users t) in Hf as [Hu [j Hj]]; [|done].
    eapply find_entry_None in He; [|apply map_range_perm|exact Hj]. congruence.
  - apply find_entry_Some with (m := users t) in He as [Hu Hk]; [|apply map_range_perm].
    eapply find_value_None_lookup in Hf; [|done|exact Hk]. congruence.
Qed.

Lemma find_fingerprint_agree fp :
  match find_value (has_fingerprint fp) (map_to_list (machines t)) with
  | Some m => ∃ k, find_entry (has_fingerprint fp) (map_range (machines t)) = Some (k, m)
  | None => find_entry (has_fingerprint fp) (map_range (machines t)) = None
  end.
Proof using Hok.
  destruct (find_value _ _) as [u|] eqn:Hf, (find_entry _ _) as [[k v]|] eqn:He; try done.
  - apply find_value_Some_lookup with (m := machines t) in Hf as [Hp%has_fingerprint_true [j Hj]]; [|done].
    apply find_entry_Some with (m := machines t) in He as [Hp'%has_fingerprint_true Hk]; [|apply map_range_perm].
    assert (k = j) as -> by (eapply (machines_fingerprint_key _ Hok); [done|done|congruence]).
    simplify_eq. eauto.
  - apply find_value_Some_lookup with (m := machines t) in Hf as [Hu [j Hj]]; [|done].
    eapply find_entry_None in He; [|apply map_range_perm|exact Hj]. congruence.
  - apply find_entry_Some with (m := machines t) in He as [Hu Hk]; [|apply map_range_perm].
    eapply find_value_None_lookup in Hf; [|done|exact Hk]. congruence.
Qed.

(** Looking a row up by its key is searching for it. *)
Lemma find_by_key {V} (ident : V → UUID) (tbl : gmap UUID V) id :
  (∀ k v, tbl !! k = Some v → ident v = k) →
  find_value (λ v, N.eqb (ident v) id) (map_to_list tbl) = tbl !! id.
Proof using.
  intros Hkey. destruct (find_value _ _) as [v|] eqn:Hf.
  - apply find_value_Some_lookup with (m := tbl) in Hf as [<-%N.eqb_eq [k Hk]]; [|done].
    by rewrite (Hkey _ _ Hk).
  - destruct (tbl !! id) as [v|] eqn:Hv; [|done].
    eapply find_value_None_lookup in Hf; [|done|exact Hv].
    apply Hkey in Hv. subst. by rewrite N.eqb_refl in Hf.
Qed.

Lemma agree_GetUserByID id :
  agree (=) (Store_GetUserByID id) (Fake_GetUserByID id) 0 0 t e e'.
Proof using Hok.
  unfold agree, Store_GetUserByID, Fake_GetUserByID, select_user. wp_simpl. rewrite wp_pg_run by done. wp_cbn.
  rewrite (find_by_key User_ID) by apply (users_pkey _ Hok).
  destruct (users t !! id) eqn:Hu; wp_cbn; rewrite Hu; agree_done.
Qed.

Lemma agree_GetMachine id :
  agree (=) (Store_GetMachine id) (Fake_GetMachine id) 0 0 t e e'.
Proof using Hok.
  unfold agree, Store_GetMachine, scanMachine, Fake_GetMachine, select_machine. wp_simpl.
  rewrite wp_pg_run by done. wp_cbn. rewrite (find_by_key Machine_ID) by apply (machines_pkey _ Hok).
  destruct (machines t !! id) eqn:Hm; wp_cbn; rewrite Hm; agree_done.
Qed.

Lemma agree_GetMachineByFingerprint fp :
  agree (=) (Store_GetMachineByFingerprint fp) (Fake_GetMachineByFingerprint fp) 0 0 t e e'.
Proof using Hok.
  unfold agree, Store_GetMachineByFingerprint, scanMachine, Fake_GetMachineByFingerprint, select_machine.
  wp_simpl. rewrite wp_pg_run by done. wp_cbn. pose proof (find_fingerprint_agree fp) as Hf.
  destruct (find_value _ _); [destruct Hf as [k Hk]; rename Hk into Hf|]; wp_cbn; rewrite Hf; agree_done.
Qed.

Lemma agree_ListMachines tid :
  agree (λ r r', ∃ ms ms', r = inr ms ∧ r' = inr ms' ∧ ms ≡ₚ ms')
    (Store_ListMachines tid) (Fake_ListMachines tid) 0 0 t e e'.
Proof using.
  unfold agree, Store_ListMachines, Fake_ListMachines, select_machines. rewrite wp_pg_run by done. wp_cbn.
  agree_done. do 2 eexists. split; [done|]. split; [done|].
  rewrite sort_by_Permutation. apply filter_perm, fmap_Permutation. symmetry. apply map_range_perm.
Qed.

Lemma agree_TouchMachine id :
  now e = now e' → is_Some (machines t !! id) →
  agree (=) (Store_TouchMachine id) (Fake_TouchMachine id) 0 0 t e e'.
Proof using.
  intros Hnow [m Hm]. unfold agree, Store_TouchMachine, Fake_TouchMachine, update_last_seen, pg_update, time_Now,
    fake_update. rewrite wp_pg_run by done. wp_cbn. rewrite Hm. cbn.
  rewrite (with_machines_alter _ _ _ _ Hm), Hnow. agree_done.
Qed.

(** The other machine that has the new name. *)
Lemma rename_conflict_agree id tid name :
  bool_decide (is_Some (find_value (has_name tid name) (map_to_list (delete id (machines t))))) =
  existsb (λ kv, negb (N.eqb (Machine_ID kv.2) id) && has_name tid name kv.2) (map_range (machines t)).
Proof using Hok.
  apply Bool.eq_iff_eq_true. rewrite found_true, List.existsb_exists. split.
  - intros (k & m & [Hne Hk]%lookup_delete_Some & Hn). exists (k, m).
    rewrite <-list_elem_of_In, map_range_perm, elem_of_map_to_list. split; [done|].
    simpl. rewrite Hn, (machines_pkey _ Hok _ _ Hk), andb_true_r. by apply negb_true_iff, N.eqb_neq.
  - intros ([k m] & Hk & [Hne%negb_true_iff%N.eqb_neq Hn]%andb_true_iff).
    rewrite <-list_elem_of_In, map_range_perm, elem_of_map_to_list in Hk. simpl in *.
    rewrite (machines_pkey _ Hok _ _ Hk) in Hne. exists k, m. by rewrite lookup_delete_ne.
Qed.

Lemma agree_RenameMachine id name :
  agree (=) (Store_RenameMachine id name) (Fake_RenameMachine id name) 0 0 t e e'.
Proof using Hok.
  unfold agree, Store_RenameMachine, Fake_RenameMachine, update_name, pg_update, fake_update. wp_simpl.
  rewrite wp_pg_run by done. wp_cbn. destruct (machines t !! id) as [m|] eqn:Hm; wp_cbn; [|rewrite Hm; agree_done].
  rewrite rename_conflict_agree. destruct (existsb _ _) eqn:Hx; wp_cbn; rewrite Hm; cbn; rewrite Hx; cbn.
  - agree_done.
  - rewrite (with_machines_alter _ _ _ _ Hm). agree_done.
Qed.

Lemma agree_DeleteMachine id :
  agree (=) (Store_DeleteMachine id) (Fake_DeleteMachine id) 0 0 t e e'.
Proof using.
  unfold agree, Store_DeleteMachine, Fake_DeleteMachine, delete_machine, pg_update, fake_update. wp_simpl.
  rewrite wp_pg_run by done. wp_cbn. destruct (machines t !! id) as [m|] eqn:Hm; wp_cbn; rewrite Hm; agree_done.
Qed.

Lemma agree_RecordAPIKey k uid :
  api_keys t !! k = None → is_Some (users t !! uid) →
  agree (=) (Store_RecordAPIKey k uid) (Fake_RecordAPIKey k uid) 0 0 t e e'.
Proof using.
  intros Hk Hu. unfold agree, Store_RecordAPIKey, Fake_RecordAPIKey, insert_api_key, pg_update, fake_update.
  rewrite wp_pg_run by done. wp_cbn. rewrite Hk, (bool_decide_true _ Hu). wp_cbn. agree_done.
Qed.

Lemma agree_IsAPIKeyRevoked k :
  agree (=) (Store_IsAPIKeyRevoked k) (Fake_IsAPIKeyRevoked k) 0 0 t e e'.
Proof using.
  unfold agree, Store_IsAPIKeyRevoked, Fake_IsAPIKeyRevoked, select_revoked_at. wp_simpl.
  rewrite wp_pg_run by done. wp_cbn. destruct (api_keys t !! k) as [x|] eqn:Hk; wp_cbn.
  - rewrite Hk. agree_done.
  - rewrite (bool_decide_true (ErrNoRows = ErrNoRows)) by done. wp_cbn. rewrite Hk. agree_done.
Qed.

Lemma agree_RevokeAPIKey k uid :
  now e = now e' → agree (=) (Store_RevokeAPIKey k uid) (Fake_RevokeAPIKey k uid) 0 0 t e e'.
Proof using.
  intros Hnow. unfold agree, Store_RevokeAPIKey, Fake_RevokeAPIKey, update_revoked_at, pg_update, fake_update, time_Now.
  wp_simpl. rewrite wp_pg_run by done. wp_cbn. destruct (api_keys t !! k) as [x|] eqn:Hk; wp_cbn; [|rewrite ?Hk; agree_done].
  assert (negb (N.eqb (APIKey_UserID x) uid) || bool_decide (is_Some (APIKey_RevokedAt x)) =
    negb (N.eqb (APIKey_UserID x) uid && bool_decide (APIKey_RevokedAt x = None))) as Hb.
  { rewrite negb_andb. f_equal. by destruct (APIKey_RevokedAt x). }
  destruct (N.eqb _ _ && _) eqn:Hx; wp_cbn; rewrite ?Hk; cbn; rewrite Hb; cbn; rewrite ?Hnow; agree_done.
Qed.

Lemma machine_taken_true tid name fp :
  machine_taken tid name fp t = true →
  ∃ k m, machines t !! k = Some m ∧
    (Machine_Fingerprint m = fp ∨ Machine_TenantID m = tid ∧ Machine_Name m = name).
Proof using.
  unfold machine_taken. rewrite found_true.
  intros (k & m & Hk & [?%has_fingerprint_true|?%has_name_true]%orb_true_iff); exists k, m; auto.
Qed.

Lemma machine_taken_false tid name fp k m :
  machine_taken tid name fp t = false → machines t !! k = Some m →
  has_fingerprint fp m = false ∧ has_name tid name m = false.
Proof using.
  unfold machine_taken. rewrite found_false. intros Hn Hk. by apply orb_false_iff, (Hn k).
Qed.

(** The creation of a machine: both refuse, or both add the same row. *)
Lemma agree_CreateMachine_taken tid name host fp :
  machine_taken tid name fp t = true → fresh_supply t e →
  agree (λ r r', ∃ err err', r = inl err ∧ r' = inl err' ∧ is_duplicate err = true ∧ is_duplicate err' = true)
    (Store_CreateMachine tid name host fp) (Fake_CreateMachine tid name host fp) 1 0 t e e'.
Proof using Hok.
  intros (k & m & Hk & Hm)%machine_taken_true Hs.
  assert (∃ err', first_conflict tid name fp (map_range (machines t)) = Some err' ∧ is_duplicate err' = true)
    as (err' & Hc & Herr').
  { destruct (first_conflict _ _ _ _) as [err|] eqn:Hf.
    - apply first_conflict_Some in Hf as (? & ? & _ & [[-> _]|[-> _]]); by eexists.
    - eapply (first_conflict_None _ _ _ _ k m) in Hf; [|by rewrite map_range_perm, elem_of_map_to_list].
      naive_solver. }
  unfold agree, Store_CreateMachine, insert_machine. wp_simpl. rewrite wp_pg_run by done. wp_simpl.
  apply wp_gen_random_uuid. wp_cbn. rewrite (not_present _ _ (fresh_machine _ _ Hs)).
  apply wp_unique_violation; cbn.
  - intros [Hfp%broken_nil Hname%broken_nil]%app_nil. rewrite found_false in Hfp, Hname.
    specialize (Hfp _ _ Hk). specialize (Hname _ _ Hk). destruct Hm as [?%has_fingerprint_true|?%has_name_true]; congruence.
  - intros c [Hin|Hin]%elem_of_app; apply elem_of_broken in Hin as [_ ->]; unfold Fake_CreateMachine; wp_cbn;
      rewrite Hc; cbn; agree_done; eauto 10.
Qed.

Lemma agree_CreateMachine_free tid name host fp :
  machine_taken tid name fp t = false → fresh_supply t e → is_Some (tenants t !! tid) →
  now e = now e' → Env_fresh e = Env_fresh e' →
  agree (=) (Store_CreateMachine tid name host fp) (Fake_CreateMachine tid name host fp) 1 1 t e e'.
Proof using Hok.
  intros Hn Hs Htid Hnow Hid.
  assert (first_conflict tid name fp (map_range (machines t)) = None) as Hc.
  { destruct (first_conflict _ _ _ _) as [err|] eqn:Hf; [|done].
    apply first_conflict_Some in Hf as (k & m & Hk & Hm).
    rewrite map_range_perm, elem_of_map_to_list in Hk.
    destruct (machine_taken_false _ _ _ _ _ Hn Hk) as [H1 H2].
    destruct Hm as [[_ ?%has_fingerprint_true]|[_ ?%has_name_true]]; congruence. }
  unfold agree, Store_CreateMachine, insert_machine. wp_simpl. rewrite wp_pg_run by done. wp_simpl.
  apply wp_gen_random_uuid. wp_cbn. rewrite (not_present _ _ (fresh_machine _ _ Hs)).
  rewrite !(proj2 (found_false _ _)) by (intros k m Hk; by eapply machine_taken_false).
  apply wp_unique_violation; [intros _|by intros ? ?%elem_of_nil]. wp_simpl.
  apply wp_fk_violation; rewrite bool_decide_true by done; [intros _|done].
  unfold pg_update. wp_cbn. unfold Fake_CreateMachine, uuid_New, time_Now, fake_update. wp_cbn.
  rewrite Hc. wp_cbn. rewrite <-Hid. change (now (Env_next e)) with (now e).
  change (now (Env_next e')) with (now e'). rewrite <-Hnow. agree_done.
Qed.

(** A login: both find the account, or both add the same tenant and user. *)
Lemma agree_GetOrCreateUser_known p sub email :
  known_user p sub t = true →
  agree (=) (Store_GetOrCreateUser p sub email) (Fake_GetOrCreateUser p sub email) 0 0 t e e'.
Proof using Hok.
  intros [u Hu]%bool_decide_eq_true. pose proof (find_user_agree p sub) as Hf. rewrite Hu in Hf.
  apply find_value_Some_lookup with (m := users t) in Hu as Hk; [|done]. destruct Hk as [_ [k Hk]].
  pose proof (users_pkey _ Hok _ _ Hk) as <-.
  unfold agree, Store_GetOrCreateUser, Store_getUser, select_user. wp_simpl. rewrite wp_pg_run by done. wp_simpl.
  change (pg_tables _) with t. rewrite Hu. wp_simpl.
  destruct (negb _ && negb _) eqn:Hem; wp_simpl; rewrite ?wp_pg_run by done; unfold update_email, pg_update; wp_cbn;
    unfold Fake_GetOrCreateUser, fake_update; wp_cbn; rewrite Hf; cbn; rewrite Hem; wp_cbn.
  - rewrite (with_users_alter _ _ _ _ Hk). agree_done.
  - rewrite (with_users_id _ _ _ Hk). agree_done.
Qed.

Lemma agree_GetOrCreateUser_new p sub email :
  known_user p sub t = false → fresh_supply t e → now e = now e' →
  Env_fresh e = Env_fresh e' → Env_fresh (Env_next e) = Env_fresh (Env_next e') →
  agree (=) (Store_GetOrCreateUser p sub email) (Fake_GetOrCreateUser p sub email) 2 2 t e e'.
Proof using Hok.
  intros Hn Hs Hnow Hid Hid'. unfold known_user in Hn. apply bool_decide_eq_false, eq_None_not_Some in Hn as Hu.
  pose proof (find_user_agree p sub) as Hf. rewrite Hu in Hf.
  assert (fresh_supply t (Env_next e)) as Hs1 by eauto with go.
  unfold agree, Store_GetOrCreateUser, Store_getUser, select_user. wp_simpl. rewrite wp_pg_run by done. wp_simpl.
  change (pg_tables _) with t. rewrite Hu. wp_simpl. unfold Store_createUserTx, pg_begin, pg_commit.
  change (errors_Is (if errors_Is ErrNoRows ErrNoRows then ErrNotFound else ErrNoRows) ErrNotFound) with true. wp_simpl. rewrite wp_pg_run by done. wp_simpl.
  apply wp_with_tx. wp_simpl. rewrite wp_pg_run by done. unfold insert_tenant, pg_update. wp_cbn.
  rewrite (not_present _ _ (fresh_tenant _ _ Hs)).
  apply wp_unique_violation; [intros _|by intros ? ?%elem_of_nil]. wp_cbn.
  rewrite wp_pg_run by done. unfold insert_user. wp_cbn. rewrite Hu.
  rewrite (not_present _ _ (fresh_user _ _ Hs1)). wp_simpl.
  apply wp_unique_violation; [intros _|by intros ? ?%elem_of_nil]. wp_simpl.
  apply wp_fk_violation; cbn; rewrite lookup_insert_eq, bool_decide_true by done; [intros _|done].
  unfold pg_update. wp_cbn. unfold Fake_GetOrCreateUser, fake_update, uuid_New, time_Now. wp_cbn.
  rewrite Hf. wp_cbn. unfold Env_next, Env_fresh, Env_skip in *. cbn in *.
  rewrite <-Hid, <-Hid', <-Hnow. split; [done|]. eexists.
  replace (uuid_pos e + 2) with (S (S (uuid_pos e))) by lia.
  by replace (uuid_pos e' + 2) with (S (S (uuid_pos e'))) by lia.
Qed.

End calls.

Definition reply_map {A} (f : A → store_reply) (r : error + A) : error + store_reply :=
  match r with inl e => inl e | inr a => inr (f a) end.

Lemma agree_reply {A} (same : error + A → error + A → Prop) (f : A → store_reply) o m m' k k' t e e' :
  agree same m m' k k' t e e' →
  (∀ r r', same r r' → same_reply o (reply_map f r) (reply_map f r')) →
  agree (same_reply o) (reply f m) (reply f m') k k' t e e'.
Proof.
  unfold agree, wp, reply, bind. intros [Hr Ht] Hsame. apply Hsame in Hr.
  destruct (m _) as [[x|a] s], (m' _) as [[x'|a'] s']; cbn in *; auto.
Qed.

Lemma agree_reply_eq {A} (f : A → store_reply) o m m' k k' t e e' :
  agree (=) m m' k k' t e e' → agree (same_reply o) (reply f m) (reply f m') k k' t e e'.
Proof. intros Hm. eapply agree_reply; [exact Hm|]. by intros r r' <-. Qed.

(** One call: the stores agree when the identifiers it uses are the same. *)
Lemma op_agrees o t e e' :
  Tables_ok t → fresh_supply t e → now e = now e' → op_common o t →
  (∀ i, i < used_ids o t → uuid_src e (uuid_pos e + i) = uuid_src e' (uuid_pos e' + i)) →
  agree (same_reply o) (run_op o) (run_op o) (used_ids o t + wasted_ids o t) (used_ids o t) t e e'.
Proof.
  intros Hok Hs Hnow Hpre Hids.
  destruct o as [p sub em|id|tid n h fp|id|fp|tid|id|id n|id|k uid|k|k uid]; cbn [run_op used_ids wasted_ids Nat.add] in *.
  - apply agree_reply_eq. destruct (known_user p sub t) eqn:Hu; [by apply agree_GetOrCreateUser_known|].
    pose proof (Hids 0 ltac:(lia)) as H1. pose proof (Hids 1 ltac:(lia)) as H2.
    rewrite !Nat.add_0_r in H1. rewrite !Nat.add_1_r in H2. by apply agree_GetOrCreateUser_new.
  - by apply agree_reply_eq, agree_GetUserByID.
  - destruct (machine_taken tid n fp t) eqn:Ht.
    + eapply agree_reply; [by apply agree_CreateMachine_taken|].
      intros r r' (err & err' & -> & -> & ? & ?). simpl. auto.
    + pose proof (Hids 0 ltac:(lia)) as H1. rewrite !Nat.add_0_r in H1.
      by apply agree_reply_eq, agree_CreateMachine_free.
  - by apply agree_reply_eq, agree_GetMachine.
  - by apply agree_reply_eq, agree_GetMachineByFingerprint.
  - eapply agree_reply; [apply agree_ListMachines|]. by intros r r' (ms & ms' & -> & -> & ?).
  - by apply agree_reply_eq, agree_TouchMachine.
  - by apply agree_reply_eq, agree_RenameMachine.
  - apply agree_reply_eq, agree_DeleteMachine.
  - destruct Hpre. by apply agree_reply_eq, agree_RecordAPIKey.
  - apply agree_reply_eq, agree_IsAPIKeyRevoked.
  - by apply agree_reply_eq, agree_RevokeAPIKey.
Qed.

(** * Runs *)

Lemma op_common_pre o t : op_common o t → op_pre o t.
Proof. by destruct o. Qed.

(** What [op_agrees] says of the two calls. *)
Lemma op_agrees_runs o t e e' :
  pg_inv (mkPg t e []) → now e = now e' → op_common o t →
  (∀ i, i < used_ids o t → uuid_src e (uuid_pos e + i) = uuid_src e' (uuid_pos e' + i)) →
  ∃ r r' t1, run_op o (mkPg t e []) = (r, mkPg t1 (Env_skip (used_ids o t + wasted_ids o t) e) []) ∧
    run_op o (mkFake t e') = (r', mkFake t1 (Env_skip (used_ids o t) e')) ∧ same_reply o r r' ∧
    pg_inv (mkPg t1 (Env_skip (used_ids o t + wasted_ids o t) e) []).
Proof.
  intros Hinv Hnow Hpre Hids. pose proof Hinv as [Hok Hs]. cbn in Hok, Hs.
  destruct (op_agrees o t e e' Hok Hs Hnow Hpre Hids) as [Hr (t1 & Hs1 & Hf1)].
  pose proof (run_op_ok o (mkPg t e []) Hinv (op_common_pre _ _ Hpre)) as [Hinv1 _]. cbn [ds_inv Store_DataStoreOk] in Hinv1.
  exists (run_op o (mkPg t e [])).1, (run_op o (mkFake t e')).1, t1.
  rewrite <-Hs1, <-Hf1, <-!surjective_pairing. auto.
Qed.

(** The stream of [e'] starts with the identifiers of [e] at the positions [l]. *)
Definition feeds (l : list nat) (e e' : Env) : Prop :=
  ∀ i j, l !! i = Some j → uuid_src e j = uuid_src e' (uuid_pos e' + i).

Lemma feeds_app l1 l2 e e' :
  feeds (l1 ++ l2) e e' → feeds l1 e e' ∧ feeds l2 e (Env_skip (length l1) e').
Proof.
  intros Hf. split; intros i j Hi.
  - apply Hf. by apply lookup_app_l_Some.
  - simpl. rewrite (Hf (length l1 + i) j); [f_equal; lia|].
    rewrite lookup_app_r by lia. by replace (length l1 + i - length l1) with i by lia.
Qed.

Lemma feeds_seq n k e e' i : feeds (seq n k) e e' → i < k → uuid_src e (n + i) = uuid_src e' (uuid_pos e' + i).
Proof. intros Hf Hi. apply Hf. by apply lookup_seq. Qed.

Definition same_run (os : list store_op) (s : Pg) (f : Fake) : Prop :=
  Forall2 same_call (run_ops os s).1 (run_ops os f).1 ∧ pg_tables (run_ops os s).2 = fake_tables (run_ops os f).2.

Lemma same_run_cons o os s f r r' s1 f1 :
  run_op o s = (r, s1) → run_op o f = (r', f1) → same_reply o r r' → same_run os s1 f1 → same_run (o :: os) s f.
Proof.
  unfold same_run. intros Hs Hf Hr [Htr Ht]. simpl. rewrite Hs, Hf.
  destruct (run_ops os s1), (run_ops os f1). simpl in *. split; [by constructor|done].
Qed.

(** A run of the Postgres store, followed by the in-memory store on the
    identifiers it used. *)
Lemma Fake_follows os t e :
  pg_inv (mkPg t e []) → common_ops os (mkPg t e []) →
  ∃ l B, NoDup l ∧ Forall (λ i, uuid_pos e ≤ i < B) l ∧ uuid_pos e ≤ B ∧
    ∀ e', now e = now e' → feeds l e e' → common_ops os (mkFake t e') ∧ same_run os (mkPg t e []) (mkFake t e').
Proof.
  revert t e. induction os as [|o os IH]; intros t e Hinv Hc.
  { exists [], (uuid_pos e). split; [constructor|]. split; [constructor|]. split; [lia|]. by split; [|split]. }
  destruct Hc as [Hpre Hc].
  destruct (op_agrees_runs o t e e Hinv eq_refl Hpre (λ i _, eq_refl)) as (r0 & _ & t1 & Hrun & _ & _ & Hinv1).
  rewrite Hrun in Hc. cbn in Hpre. destruct (IH _ _ Hinv1 Hc) as (l & B & Hnd & Hl & HB & Hfol). cbn in Hl, HB.
  exists (seq (uuid_pos e) (used_ids o t) ++ l), B. split; [|split; [|split; [lia|]]].
  - apply NoDup_app. split; [apply NoDup_seq|]. split; [|done].
    intros i Hi%elem_of_seq Hi'. rewrite Forall_forall in Hl. apply Hl in Hi'. lia.
  - apply Forall_app. split; [apply Forall_forall; intros i Hi%elem_of_seq; lia|].
    eapply Forall_impl; [exact Hl|]. simpl. lia.
  - intros e' Hnow [Hu Hf]%feeds_app. rewrite length_seq in Hf.
    destruct (op_agrees_runs o t e e' Hinv Hnow Hpre (λ i Hi, feeds_seq _ _ _ _ _ Hu Hi))
      as (r & r' & t2 & Hp & Hk & Hr & _). rewrite Hrun in Hp. simplify_eq.
    destruct (Hfol (Env_skip (used_ids o t) e') Hnow Hf) as [Hc' Hsame]. split.
    + split; [done|]. by rewrite Hk.
    + by eapply same_run_cons.
Qed.

(** A run of the in-memory store, followed by the Postgres store: what a
    refused INSERT draws is taken from position [J] on. *)
Lemma Pg_follows os t e J :
  fake_inv (mkFake t e) → common_ops os (mkFake t e) → uuid_pos (fake_env (run_ops os (mkFake t e)).2) ≤ J →
  ∃ l B, NoDup l ∧ Forall (λ i, uuid_pos e ≤ i < B) l ∧ uuid_pos e ≤ B ∧
    (∀ i, i ∈ l → i < uuid_pos (fake_env (run_ops os (mkFake t e)).2) ∨ J ≤ i) ∧
    uuid_pos e ≤ uuid_pos (fake_env (run_ops os (mkFake t e)).2) ∧ J ≤ B ∧
    ∀ e', now e = now e' → pg_inv (mkPg t e' []) → feeds l e e' →
      common_ops os (mkPg t e' []) ∧ same_run os (mkPg t e' []) (mkFake t e).
Proof.
  revert t e J. induction os as [|o os IH]; intros t e J Hinv Hc HJ.
  { exists [], J. simpl in *. split; [constructor|]. split; [constructor|]. split; [lia|].
    split; [by intros i ?%elem_of_nil|]. split; [lia|]. split; [lia|]. by split; [|split]. }
  destruct Hc as [Hpre Hc]. cbn in Hpre.
  destruct (op_agrees_runs o t e e Hinv eq_refl Hpre (λ i _, eq_refl)) as (_ & r0 & t1 & _ & Hrun & _ & _).
  pose proof (run_op_ok o (mkFake t e) Hinv (op_common_pre _ _ Hpre)) as [Hinv1 _]. cbn [ds_inv Fake_DataStoreOk] in Hinv1.
  rewrite Hrun in Hc, Hinv1. cbn [snd] in Hc, Hinv1.
  assert ((run_ops (o :: os) (mkFake t e)).2 = (run_ops os (mkFake t1 (Env_skip (used_ids o t) e))).2) as Hend.
  { simpl. rewrite Hrun. by destruct (run_ops os _). }
  rewrite Hend in HJ |- *. set (F := uuid_pos (fake_env _)) in HJ |- *.
  destruct (IH _ _ (J + wasted_ids o t) Hinv1 Hc ltac:(lia)) as (l & B & Hnd & Hl & HB & HlJ & HF & HJB & Hfol).
  fold F in HlJ, HF. cbn in Hl, HB, HF.
  exists (seq (uuid_pos e) (used_ids o t) ++ seq J (wasted_ids o t) ++ l), B.
  rewrite Forall_forall in Hl.
  split; [|split; [|split; [lia|split; [|split; [lia|split; [lia|]]]]]].
  - apply NoDup_app. split; [apply NoDup_seq|]. split.
    + intros i Hi%elem_of_seq [Hi'%elem_of_seq|Hi'%Hl]%elem_of_app; lia.
    + apply NoDup_app. split; [apply NoDup_seq|]. split; [|done].
      intros i Hi%elem_of_seq Hi'%HlJ. lia.
  - apply Forall_forall. intros i [Hi%elem_of_seq|[Hi%elem_of_seq|Hi%Hl]%elem_of_app]%elem_of_app; lia.
  - intros i [Hi%elem_of_seq|[Hi%elem_of_seq|Hi%HlJ]%elem_of_app]%elem_of_app; lia.
  - intros e' Hnow Hinv' [Hu [_ Hf]%feeds_app]%feeds_app. rewrite !length_seq, Env_skip_skip in Hf.
    destruct (op_agrees_runs o t e' e Hinv' (eq_sym Hnow) Hpre
      (λ i Hi, eq_sym (feeds_seq _ _ _ _ _ Hu Hi))) as (r & r' & t2 & Hp & Hk & Hr & Hinv2).
    rewrite Hrun in Hk. simplify_eq. destruct (Hfol (Env_skip (used_ids o t + wasted_ids o t) e') Hnow Hinv2 Hf) as [Hc' Hsame]. split.
    + split; [done|]. by rewrite Hp.
    + by eapply same_run_cons.
Qed.

(** The positions [l] of a stream, and then all positions from [B] on. *)
Definition stream_of (src : nat → UUID) (l : list nat) (B : nat) : nat → UUID :=
  λ n, src (match l !! n with Some i => i | None => B + (n - length l) end).

Definition replayed (e : Env) (l : list nat) (B : nat) : Env := mkEnv (now e) (stream_of (uuid_src e) l B) 0.

Lemma replayed_feeds e l B : feeds l e (replayed e l B).
Proof. intros i j Hi. unfold replayed, stream_of. simpl. by rewrite Hi. Qed.

Lemma replayed_fresh t e l B :
  fresh_supply t e → NoDup l → Forall (λ i, uuid_pos e ≤ i < B) l → uuid_pos e ≤ B →
  fresh_supply t (replayed e l B).
Proof.
  intros [H1 H2 H3 Hinj] Hnd Hl HB. rewrite Forall_forall in Hl.
  assert (∀ n, uuid_pos e ≤ match l !! n with Some i => i | None => B + (n - length l) end) as Hpos.
  { intros n. destruct (l !! n) as [i|] eqn:Hn; [|lia]. apply list_elem_of_lookup_2, Hl in Hn. lia. }
  split; unfold replayed, stream_of; simpl; [auto..|].
  intros n m _ _ Heq%Hinj; [|done..].
  destruct (l !! n) as [i|] eqn:Hn, (l !! m) as [j|] eqn:Hm; subst.
  - by eapply NoDup_lookup.
  - apply list_elem_of_lookup_2, Hl in Hn. lia.
  - apply list_elem_of_lookup_2, Hl in Hm. lia.
  - apply lookup_ge_None in Hn, Hm. lia.
Qed.


(** The condition on the calls is needed: on each of the other calls the two
    stores differ.  Postgres touches a machine that is not there without an
    error, takes a key ID once and only for an existing user, and creates no
    machine in a tenant that does not exist; the in-memory store reports the
    missing machine, overwrites the key, and creates the machine. *)
Theorem stores_differ o t e e' :
  ¬ op_common o t →
  match o with OpCreateMachine tid n _ fp => machine_taken tid n fp t = false | _ => True end →
  ¬ same_reply o (run_op o (mkPg t e [])).1 (run_op o (mkFake t e')).1.
Proof.
  intros Hpre Hfree. destruct o as [| |tid n h fp| | | |id| | |k uid| |]; simpl in Hpre; try done.
  - assert (∃ m, (run_op (OpCreateMachine tid n h fp) (mkFake t e')).1 = inr (RMachine m)) as [m ->].
    { cbn. unfold Fake_CreateMachine, reply, bind, gets. cbn.
      destruct (first_conflict _ _ _ _) eqn:Hf; [|by eexists].
      apply first_conflict_Some in Hf as (k & m & Hk & Hm). rewrite map_range_perm, elem_of_map_to_list in Hk.
      destruct (machine_taken_false _ _ _ _ _ _ Hfree Hk) as [H1 H2].
      destruct Hm as [[_ ?%has_fingerprint_true]|[_ ?%has_name_true]]; congruence. }
    enough (∃ x, (run_op (OpCreateMachine tid n h fp) (mkPg t e [])).1 = inl x) as [x ->] by done.
    change (wp (run_op (OpCreateMachine tid n h fp)) (λ r _, ∃ x, r = inl x) (mkPg t e [])).
    unfold run_op, ds_CreateMachine, Store_DataStore, reply, Store_CreateMachine, insert_machine. wp_simpl.
    rewrite wp_pg_run by done. wp_simpl. apply wp_gen_random_uuid. wp_cbn.
    apply wp_unique_violation; [intros _|by eauto]. wp_simpl.
    apply wp_fk_violation; [by intros ?%bool_decide_eq_true|by eauto].
  - apply eq_None_not_Some in Hpre. cbn. unfold Fake_TouchMachine, reply, bind, gets. cbn. by rewrite Hpre.
  - enough (∃ x, (run_op (OpRecordAPIKey k uid) (mkPg t e [])).1 = inl x) as [x ->] by done.
    change (wp (run_op (OpRecordAPIKey k uid)) (λ r _, ∃ x, r = inl x) (mkPg t e [])).
    unfold run_op, ds_RecordAPIKey, Store_DataStore, reply, Store_RecordAPIKey, insert_api_key. wp_simpl.
    rewrite wp_pg_run by done. wp_simpl. apply wp_unique_violation; [|by eauto].
    intros Hk%broken_nil%bool_decide_eq_false%eq_None_not_Some. wp_simpl.
    apply wp_fk_violation; [|by eauto]. intros Hu%bool_decide_eq_true. by destruct Hpre.
Qed.

End agree.

#[local] Existing Instances report_first range_in_order.

(** The client of [ops0], which then enrolls another machine: its refused
    enrollment costs the Postgres store the identifier 4, which the in-memory
    store gives to the machine enrolled last. *)
Definition ops1 : list store_op := ops0 ++ [OpCreateMachine 1 "server" "host3" "SHA256:cc"; OpListMachines 1].

