(* ===== verification/StoreOpen.v ===== *)
(** Opening the database (internal/store/migrate.go, and [New] and [Close] of
    internal/store/store.go): migrations over one connection, closed again,
    then the pool.  The migration library, the drivers and the server are
    outside the repository. *)
From Stdlib Require Import ZArith Lia.
From stdpp Require Import base strings list.
From S2P Require Import Prelude GoStrings.

(** golang-migrate and its iofs source, database/sql and pgxpool, over the
    state of the database server. *)
Class Drivers := {
  Cluster : Type;
  MigrationSource : Type;
  SqlDB : Type;
  MigrationDriver : Type;
  Migrator : Type;
  Pool : Type;
  iofs_New : string → error + MigrationSource;
  sql_Open : string → string → error + SqlDB;
  WithInstance : SqlDB → M Cluster error MigrationDriver;
  NewWithInstance : string → MigrationSource → string → MigrationDriver → error + Migrator;
  Up : Migrator → M Cluster error unit;
  ErrNoChange : error;
  pgxpool_New : string → error + Pool;
  Ping : Pool → Cluster → error + unit
}.

(** What the documentation of [Up] says: it applies all migrations, and gives
    [ErrNoChange] when there was none to apply. *)
Class DriversOk `{Drivers} := {
  up_to_date : Cluster → Prop;
  WithInstance_keeps : ∀ db c, up_to_date c → up_to_date (WithInstance db c).2;
  Up_keeps : ∀ m c, up_to_date c → up_to_date (Up m c).2;
  Up_applies : ∀ m c, (Up m c).1 = inr tt → up_to_date (Up m c).2;
  Up_nothing : ∀ m c e, (Up m c).1 = inl e → errors_Is e ErrNoChange = true → up_to_date (Up m c).2
}.

Section open.
  Context `{Drivers}.

(** The server, and how many handles and pools this process has open. *)
Record Opened := mkOpened { cluster : Cluster; sql_handles : nat; pools : nat }.

Definition set_cluster (c : Cluster) (o : Opened) : Opened := mkOpened c (sql_handles o) (pools o).
Definition add_handle (o : Opened) : Opened := mkOpened (cluster o) (S (sql_handles o)) (pools o).
Definition drop_handle (o : Opened) : Opened := mkOpened (cluster o) (Nat.pred (sql_handles o)) (pools o).
Definition add_pool (o : Opened) : Opened := mkOpened (cluster o) (sql_handles o) (S (pools o)).
Definition drop_pool (o : Opened) : Opened := mkOpened (cluster o) (sql_handles o) (Nat.pred (pools o)).

Definition on_cluster {A} (m : M Cluster error A) : M Opened error A := zoom cluster set_cluster m.

(** [migrateUp] while its connection is open. *)
Definition migrate_with (src : MigrationSource) (db : SqlDB) : M Opened error unit :=
  let! driver := on_cluster (WithInstance db) else_return (WrapError "creating migration driver") in
  let! m := lift (NewWithInstance "iofs" src "pgx" driver) else_return (WrapError "creating migrator") in
  let! r := attempt (on_cluster (Up m)) in
  match r with
  | inl err => if negb (errors_Is err ErrNoChange) then throw err else ret tt
  | inr _ => ret tt
  end.

(** The deferred [db.Close] runs on every way out. *)
Definition migrateUp (databaseURL : string) : M Opened error unit :=
  let! src := lift (iofs_New "migrations") else_return (WrapError "loading embedded migrations") in
  let! db := lift (sql_Open "pgx" databaseURL) else_return (WrapError "opening database") in
  do! modify add_handle in
  let! r := attempt (migrate_with src db) in
  do! modify drop_handle in
  lift r.

Definition store_New (databaseURL : string) : M Opened error Pool :=
  do! migrateUp databaseURL else_return (WrapError "applying migrations") in
  let! pool := lift (pgxpool_New databaseURL) else_return (WrapError "creating pool") in
  do! modify add_pool in
  let! o := get in
  match Ping pool (cluster o) with
  | inl err =>
      do! modify drop_pool in
      throw (WrapError "pinging database" err)
  | inr _ => ret pool
  end.

Definition store_Close : M Opened error unit := modify drop_pool.

(** * What opening guarantees *)

Context `{!DriversOk}.

Lemma migrate_with_wp src db o :
  wp (migrate_with src db) (λ r o', sql_handles o' = sql_handles o ∧ pools o' = pools o ∧
    (up_to_date (cluster o) → up_to_date (cluster o')) ∧ (r = inr tt → up_to_date (cluster o'))) o.
Proof.
  unfold migrate_with, on_cluster. wp_simpl. unfold wp at 1. pose proof (WithInstance_keeps db (cluster o)) as Hk.
  destruct (WithInstance db (cluster o)) as [[e|driver] c1]; cbn in *; [done|].
  wp_simpl. rewrite wp_lift. destruct (NewWithInstance "iofs" src "pgx" driver) as [e|m]; [done|].
  wp_simpl. unfold wp at 1. pose proof (Up_keeps m c1) as Hu. pose proof (Up_applies m c1) as Ha.
  pose proof (Up_nothing m c1) as Hn. cbn. destruct (Up m c1) as [[e|[]] c2]; cbn in *.
  - destruct (errors_Is e ErrNoChange) eqn:He; cbn [negb]; wp_simpl; cbn; naive_solver.
  - wp_simpl. cbn. naive_solver.
Qed.

Lemma migrateUp_wp url o :
  wp (migrateUp url) (λ r o', sql_handles o' = sql_handles o ∧ pools o' = pools o ∧
    (up_to_date (cluster o) → up_to_date (cluster o')) ∧ (r = inr tt → up_to_date (cluster o'))) o.
Proof.
  unfold migrateUp. wp_simpl. rewrite wp_lift. destruct (iofs_New _) as [e|src]; [done|].
  wp_simpl. rewrite wp_lift. destruct (sql_Open _ url) as [e|db]; [done|]. wp_simpl.
  wp_use (migrate_with_wp src db (add_handle o)). intros r o' (Hh & Hp & Hk & Hr). wp_simpl. rewrite wp_lift. cbn in *.
  by rewrite Hh.
Qed.

(** A store that opens is over a migrated database.  [New] returns a store
    only when every migration has been applied, by this run or before it, and
    the server answers a ping; it then holds one pool and no other handle.
    However it fails, the handle of the migrations and the pool are closed
    again.  A database that is up to date stays so, so that restarting the
    relay is safe; and [Close] gives the pool back. *)
Theorem store_New_migrated (url : string) (o o' : Opened) (r : error + Pool) :
  store_New url o = (r, o') →
  sql_handles o' = sql_handles o ∧ (up_to_date (cluster o) → up_to_date (cluster o')) ∧
  match r with
  | inr pool => up_to_date (cluster o') ∧ Ping pool (cluster o') = inr tt ∧ pools o' = S (pools o) ∧
      pools (store_Close o').2 = pools o
  | inl _ => pools o' = pools o
  end.
Proof.
  intros Hrun. revert r o' Hrun. enough (wp (store_New url) (λ r o',
    sql_handles o' = sql_handles o ∧ (up_to_date (cluster o) → up_to_date (cluster o')) ∧
    match r with
    | inr pool => up_to_date (cluster o') ∧ Ping pool (cluster o') = inr tt ∧ pools o' = S (pools o) ∧
        pools (store_Close o').2 = pools o
    | inl _ => pools o' = pools o
    end) o) as Hwp by (intros r o' Hrun; exact (wp_run _ _ _ _ _ Hwp Hrun)).
  unfold store_New. wp_simpl. wp_use (migrateUp_wp url o). intros [e|[]] o1 (Hh & Hp & Hk & Hr); [done|].
  wp_simpl. rewrite wp_lift. destruct (pgxpool_New url) as [e|pool]; [done|]. wp_simpl.
  destruct (Ping pool (cluster (add_pool o1))) as [e|[]] eqn:Hping; wp_simpl; cbn in *; [done|].
  split_and!; auto.
Qed.

End open.

(** A server whose state is the number of migrations applied, of one. *)
Definition toy_drivers : Drivers := {|
  Cluster := nat;
  MigrationSource := unit; SqlDB := unit; MigrationDriver := unit; Migrator := unit; Pool := string;
  iofs_New _ := inr tt;
  sql_Open _ _ := inr tt;
  WithInstance _ c := (inr tt, c);
  NewWithInstance _ _ _ _ := inr tt;
  Up _ c := if decide (c = 1) then (inl (ErrorString "no change"), c) else (inr tt, 1);
  ErrNoChange := ErrorString "no change";
  pgxpool_New url := inr url;
  Ping p _ := if String.eqb p "postgres://db" then inr tt else inl (ErrorString "refused")
|}.

Lemma toy_drivers_ok : @DriversOk toy_drivers.
Proof.
  refine (@Build_DriversOk toy_drivers (λ c : nat, c = 1) _ _ _ _); cbn; intros; repeat case_decide; by simplify_eq/=.
Defined.

#[local] Existing Instances toy_drivers toy_drivers_ok.

(** A first start, and a start with another URL that does not answer. *)
Lemma store_New_migrated_witness :
  (store_New "postgres://db" (mkOpened 0 0 0)).1 = inr "postgres://db" ∧
  up_to_date (cluster (store_New "postgres://db" (mkOpened 0 0 0)).2) ∧
  pools (store_New "postgres://other" (mkOpened 0 0 0)).2 = 0.
Proof.
  assert ((store_New "postgres://db" (mkOpened 0 0 0)).1 = inr "postgres://db") as E by reflexivity.
  split; [exact E|]. split; [|reflexivity].
  refine (proj1 (proj2 (proj2 (store_New_migrated "postgres://db" (mkOpened 0 0 0) _ (inr "postgres://db") _)))).
  rewrite <-E. apply surjective_pairing.
Defined.
