(* ===== verification/AuthSession.v ===== *)
(** Pending browser logins: the [AuthSessionStoreI] interface of
    internal/relay/store.go with its contract, and the in-memory
    implementation of internal/relay/authsession_memory.go.

    The mutex is held for the whole of each operation, so each is one step;
    [Create] draws its id before locking, which no other operation sees. *)
From Stdlib Require Import ZArith Lia.
From stdpp Require Import base gmap strings list pretty.
From S2P Require Import Prelude.

Record AuthSessionData := mkSession {
  ID : string;
  Provider : string;
  CodeVerifier : string;
  Source : string;
  IDToken : string;
  CreatedAt : Time
}.

Definition set_Provider (provider codeVerifier : string) (d : AuthSessionData) : AuthSessionData :=
  mkSession (ID d) provider codeVerifier (Source d) (IDToken d) (CreatedAt d).

Definition set_IDToken (idToken : string) (d : AuthSessionData) : AuthSessionData :=
  mkSession (ID d) (Provider d) (CodeVerifier d) (Source d) idToken (CreatedAt d).

#[export] Instance AuthSessionData_eq_dec : EqDecision AuthSessionData.
Proof. solve_decision. Defined.

(** * The interface

    [(T, bool, error)] is a result of type [option T]. *)
Class AuthSessionStore (S : Type) := {
  as_Create : string → string → string → M S error AuthSessionData;
  as_Get : string → M S error (option AuthSessionData);
  as_SetProvider : string → string → string → M S error unit;
  as_Complete : string → string → M S error unit;
  as_Consume : string → M S error (option string)
}.

Abbreviation sessions_map := (gmap string AuthSessionData).

(** Each operation against the map of pending sessions; [old d] says that a
    session is past its time to live. *)
Definition Create_post (provider verifier source : string)
    (m : sessions_map) (r : error + AuthSessionData) (m' : sessions_map) : Prop :=
  match r with
  | inl _ => m' = m
  | inr d => m !! ID d = None ∧ Provider d = provider ∧ CodeVerifier d = verifier ∧
      Source d = source ∧ IDToken d = EmptyString ∧ m' = <[ID d := d]> m
  end.

Definition Get_post (old : AuthSessionData → bool) (id : string)
    (m : sessions_map) (r : error + option AuthSessionData) (m' : sessions_map) : Prop :=
  match r with
  | inl _ => m' = m
  | inr (Some d) => m !! id = Some d ∧ old d = false ∧ m' = m
  | inr None => (∀ d, m !! id = Some d → old d = true) ∧ m' = delete id m
  end.

Definition SetProvider_post (id provider verifier : string)
    (m : sessions_map) (r : error + unit) (m' : sessions_map) : Prop :=
  match r with inl _ => m' = m | inr _ => m' = alter (set_Provider provider verifier) id m end.

Definition Complete_post (id idToken : string)
    (m : sessions_map) (r : error + unit) (m' : sessions_map) : Prop :=
  match r with inl _ => m' = m | inr _ => m' = alter (set_IDToken idToken) id m end.

Definition Consume_post (id : string)
    (m : sessions_map) (r : error + option string) (m' : sessions_map) : Prop :=
  match r with
  | inl _ => m' = m
  | inr None => (∀ d, m !! id = Some d → IDToken d = EmptyString) ∧ m' = m
  | inr (Some tok) => tok ≠ EmptyString ∧ (∃ d, m !! id = Some d ∧ IDToken d = tok) ∧ m' = delete id m
  end.

Class AuthSessionStoreOk (S : Type) `{AuthSessionStore S} := {
  as_view : S → sessions_map;
  as_old : S → AuthSessionData → bool;
  as_inv : S → Prop;
  as_keys : ∀ s id d, as_inv s → as_view s !! id = Some d → ID d = id;
  as_Create_ok : ∀ s p v src, as_inv s →
    wp (as_Create p v src) (λ r s', as_inv s' ∧ Create_post p v src (as_view s) r (as_view s')) s;
  as_Get_ok : ∀ s id, as_inv s →
    wp (as_Get id) (λ r s', as_inv s' ∧ Get_post (as_old s) id (as_view s) r (as_view s')) s;
  as_SetProvider_ok : ∀ s id p v, as_inv s →
    wp (as_SetProvider id p v) (λ r s', as_inv s' ∧ SetProvider_post id p v (as_view s) r (as_view s')) s;
  as_Complete_ok : ∀ s id tok, as_inv s →
    wp (as_Complete id tok) (λ r s', as_inv s' ∧ Complete_post id tok (as_view s) r (as_view s')) s;
  as_Consume_ok : ∀ s id, as_inv s →
    wp (as_Consume id) (λ r s', as_inv s' ∧ Consume_post id (as_view s) r (as_view s')) s
}.

(** * The in-memory implementation

    [mem_ids] are the results of the calls of [nanoid.New]: [None] is a
    failure of the random source, for which it returns the empty id. *)
Record MemoryAuthSessionStore := mkMem {
  sessions : sessions_map;
  ttl : Duration;
  stopped : bool;
  mem_now : Time;
  mem_ids : nat → option string;
  mem_pos : nat
}.

Definition NewMemoryAuthSessionStore (ttl : Duration) (now : Time) (ids : nat → option string) : MemoryAuthSessionStore :=
  mkMem ∅ ttl false now ids 0.

Definition set_sessions (m : sessions_map) (s : MemoryAuthSessionStore) : MemoryAuthSessionStore :=
  mkMem m (ttl s) (stopped s) (mem_now s) (mem_ids s) (mem_pos s).

(** [id, _ := nanoid.New()] *)
Definition nanoid_New : M MemoryAuthSessionStore error string :=
  λ s, (inr (default EmptyString (mem_ids s (mem_pos s))),
        mkMem (sessions s) (ttl s) (stopped s) (mem_now s) (mem_ids s) (S (mem_pos s))).

Definition Mem_Create (provider codeVerifier source : string) : M MemoryAuthSessionStore error AuthSessionData :=
  let! id := nanoid_New in
  let! tnow := gets mem_now in
  let sess := mkSession id provider codeVerifier source EmptyString tnow in
  do! modify (λ s, set_sessions (<[id := sess]> (sessions s)) s) in
  ret sess.

(** [time.Since(sess.CreatedAt) > s.ttl] *)
Definition expired (s : MemoryAuthSessionStore) (sess : AuthSessionData) : bool :=
  Z.ltb (ttl s) (Time_Sub (mem_now s) (CreatedAt sess)).

Definition Mem_Get (id : string) : M MemoryAuthSessionStore error (option AuthSessionData) :=
  let! s := get in
  match sessions s !! id with
  | None => ret None
  | Some sess =>
      if expired s sess then
        do! modify (set_sessions (delete id (sessions s))) in
        ret None
      else ret (Some sess)
  end.

Definition Mem_SetProvider (id provider codeVerifier : string) : M MemoryAuthSessionStore error unit :=
  let! s := get in
  match sessions s !! id with
  | Some sess => modify (set_sessions (<[id := set_Provider provider codeVerifier sess]> (sessions s)))
  | None => ret tt
  end.

Definition Mem_Complete (id idToken : string) : M MemoryAuthSessionStore error unit :=
  let! s := get in
  match sessions s !! id with
  | Some sess => modify (set_sessions (<[id := set_IDToken idToken sess]> (sessions s)))
  | None => ret tt
  end.

Definition Mem_Consume (id : string) : M MemoryAuthSessionStore error (option string) :=
  let! s := get in
  match sessions s !! id with
  | None => ret None
  | Some sess =>
      if String.eqb (IDToken sess) EmptyString then ret None
      else do! modify (set_sessions (delete id (sessions s))) in ret (Some (IDToken sess))
  end.

(** [Stop]; [None] is the panic of closing a closed channel. *)
Definition Mem_Stop (s : MemoryAuthSessionStore) : option MemoryAuthSessionStore :=
  if stopped s then None
  else Some (mkMem (sessions s) (ttl s) true (mem_now s) (mem_ids s) (mem_pos s)).

(** The body of a tick: the range deletes the expired entries, in any order. *)
Definition sweep `{MapRange} (s : MemoryAuthSessionStore) : MemoryAuthSessionStore :=
  set_sessions (foldl (λ m kv, if expired s kv.2 then delete kv.1 m else m)
    (sessions s) (map_range (sessions s))) s.

(** One wake-up of the cleanup goroutine; [None] when it returns.  When both
    the stop channel and the ticker are ready, [select] may take either. *)
Inductive cleanup_step `{MapRange} : MemoryAuthSessionStore → option MemoryAuthSessionStore → Prop :=
  | cleanup_stop s : stopped s = true → cleanup_step s None
  | cleanup_tick s : cleanup_step s (Some (sweep s)).

#[export] Instance Mem_AuthSessionStore : AuthSessionStore MemoryAuthSessionStore := {
  as_Create := Mem_Create;
  as_Get := Mem_Get;
  as_SetProvider := Mem_SetProvider;
  as_Complete := Mem_Complete;
  as_Consume := Mem_Consume
}.

(** * The implementation keeps the contract *)

(** The ids still to be drawn exist, are distinct and unused. *)
Record mem_inv (s : MemoryAuthSessionStore) : Prop := {
  mem_keys : ∀ id d, sessions s !! id = Some d → ID d = id;
  mem_ids_new : ∀ n, mem_pos s ≤ n → ∃ id, mem_ids s n = Some id ∧ sessions s !! id = None;
  mem_ids_inj : ∀ n m, mem_pos s ≤ n → mem_pos s ≤ m → mem_ids s n = mem_ids s m → n = m
}.

(** An update that adds no session keeps the invariant. *)
Lemma mem_inv_update s m :
  mem_inv s →
  (∀ id d, m !! id = Some d → ID d = id ∧ is_Some (sessions s !! id)) →
  mem_inv (set_sessions m s).
Proof.
  intros [Hk Hn Hi] Hm. split; simpl; [by intros ?? [??]%Hm| |done].
  intros n ?. destruct (Hn n) as (id & ? & Hid); [done|]. exists id. split; [done|].
  apply eq_None_not_Some. intros [d Hd]. apply Hm in Hd as [_ [? Hd]]. by rewrite Hid in Hd.
Qed.

Lemma mem_inv_insert s id d d' :
  mem_inv s → sessions s !! id = Some d → ID d' = ID d →
  mem_inv (set_sessions (<[id := d']> (sessions s)) s).
Proof.
  intros Hs Hd Hid. apply mem_inv_update; [done|].
  intros k x [[<- <-]|[? Hx]]%lookup_insert_Some.
  - rewrite Hid. split; [by apply (mem_keys _ Hs)|by exists d].
  - split; [by apply (mem_keys _ Hs)|by exists x].
Qed.

Lemma mem_inv_delete s id : mem_inv s → mem_inv (set_sessions (delete id (sessions s)) s).
Proof.
  intros Hs. apply mem_inv_update; [done|].
  intros k x [? Hx]%lookup_delete_Some. split; [by apply (mem_keys _ Hs)|by exists x].
Qed.

Lemma alter_insert_session f (id : string) (m : sessions_map) d :
  m !! id = Some d → alter f id m = <[id := f d]> m.
Proof.
  intros Hd. apply map_eq. intros j. rewrite lookup_alter, lookup_insert.
  case_decide; subst; [|done]. by rewrite Hd.
Qed.

#[local] Hint Resolve mem_inv_delete mem_inv_insert : core.

Lemma Mem_Create_ok s p v src : mem_inv s →
  wp (Mem_Create p v src) (λ r s', mem_inv s' ∧ Create_post p v src (sessions s) r (sessions s')) s.
Proof.
  intros [Hk Hn Hi]. unfold Mem_Create. rewrite wp_bind.
  destruct (Hn (mem_pos s) (le_n _)) as (id & Hid & Hnone).
  unfold nanoid_New, wp. simpl. rewrite Hid. simpl. split; [|done].
  split; simpl.
  - intros k d [[<- <-]|[? ?]]%lookup_insert_Some; auto.
  - intros n ?. destruct (Hn n) as (id' & Hid' & ?); [lia|]. exists id'. split; [done|].
    rewrite lookup_insert_ne; [done|]. intros <-.
    enough (mem_pos s = n) by lia. apply Hi; [lia..|congruence].
  - intros n m ???. apply Hi; [lia..|done].
Qed.

Lemma Mem_Get_ok s id : mem_inv s →
  wp (Mem_Get id) (λ r s', mem_inv s' ∧ Get_post (expired s) id (sessions s) r (sessions s')) s.
Proof.
  intros Hs. unfold Mem_Get. wp_simpl. destruct (sessions s !! id) as [d|] eqn:Hd; wp_simpl.
  - destruct (expired s d) eqn:He; wp_simpl; simpl; [|done].
    split; [auto|]. split; [|done]. intros; simplify_eq; done.
  - split; [done|]. split; [by rewrite Hd|]. by rewrite delete_id.
Qed.

Lemma Mem_SetProvider_ok s id p v : mem_inv s →
  wp (Mem_SetProvider id p v) (λ r s', mem_inv s' ∧ SetProvider_post id p v (sessions s) r (sessions s')) s.
Proof.
  intros Hs. unfold Mem_SetProvider. wp_simpl. destruct (sessions s !! id) as [d|] eqn:Hd; wp_simpl; simpl.
  - split; [by eapply mem_inv_insert|]. by rewrite (alter_insert_session _ _ _ d).
  - split; [done|]. symmetry. apply alter_id. intros; simplify_eq.
Qed.

Lemma Mem_Complete_ok s id tok : mem_inv s →
  wp (Mem_Complete id tok) (λ r s', mem_inv s' ∧ Complete_post id tok (sessions s) r (sessions s')) s.
Proof.
  intros Hs. unfold Mem_Complete. wp_simpl. destruct (sessions s !! id) as [d|] eqn:Hd; wp_simpl; simpl.
  - split; [by eapply mem_inv_insert|]. by rewrite (alter_insert_session _ _ _ d).
  - split; [done|]. symmetry. apply alter_id. intros; simplify_eq.
Qed.

Lemma Mem_Consume_ok s id : mem_inv s →
  wp (Mem_Consume id) (λ r s', mem_inv s' ∧ Consume_post id (sessions s) r (sessions s')) s.
Proof.
  intros Hs. unfold Mem_Consume. wp_simpl. destruct (sessions s !! id) as [d|] eqn:Hd; wp_simpl; [|split; [done|]; split; [|done]; intros; congruence].
  destruct (String.eqb_spec (IDToken d) EmptyString); wp_simpl; simpl.
  - split; [done|]. split; [|done]. intros; simplify_eq; done.
  - split; [auto|]. split; [done|]. split; [by exists d|done].
Qed.

#[export] Instance Mem_AuthSessionStoreOk : AuthSessionStoreOk MemoryAuthSessionStore := {
  as_view := sessions;
  as_old := expired;
  as_inv := mem_inv;
  as_keys := λ s id d H, mem_keys s H id d;
  as_Create_ok := Mem_Create_ok;
  as_Get_ok := Mem_Get_ok;
  as_SetProvider_ok := Mem_SetProvider_ok;
  as_Complete_ok := Mem_Complete_ok;
  as_Consume_ok := Mem_Consume_ok
}.

(** * Histories

    The calls of the store with their replies, the passing of time and the
    ticks of the cleanup goroutine. *)

Inductive sess_op :=
  | SCreate (provider codeVerifier source : string)
  | SGet (id : string)
  | SSetProvider (id provider codeVerifier : string)
  | SComplete (id idToken : string)
  | SConsume (id : string)
  | SSweep
  | SWait (d : Duration).

Inductive sess_reply :=
  | SSession (d : AuthSessionData)
  | SFound (d : option AuthSessionData)
  | SToken (tok : option string)
  | SDone
  | SError (e : error).

Definition sess_result {A} (f : A → sess_reply) (r : error + A) : sess_reply :=
  match r with inl e => SError e | inr a => f a end.

Definition wait (d : Duration) (s : MemoryAuthSessionStore) : MemoryAuthSessionStore :=
  mkMem (sessions s) (ttl s) (stopped s) (mem_now s + d) (mem_ids s) (mem_pos s).

Section histories.
  Context `{MapRange}.

Definition sess_step (o : sess_op) (s : MemoryAuthSessionStore) : sess_reply * MemoryAuthSessionStore :=
  match o with
  | SCreate p v src => let '(r, s') := Mem_Create p v src s in (sess_result SSession r, s')
  | SGet id => let '(r, s') := Mem_Get id s in (sess_result SFound r, s')
  | SSetProvider id p v => let '(r, s') := Mem_SetProvider id p v s in (sess_result (λ _, SDone) r, s')
  | SComplete id tok => let '(r, s') := Mem_Complete id tok s in (sess_result (λ _, SDone) r, s')
  | SConsume id => let '(r, s') := Mem_Consume id s in (sess_result SToken r, s')
  | SSweep => (SDone, sweep s)
  | SWait d => (SDone, wait d s)
  end.

Fixpoint sess_run (os : list sess_op) (s : MemoryAuthSessionStore) : list (sess_op * sess_reply) * MemoryAuthSessionStore :=
  match os with
  | [] => ([], s)
  | o :: os =>
      let '(r, s1) := sess_step o s in
      let '(tr, s2) := sess_run os s1 in ((o, r) :: tr, s2)
  end.

(** ** The sweep *)

Lemma sweep_fold (l : list (string * AuthSessionData)) s (m : sessions_map) id d :
  NoDup l.*1 →
  foldl (λ m kv, if expired s kv.2 then delete kv.1 m else m) m l !! id = Some d ↔
  m !! id = Some d ∧ ∀ d', (id, d') ∈ l → expired s d' = false.
Proof.
  revert m. induction l as [|[k x] l IH]; intros m; simpl.
  { intros _. split; [|naive_solver]. intros ?. split; [done|]. by intros ? ?%elem_of_nil. }
  intros [Hk Hnd]%NoDup_cons. rewrite IH by done. clear IH.
  assert (∀ d', (id, d') ∈ (k, x) :: l ↔ id = k ∧ d' = x ∨ (id, d') ∈ l) as Hin.
  { intros. rewrite elem_of_cons. naive_solver. }
  setoid_rewrite Hin. destruct (expired s x) eqn:He.
  - rewrite lookup_delete_Some. split.
    + intros [[Hne Hm] Hl]. split; [done|]. intros d' [[-> _]|?]; [done|auto].
    + intros [Hm Hl]. split; [split; [|done]|auto]. intros ->.
      specialize (Hl x (or_introl (conj eq_refl eq_refl))). congruence.
  - split.
    + intros [Hm Hl]. split; [done|]. intros d' [[_ ->]|?]; auto.
    + intros [Hm Hl]. split; auto.
Qed.

Lemma sweep_spec s id d :
  sessions (sweep s) !! id = Some d ↔ sessions s !! id = Some d ∧ expired s d = false.
Proof.
  unfold sweep. cbn. rewrite sweep_fold.
  - setoid_rewrite (map_range_perm (sessions s)). setoid_rewrite elem_of_map_to_list. naive_solver.
  - rewrite (map_range_perm (sessions s)). apply NoDup_fst_map_to_list.
Qed.

Lemma sweep_inv s : mem_inv s → mem_inv (sweep s).
Proof.
  intros Hs. unfold sweep. apply mem_inv_update; [done|]. intros id d Hd.
  assert (sessions (sweep s) !! id = Some d) as [? _]%sweep_spec by done.
  split; [by apply (mem_keys _ Hs)|by exists d].
Qed.

(** ** One step *)

(** No session [id] is pending and none will be. *)
Definition gone (id : string) (s : MemoryAuthSessionStore) : Prop :=
  sessions s !! id = None ∧ ∀ n, mem_pos s ≤ n → mem_ids s n ≠ Some id.

Lemma sess_step_inv o s : mem_inv s → mem_inv (sess_step o s).2.
Proof.
  intros Hs. destruct o; cbn [sess_step]; [| | | | |by apply sweep_inv|by destruct Hs].
  - pose proof (Mem_Create_ok s provider codeVerifier source Hs) as Hw.
    unfold wp in Hw. by destruct (Mem_Create _ _ _ _) as [? ?], Hw.
  - pose proof (Mem_Get_ok s id Hs) as Hw. unfold wp in Hw. by destruct (Mem_Get _ _) as [? ?], Hw.
  - pose proof (Mem_SetProvider_ok s id provider codeVerifier Hs) as Hw.
    unfold wp in Hw. by destruct (Mem_SetProvider _ _ _ _) as [? ?], Hw.
  - pose proof (Mem_Complete_ok s id idToken Hs) as Hw.
    unfold wp in Hw. by destruct (Mem_Complete _ _ _) as [? ?], Hw.
  - pose proof (Mem_Consume_ok s id Hs) as Hw. unfold wp in Hw. by destruct (Mem_Consume _ _) as [? ?], Hw.
Qed.

(** Where the token of a pending session comes from. *)
Lemma sess_step_token o s id d :
  sessions (sess_step o s).2 !! id = Some d → IDToken d ≠ EmptyString →
  o = SComplete id (IDToken d) ∨
  (∀ tok, o ≠ SComplete id tok) ∧ ∃ d0, sessions s !! id = Some d0 ∧ IDToken d0 = IDToken d.
Proof.
  intros Hd Htok.
  assert (∀ d0, (∀ tok, o ≠ SComplete id tok) → sessions s !! id = Some d0 → IDToken d0 = IDToken d →
    o = SComplete id (IDToken d) ∨
    (∀ tok, o ≠ SComplete id tok) ∧ ∃ d0, sessions s !! id = Some d0 ∧ IDToken d0 = IDToken d) as Hkeep by eauto.
  revert Hd. destruct o as [p v src|k|k p v|k tok|k| |w]; cbn -[Mem_Create]; unfold bind, get; cbn -[Mem_Create].
  - unfold Mem_Create. cbn. intros [[_ <-]|[_ ?]]%lookup_insert_Some; [done|]. by (intros; apply (Hkeep d)).
  - destruct (sessions s !! k) as [x|]; [|by (intros; apply (Hkeep d))].
    destruct (expired s x); cbn; [|by (intros; apply (Hkeep d))].
    intros [_ ?]%lookup_delete_Some. by (intros; apply (Hkeep d)).
  - destruct (sessions s !! k) as [x|] eqn:Hx; cbn; [|by (intros; apply (Hkeep d))].
    intros [[<- <-]|[_ ?]]%lookup_insert_Some; [by apply (Hkeep x)|by apply (Hkeep d)].
  - destruct (decide (k = id)) as [->|].
    + destruct (sessions s !! id) as [x|] eqn:Hx; cbn; [|congruence].
      rewrite lookup_insert_eq. intros [= <-]. by left.
    + intros Hd. apply (Hkeep d); [congruence| |done].
      destruct (sessions s !! k) as [x|] eqn:Hx; cbn in Hd; [|done]. by rewrite lookup_insert_ne in Hd.
  - destruct (sessions s !! k) as [x|]; [|by (intros; apply (Hkeep d))].
    destruct (String.eqb _ _); cbn; [by (intros; apply (Hkeep d))|].
    intros [_ ?]%lookup_delete_Some. by (intros; apply (Hkeep d)).
  - intros [? _]%sweep_spec. by (intros; apply (Hkeep d)).
  - by (intros; apply (Hkeep d)).
Qed.

Lemma sess_step_gone o s id : mem_inv s → gone id s → gone id (sess_step o s).2.
Proof.
  intros Hs [Hn Hids].
  assert (∀ m, m !! id = None → gone id (set_sessions m s)) as Hset by (by split).
  destruct o as [p v src|k|k p v|k tok|k| |w]; cbn -[Mem_Create]; unfold bind, get; cbn -[Mem_Create].
  - unfold Mem_Create. cbn. split; cbn; [|intros; apply Hids; lia].
    destruct (mem_ids_new _ Hs (mem_pos s) (le_n _)) as (j & Hj & _). rewrite Hj. cbn.
    rewrite lookup_insert_ne; [done|]. intros ->. by apply (Hids (mem_pos s)).
  - destruct (sessions s !! k) as [x|]; [|done]. destruct (expired s x); [|done].
    apply Hset. by rewrite lookup_delete_None; right.
  - destruct (sessions s !! k) as [x|] eqn:Hx; [|done].
    apply Hset. rewrite lookup_insert_ne; [done|congruence].
  - destruct (sessions s !! k) as [x|] eqn:Hx; [|done].
    apply Hset. rewrite lookup_insert_ne; [done|congruence].
  - destruct (sessions s !! k) as [x|]; [|done]. destruct (String.eqb _ _); [done|].
    apply Hset. by rewrite lookup_delete_None; right.
  - apply Hset. apply eq_None_not_Some. intros [d Hd].
    assert (sessions (sweep s) !! id = Some d) as [? _]%sweep_spec by done. congruence.
  - done.
Qed.

Lemma consume_gone s id tok :
  mem_inv s → (sess_step (SConsume id) s).1 = SToken (Some tok) → gone id (sess_step (SConsume id) s).2.
Proof.
  intros Hs. cbn. unfold bind, get. cbn. destruct (sessions s !! id) as [x|] eqn:Hx; [|done].
  destruct (String.eqb _ _); [done|]. cbn. intros _. split; cbn; [apply lookup_delete_eq|].
  intros n Hn Hid. destruct (mem_ids_new _ Hs n Hn) as (j & Hj & ?). congruence.
Qed.

Lemma consume_token s id tok :
  (sess_step (SConsume id) s).1 = SToken (Some tok) →
  tok ≠ EmptyString ∧ ∃ d, sessions s !! id = Some d ∧ IDToken d = tok.
Proof.
  cbn. unfold bind, get. cbn. destruct (sessions s !! id) as [x|] eqn:Hx; [|done].
  destruct (String.eqb_spec (IDToken x) EmptyString); [done|]. cbn. intros [= <-]. eauto.
Qed.

(** ** Histories *)

Lemma sess_run_cons o os s :
  sess_run (o :: os) s =
  ((o, (sess_step o s).1) :: (sess_run os (sess_step o s).2).1, (sess_run os (sess_step o s).2).2).
Proof. cbn. destruct (sess_step o s) as [r s1]. cbn. by destruct (sess_run os s1). Qed.

Lemma sess_run_gone os s id j tok :
  mem_inv s → gone id s → (sess_run os s).1 !! j ≠ Some (SConsume id, SToken (Some tok)).
Proof.
  revert s j. induction os as [|o os IH]; intros s j Hs Hg; [done|]. rewrite sess_run_cons.
  destruct j as [|j]; cbn -[sess_step]; [|by apply IH; [apply sess_step_inv|apply sess_step_gone]].
  intros [= -> (_ & d & Hd & _)%consume_token]. destruct Hg as [Hn _]. congruence.
Qed.

Lemma sess_run_once os s id i j tok tok' :
  mem_inv s → i < j →
  (sess_run os s).1 !! i = Some (SConsume id, SToken (Some tok)) →
  (sess_run os s).1 !! j ≠ Some (SConsume id, SToken (Some tok')).
Proof.
  revert s i j. induction os as [|o os IH]; intros s i j Hs Hij; [done|]. rewrite sess_run_cons.
  destruct j as [|j]; [lia|]. destruct i as [|i]; cbn -[sess_step].
  - intros [= -> Hc]. apply sess_run_gone; [by apply sess_step_inv|by eapply consume_gone].
  - intros Hi. eapply (IH _ i); [by apply sess_step_inv|lia|exact Hi].
Qed.

(** A token handed out was in the session at the start and has not been
    replaced since, or was put there by the latest [Complete]. *)
Lemma sess_run_source os s id i tok :
  (sess_run os s).1 !! i = Some (SConsume id, SToken (Some tok)) →
  tok ≠ EmptyString ∧
  ((∃ d, sessions s !! id = Some d ∧ IDToken d = tok) ∧
     (∀ k tok', k < i → os !! k ≠ Some (SComplete id tok')) ∨
   ∃ j, j < i ∧ os !! j = Some (SComplete id tok) ∧
     ∀ k tok', j < k < i → os !! k ≠ Some (SComplete id tok')).
Proof.
  revert s i. induction os as [|o os IH]; intros s i; [done|]. rewrite sess_run_cons.
  destruct i as [|i]; cbn -[sess_step].
  { intros [= -> [? ?]%consume_token]. split; [done|]. left. split; [done|]. lia. }
  intros Hi. destruct (IH _ _ Hi) as [Hne Hsrc]. split; [done|].
  destruct Hsrc as [[(d & Hd & Htok) Hlast]|(j & Hj & Hc & Hlast)].
  - subst tok. destruct (sess_step_token _ _ _ _ Hd Hne) as [->|[Ho ?]].
    + right. exists 0. split; [lia|]. split; [done|].
      intros [|k] tok' ?; [lia|]. apply Hlast. lia.
    + left. split; [done|]. intros [|k] tok' ?; cbn; [congruence|]. apply Hlast. lia.
  - right. exists (S j). split; [lia|]. split; [done|].
    intros [|k] tok' ?; [lia|]. apply Hlast. lia.
Qed.

End histories.

(** * Properties *)

(** C21: A token is handed out once.  In any history of creations, lookups,
    completions, consumptions, sweeps and pauses that starts with no pending
    session: a consumption that returns a token returns the non-empty token
    of the latest completion of that session before it, and every later
    consumption of that session returns none. *)
Theorem auth_session_one_shot `{MapRange} (os : list sess_op) (s : MemoryAuthSessionStore) (id tok : string) (i : nat) :
  mem_inv s → sessions s = ∅ →
  (sess_run os s).1 !! i = Some (SConsume id, SToken (Some tok)) →
  tok ≠ EmptyString ∧
  (∃ j, j < i ∧ os !! j = Some (SComplete id tok) ∧
    ∀ k tok', j < k < i → os !! k ≠ Some (SComplete id tok')) ∧
  (∀ j tok', i < j → (sess_run os s).1 !! j ≠ Some (SConsume id, SToken (Some tok'))).
Proof.
  intros Hs Hempty Hi. destruct (sess_run_source _ _ _ _ _ Hi) as [Hne [[(d & Hd & _) _]|Hsrc]].
  { by rewrite Hempty, lookup_empty in Hd. }
  split; [done|]. split; [done|]. intros j tok' Hij. by eapply sess_run_once.
Qed.

(** C33: Expiry.  For a time to live within the range of [time.Duration]: a
    lookup returns exactly the pending session that is no older than that,
    and forgets an older one; and a tick of the cleanup keeps exactly the
    sessions that are no older, whatever order it visits them in.  A
    consumption does not look at the age: it returns the token of a completed
    session that a lookup would already refuse. *)
Theorem auth_session_expiry `{MapRange} (s : MemoryAuthSessionStore) (id : string) (d : AuthSessionData) :
  (minDuration ≤ ttl s < maxDuration)%Z →
  ((Mem_Get id s).1 = inr (Some d) ↔ sessions s !! id = Some d ∧ (mem_now s - CreatedAt d ≤ ttl s)%Z) ∧
  (sessions s !! id = Some d → (mem_now s - CreatedAt d > ttl s)%Z → sessions (Mem_Get id s).2 = delete id (sessions s)) ∧
  (sessions (sweep s) !! id = Some d ↔ sessions s !! id = Some d ∧ (mem_now s - CreatedAt d ≤ ttl s)%Z) ∧
  (sessions s !! id = Some d → IDToken d ≠ EmptyString → (Mem_Consume id s).1 = inr (Some (IDToken d))).
Proof.
  intros Httl.
  assert (∀ x, expired s x = true ↔ (mem_now s - CreatedAt x > ttl s)%Z) as He.
  { intros x. unfold expired. rewrite Z.ltb_lt. pose proof (Time_Sub_gt (mem_now s) (CreatedAt x) _ Httl). lia. }
  assert (∀ x, expired s x = false ↔ (mem_now s - CreatedAt x ≤ ttl s)%Z) as Hl.
  { intros x. rewrite <-not_true_iff_false, He. lia. }
  unfold Mem_Get, Mem_Consume, bind, get. cbn -[sweep]. split; [|split; [|split]].
  - destruct (sessions s !! id) as [x|]; [|by split; [|intros [? _]]].
    destruct (expired s x) eqn:Hx; cbn.
    + split; [done|]. intros [[= <-] ?]. apply He in Hx. lia.
    + apply Hl in Hx. split; [by intros [= <-]|by intros [[= <-] _]].
  - intros ->. by intros ->%He.
  - by rewrite sweep_spec, Hl.
  - intros ->. by destruct (String.eqb_spec (IDToken d) EmptyString).
Qed.

(** A login from the CLI: created, given a provider, completed after a wait,
    polled twice; a second session is abandoned and swept. *)
Definition nanoids0 (n : nat) : option string := Some (pretty n).

Definition mem0 : MemoryAuthSessionStore := NewMemoryAuthSessionStore (5 * Minute) 0 nanoids0.

Lemma mem_inv0 : mem_inv mem0.
Proof.
  split; simpl; [done| |].
  - intros n _. by exists (pretty n).
  - intros n m _ _ [= ?]. by apply (inj pretty).
Qed.

#[local] Existing Instance range_in_order.

Definition history0 : list sess_op :=
  [ SCreate EmptyString EmptyString "cli"; SCreate "google" "v" "web"; SSetProvider "0" "google" "verifier";
    SWait (4 * Minute); SComplete "0" "tok"; SConsume "1"; SWait (2 * Minute); SGet "1"; SConsume "0";
    SConsume "0"; SSweep ].

Lemma auth_session_one_shot_witness :
  (sess_run history0 mem0).1 !! 8 = Some (SConsume "0", SToken (Some "tok")) ∧
  ∀ j tok', 8 < j → (sess_run history0 mem0).1 !! j ≠ Some (SConsume "0", SToken (Some tok')).
Proof.
  assert ((sess_run history0 mem0).1 !! 8 = Some (SConsume "0", SToken (Some "tok"))) as E
    by (vm_compute; reflexivity).
  split; [exact E|]. exact (proj2 (proj2 (auth_session_one_shot history0 mem0 "0" "tok" 8 mem_inv0 eq_refl E))).
Defined.

(** The completed session is a minute past its time to live. *)
Lemma auth_session_expiry_witness :
  let s := (sess_run (take 7 history0) mem0).2 in
  (Mem_Consume "0" s).1 = inr (Some "tok") ∧ (Mem_Get "0" s).1 = inr None.
Proof.
  intros s. assert (sessions s !! "0" = Some (mkSession "0" "google" "verifier" "cli" "tok" 0)) as E
    by (vm_compute; reflexivity).
  assert (minDuration ≤ ttl s < maxDuration)%Z as Httl by (vm_compute; split; [discriminate|reflexivity]).
  split; [|vm_compute; reflexivity].
  apply (proj2 (proj2 (proj2 (auth_session_expiry s "0" _ Httl))) E). vm_compute. discriminate.
Defined.
