(* ===== verification/Http.v ===== *)
(** Requests, responses and JSON values, as the handlers of internal/relay
    and the clients of internal/cli see them (net/http, encoding/json).

    A JSON text is represented by the value it denotes, [None] for a text
    that is not JSON; the decoding of a value into a struct, and the errors it
    gives, are modelled. *)
From Stdlib Require Import ZArith Lia Ascii.
From stdpp Require Import base strings list.
From S2P Require Import Prelude GoStrings.

(** * JSON *)

Inductive json :=
  | JNull
  | JBool (b : bool)
  | JNum (n : Z)
  | JTime (t : Time)                   (** the RFC 3339 string of a time *)
  | JString (s : string)
  | JList (l : list json)
  | JObject (l : list (string * json)).

Definition lower_byte (c : ascii) : ascii :=
  let n := nat_of_ascii c in
  if (65 <=? n) && (n <=? 90) then ascii_of_nat (n + 32) else c.

Fixpoint ToLower (s : string) : string :=
  match s with
  | EmptyString => EmptyString
  | String c s => String (lower_byte c) (ToLower s)
  end.

(** The field of a struct a member's key selects: the key as it is written,
    or else up to (ASCII) case. *)
Definition field_of (fields : list string) (key : string) : option string :=
  match List.find (String.eqb key) fields with
  | Some f => Some f
  | None => List.find (λ f, String.eqb (ToLower f) (ToLower key)) fields
  end.

(** Decoding into a struct whose fields are strings: members are read in
    order, null leaves the field as it is, a member of another type is
    skipped and makes the result an error. *)
Fixpoint decode_members (fields : list string) (l : list (string * json))
    (ok : bool) (vs : list (string * string)) : bool * list (string * string) :=
  match l with
  | [] => (ok, vs)
  | (k, v) :: l =>
      match field_of fields k, v with
      | None, _ | _, JNull => decode_members fields l ok vs
      | Some f, JString s => decode_members fields l ok (Values_Set f s vs)
      | Some _, _ => decode_members fields l false vs
      end
  end.

(** The fields left in the struct, and whether decoding succeeded. *)
Definition Decode_lax (fields : list string) (v : option json) : bool * list (string * string) :=
  match v with
  | None => (false, [])
  | Some JNull => (true, [])
  | Some (JObject l) => decode_members fields l true []
  | Some _ => (false, [])
  end.

Definition Decode (fields : list string) (v : option json) : option (list (string * string)) :=
  let '(ok, vs) := Decode_lax fields v in if ok then Some vs else None.

Definition strings_json (l : list (string * string)) : json :=
  JObject ((λ kv, (kv.1, JString kv.2)) <$> l).

(** * Requests *)

Record Request := mkRequest {
  Method : string;
  Authorization : string;
  Query : list (string * string);
  PostForm : option (list (string * string));    (** [None]: the body is malformed *)
  PathValue : string;
  Body : option json
}.

(** [r.FormValue]: the body's values of a POST come before the query's. *)
Definition FormValue (r : Request) (key : string) : string :=
  Values_Get key ((if String.eqb (Method r) "POST" then default [] (PostForm r) else []) ++ Query r).

(** * Responses *)

Inductive content :=
  | NoContent
  | Json (v : json)
  | Text (s : string)
  | Html (s : string).

Inductive Response :=
  | Reply (status : nat) (c : content)
  | Redirect (location : string)       (** [http.Redirect] with 302 *)
  | Aborted.                           (** a panic: the connection is closed *)

(** [http.Error] *)
Definition http_Error (msg : string) (status : nat) : Response :=
  Reply status (Text (msg +:+ String (ascii_of_nat 10) EmptyString)).

(** [writeJSONError] of handler_machines.go *)
Definition writeJSONError (status : nat) (msg : string) : Response :=
  Reply status (Json (strings_json [("error", msg)])).

(** [json.NewEncoder(w).Encode(v)] with the implicit 200 *)
Definition writeJSON (v : json) : Response := Reply 200 (Json v).

Definition is_success (r : Response) : bool :=
  match r with Reply st _ => (200 <=? st) && (st <? 300) | _ => false end.

(** * Handlers

    A handler is code whose early returns carry the response written. *)

Definition Handler (S : Type) := M S Response Response.

Definition serve {S} (h : Handler S) (s : S) : Response * S :=
  match h s with
  | (inl r, s') | (inr r, s') => (r, s')
  end.

Lemma serve_wp {S} (h : Handler S) (Q : Response → S → Prop) s :
  wp h (λ r s', match r with inl x | inr x => Q x s' end) s →
  Q (serve h s).1 (serve h s).2.
Proof. unfold wp, serve. by destruct (h s) as [[]]. Qed.
