(* ===== verification/Oidc.v ===== *)
(** Identity providers: the token verifier of internal/auth/oidc.go and the
    authorization middleware of internal/auth/middleware.go.

    The discovery of a provider and the verification of an ID token are those
    of the go-oidc package, outside the repository: they are the parameters
    of [OIDC]. *)
From Stdlib Require Import ZArith Lia Ascii Sorting.Sorted.
From stdpp Require Import base gmap strings list sorting.
From S2P Require Import Prelude GoStrings Http.

(** An ID token's claims, as far as the program reads them. *)
Record OIDCToken := mkOIDCToken { Subject : string; Claims_email : string }.

Class OIDC := {
  OIDCProvider : Type;
  (** [oidc.NewProvider(ctx, issuer)]; [true]: the issuer of the discovery
      document is not compared. *)
  oidc_NewProvider : bool → string → error + OIDCProvider;
  (** [provider.Verifier(cfg).Verify(ctx, rawToken)] with the client ID and
      [SkipIssuerCheck] of [cfg], at a time *)
  oidc_Verify : OIDCProvider → string → bool → Time → string → error + OIDCToken;
  (** members of the discovery document *)
  authorization_endpoint : OIDCProvider → error + string;
  token_endpoint : OIDCProvider → error + string
}.

(** An ECDSA private key is only passed to the JWT library. *)
Record ProviderConfig := mkConfig {
  Name : string;
  Issuer : string;
  ClientID : string;
  ClientSecret : string;
  DeviceAuthURL : string;
  TeamID : string;
  KeyID : string;
  PrivateKey : option string
}.

Definition no_config : ProviderConfig :=
  mkConfig EmptyString EmptyString EmptyString EmptyString EmptyString EmptyString EmptyString None.

Record Identity := mkIdentity {
  Identity_Provider : string;
  Identity_Sub : string;
  Identity_Email : string
}.

Section oidc.
  Context `{OIDC}.

Record providerEntry := mkEntry {
  entry_config : ProviderConfig;
  entry_provider : OIDCProvider;
  entry_skip_issuer : bool      (** [SkipIssuerCheck] of its verifier *)
}.

(** [*Verifier]: the providers map. *)
Abbreviation Verifier := (gmap string providerEntry).

Definition NewVerifier : Verifier := ∅.

Definition AddProvider (cfg : ProviderConfig) : M Verifier error unit :=
  let microsoft := String.eqb (Name cfg) "microsoft" in
  match oidc_NewProvider microsoft (Issuer cfg) with
  | inl err => throw (WrapError ("discover OIDC provider " +:+ Name cfg) err)
  | inr provider => modify (insert (Name cfg) (mkEntry cfg provider microsoft))
  end.

(** [entry.verifier.Verify(ctx, rawToken)] *)
Definition entry_Verify (now : Time) (e : providerEntry) (rawToken : string) : error + OIDCToken :=
  oidc_Verify (entry_provider e) (ClientID (entry_config e)) (entry_skip_issuer e) now rawToken.

(** The loop of [VerifyToken]. *)
Fixpoint try_providers (now : Time) (rawToken : string) (lastErr : option error)
    (l : list (string * providerEntry)) : error + Identity :=
  match l with
  | [] =>
      match lastErr with
      | Some err => inl (WrapError "token verification failed" err)
      | None => inl (ErrorString "no OIDC providers configured")
      end
  | (name, entry) :: l =>
      match entry_Verify now entry rawToken with
      | inl err => try_providers now rawToken (Some err) l
      | inr idToken => inr (mkIdentity name (Subject idToken) (Claims_email idToken))
      end
  end.

Definition VerifyToken `{MapRange} (v : Verifier) (now : Time) (rawToken : string) : error + Identity :=
  try_providers now rawToken None (map_range v).

Definition ProviderNames `{MapRange} (v : Verifier) : list string :=
  sort_by String.leb (map_range v).*1.

Definition GetProvider (v : Verifier) (name : string) : option ProviderConfig :=
  entry_config <$> v !! name.

Definition GetOIDCProvider (v : Verifier) (name : string) : option OIDCProvider :=
  entry_provider <$> v !! name.

Definition GetAuthEndpoint (v : Verifier) (name : string) : option string :=
  match v !! name with
  | None => None
  | Some entry => match authorization_endpoint (entry_provider entry) with inl _ => None | inr u => Some u end
  end.

Definition GetTokenEndpoint (v : Verifier) (name : string) : option string :=
  match v !! name with
  | None => None
  | Some entry => match token_endpoint (entry_provider entry) with inl _ => None | inr u => Some u end
  end.

(** What [Middleware] does with a request: the identity it passes on in the
    context, or the response it writes itself. *)
Definition Middleware `{MapRange} (v : Verifier) (devMode : bool) (now : Time) (auth : string) : Response + Identity :=
  let token := TrimPrefix auth "Bearer " in
  if String.eqb token EmptyString || String.eqb token auth then
    if devMode then inr (mkIdentity "dev" "anonymous" EmptyString)
    else inl (http_Error (q "{`error`:`missing authorization`}") 401)
  else
    match VerifyToken v now token with
    | inr id => inr id
    | inl _ =>
        match devMode, SplitN2 token ":"%char with
        | true, [a; b] => inr (mkIdentity a b EmptyString)
        | _, _ => inl (http_Error (q "{`error`:`invalid token`}") 401)
        end
    end.

(** * Verification *)

(** The token proves identity [id] to the provider registered as [name]. *)
Definition proves (v : Verifier) (now : Time) (rawToken : string) (id : Identity) : Prop :=
  ∃ entry tok, v !! Identity_Provider id = Some entry ∧ entry_Verify now entry rawToken = inr tok ∧
    Identity_Sub id = Subject tok ∧ Identity_Email id = Claims_email tok.

Lemma try_providers_inr now raw last l id :
  try_providers now raw last l = inr id →
  ∃ entry tok, (Identity_Provider id, entry) ∈ l ∧ entry_Verify now entry raw = inr tok ∧
    Identity_Sub id = Subject tok ∧ Identity_Email id = Claims_email tok.
Proof.
  revert last. induction l as [|[name e] l IH]; intros last; simpl; [by destruct last|].
  destruct (entry_Verify now e raw) as [err|tok] eqn:He.
  - intros (e' & tok & ? & ?)%IH. exists e', tok. split; [by right|done].
  - intros [= <-]. exists e, tok. split; [left|done].
Qed.

Lemma try_providers_inl now raw last l err :
  try_providers now raw last l = inl err →
  Forall (λ kv, ∃ e, entry_Verify now kv.2 raw = inl e) l.
Proof.
  revert last. induction l as [|[name e] l IH]; intros last; simpl; [constructor|].
  destruct (entry_Verify now e raw) as [e'|tok] eqn:He; [|done].
  intros ?%IH. constructor; [by exists e'|done].
Qed.

Lemma VerifyToken_inr `{MapRange} v now raw id : VerifyToken v now raw = inr id → proves v now raw id.
Proof.
  intros (entry & tok & Hin & ?)%try_providers_inr. exists entry, tok. split; [|done].
  by rewrite (map_range_perm v), elem_of_map_to_list in Hin.
Qed.

Lemma VerifyToken_inl `{MapRange} v now raw err name entry :
  VerifyToken v now raw = inl err → v !! name = Some entry → ∃ e, entry_Verify now entry raw = inl e.
Proof.
  intros Hl%try_providers_inl Hn. rewrite Forall_forall in Hl. apply (Hl (name, entry)).
  by rewrite (map_range_perm v), elem_of_map_to_list.
Qed.

Lemma ProviderNames_spec `{MapRange} v :
  Sorted (λ a b, String.leb a b = true) (ProviderNames v) ∧ NoDup (ProviderNames v) ∧
  ∀ name, name ∈ ProviderNames v ↔ is_Some (v !! name).
Proof.
  unfold ProviderNames. split; [apply sort_by_Sorted, String.leb_total|].
  rewrite sort_by_Permutation, (map_range_perm v). split; [apply NoDup_fst_map_to_list|].
  intros name. rewrite sort_by_Permutation, (map_range_perm v), list_elem_of_fmap. split.
  - intros ([k e] & -> & Hin%elem_of_map_to_list). by exists e.
  - intros [e He]. exists (name, e). by rewrite elem_of_map_to_list.
Qed.

(** * Properties *)

(** C25: The verifier accepts a token exactly when some registered provider
    verifies it; the identity carries that provider's name and the subject
    and email of the token; and when no two providers accept the token, the
    order in which the map is ranged over does not matter. *)
Theorem VerifyToken_sound_complete (R1 R2 : MapRange) (v : Verifier) (now : Time) (raw : string) :
  (∀ id, VerifyToken (H0 := R1) v now raw = inr id → proves v now raw id) ∧
  (∀ name entry tok, v !! name = Some entry → entry_Verify now entry raw = inr tok →
    ∃ id, VerifyToken (H0 := R1) v now raw = inr id) ∧
  (∀ id1 id2, (∀ id id', proves v now raw id → proves v now raw id' → Identity_Provider id = Identity_Provider id') →
    VerifyToken (H0 := R1) v now raw = inr id1 → VerifyToken (H0 := R2) v now raw = inr id2 → id1 = id2).
Proof.
  split; [intros; by eapply (VerifyToken_inr (H0 := R1))|]. split.
  - intros name entry tok Hn Hv. destruct (VerifyToken (H0 := R1) v now raw) as [err|id] eqn:E; [|by exists id].
    destruct (VerifyToken_inl (H0 := R1) _ _ _ _ _ _ E Hn) as [e He]. congruence.
  - intros id1 id2 Hu H1 H2.
    apply (VerifyToken_inr (H0 := R1)) in H1. apply (VerifyToken_inr (H0 := R2)) in H2. pose proof (Hu _ _ H1 H2) as Hp.
    destruct H1 as (e1 & t1 & ? & ? & ? & ?), H2 as (e2 & t2 & ? & ? & ? & ?), id1, id2; simpl in *.
    simplify_eq. congruence.
Qed.

(** In production the middleware lets a request through only with a
    [Bearer] token that a provider verifies, and then with the identity that
    token proves; every other request is answered with 401. *)
Lemma Middleware_production `{MapRange} (v : Verifier) (now : Time) (auth : string) :
  match Middleware v false now auth with
  | inr id => ∃ token, auth = "Bearer " +:+ token ∧ proves v now token id
  | inl r => ∃ msg, r = http_Error msg 401
  end.
Proof.
  unfold Middleware. set (token := TrimPrefix auth "Bearer ").
  destruct (String.eqb_spec token EmptyString) as [|Hne]; simpl; [by eexists|].
  destruct (String.eqb_spec token auth) as [|Hauth]; simpl; [by eexists|].
  destruct (VerifyToken v now token) as [err|id] eqn:Hv; [by eexists|].
  exists token. split; [|by apply VerifyToken_inr]. unfold token, TrimPrefix in *.
  destruct (HasPrefix auth "Bearer ") eqn:Hp; [|done].
  apply HasPrefix_inv in Hp as [t ->]. by rewrite string_drop_app.
Qed.

End oidc.
