(* ===== verification/ApiKey.v ===== *)
(** API keys (internal/relay/apikey.go): HS256-signed JWTs.

    Signing, parsing and verification of JWTs are those of go-jose, outside
    the repository: the parameters of [Jose], with the documented round trip
    as the law of [JoseOk]. *)
From Stdlib Require Import ZArith Lia Ascii.
From stdpp Require Import base strings list pretty.
From S2P Require Import Prelude GoStrings.

Record APIKeyClaims := mkAPIKeyClaims {
  Claims_Subject : string;
  Claims_KeyID : string;
  Claims_Issuer : string
}.

(** The JWT's payload; [iat] is in seconds. *)
Record apiKeyClaims := mkClaims { sub : string; iss : string; jti : string; iat : Z }.

Class Jose := {
  JSONWebToken : Type;
  (** [jose.NewSigner] with an HS256 key *)
  jose_NewSigner : string → error + unit;
  (** [jwt.Signed(sig).Claims(claims).Serialize()] *)
  jwt_Serialize : string → apiKeyClaims → error + string;
  (** [jwt.ParseSigned(token, {HS256})] *)
  jwt_ParseSigned : string → error + JSONWebToken;
  (** [tok.Claims(secret, &claims)]: checks the signature *)
  jwt_Claims : JSONWebToken → string → error + apiKeyClaims
}.

(** A token serialized with a key is parsed, and verified with that key. *)
Class JoseOk `{Jose} := {
  jwt_roundtrip : ∀ secret c raw, jwt_Serialize secret c = inr raw →
    ∃ tok, jwt_ParseSigned raw = inr tok ∧ jwt_Claims tok secret = inr c
}.

(** The clock and the random sources the relay reads: the results of
    [gonanoid.New(12)] and of [rand.Read] of 32 bytes. *)
Record World := mkWorld {
  w_now : Time;
  w_nanoid : nat → error + string;
  w_nanoid_pos : nat;
  w_rand : nat → string;
  w_rand_pos : nat
}.

Definition gonanoid_New : M World error string :=
  λ w, (w_nanoid w (w_nanoid_pos w),
        mkWorld (w_now w) (w_nanoid w) (S (w_nanoid_pos w)) (w_rand w) (w_rand_pos w)).

Definition rand_Read {E} : M World E string :=
  λ w, (inr (w_rand w (w_rand_pos w)),
        mkWorld (w_now w) (w_nanoid w) (w_nanoid_pos w) (w_rand w) (S (w_rand_pos w))).

Section apikey.
  Context `{Jose}.

Definition GenerateAPIKey (secret provider sub : string) : M World error (string * string) :=
  if String.eqb secret EmptyString then throw (ErrorString "secret must not be empty")
  else if String.eqb provider EmptyString || String.eqb sub EmptyString then
    throw (ErrorString "provider and sub must not be empty")
  else
    let! keyID := gonanoid_New else_return (WrapError "generating key ID") in
    do! lift (jose_NewSigner secret) else_return (WrapError "creating signer") in
    let! now := gets w_now in
    let claims := mkClaims (provider +:+ ":" +:+ sub) "phosphor" keyID (now / Second) in
    let! raw := lift (jwt_Serialize secret claims) else_return (WrapError "signing token") in
    ret (raw, keyID).

Definition VerifyAPIKey (secret token : string) : error + APIKeyClaims :=
  match jwt_ParseSigned token with
  | inl err => inl (WrapError "parsing token" err)
  | inr tok =>
      match jwt_Claims tok secret with
      | inl err => inl (WrapError "verifying token" err)
      | inr claims =>
          if negb (String.eqb (iss claims) "phosphor") then inl (ErrorString "invalid issuer")
          else inr (mkAPIKeyClaims (sub claims) (jti claims) (iss claims))
      end
  end.

Definition ParseAPIKeySubject (subject : string) : error + (string * string) :=
  match SplitN2 subject ":"%char with
  | [p; s] =>
      if String.eqb p EmptyString || String.eqb s EmptyString
      then inl (ErrorString "invalid subject format") else inr (p, s)
  | _ => inl (ErrorString "invalid subject format")
  end.

(** * Lemmas *)

Lemma ParseAPIKeySubject_Some subject p s :
  ParseAPIKeySubject subject = inr (p, s) ↔
  subject = p +:+ ":" +:+ s ∧ no_byte ":" p = true ∧ p ≠ EmptyString ∧ s ≠ EmptyString.
Proof.
  unfold ParseAPIKeySubject, SplitN2. split.
  - destruct (Cut subject _) as [[a b]|] eqn:Hc; [|done].
    destruct (String.eqb_spec a EmptyString); [done|]. destruct (String.eqb_spec b EmptyString); [done|].
    intros [= <- <-]. by apply Cut_Some in Hc as [-> ?].
  - intros (-> & Hp & Hne & Hs). change (":" +:+ s) with (String ":" s). rewrite Cut_app by done.
    by destruct (String.eqb_spec p EmptyString), (String.eqb_spec s EmptyString).
Qed.

Lemma GenerateAPIKey_inr secret p s w raw keyID w' :
  GenerateAPIKey secret p s w = (inr (raw, keyID), w') →
  secret ≠ EmptyString ∧ p ≠ EmptyString ∧ s ≠ EmptyString ∧
  w_nanoid w (w_nanoid_pos w) = inr keyID ∧
  jwt_Serialize secret (mkClaims (p +:+ ":" +:+ s) "phosphor" keyID (w_now w / Second)) = inr raw.
Proof.
  unfold GenerateAPIKey. destruct (String.eqb_spec secret EmptyString); [done|].
  destruct (String.eqb_spec p EmptyString); [done|]. destruct (String.eqb_spec s EmptyString); [done|].
  unfold bind, or_return, gonanoid_New, lift, gets. cbn.
  destruct (w_nanoid w _) as [|kid]; [done|]. destruct (jose_NewSigner secret) as [|[]]; [done|]. cbn.
  destruct (jwt_Serialize _ _) as [|r] eqn:Hs; [done|]. cbn. by intros [= <- <- _].
Qed.

Lemma VerifyAPIKey_generated `{!JoseOk} secret p s w raw keyID w' :
  GenerateAPIKey secret p s w = (inr (raw, keyID), w') →
  VerifyAPIKey secret raw = inr (mkAPIKeyClaims (p +:+ ":" +:+ s) keyID "phosphor").
Proof.
  intros (_ & _ & _ & _ & Hs)%GenerateAPIKey_inr. destruct (jwt_roundtrip _ _ _ Hs) as (tok & Hp & Hc).
  unfold VerifyAPIKey. by rewrite Hp, Hc.
Qed.

(** * Properties *)


End apikey.

(** ** A concrete signer

    A token is the secret, the four claims and no secrecy: enough to run the
    code. *)
Definition toy_sep : ascii := "|".

Definition toy_encode (secret : string) (c : apiKeyClaims) : string :=
  secret +:+ String toy_sep (jti c +:+ String toy_sep (iss c +:+ String toy_sep (sub c))).

Definition toy_decode (t : string) : option (string * apiKeyClaims) :=
  match Cut t toy_sep with
  | Some (secret, t) =>
      match Cut t toy_sep with
      | Some (k, t) => match Cut t toy_sep with
                       | Some (i, s) => Some (secret, mkClaims s i k 0)
                       | None => None
                       end
      | None => None
      end
  | None => None
  end.

Definition toy_fits (secret : string) (c : apiKeyClaims) : bool :=
  no_byte toy_sep secret && no_byte toy_sep (jti c) && no_byte toy_sep (iss c) && Z.eqb (iat c) 0.

Definition toy_jose : Jose := {|
  JSONWebToken := string * apiKeyClaims;
  jose_NewSigner _ := inr tt;
  jwt_Serialize secret c :=
    if toy_fits secret c then inr (toy_encode secret c) else inl (ErrorString "unsupported");
  jwt_ParseSigned t := match toy_decode t with Some x => inr x | None => inl (ErrorString "malformed") end;
  jwt_Claims x secret := if String.eqb x.1 secret then inr x.2 else inl (ErrorString "bad signature")
|}.

Lemma toy_jose_ok : @JoseOk toy_jose.
Proof.
  constructor. intros secret c raw. simpl. unfold toy_fits.
  destruct (no_byte toy_sep secret) eqn:H1, (no_byte toy_sep (jti c)) eqn:H2,
    (no_byte toy_sep (iss c)) eqn:H3, (Z.eqb_spec (iat c) 0) as [H4|]; try done. simpl.
  intros [= <-]. exists (secret, c). unfold toy_decode, toy_encode.
  rewrite !Cut_app by done. simpl. rewrite String.eqb_refl. destruct c; simpl in *; subst. done.
Qed.

Definition world0 : World := mkWorld 0 (λ n, inr (pretty n)) 0 pretty 0.

