(* ===== verification/Files.v ===== *)
(** The files the program keeps (package os): contents by path, with the
    faults of reads and writes to come.  A JSON file is kept as the value its
    text denotes, as in [Http]. *)
From Stdlib Require Import ZArith Lia.
From stdpp Require Import base gmap strings list.
From S2P Require Import Prelude GoStrings Http.

(** The text of a file: bytes that are no JSON text, a JSON text, or the part
    of one that an interrupted write left. *)
Inductive file_text :=
  | Bytes (s : string)
  | JsonText (v : json)
  | Partial.

Definition truncate (n : nat) (c : file_text) : file_text :=
  match c with Bytes s => Bytes (string_take n s) | _ => Partial end.

(** [json.Unmarshal] of a file *)
Definition json_of (c : file_text) : option json :=
  match c with JsonText v => Some v | _ => None end.

(** A write that fails either could not open the file, or has truncated it
    and written a part. *)
Inductive write_outcome :=
  | WriteOk
  | WriteDenied (err : error)
  | WritePartial (n : nat) (err : error).

(** [read_err p]: reading [p] fails with this message, for another reason than
    that there is no such file; [homedir]: what [os.UserHomeDir] gives; [mkdir_err]: the error
    of [os.MkdirAll]. *)
Record FS := mkFS {
  files : gmap string file_text;
  read_err : string → option string;
  write_faults : list write_outcome;
  homedir : error + string;
  mkdir_err : option error
}.

Definition set_files (m : gmap string file_text) (f : FS) : FS :=
  mkFS m (read_err f) (write_faults f) (homedir f) (mkdir_err f).

Definition ReadFile (path : string) : M FS error file_text :=
  let! f := get in
  match read_err f path with
  | Some msg => throw (ErrExternal msg)
  | None => match files f !! path with
            | Some data => ret data
            | None => throw ErrNotExist
            end
  end.

Definition IsNotExist (err : error) : bool := bool_decide (err = ErrNotExist).

Definition next_write : M FS error write_outcome := λ f,
  (inr (default WriteOk (head (write_faults f))),
   mkFS (files f) (read_err f) (tail (write_faults f)) (homedir f) (mkdir_err f)).

Definition put_file (path : string) (data : file_text) : M FS error unit :=
  modify (λ f, set_files (<[path := data]> (files f)) f).

Definition WriteFile (path : string) (data : file_text) : M FS error unit :=
  let! o := next_write in
  match o with
  | WriteOk => put_file path data
  | WriteDenied err => throw err
  | WritePartial n err => do! put_file path (truncate n data) in throw err
  end.

Definition Remove (path : string) : M FS error unit :=
  let! f := get in
  match files f !! path with
  | Some _ => modify (λ f, set_files (delete path (files f)) f)
  | None => throw ErrNotExist
  end.

Definition UserHomeDir : M FS error string := λ f, (homedir f, f).

Definition MkdirAll : M FS error unit :=
  let! f := get in
  match mkdir_err f with Some err => throw err | None => ret tt end.

Lemma ReadFile_state path f : (ReadFile path f).2 = f.
Proof.
  unfold ReadFile, bind, get. cbn. destruct (read_err f path); [done|]. by destruct (files f !! path).
Qed.

(** A successful write is read back. *)
Lemma WriteFile_ReadFile path data f f' :
  WriteFile path data f = (inr tt, f') → read_err f path = None →
  ReadFile path f' = (inr data, f').
Proof.
  unfold WriteFile, ReadFile, bind, next_write, get, put_file, modify, throw. cbn.
  destruct (default WriteOk _); try done. intros [= <-] Hr. cbn. by rewrite Hr, lookup_insert_eq.
Qed.
