(* ===== verification/SshKeys.v ===== *)
(** SSH keys: the interface to golang.org/x/crypto/ssh the program relies on,
    and the browser keypairs of internal/sshkeys/sshkeys.go. *)
From Stdlib Require Import ZArith Lia Ascii.
From stdpp Require Import base strings list.
From S2P Require Import Prelude GoStrings Http Files.

(** Key types and codecs of the ssh and pem packages.  A PEM text stands for
    the block it encodes; an ed25519 private key is also its [ssh.Signer]. *)
Class SSH := {
  PublicKey : Type;
  Signer : Type;
  Signer_PublicKey : Signer → PublicKey;
  FingerprintSHA256 : PublicKey → string;
  MarshalAuthorizedKey : PublicKey → string;
  ParseAuthorizedKey : string → error + PublicKey;
  MarshalPrivateKey : Signer → string → error + string;
  MarshalPrivateKeyWithPassphrase : Signer → string → string → error + string;
  ParsePrivateKey : string → error + Signer;
  ParsePrivateKeyWithPassphrase : string → string → error + Signer
}.

(** What is marshalled is parsed back. *)
Class SSHOk `{SSH} := {
  authorized_key_roundtrip : ∀ k, ParseAuthorizedKey (TrimSpace (MarshalAuthorizedKey k)) = inr k;
  private_key_roundtrip : ∀ k c pem, MarshalPrivateKey k c = inr pem → ParsePrivateKey pem = inr k;
  private_key_passphrase_roundtrip : ∀ k c pw pem,
    MarshalPrivateKeyWithPassphrase k c pw = inr pem → ParsePrivateKeyWithPassphrase pem pw = inr k
}.

Section sshkeys.
  Context `{SSH}.

(** [ssh.ParsePrivateKey] of a file; a JSON text is no PEM block. *)
Definition parse_key (c : file_text) : error + Signer :=
  match c with
  | Bytes s => ParsePrivateKey s
  | _ => inl (ErrorString "ssh: no key found")
  end.

Definition keyComment : string := "phosphor browser key".

Record Keypair := mkKeypair {
  PrivateKeyPem : string;
  Keypair_AuthorizedKey : string;
  Keypair_Fingerprint : string
}.

Record PublicKeyInfo := mkPublicKeyInfo {
  Info_AuthorizedKey : string;
  Info_Fingerprint : string
}.

(** [generated] is the result of [ed25519.GenerateKey(rand.Reader)]. *)
Definition GenerateKeypair (generated : error + Signer) (passphrase : string) : error + Keypair :=
  match generated with
  | inl err => inl err
  | inr priv =>
      match (if negb (String.eqb passphrase EmptyString)
             then MarshalPrivateKeyWithPassphrase priv keyComment passphrase
             else MarshalPrivateKey priv keyComment) with
      | inl err => inl err
      | inr pem =>
          let sshPub := Signer_PublicKey priv in
          inr (mkKeypair pem (TrimSpace (MarshalAuthorizedKey sshPub)) (FingerprintSHA256 sshPub))
      end
  end.

Definition PublicKeyFromPem (pemStr passphrase : string) : error + PublicKeyInfo :=
  match (if negb (String.eqb passphrase EmptyString)
         then ParsePrivateKeyWithPassphrase pemStr passphrase
         else ParsePrivateKey pemStr) with
  | inl err => inl err
  | inr signer =>
      inr (mkPublicKeyInfo (TrimSpace (MarshalAuthorizedKey (Signer_PublicKey signer)))
        (FingerprintSHA256 (Signer_PublicKey signer)))
  end.

Lemma keypair_reimport `{!SSHOk} (generated : error + Signer) (passphrase : string) (kp : Keypair) :
  GenerateKeypair generated passphrase = inr kp →
  PublicKeyFromPem (PrivateKeyPem kp) passphrase =
    inr (mkPublicKeyInfo (Keypair_AuthorizedKey kp) (Keypair_Fingerprint kp)) ∧
  ∃ k, ParseAuthorizedKey (Keypair_AuthorizedKey kp) = inr k ∧ FingerprintSHA256 k = Keypair_Fingerprint kp.
Proof.
  unfold GenerateKeypair, PublicKeyFromPem. destruct generated as [|priv]; [done|].
  destruct (negb (String.eqb passphrase EmptyString)).
  - destruct (MarshalPrivateKeyWithPassphrase _ _ _) eqn:Hm; [done|]. intros [= <-]. cbn.
    rewrite (private_key_passphrase_roundtrip _ _ _ _ Hm). split; [done|]. eexists.
    by rewrite authorized_key_roundtrip.
  - destruct (MarshalPrivateKey _ _) eqn:Hm; [done|]. intros [= <-]. cbn.
    rewrite (private_key_roundtrip _ _ _ Hm). split; [done|]. eexists. by rewrite authorized_key_roundtrip.
Qed.

End sshkeys.

(** ** A concrete key type

    A key is a number; its text is a run of that many letters, and the
    passphrase is kept in front of the PEM. *)
Fixpoint tally (n : nat) : string :=
  match n with 0 => EmptyString | S n => String "k" (tally n) end.

Fixpoint untally (s : string) : error + nat :=
  match s with
  | EmptyString => inr 0
  | String c s => if Ascii.eqb c "k" then match untally s with inr n => inr (S n) | e => e end
                  else inl (ErrorString "not a key")
  end.

Lemma untally_tally n : untally (tally n) = inr n.
Proof. induction n as [|n IH]; simpl; [done|]. by rewrite IH. Qed.

Definition toy_uuid : UUIDText := {|
  uuid_String id := tally (N.to_nat id);
  uuid_Parse s := match untally s with inr n => inr (N.of_nat n) | inl e => inl e end
|}.

Lemma toy_uuid_ok : @UUIDTextOk toy_uuid.
Proof. intros id. cbn. by rewrite untally_tally, N2Nat.id. Qed.

Definition toy_ssh : SSH := {|
  PublicKey := nat;
  Signer := nat;
  Signer_PublicKey n := n;
  FingerprintSHA256 n := "SHA256:" +:+ tally n;
  MarshalAuthorizedKey n := tally n;
  ParseAuthorizedKey s := untally s;
  MarshalPrivateKey n _ := inr (tally n);
  MarshalPrivateKeyWithPassphrase n _ pw := inr (pw +:+ tally n);
  ParsePrivateKey s := untally s;
  ParsePrivateKeyWithPassphrase s pw :=
    if HasPrefix s pw then untally (TrimPrefix s pw) else inl (ErrorString "bad passphrase")
|}.

Lemma toy_ssh_ok : @SSHOk toy_ssh.
Proof.
  split; simpl.
  - intros n. rewrite TrimSpace_graph; [apply untally_tally|]. by induction n.
  - intros n _ pem [= <-]. apply untally_tally.
  - intros n _ pw pem [= <-]. rewrite HasPrefix_app, TrimPrefix_app. apply untally_tally.
Qed.

