(* ===== verification/RelayAuth.v ===== *)
(** The relay server's state (internal/relay/server.go) and the
    authentication of its callers (internal/relay/auth.go).

    The server is modelled against the interfaces it is written against: a
    [DataStore], an [AuthSessionStore] and a [TunnelDialer]. *)
From Stdlib Require Import ZArith Lia Ascii.
From stdpp Require Import base gmap strings list.
From S2P Require Import Prelude GoStrings StoreSpec AuthSession Http Oidc ApiKey SshKeys.

(** [TunnelDialer] of handler_machines.go; a [net.Conn] is a handle. *)
Class TunnelDialer (T : Type) := {
  Conn : Type;
  td_Online : string → T → bool;
  td_Dial : string → M T error Conn;
  td_Close : string → M T error bool
}.

(** [Server] of server.go.  [verifier], [tunnels] and [sshHostKey] may be nil;
    [world] is what it reads of the clock and the random sources. *)
Record Server `{OIDC} `{SSH} (D A T : Type) := mkServer {
  baseURL : string;
  verifier : option (gmap string providerEntry);
  devMode : bool;
  authSessions : A;
  apiKeySecret : string;
  db : D;
  tunnels : option T;
  sshPublicAddr : string;
  sshHostKey : option PublicKey;
  bridges : gmap string nat;
  world : World
}.
Arguments mkServer {_ _ D A T}.
Arguments baseURL {_ _ D A T}.
Arguments verifier {_ _ D A T}.
Arguments devMode {_ _ D A T}.
Arguments authSessions {_ _ D A T}.
Arguments apiKeySecret {_ _ D A T}.
Arguments db {_ _ D A T}.
Arguments tunnels {_ _ D A T}.
Arguments sshPublicAddr {_ _ D A T}.
Arguments sshHostKey {_ _ D A T}.
Arguments bridges {_ _ D A T}.
Arguments world {_ _ D A T}.

Section server.
  Context `{OIDC} `{SSH} `{Jose} `{MapRange}.
  Context {D A T : Type}.

Definition NewServer (baseURL : string) (verifier : option (gmap string providerEntry)) (devMode : bool)
    (authSessions : A) (apiKeySecret : string) (db : D) (w : World) : Server D A T :=
  mkServer baseURL verifier devMode authSessions apiKeySecret db None EmptyString None ∅ w.

Definition SetSSHGate (tn : T) (publicAddr : string) (hostKey : PublicKey) (s : Server D A T) : Server D A T :=
  mkServer (baseURL s) (verifier s) (devMode s) (authSessions s) (apiKeySecret s) (db s) (Some tn)
    publicAddr (Some hostKey) (bridges s) (world s).

Definition set_db (d : D) (s : Server D A T) : Server D A T :=
  mkServer (baseURL s) (verifier s) (devMode s) (authSessions s) (apiKeySecret s) d (tunnels s)
    (sshPublicAddr s) (sshHostKey s) (bridges s) (world s).
Definition set_authSessions (a : A) (s : Server D A T) : Server D A T :=
  mkServer (baseURL s) (verifier s) (devMode s) a (apiKeySecret s) (db s) (tunnels s)
    (sshPublicAddr s) (sshHostKey s) (bridges s) (world s).
Definition set_tunnels (t : option T) (s : Server D A T) : Server D A T :=
  mkServer (baseURL s) (verifier s) (devMode s) (authSessions s) (apiKeySecret s) (db s) t
    (sshPublicAddr s) (sshHostKey s) (bridges s) (world s).
Definition set_bridges (b : gmap string nat) (s : Server D A T) : Server D A T :=
  mkServer (baseURL s) (verifier s) (devMode s) (authSessions s) (apiKeySecret s) (db s) (tunnels s)
    (sshPublicAddr s) (sshHostKey s) b (world s).
Definition set_world (w : World) (s : Server D A T) : Server D A T :=
  mkServer (baseURL s) (verifier s) (devMode s) (authSessions s) (apiKeySecret s) (db s) (tunnels s)
    (sshPublicAddr s) (sshHostKey s) (bridges s) w.

(** Calls of [s.db], [s.authSessions] and of the random sources. *)
Definition on_db {E X} (m : M D E X) : M (Server D A T) E X := zoom db set_db m.
Definition on_sessions {E X} (m : M A E X) : M (Server D A T) E X := zoom authSessions set_authSessions m.
Definition on_world {E X} (m : M World E X) : M (Server D A T) E X := zoom world set_world m.

(** [verifyToken]: the provider, the subject and the email. *)
Definition verifyToken `{DataStore D} (token : string) : M (Server D A T) error (string * string * string) :=
  let! s := get in
  if String.eqb token EmptyString && devMode s then ret ("dev", "anonymous", EmptyString)
  else if HasPrefix token "phk:" then
    if devMode s then ret ("dev", "anonymous", EmptyString)
    else
      let raw := TrimPrefix token "phk:" in
      let! claims := lift (VerifyAPIKey (apiKeySecret s) raw) else_return (WrapError "invalid api key") in
      let! revoked := on_db (ds_IsAPIKeyRevoked (Claims_KeyID claims))
        else_return (WrapError "checking key revocation") in
      if (revoked : bool) then throw (ErrorString "api key revoked")
      else
        let! ps := lift (ParseAPIKeySubject (Claims_Subject claims)) in
        ret (ps.1, ps.2, EmptyString)
  else
    match devMode s, SplitN2 token ":"%char with
    | true, [a; b] => ret (a, b, EmptyString)
    | _, _ =>
        let otherwise := if devMode s then ret ("dev", "anonymous", EmptyString) else throw ErrNoToken in
        match verifier s with
        | Some v =>
            match VerifyToken v (w_now (world s)) token with
            | inr id => ret (Identity_Provider id, Identity_Sub id, Identity_Email id)
            | inl err => if devMode s then otherwise else throw err
            end
        | None => otherwise
        end
    end.

Definition extractIdentity `{DataStore D} (r : Request) : M (Server D A T) error (string * string * string) :=
  let hdr := Authorization r in
  let token := TrimPrefix hdr "Bearer " in
  verifyToken (if String.eqb token hdr then EmptyString else token).

(** [resolveUser] of handler_machines.go *)
Definition resolveUser `{DataStore D} (r : Request) : M (Server D A T) error User :=
  let! id := extractIdentity r in
  on_db (ds_GetOrCreateUser id.1.1 id.1.2 id.2).

(** The token [extractIdentity] looks at. *)
Definition bearer_token (r : Request) : string :=
  let token := TrimPrefix (Authorization r) "Bearer " in
  if String.eqb token (Authorization r) then EmptyString else token.

(** * What a token proves *)

Section authentication.
  Context `{DataStoreOk D}.

(** The parts of the server that authentication reads and leaves alone. *)
Record same_server (s s' : Server D A T) : Prop := {
  same_baseURL : baseURL s' = baseURL s;
  same_verifier : verifier s' = verifier s;
  same_devMode : devMode s' = devMode s;
  same_apiKeySecret : apiKeySecret s' = apiKeySecret s;
  same_authSessions : authSessions s' = authSessions s;
  same_tunnels : tunnels s' = tunnels s;
  same_bridges : bridges s' = bridges s;
  same_sshPublicAddr : sshPublicAddr s' = sshPublicAddr s;
  same_sshHostKey : sshHostKey s' = sshHostKey s;
  same_world : world s' = world s
}.

#[export] Instance same_server_refl : Reflexive same_server.
Proof. done. Qed.

#[export] Instance same_server_trans : Transitive same_server.
Proof. intros s1 s2 s3 [] []. split; congruence. Qed.

Lemma same_server_db s d : same_server s (set_db d s).
Proof. done. Qed.

(** An API key: signed with the server's secret for the issuer "phosphor",
    recorded and not revoked, for a well-formed subject. *)
Definition valid_api_key (s : Server D A T) (raw p sub : string) : Prop :=
  ∃ c, VerifyAPIKey (apiKeySecret s) raw = inr c ∧ key_revoked (Claims_KeyID c) (ds_view (db s)) = false ∧
    ParseAPIKeySubject (Claims_Subject c) = inr (p, sub).

(** What [token] proves in production. *)
Definition authenticates (s : Server D A T) (token : string) (id : string * string * string) : Prop :=
  (∃ raw, token = "phk:" +:+ raw ∧ valid_api_key s raw id.1.1 id.1.2 ∧ id.2 = EmptyString) ∨
  (HasPrefix token "phk:" = false ∧
   ∃ v, verifier s = Some v ∧ proves v (w_now (world s)) token (mkIdentity id.1.1 id.1.2 id.2)).

Definition auth_frame (s s' : Server D A T) : Prop :=
  same_server s s' ∧ ds_inv (db s') ∧ ds_view (db s') = ds_view (db s).

Lemma auth_frame_refl s : ds_inv (db s) → auth_frame s s.
Proof. done. Qed.

(** When production refuses a token: no provider verifies it, and it is not a
    valid API key unless the store failed to answer. *)
Definition refused (s : Server D A T) (token : string) (err : error) : Prop :=
  (HasPrefix token "phk:" = false → ∀ v name entry, verifier s = Some v → v !! name = Some entry →
    ∃ e, entry_Verify (w_now (world s)) entry token = inl e) ∧
  (∀ raw p sub, token = "phk:" +:+ raw → valid_api_key s raw p sub →
    ∃ e, err = WrapError "checking key revocation" e).

Lemma not_api_key token raw : HasPrefix token "phk:" = false → token = "phk:" +:+ raw → False.
Proof. intros Hp ->. by rewrite HasPrefix_app in Hp. Qed.

Lemma verifyToken_production_wp s token :
  ds_inv (db s) → devMode s = false →
  wp (verifyToken token) (λ r s', auth_frame s s' ∧
    match r with inr id => authenticates s token id | inl e => refused s token e end) s.
Proof.
  intros Hs Hdev.
  assert (∀ err, HasPrefix token "phk:" = true →
    (∀ p sub, valid_api_key s (TrimPrefix token "phk:") p sub → ∃ e, err = WrapError "checking key revocation" e) →
    refused s token err) as Hkey.
  { intros err Hp Hv. split; [congruence|]. intros raw p sub ->. rewrite TrimPrefix_app in Hv. apply Hv. } unfold verifyToken. wp_simpl. rewrite Hdev, andb_false_r.
  destruct (HasPrefix token "phk:") eqn:Hp.
  - rewrite !wp_bind, wp_or_return, wp_lift.
    destruct (VerifyAPIKey _ _) as [err|c] eqn:Hc.
    { split; [by apply auth_frame_refl|]. apply Hkey; [done|]. intros p sub (c & ? & _). congruence. }
    wp_simpl. unfold on_db. wp_simpl.
    wp_use (ds_IsAPIKeyRevoked_ok (Claims_KeyID c) (db s) Hs). intros [err|b] d' (Hd & Hv & Hb).
    { split; [by split; [apply same_server_db|]|]. apply Hkey; [done|]. by eexists. }
    destruct b; wp_simpl.
    { split; [by split; [apply same_server_db|]|]. apply Hkey; [done|]. intros p sub (c' & ? & ? & _). congruence. }
    rewrite wp_lift. destruct (ParseAPIKeySubject _) as [err|[p sub]] eqn:Hparse.
    { split; [by split; [apply same_server_db|]|]. apply Hkey; [done|]. intros p sub (c' & ? & _ & ?). congruence. }
    wp_simpl. split; [by split; [apply same_server_db|]|]. left.
    apply HasPrefix_inv in Hp as [raw ->]. exists raw. rewrite TrimPrefix_app in Hc.
    split; [done|]. split; [|done]. by exists c.
  - destruct (verifier s) as [v|] eqn:Hver; wp_simpl.
    2:{ split; [by apply auth_frame_refl|]. split; [by rewrite Hver|]. intros raw ?? ?%not_api_key; done. }
    destruct (VerifyToken v _ token) as [err|[p sub e]] eqn:Hv; wp_simpl.
    { split; [by apply auth_frame_refl|]. split; [|intros raw ?? ?%not_api_key; done].
      intros _ v' name entry Hv' Hn. rewrite Hver in Hv'. simplify_eq. by eapply VerifyToken_inl. }
    split; [by apply auth_frame_refl|]. right. split; [done|]. exists v. split; [done|].
    by apply VerifyToken_inr in Hv.
Qed.

Lemma resolveUser_production_wp s r :
  ds_inv (db s) → devMode s = false →
  wp (resolveUser r) (λ res s', same_server s s' ∧ ds_inv (db s') ∧
    match res with
    | inl _ => ds_view (db s') = ds_view (db s)
    | inr u => ∃ e, authenticates s (bearer_token r) (User_Provider u, User_Subject u, e) ∧
        GetOrCreateUser_post (User_Provider u) (User_Subject u) e (ds_view (db s)) (inr u) (ds_view (db s'))
    end) s.
Proof.
  intros Hs Hdev. unfold resolveUser, extractIdentity. wp_simpl.
  wp_use (verifyToken_production_wp s (bearer_token r) Hs Hdev).
  intros [err|[[p sub] e]] s' [(Hsame & Hs' & Hview) Hid]; [done|].
  unfold on_db. wp_simpl. wp_use (ds_GetOrCreateUser_ok p sub e (db s') Hs').
  intros [err|u] d' [Hd Hpost]; cbn.
  { split; [by etransitivity; [|apply same_server_db]|]. split; [done|]. by rewrite Hpost, Hview. }
  split; [by etransitivity; [|apply same_server_db]|]. split; [done|].
  pose proof Hpost as [Hu _]. apply is_user_true in Hu as [-> ->]. exists e. by rewrite <-Hview.
Qed.

End authentication.

End server.
