(* ===== verification/SshGate.v ===== *)
(** The SSH gateway: the registry of reverse tunnels
    (internal/sshgate/registry.go), the gateway's authentication and its
    per-connection loop (internal/sshgate/server.go).

    Connections are numbered.  A connection is shared: a tunnel points to it,
    the goroutines of [handleConn] serve it, and closing it through one is
    seen by all, so the set of closed connections is part of the state. *)
From Stdlib Require Import ZArith Lia Ascii.
From stdpp Require Import base gmap strings list relations.
From S2P Require Import Prelude GoStrings StoreSpec AuthSession Http Oidc ApiKey SshKeys RelayAuth.

(** * The registry *)

Record Tunnel := mkTunnel {
  MachineID : string;
  Tunnel_TenantID : string;
  conn : nat;
  bindAddr : string;
  bindPort : Z
}.

(** The payload of a forwarded-tcpip channel open. *)
Record forwardedTCPPayload := mkPayload {
  Addr : string;
  Port : Z;
  OriginAddr : string;
  OriginPort : Z
}.

(** [reg_closed]: the connections closed so far, by either end. *)
Record Registry := mkRegistry {
  reg_tunnels : gmap string Tunnel;
  reg_closed : gset nat
}.

(** [ssh.Conn.OpenChannel]: what the other end answers, given the
    connections closed so far. *)
Class SSHChannels := {
  Channel : Type;
  OpenChannel : gset nat → nat → string → forwardedTCPPayload → error + Channel
}.

Definition NewRegistry : Registry := mkRegistry ∅ ∅.

Definition conn_Close (c : nat) (r : Registry) : Registry :=
  mkRegistry (reg_tunnels r) ({[c]} ∪ reg_closed r).

(** The locked part of [register], with the connection it closes after
    unlocking. *)
Definition register_locked (t : Tunnel) (r : Registry) : option nat * Registry :=
  (match reg_tunnels r !! MachineID t with
   | Some old => if negb (Nat.eqb (conn old) (conn t)) then Some (conn old) else None
   | None => None
   end,
   mkRegistry (<[MachineID t := t]> (reg_tunnels r)) (reg_closed r)).

Definition close_opt (c : option nat) (r : Registry) : Registry :=
  match c with Some c => conn_Close c r | None => r end.

Definition register (t : Tunnel) (r : Registry) : Registry :=
  let '(old, r) := register_locked t r in close_opt old r.

Definition unregister (machineID : string) (c : nat) (r : Registry) : Registry :=
  match reg_tunnels r !! machineID with
  | Some t => if Nat.eqb (conn t) c then mkRegistry (delete machineID (reg_tunnels r)) (reg_closed r) else r
  | None => r
  end.

Definition Registry_Online (machineID : string) (r : Registry) : bool :=
  bool_decide (is_Some (reg_tunnels r !! machineID)).

(** The locked part of [Close], with the connection it closes after. *)
Definition Close_locked (machineID : string) (r : Registry) : option nat * Registry :=
  match reg_tunnels r !! machineID with
  | Some t => (Some (conn t), mkRegistry (delete machineID (reg_tunnels r)) (reg_closed r))
  | None => (None, r)
  end.

Definition Registry_Close (machineID : string) : M Registry error bool := λ r,
  let '(c, r') := Close_locked machineID r in (inr (bool_decide (is_Some c)), close_opt c r').

Section dial.
  Context `{SSHChannels}.

Definition Registry_Dial (machineID : string) : M Registry error Channel :=
  let! r := get in
  match reg_tunnels r !! machineID with
  | None => throw ErrNotConnected
  | Some t =>
      lift (OpenChannel (reg_closed r) (conn t) "forwarded-tcpip"
        (mkPayload (bindAddr t) (bindPort t) "127.0.0.1" 1))
        else_return (WrapError ("opening channel to " +:+ machineID))
  end.

#[export] Instance Registry_TunnelDialer : TunnelDialer Registry := {
  Conn := Channel;
  td_Online := Registry_Online;
  td_Dial := Registry_Dial;
  td_Close := Registry_Close
}.

(** ** The registry's operations

    A dial goes to the machine's tunnel or says that there is none; closing
    takes the tunnel away. *)

End dial.

(** * Authentication *)

(** [ssh.Permissions] with its two extensions. *)
Record Permissions := mkPermissions { ext_machine_id : string; ext_tenant_id : string }.

Section gate.
  Context `{SSH} `{UUIDText} {D : Type} `{DataStore D}.

Definition PublicKeyCallback (user : string) (key : PublicKey) : M D error Permissions :=
  let! m := ds_GetMachineByFingerprint (FingerprintSHA256 key)
    else_return (λ _, ErrorString "unknown machine key") in
  if negb (String.eqb user (uuid_String (Machine_ID m))) then
    throw (ErrorString "machine key does not match user")
  else ret (mkPermissions (uuid_String (Machine_ID m)) (uuid_String (Machine_TenantID m))).

(** * One connection *)

(** A global request; [req_Payload] is its payload as [ssh.Unmarshal] reads
    it, [None] when that fails. *)
Record GlobalRequest := mkGlobalRequest {
  req_Type : string;
  req_WantReply : bool;
  req_Payload : option (string * Z)
}.

(** What the code does with a request: the reply, if any, and the registry.
    [reg] is [register], whole or its locked part. *)
Definition handle_request {R} (machineID tenantID : string) (c : nat) (req : GlobalRequest)
    (reg : Tunnel → R) (unreg : R) (keep : R) : option bool * R :=
  if String.eqb (req_Type req) "tcpip-forward" then
    match req_Payload req with
    | None => (Some false, keep)
    | Some (addr, port) => (Some true, reg (mkTunnel machineID tenantID c addr port))
    end
  else if String.eqb (req_Type req) "cancel-tcpip-forward" then (Some true, unreg)
  else if String.eqb (req_Type req) "keepalive@openssh.com" then (Some true, keep)
  else if req_WantReply req then (Some false, keep)
  else (None, keep).

(** [TouchMachine] of the machine in the permissions; its error is logged. *)
Definition touch (machineID : string) : M D error unit :=
  match uuid_Parse machineID with
  | inr id => do! attempt (E' := error) (ds_TouchMachine id) in ret tt
  | inl _ => ret tt
  end.

(** Where the goroutines of [handleConn] are. *)
Inductive conn_phase :=
  | Connected        (** handshake done, about to touch the machine *)
  | Serving          (** in the loop over the requests *)
  | Unregistered     (** loop over, tunnel unregistered, about to touch *)
  | Finished.

Record ServerConn := mkServerConn {
  c_machineID : string;
  c_tenantID : string;
  c_phase : conn_phase
}.

Definition set_phase (p : conn_phase) (c : ServerConn) : ServerConn :=
  mkServerConn (c_machineID c) (c_tenantID c) p.

(** The gateway: the database, the registry, the connections, and those a
    goroutine has unlocked the registry to close. *)
Record Gate := mkGate {
  g_db : D;
  g_reg : Registry;
  g_conns : gmap nat ServerConn;
  g_closing : list nat
}.

Inductive gate_label :=
  | Handshake (c : nat) (user : string) (key : PublicKey) (db : D)
  | HandshakeFailed (user : string) (key : PublicKey)
  | Touch (c : nat)
  | GlobalReq (c : nat) (req : GlobalRequest) (reply : option bool)
  | Disconnect (c : nat)
  | CloseConn (c : nat)
  | CloseMachine (machineID : string)
  | Unregister (c : nat)
  | Database.

Context `{!DataStoreOk D}.

(** Every interleaving of the gateway's goroutines, of the closing of tunnels
    by the machines API, of disconnections (idle timeouts included) and of
    other writers of the database. *)
Inductive gate_step : Gate → gate_label → Gate → Prop :=
  | step_handshake g c user key perms d :
      g_conns g !! c = None → c ∉ reg_closed (g_reg g) →
      PublicKeyCallback user key (g_db g) = (inr perms, d) →
      gate_step g (Handshake c user key (g_db g))
        (mkGate d (g_reg g)
          (<[c := mkServerConn (ext_machine_id perms) (ext_tenant_id perms) Connected]> (g_conns g)) (g_closing g))
  | step_handshake_failed g user key err d :
      PublicKeyCallback user key (g_db g) = (inl err, d) →
      gate_step g (HandshakeFailed user key) (mkGate d (g_reg g) (g_conns g) (g_closing g))
  | step_touch g c sc :
      g_conns g !! c = Some sc → c_phase sc = Connected →
      gate_step g (Touch c)
        (mkGate (touch (c_machineID sc) (g_db g)).2 (g_reg g) (<[c := set_phase Serving sc]> (g_conns g)) (g_closing g))
  | step_request g c sc req reply old r :
      g_conns g !! c = Some sc → c_phase sc = Serving →
      handle_request (c_machineID sc) (c_tenantID sc) c req (λ t, register_locked t (g_reg g))
        (None, unregister (c_machineID sc) c (g_reg g)) (None, g_reg g) = (reply, (old, r)) →
      gate_step g (GlobalReq c req reply) (mkGate (g_db g) r (g_conns g) (option_list old ++ g_closing g))
  | step_disconnect g c :
      gate_step g (Disconnect c) (mkGate (g_db g) (conn_Close c (g_reg g)) (g_conns g) (g_closing g))
  | step_close_conn g c cs cs' :
      g_closing g = cs ++ c :: cs' →
      gate_step g (CloseConn c) (mkGate (g_db g) (conn_Close c (g_reg g)) (g_conns g) (cs ++ cs'))
  | step_close_machine g machineID old r :
      Close_locked machineID (g_reg g) = (old, r) →
      gate_step g (CloseMachine machineID) (mkGate (g_db g) r (g_conns g) (option_list old ++ g_closing g))
  | step_unregister g c sc :
      g_conns g !! c = Some sc → c_phase sc = Serving → c ∈ reg_closed (g_reg g) →
      gate_step g (Unregister c)
        (mkGate (g_db g) (unregister (c_machineID sc) c (g_reg g)) (<[c := set_phase Unregistered sc]> (g_conns g)) (g_closing g))
  | step_touch_end g c sc :
      g_conns g !! c = Some sc → c_phase sc = Unregistered →
      gate_step g (Touch c)
        (mkGate (touch (c_machineID sc) (g_db g)).2 (g_reg g) (<[c := set_phase Finished sc]> (g_conns g)) (g_closing g))
  | step_database g d :
      ds_inv d →
      gate_step g Database (mkGate d (g_reg g) (g_conns g) (g_closing g)).

Inductive gate_run : Gate → list gate_label → Gate → Prop :=
  | gate_nil g : gate_run g [] g
  | gate_snoc g ls g1 l g2 : gate_run g ls g1 → gate_step g1 l g2 → gate_run g (ls ++ [l]) g2.

Definition gate_init (d : D) : Gate := mkGate d NewRegistry ∅ [].

(** * What the gateway guarantees *)

(** A connection stands for the machine whose key it was opened with. *)
Definition authentic (d : D) (user : string) (key : PublicKey) (machineID tenantID : string) : Prop :=
  ∃ m, machines (ds_view d) !! Machine_ID m = Some m ∧ Machine_Fingerprint m = FingerprintSHA256 key ∧
    user = uuid_String (Machine_ID m) ∧ machineID = user ∧ tenantID = uuid_String (Machine_TenantID m).

Lemma PublicKeyCallback_wp user key d :
  ds_inv d →
  wp (PublicKeyCallback user key) (λ r d', ds_inv d' ∧ ds_view d' = ds_view d ∧
    match r with
    | inl _ => True
    | inr perms => authentic d user key (ext_machine_id perms) (ext_tenant_id perms)
    end) d.
Proof.
  intros Hd. unfold PublicKeyCallback. wp_simpl.
  wp_use (ds_GetMachineByFingerprint_ok (FingerprintSHA256 key) d Hd). intros [err|m] d' (Hd' & Hv & Hm); [done|].
  destruct Hm as [Hm Hfp]. destruct (String.eqb_spec user (uuid_String (Machine_ID m))) as [Hu|]; cbn [negb]; wp_simpl; [|done].
  split; [done|]. split; [done|]. exists m. by rewrite <-Hu.
Qed.

Lemma touch_inv machineID d : ds_inv d → ds_inv (touch machineID d).2.
Proof.
  intros Hd. unfold touch. destruct (uuid_Parse machineID) as [|id]; [done|].
  enough (wp (do! attempt (E' := error) (ds_TouchMachine id) in ret (E := error) tt) (λ _ d', ds_inv d') d) by done.
  wp_simpl. wp_use (ds_TouchMachine_ok id d Hd). by intros r d' [? _].
Qed.

(** The tunnel [t] is served by a connection in its request loop. *)
Definition served (conns : gmap nat ServerConn) (t : Tunnel) : Prop :=
  ∃ sc, conns !! conn t = Some sc ∧ c_phase sc = Serving ∧
    c_machineID sc = MachineID t ∧ c_tenantID sc = Tunnel_TenantID t.

Definition asked (ls : list gate_label) (t : Tunnel) : Prop :=
  ∃ req, GlobalReq (conn t) req (Some true) ∈ ls ∧ req_Type req = "tcpip-forward" ∧
    req_Payload req = Some (bindAddr t, bindPort t).

Record gate_inv (ls : list gate_label) (g : Gate) : Prop := {
  gi_db : ds_inv (g_db g);
  gi_conns : ∀ c sc, g_conns g !! c = Some sc → ∃ user key d, Handshake c user key d ∈ ls ∧
    authentic d user key (c_machineID sc) (c_tenantID sc);
  gi_tunnels : ∀ id t, reg_tunnels (g_reg g) !! id = Some t →
    MachineID t = id ∧ served (g_conns g) t ∧ asked ls t
}.

Lemma asked_app ls l t : asked ls t → asked (ls ++ [l]) t.
Proof. intros (req & ? & ?). exists req. rewrite elem_of_app. auto. Qed.

Lemma unregister_lookup machineID c r id t :
  reg_tunnels (unregister machineID c r) !! id = Some t ↔
  reg_tunnels r !! id = Some t ∧ (id = machineID → conn t ≠ c).
Proof.
  unfold unregister. destruct (reg_tunnels r !! machineID) as [t0|] eqn:Ht0.
  - destruct (Nat.eqb_spec (conn t0) c) as [Hc|Hc]; simpl.
    + rewrite lookup_delete_Some. split.
      * intros [Hne Ht]. by split.
      * intros [Ht Hc']. split; [|done]. intros ->. rewrite Ht0 in Ht. simplify_eq. by apply Hc'.
    + split; [|by intros []]. intros Ht. split; [done|]. intros ->. congruence.
  - split; [|by intros []]. intros Ht. split; [done|]. intros ->. congruence.
Qed.

(** A step that leaves conns and tunnels alone, or takes tunnels away. *)
Lemma gate_inv_shrink ls l g g' :
  gate_inv ls g → ds_inv (g_db g') → g_conns g' = g_conns g →
  (∀ id t, reg_tunnels (g_reg g') !! id = Some t → reg_tunnels (g_reg g) !! id = Some t) →
  gate_inv (ls ++ [l]) g'.
Proof.
  intros [Hdb Hc Ht] Hdb' Ec Et. split; [done| |].
  - intros c sc. rewrite Ec. intros (u & k & d & ? & ?)%Hc. exists u, k, d. rewrite elem_of_app. auto.
  - intros id t (? & ? & ?)%Et%Ht. rewrite Ec. auto using asked_app.
Qed.

(** A step that moves one connection to another phase. *)
Lemma gate_inv_phase ls l g g' c sc p :
  gate_inv ls g → ds_inv (g_db g') → g_conns g !! c = Some sc →
  g_conns g' = <[c := set_phase p sc]> (g_conns g) →
  (∀ id t, reg_tunnels (g_reg g') !! id = Some t →
    reg_tunnels (g_reg g) !! id = Some t ∧ (conn t = c → p = Serving)) →
  gate_inv (ls ++ [l]) g'.
Proof.
  intros [Hdb Hc Ht] Hdb' Hsc Ec Et. split; [done| |].
  - intros c' sc'. rewrite Ec. intros [[<- <-]|[_ Hsc']]%lookup_insert_Some.
    + apply Hc in Hsc as (u & k & d & ? & ?). exists u, k, d. rewrite elem_of_app. auto.
    + apply Hc in Hsc' as (u & k & d & ? & ?). exists u, k, d. rewrite elem_of_app. auto.
  - intros id t [Hin Hp]%Et. destruct (Ht _ _ Hin) as (Hid & (sc' & Hsc' & Hph & ?) & ?).
    split; [done|]. split; [|by apply asked_app]. unfold served. rewrite Ec.
    destruct (decide (conn t = c)) as [E|].
    + rewrite E in *. rewrite lookup_insert_eq. simplify_eq. eexists. split; [done|]. cbn. auto.
    + rewrite lookup_insert_ne by done. eauto.
Qed.

Lemma gate_inv_request ls g c sc req reply old r :
  gate_inv ls g → g_conns g !! c = Some sc → c_phase sc = Serving →
  handle_request (c_machineID sc) (c_tenantID sc) c req (λ t, register_locked t (g_reg g))
    (None, unregister (c_machineID sc) c (g_reg g)) (None, g_reg g) = (reply, (old, r)) →
  gate_inv (ls ++ [GlobalReq c req reply]) (mkGate (g_db g) r (g_conns g) (option_list old ++ g_closing g)).
Proof.
  intros Hinv Hsc Hph. pose proof Hinv as [Hdb Hc Ht]. unfold handle_request.
  destruct (String.eqb_spec (req_Type req) "tcpip-forward") as [Hty|].
  - destruct (req_Payload req) as [[addr port]|] eqn:Hpl; [|intros [= <- <- <-]; by eapply gate_inv_shrink].
    unfold register_locked. cbn. intros [= <- <- <-]. split; [done| |].
    + intros c' sc' (u & k & d & ? & ?)%Hc. exists u, k, d. rewrite elem_of_app. auto.
    + intros id t. cbn. intros [[<- <-]|[_ (? & ? & ?)%Ht]]%lookup_insert_Some; [|by auto using asked_app].
      split; [done|]. split; [by exists sc|]. exists req. cbn. split; [|done]. apply elem_of_app. right. by left.
  - destruct (String.eqb (req_Type req) "cancel-tcpip-forward").
    { intros [= <- <- <-]. eapply gate_inv_shrink; try done. intros id t. cbn. by intros [? _]%unregister_lookup. }
    destruct (String.eqb _ _), (req_WantReply req); intros [= <- <- <-]; by eapply gate_inv_shrink.
Qed.

Lemma gate_inv_step ls g l g' : gate_inv ls g → gate_step g l g' → gate_inv (ls ++ [l]) g'.
Proof.
  intros Hinv Hstep. pose proof (gi_db _ _ Hinv) as Hdb.
  destruct Hstep as [g c user key perms d Hnew Hop Hcb|g user key err d Hcb|g c sc Hsc Hph|g c sc req reply old r Hsc Hph Hreq
    |g c|g c cs cs' Hcl|g id old r Hcl|g c sc Hsc Hph Hclosed|g c sc Hsc Hph|g d Hd].
  - destruct (wp_run _ _ _ _ _ (PublicKeyCallback_wp user key (g_db g) Hdb) Hcb) as (Hd & _ & Hauth).
    destruct Hinv as [_ Hc Ht]. split; [done| |].
    + intros c' sc'. cbn. intros [[<- <-]|[_ (u & k & d' & ? & ?)%Hc]]%lookup_insert_Some.
      * exists user, key, (g_db g). split; [|done]. apply elem_of_app. right. by left.
      * exists u, k, d'. rewrite elem_of_app. auto.
    + intros id t (? & (sc & Hsc & ?) & ?)%Ht. split; [done|]. split; [|by apply asked_app].
      exists sc. cbn. rewrite lookup_insert_ne; [done|]. congruence.
  - destruct (wp_run _ _ _ _ _ (PublicKeyCallback_wp user key (g_db g) Hdb) Hcb) as (Hd & _ & _).
    by eapply gate_inv_shrink.
  - by eapply gate_inv_phase; [done|apply touch_inv|..].
  - by eapply gate_inv_request.
  - by eapply gate_inv_shrink.
  - by eapply gate_inv_shrink.
  - unfold Close_locked in Hcl. destruct (reg_tunnels (g_reg g) !! id); simplify_eq; eapply gate_inv_shrink; try done.
    intros id' t'. cbn. by intros [_ ?]%lookup_delete_Some.
  - eapply gate_inv_phase; try done. intros id t [Hin Hc]%unregister_lookup. split; [done|]. intros <-.
    destruct (gi_tunnels _ _ Hinv _ _ Hin) as (Hid & (sc' & Hsc' & _ & Hm & _) & _).
    simplify_eq. by destruct Hc.
  - eapply gate_inv_phase; [done|by apply touch_inv|done|done|]. intros id t Hin. split; [done|]. intros <-.
    destruct (gi_tunnels _ _ Hinv _ _ Hin) as (_ & (sc' & Hsc' & Hph' & _) & _). congruence.
  - by eapply gate_inv_shrink.
Qed.

Lemma gate_inv_run g0 ls g : gate_inv [] g0 → gate_run g0 ls g → gate_inv ls g.
Proof. intros Hg0 Hr. induction Hr; eauto using gate_inv_step. Qed.

Lemma gate_init_inv d : ds_inv d → gate_inv [] (gate_init d).
Proof. intros Hd. split; [done| |]; cbn; intros ??; by rewrite lookup_empty. Qed.

Lemma registered_authentic (d : D) (ls : list gate_label) (g : Gate) (id : string) (t : Tunnel) :
  ds_inv d → gate_run (gate_init d) ls g → reg_tunnels (g_reg g) !! id = Some t →
  served (g_conns g) t ∧ asked ls t ∧
  ∃ user key d', Handshake (conn t) user key d' ∈ ls ∧ authentic d' user key id (Tunnel_TenantID t).
Proof.
  intros Hd Hrun Ht. pose proof (gate_inv_run _ _ _ (gate_init_inv d Hd) Hrun) as Hinv.
  destruct (gi_tunnels _ _ Hinv _ _ Ht) as (Hid & Hserved & Hasked). split; [done|]. split; [done|].
  destruct Hserved as (sc & Hsc & _ & Hm & Htid). destruct (gi_conns _ _ Hinv _ _ Hsc) as (u & k & d' & ? & Ha).
  exists u, k, d'. split; [done|]. by rewrite <-Htid, <-Hid, <-Hm.
Qed.

(** C8: Whatever the interleaving of handshakes, requests, disconnections,
    closings and database writes: a tunnel registered for a machine belongs to
    a connection that is still in its request loop and asked for the forward
    with that address; the connection was authenticated by a key whose
    fingerprint is that of a machine enrolled at the time of the handshake,
    under the SSH user name that is the machine's ID, and carries its tenant. *)
Theorem gate_tunnels_authentic (d : D) (ls : list gate_label) (g : Gate) (id : string) (t : Tunnel) :
  ds_inv d → gate_run (gate_init d) ls g → reg_tunnels (g_reg g) !! id = Some t →
  served (g_conns g) t ∧ asked ls t ∧
  ∃ user key d', Handshake (conn t) user key d' ∈ ls ∧ authentic d' user key id (Tunnel_TenantID t).
Proof. apply registered_authentic. Qed.

End gate.

(** Ownership in the registry.  Registering a tunnel makes it the one its
    machine is dialled through, closes the connection it replaces when that
    is another one, and leaves other machines alone; cleaning up after any
    other connection does not take it away, cleaning up after its own does. *)
Theorem registry_ownership `{SSHChannels} (r : Registry) (t : Tunnel) :
  let r1 := register t r in
  reg_tunnels r1 = <[MachineID t := t]> (reg_tunnels r) ∧
  reg_closed r1 =
    match reg_tunnels r !! MachineID t with
    | Some old => if decide (conn old = conn t) then reg_closed r else {[conn old]} ∪ reg_closed r
    | None => reg_closed r
    end ∧
  Registry_Online (MachineID t) r1 = true ∧
  (Registry_Dial (MachineID t) r1).1 =
    match OpenChannel (reg_closed r1) (conn t) "forwarded-tcpip" (mkPayload (bindAddr t) (bindPort t) "127.0.0.1" 1) with
    | inr ch => inr ch
    | inl e => inl (WrapError ("opening channel to " +:+ MachineID t) e)
    end ∧
  (∀ c, c ≠ conn t → unregister (MachineID t) c r1 = r1) ∧
  (Registry_Dial (MachineID t) (unregister (MachineID t) (conn t) r1)).1 = inl ErrNotConnected.
Proof.
  unfold register, register_locked.
  assert (∀ cl, let r1 := mkRegistry (<[MachineID t := t]> (reg_tunnels r)) cl in
    Registry_Online (MachineID t) r1 = true ∧
    (Registry_Dial (MachineID t) r1).1 =
      match OpenChannel cl (conn t) "forwarded-tcpip" (mkPayload (bindAddr t) (bindPort t) "127.0.0.1" 1) with
      | inr ch => inr ch
      | inl e => inl (WrapError ("opening channel to " +:+ MachineID t) e)
      end ∧
    (∀ c, c ≠ conn t → unregister (MachineID t) c r1 = r1) ∧
    (Registry_Dial (MachineID t) (unregister (MachineID t) (conn t) r1)).1 = inl ErrNotConnected) as Hrest.
  { intros cl. unfold Registry_Online, Registry_Dial, unregister, bind, get, or_return, lift. cbn.
    rewrite lookup_insert_eq. split; [by rewrite bool_decide_eq_true_2|].
    split; [by destruct (OpenChannel _ _ _ _)|]. split.
    - intros c Hc. by destruct (Nat.eqb_spec (conn t) c).
    - rewrite Nat.eqb_refl. cbn. by rewrite lookup_delete_eq. }
  destruct (reg_tunnels r !! MachineID t) as [old|]; [|by split; [|split; [|apply Hrest]]].
  destruct (Nat.eqb_spec (conn old) (conn t)); cbn.
  - rewrite decide_True by done. split; [done|]. split; [done|apply Hrest].
  - rewrite decide_False by done. split; [done|]. split; [done|apply Hrest].
Qed.
