(* ===== verification/GateLoop.v ===== *)
(** The rest of the gateway: its accept loop and idle deadline
    (internal/sshgate/server.go) and its host key
    (internal/sshgate/hostkey.go). *)
From Stdlib Require Import ZArith Lia.
From stdpp Require Import base gmap strings list.
From S2P Require Import Prelude GoStrings Http SshKeys Files.

(** * Accepting connections *)

(** What [ln.Accept()] returns, with [ctx.Err() != nil] as it is then. *)
Inductive accepted :=
  | AcceptConn (nc : nat)
  | AcceptTimeout
  | AcceptError (err : error).

(** The loop: the connections handed to [handleConn] and, when the loop ends,
    what [ListenAndServe] returns ([None] is nil). *)
Fixpoint accept_loop (evs : list (accepted * bool)) : list nat * option (option error) :=
  match evs with
  | [] => ([], None)
  | (AcceptConn nc, _) :: evs => let '(cs, r) := accept_loop evs in (nc :: cs, r)
  | (AcceptTimeout, done) :: evs => if (done : bool) then ([], Some None) else accept_loop evs
  | (AcceptError err, done) :: evs => ([], Some (if (done : bool) then None else Some err))
  end.

Definition ListenAndServe (listen : error + unit) (evs : list (accepted * bool)) : list nat * option (option error) :=
  match listen with
  | inl err => ([], Some (Some (WrapError "listening" err)))
  | inr _ => accept_loop evs
  end.

(** * The idle deadline *)

Definition idleTimeout : Duration := (90 * Second)%Z.

(** [idleConn]: the read deadline in force. *)
Record idleConn := mkIdleConn { timeout : Duration; deadline : Time }.

Definition idle_touch (now : Time) (c : idleConn) : idleConn := mkIdleConn (timeout c) (now + timeout c).

(** What [handleConn] starts with. *)
Definition idle_start (now : Time) : idleConn := idle_touch now (mkIdleConn idleTimeout 0).

(** [Read] and [Write] of [n] bytes at time [now]. *)
Definition idle_io (now : Time) (n : nat) (c : idleConn) : idleConn :=
  if 0 <? n then idle_touch now c else c.

(** Traffic: times and byte counts.  The gateway always has a read pending,
    so the connection ends at the first moment the deadline is reached;
    [None] when that comes before the traffic is over. *)
Fixpoint idle_run (evs : list (Time * nat)) (c : idleConn) : option idleConn :=
  match evs with
  | [] => Some c
  | (t, n) :: evs => if Z.leb (deadline c) t then None else idle_run evs (idle_io t n c)
  end.

(** Traffic whose pauses are shorter than the timeout. *)
Fixpoint pauses_below (d : Duration) (last : Time) (evs : list (Time * nat)) : Prop :=
  match evs with
  | [] => True
  | (t, n) :: evs => (t - last < d)%Z ∧ 0 < n ∧ pauses_below d t evs
  end.

Lemma idle_run_alive evs c last :
  deadline c = (last + timeout c)%Z → pauses_below (timeout c) last evs → is_Some (idle_run evs c).
Proof.
  revert c last. induction evs as [|[t n] evs IH]; intros c last Hd; simpl; [by eexists|].
  intros (Ht & Hn & Hp). destruct (Z.leb_spec (deadline c) t); [lia|].
  unfold idle_io. rewrite (proj2 (Nat.ltb_lt _ _)) by done. by apply (IH _ t).
Qed.

(** * The host key *)

Section hostkey.
  Context `{SSH}.

(** [generated]: the result of [ed25519.GenerateKey], should it be needed.
    [ssh.NewSignerFromKey] of an ed25519 key does not fail. *)
Definition LoadOrCreateHostKey (path : string) (generated : error + Signer) : M FS error Signer :=
  let! r := attempt (ReadFile path) in
  match r with
  | inr data =>
      match parse_key data with
      | inl err => throw (WrapError ("parsing host key " +:+ path) err)
      | inr signer => ret signer
      end
  | inl err =>
      if negb (IsNotExist err) then throw (WrapError ("reading host key " +:+ path) err)
      else
        match generated with
        | inl err => throw (WrapError "generating host key" err)
        | inr priv =>
            match MarshalPrivateKey priv "phosphor host key" with
            | inl err => throw (WrapError "marshaling host key" err)
            | inr pem =>
                do! WriteFile path (Bytes pem) else_return (WrapError ("persisting host key " +:+ path)) in
                ret priv
            end
        end
  end.

Lemma host_key_reload `{!SSHOk} (path : string) (generated generated' : error + Signer) (f f' : FS) (k : Signer) :
  LoadOrCreateHostKey path generated f = (inr k, f') →
  LoadOrCreateHostKey path generated' f' = (inr k, f') ∧
  (is_Some (files f !! path) → f' = f).
Proof.
  intros Hload. unfold LoadOrCreateHostKey, bind, attempt in Hload |- *.
  destruct (ReadFile path f) as [[err|data] f1] eqn:Hr; cbn -[WriteFile] in Hload;
    pose proof (ReadFile_state path f) as Hst; rewrite Hr in Hst; cbn in Hst; subst f1.
  - destruct (IsNotExist err) eqn:Hne; [|done]. apply bool_decide_eq_true in Hne as ->.
    destruct generated as [e|priv]; [done|]. destruct (MarshalPrivateKey priv _) as [e|pem] eqn:Hm; [done|].
    unfold or_return in Hload. cbn -[WriteFile] in Hload. destruct (WriteFile path (Bytes pem) f) as [[e|[]] f2] eqn:Hw; cbn in Hload; [discriminate Hload|].
    unfold ret in Hload. simplify_eq/=.
    assert (read_err f path = None ∧ files f !! path = None) as [Hre Hf].
    { unfold ReadFile, bind, get in Hr. cbn in Hr. destruct (read_err f path); [done|].
      by destruct (files f !! path). }
    rewrite (WriteFile_ReadFile _ _ _ _ Hw Hre). cbn. rewrite (private_key_roundtrip _ _ _ Hm).
    split; [done|]. rewrite Hf. by intros [? ?].
  - destruct (parse_key data) as [e|k'] eqn:Hk; [done|]. unfold ret in Hload. simplify_eq.
    rewrite Hr. cbn. by rewrite Hk.
Qed.

(** The host key survives restarts: once loading has succeeded, loading
    again gives the same key and changes nothing, whatever key would be
    generated; a file that cannot be read or parsed is an error and is never
    replaced. *)
Theorem host_key_stable `{!SSHOk} (path : string) (generated generated' : error + Signer) (f f' : FS) (k : Signer) :
  LoadOrCreateHostKey path generated f = (inr k, f') →
  LoadOrCreateHostKey path generated' f' = (inr k, f') ∧
  (is_Some (files f !! path) → f' = f).
Proof. apply host_key_reload. Qed.

End hostkey.

(** A first start, after which another start would have generated key 7. *)
Lemma host_key_stable_witness :
  let f := mkFS ∅ (λ _, None) [] (inr "/home") None in
  let f1 := set_files {["/key" := Bytes "kkk"]} f in
  @LoadOrCreateHostKey toy_ssh "/key" (inr 7) f1 = (inr 3, f1).
Proof.
  intros f f1. refine (proj1 (@host_key_stable toy_ssh toy_ssh_ok "/key" (inr 3) (inr 7) f f1 3 _)).
  vm_compute. reflexivity.
Defined.

(** The accept loop: every connection accepted before the loop ends is
    handed to a handler, in order; it ends without an error only when the
    context is cancelled, and a timeout alone never ends it. *)
Lemma accept_loop_spec (evs : list (accepted * bool)) :
  match accept_loop evs with
  | (cs, None) => cs = omap (λ e, match e.1 with AcceptConn nc => Some nc | _ => None end) evs
  | (cs, Some r) => ∃ before a fin after, evs = before ++ (a, fin) :: after ∧
      cs = omap (λ e, match e.1 with AcceptConn nc => Some nc | _ => None end) before ∧
      match r with
      | None => fin = true
      | Some err => fin = false ∧ a = AcceptError err
      end
  end.
Proof.
  induction evs as [|[a fin] evs IH]; simpl; [done|]. destruct a as [nc| |err].
  - destruct (accept_loop evs) as [cs [r|]]; simpl; [|by rewrite IH].
    destruct IH as (before & a & b & after & -> & -> & Hr). by exists ((AcceptConn nc, fin) :: before), a, b, after.
  - destruct fin; [by exists [], AcceptTimeout, true, evs|].
    destruct (accept_loop evs) as [cs [r|]]; simpl; [|done].
    destruct IH as (before & a & b & after & -> & -> & Hr). by exists ((AcceptTimeout, false) :: before), a, b, after.
  - exists [], (AcceptError err), fin, evs. split; [done|]. split; [done|]. by destruct fin.
Qed.
