(* ===== verification/Scenario.v ===== *)
(** A concrete relay for the examples of the components that follow: one
    identity provider, the in-memory store with two accounts and a machine,
    and a registry with that machine's tunnel. *)
From Stdlib Require Import ZArith Lia Ascii.
From stdpp Require Import base gmap strings list pretty.
From S2P Require Import Prelude GoStrings StoreSpec FakeStore StoreProps AuthSession Http Oidc.
From S2P Require Import ApiKey SshKeys RelayAuth SshGate.

(** A provider accepts the tokens [issuer/subject|email]. *)
Definition toy_oidc : OIDC := {|
  OIDCProvider := string;
  oidc_NewProvider _ issuer := inr issuer;
  oidc_Verify p _ _ _ tok :=
    if HasPrefix tok (p +:+ "/") then
      match Cut (TrimPrefix tok (p +:+ "/")) "|" with
      | Some (sub, email) => inr (mkOIDCToken sub email)
      | None => inl (ErrorString "malformed")
      end
    else inl (ErrorString "other issuer");
  authorization_endpoint p := inr (p +:+ "/authorize");
  token_endpoint p := inr (p +:+ "/token")
|}.

Definition toy_channels : SSHChannels := {|
  Channel := nat * string;
  OpenChannel cs c _ p := if decide (c ∈ cs) then inl (ErrorString "EOF") else inr (c, Addr p)
|}.

#[local] Existing Instances toy_oidc toy_channels toy_jose toy_ssh toy_uuid range_in_order.

Definition google : ProviderConfig :=
  mkConfig "google" "https://g" "client" "shh" EmptyString EmptyString EmptyString None.

Definition verifier0 : gmap string providerEntry := (AddProvider google NewVerifier).2.

(** Two accounts (users 2 and 4 in tenants 1 and 3), machine 5 of the first. *)
Definition fake1 : Fake :=
  (run_ops [ OpGetOrCreateUser "google" "alice" "a@x"; OpGetOrCreateUser "google" "bob" "b@x";
             OpCreateMachine 1 "laptop" "host" "SHA256:kk" ] (NewFake env0)).2.

Lemma fake1_inv : ds_inv fake1.
Proof.
  refine (proj1 (run_ops_simulation _ (NewFake env0) _ _ fake_inv0 _ (surjective_pairing _))).
  vm_compute. repeat split. all: eauto.
Qed.

(** The machine's tunnel, on connection 0. *)
Definition registry1 : Registry := register (mkTunnel "kkkkk" "k" 0 "0.0.0.0" 22) NewRegistry.

Definition server0 (devMode : bool) : Server Fake MemoryAuthSessionStore Registry :=
  SetSSHGate registry1 "relay:2222" 9
    (NewServer "https://relay" (Some verifier0) devMode mem0 "secret" fake1 world0).

Definition get_as (token id : string) : Request :=
  mkRequest "GET" ("Bearer " +:+ token) [] None id None.

Definition alice : string := "https://g/alice|a@x".
Definition bob : string := "https://g/bob|b@x".
