(* ===== verification/AuthProps.v ===== *)
(** What the relay's authentication guarantees. *)
From Stdlib Require Import ZArith Lia Ascii.
From stdpp Require Import base gmap strings list.
From S2P Require Import Prelude GoStrings StoreSpec FakeStore StoreProps AuthSession Http Oidc.
From S2P Require Import ApiKey SshKeys RelayAuth SshGate Scenario.

(** * Revoked keys stay revoked *)

(** No operation but recording the key again makes it valid. *)
Lemma op_post_key_revoked o t r t' k :
  op_post o t r t' → (∀ u, o ≠ OpRecordAPIKey k u) → key_revoked k t = true → key_revoked k t' = true.
Proof.
  intros Hpost Hne Hk.
  assert (api_keys t' = api_keys t → key_revoked k t' = true) as Hsame by (unfold key_revoked; by intros ->).
  destruct o, r as [e|x]; cbn in Hpost;
    unfold GetUserByID_post, CreateMachine_post, GetMachine_post, GetMachineByFingerprint_post,
      ListMachines_post, TouchMachine_post, RenameMachine_post, DeleteMachine_post, IsAPIKeyRevoked_post,
      RecordAPIKey_post, RevokeAPIKey_post in Hpost;
    try (apply Hsame; naive_solver).
  - destruct Hpost as (u & _ & ->). unfold key_revoked. cbn.
    rewrite lookup_insert_ne; [done|]. intros ->. by destruct (Hne userID).
  - destruct Hpost as (u & _ & k' & ts & ? & ? & ? & ->). unfold key_revoked in *. cbn.
    destruct (decide (keyID = k)) as [->|]; [by rewrite lookup_insert_eq|by rewrite lookup_insert_ne].
Qed.

Lemma spec_run_key_revoked t tr t' k :
  spec_run t tr t' → Forall (λ c, ∀ u, c.1 ≠ OpRecordAPIKey k u) tr → key_revoked k t = true → key_revoked k t' = true.
Proof.
  induction 1 as [|t o r t1 tr t2 _ Hpost _ _ IH]; [done|]. intros [Ho Htr]%Forall_cons Hk.
  apply IH; [done|]. by eapply op_post_key_revoked.
Qed.

Lemma run_ops_fst {S} `{DataStore S} os (s : S) : (run_ops os s).1.*1 = os.
Proof.
  revert s. induction os as [|o os IH]; intros s; simpl; [done|].
  destruct (run_op o s) as [r s1]. specialize (IH s1). destruct (run_ops os s1). simpl in *. f_equal. exact IH.
Qed.

Section auth.
  Context `{OIDC} `{SSH} `{Jose} `{MapRange} {D A T : Type} `{DataStoreOk D}.
  Abbreviation Srv := (Server D A T).

(** C7: Authentication in production.  A token is accepted exactly as the
    identity it proves: an API key signed with the server's secret for the
    issuer "phosphor", whose ID is recorded and not revoked and whose subject
    is well formed; or an ID token that a configured provider verifies.  A
    refused token is none of these, unless the store failed to answer.  The
    server and the stored data are left as they were. *)
Theorem verifyToken_production (s s' : Srv) (token : string) (r : error + (string * string * string)) :
  ds_inv (db s) → devMode s = false → verifyToken token s = (r, s') →
  auth_frame s s' ∧
  match r with
  | inr id => authenticates s token id
  | inl err => refused s token err
  end.
Proof. intros Hs Hdev Hrun. exact (wp_run _ _ _ _ _ (verifyToken_production_wp s token Hs Hdev) Hrun). Qed.

(** C16: A revoked API key is refused for good: after a successful revocation
    and any further calls of the store but a new recording of that key ID, a
    production server on that store rejects every token with that key ID. *)
Theorem revoked_key_rejected (s : Srv) (d1 d2 d3 : D) (keyID raw : string) (uid : UUID) os tr c :
  ds_inv d1 → ds_RevokeAPIKey keyID uid d1 = (inr tt, d2) →
  valid_ops os d2 → (∀ u, OpRecordAPIKey keyID u ∉ os) → run_ops os d2 = (tr, d3) →
  devMode s = false → db s = d3 → VerifyAPIKey (apiKeySecret s) raw = inr c → Claims_KeyID c = keyID →
  ∃ err, (verifyToken ("phk:" +:+ raw) s).1 = inl err.
Proof.
  intros Hd1 Hrev Hvalid Hos Hrun Hdev Hdb Hc Hid.
  destruct (wp_run _ _ _ _ _ (ds_RevokeAPIKey_ok keyID uid d1 Hd1) Hrev) as [Hd2 (k & ts & _ & _ & _ & Hv)].
  destruct (run_ops_simulation _ _ _ _ Hd2 Hvalid Hrun) as [Hd3 Hspec].
  assert (key_revoked keyID (ds_view d3) = true) as Hk.
  { eapply spec_run_key_revoked; [done| |].
    - apply Forall_forall. intros [o r] Hin u. cbn. intros ->. apply (Hos u).
      rewrite <-(run_ops_fst os d2), Hrun. apply list_elem_of_fmap. by exists (OpRecordAPIKey keyID u, r).
    - rewrite Hv. unfold key_revoked. cbn. by rewrite lookup_insert_eq. }
  destruct (verifyToken _ s) as [[err|id] s'] eqn:Hv'; [by exists err|]. rewrite <-Hdb in Hd3.
  destruct (wp_run _ _ _ _ _ (verifyToken_production_wp s _ Hd3 Hdev) Hv') as [_ Hauth].
  destruct Hauth as [(raw' & Heq & (c' & Hc' & Hk' & _) & _)|[Hp _]]; [|by rewrite HasPrefix_app in Hp].
  assert (raw' = raw) as -> by (apply (f_equal (λ t, TrimPrefix t "phk:")) in Heq; by rewrite !TrimPrefix_app in Heq).
  rewrite Hdb in Hk'. congruence.
Qed.

(** In development mode every token is accepted, as some identity, and
    without touching the stored data. *)
Lemma verifyToken_dev (s : Srv) (token : string) :
  devMode s = true → ∃ id, verifyToken token s = (inr id, s).
Proof.
  intros Hdev. unfold verifyToken, bind, get. cbn. rewrite Hdev, andb_true_r.
  destruct (String.eqb token EmptyString); [by eexists|]. destruct (HasPrefix token "phk:"); [by eexists|].
  assert (∃ id, match verifier s with
     | Some v => match VerifyToken v (w_now (world s)) token with
        | inl _ => ret ("dev", "anonymous", EmptyString)
        | inr id => ret (Identity_Provider id, Identity_Sub id, Identity_Email id)
        end
     | None => ret ("dev", "anonymous", EmptyString)
     end s = (inr id, s) :> (error + _) * _) as Hother.
  { destruct (verifier s) as [v|]; [|by eexists]. destruct (VerifyToken _ _ _); by eexists. }
  destruct (SplitN2 token ":") as [|a [|b [|? ?]]]; [exact Hother|exact Hother|by eexists|exact Hother].
Qed.

End auth.

#[local] Existing Instances toy_oidc toy_channels toy_jose toy_ssh toy_uuid range_in_order.

Lemma verifyToken_production_witness :
  (verifyToken alice (server0 false)).1 = inr ("google", "alice", "a@x") ∧
  authenticates (server0 false) alice ("google", "alice", "a@x").
Proof.
  assert ((verifyToken alice (server0 false)).1 = inr ("google", "alice", "a@x")) as E by (vm_compute; reflexivity).
  split; [exact E|].
  refine (proj2 (verifyToken_production (server0 false) (verifyToken alice (server0 false)).2 alice (inr ("google", "alice", "a@x")) fake1_inv eq_refl _)).
  rewrite <-E. apply surjective_pairing.
Defined.

(** Key "k1", recorded for user 2 and revoked, then used. *)
Definition fake_key : Fake := (Fake_RecordAPIKey "k1" 2 fake1).2.

Lemma fake_key_inv : ds_inv fake_key.
Proof. exact (proj1 (ds_RecordAPIKey_ok "k1" 2%N fake1 fake1_inv)). Qed.

Definition fake_revoked : Fake := (Fake_RevokeAPIKey "k1" 2 fake_key).2.

Lemma revoked_key_rejected_witness :
  (verifyToken "phk:secret|k1|phosphor|google:alice" (set_db fake_key (server0 false))).1 =
    inr ("google", "alice", EmptyString) ∧
  ∃ err, (verifyToken "phk:secret|k1|phosphor|google:alice" (set_db fake_revoked (server0 false))).1 = inl err.
Proof.
  split; [vm_compute; reflexivity|].
  refine (revoked_key_rejected (set_db fake_revoked (server0 false)) fake_key fake_revoked fake_revoked "k1"
    "secret|k1|phosphor|google:alice" 2%N [] [] (mkAPIKeyClaims "google:alice" "k1" "phosphor") fake_key_inv
    _ I _ eq_refl eq_refl eq_refl _ eq_refl).
  - vm_compute. reflexivity.
  - intros u. apply not_elem_of_nil.
  - vm_compute. reflexivity.
Defined.

