(* ===== verification/GateProps.v ===== *)
(** Runs of the gateway over the in-memory store: a machine connects and
    forwards, and a deletion that overtakes the forward. *)
From stdpp Require Import base gmap strings list pretty.
From S2P Require Import Prelude GoStrings StoreSpec FakeStore StoreProps SshKeys RelayAuth SshGate Scenario.

#[local] Existing Instances toy_channels toy_ssh toy_uuid range_in_order.

(** Machine 5 (user name "kkkkk", key 2) on connection 0. *)
Definition forward_request : GlobalRequest := mkGlobalRequest "tcpip-forward" true (Some ("0.0.0.0", 22%Z)).

Definition laptop_tunnel : Tunnel := mkTunnel "kkkkk" "k" 0 "0.0.0.0" 22.

Definition laptop_conn (p : conn_phase) : gmap nat ServerConn := {[ 0 := mkServerConn "kkkkk" "k" p ]}.

(** The database once the machine was touched. *)
Definition fake_touched (d : Fake) : Fake := (touch "kkkkk" d).2.

Lemma laptop_connects :
  gate_run (gate_init fake1) [Handshake 0 "kkkkk" 2 fake1] (mkGate fake1 NewRegistry (laptop_conn Connected) []).
Proof.
  refine (gate_snoc _ [] _ _ _ (gate_nil _) (step_handshake (gate_init fake1) 0 "kkkkk" 2
    (mkPermissions "kkkkk" "k") fake1 eq_refl _ _)).
  - by apply not_elem_of_empty.
  - vm_compute. reflexivity.
Qed.

Lemma laptop_forwards d cl :
  gate_step (mkGate d (mkRegistry ∅ cl) (laptop_conn Serving) []) (GlobalReq 0 forward_request (Some true))
    (mkGate d (mkRegistry {[ "kkkkk" := laptop_tunnel ]} cl) (laptop_conn Serving) []).
Proof.
  exact (step_request (mkGate d (mkRegistry ∅ cl) (laptop_conn Serving) []) 0 _ forward_request (Some true)
    None (mkRegistry {[ "kkkkk" := laptop_tunnel ]} cl) eq_refl eq_refl eq_refl).
Qed.

Lemma laptop_touched d r :
  gate_step (mkGate d r (laptop_conn Connected) []) (Touch 0) (mkGate (fake_touched d) r (laptop_conn Serving) []).
Proof. exact (step_touch (mkGate d r (laptop_conn Connected) []) 0 _ eq_refl eq_refl). Qed.

Definition laptop_run : list gate_label :=
  [Handshake 0 "kkkkk" 2 fake1; Touch 0; GlobalReq 0 forward_request (Some true)].

Lemma gate_tunnels_authentic_witness :
  gate_run (gate_init fake1) laptop_run
    (mkGate (fake_touched fake1) (mkRegistry {[ "kkkkk" := laptop_tunnel ]} ∅) (laptop_conn Serving) []) ∧
  ∃ user key d', Handshake 0 user key d' ∈ laptop_run ∧ authentic d' user key "kkkkk" "k".
Proof.
  assert (gate_run (gate_init fake1) laptop_run
    (mkGate (fake_touched fake1) (mkRegistry {[ "kkkkk" := laptop_tunnel ]} ∅) (laptop_conn Serving) [])) as Hrun.
  { refine (gate_snoc _ [_; _] _ _ _ (gate_snoc _ [_] _ _ _ laptop_connects _) (laptop_forwards _ _)).
    apply laptop_touched. }
  split; [exact Hrun|].
  exact (proj2 (proj2 (gate_tunnels_authentic fake1 laptop_run _ "kkkkk" laptop_tunnel fake1_inv Hrun eq_refl))).
Defined.

(** * Deleting a machine that is connecting *)

Definition deleting_run : list gate_label :=
  [Handshake 0 "kkkkk" 2 fake1; Database; CloseMachine "kkkkk"; Touch 0; GlobalReq 0 forward_request (Some true)].

(** C32: Deleting a machine closes its tunnel but not a connection that has
    not forwarded yet: in the run where [DeleteMachine] and [tunnels.Close] of
    the machines API fall between the handshake and the "tcpip-forward", the
    machine is gone from the database, yet its tunnel is registered, online
    and dialled, with the connection open. *)
Theorem deleted_machine_stays_online :
  let deleted := (Fake_DeleteMachine 5 fake1).2 in
  ∃ g, gate_run (gate_init fake1) deleting_run g ∧
    machines (ds_view fake1) !! 5%N ≠ None ∧
    (Fake_DeleteMachine 5 fake1).1 = inr tt ∧
    (Registry_Close "kkkkk" NewRegistry).1 = inr false ∧
    machines (ds_view (g_db g)) !! 5%N = None ∧
    Registry_Online "kkkkk" (g_reg g) = true ∧
    (0 ∉ reg_closed (g_reg g)) ∧
    ∃ ch, (Registry_Dial "kkkkk" (g_reg g)).1 = inr ch.
Proof.
  intros deleted.
  exists (mkGate (fake_touched deleted) (mkRegistry {[ "kkkkk" := laptop_tunnel ]} ∅) (laptop_conn Serving) []).
  split.
  { refine (gate_snoc _ [_; _; _; _] _ _ _ (gate_snoc _ [_; _; _] _ _ _ (gate_snoc _ [_; _] _ _ _
      (gate_snoc _ [_] _ _ _ laptop_connects (step_database _ deleted _)) _) (laptop_touched _ _)) (laptop_forwards _ _)).
    - exact (proj1 (ds_DeleteMachine_ok 5%N fake1 fake1_inv)).
    - exact (step_close_machine (mkGate deleted NewRegistry (laptop_conn Connected) []) "kkkkk" None NewRegistry eq_refl). }
  split; [vm_compute; discriminate|]. do 4 (split; [vm_compute; reflexivity|]). split; [by apply not_elem_of_empty|].
  eexists. vm_compute. reflexivity.
Qed.
