(* ===== verification/Machines.v ===== *)
(** The machines API (internal/relay/handler_machines.go) and its tenant
    isolation. *)
From Stdlib Require Import ZArith Lia Ascii.
From stdpp Require Import base gmap strings list.
From S2P Require Import Prelude GoStrings StoreSpec FakeStore AuthSession Http Oidc ApiKey SshKeys RelayAuth SshGate Scenario.

Section machines.
  Context `{OIDC} `{SSH} `{Jose} `{MapRange} `{UUIDText}.
  Context {D A T : Type} `{DataStore D} `{TunnelDialer T}.
  Abbreviation Srv := (Server D A T).

(** [s.tunnels.f(...)] behind the test for nil. *)
Definition on_tunnels {X} (skip : X) (m : M T error X) : M Srv error X := λ s,
  match tunnels s with
  | None => (inr skip, s)
  | Some t => ((m t).1, set_tunnels (Some (m t).2) s)
  end.

Definition machineJSON (s : Srv) (m : Machine) : json :=
  JObject [
    ("id", JString (uuid_String (Machine_ID m)));
    ("name", JString (Machine_Name m));
    ("hostname", JString (Machine_Hostname m));
    ("fingerprint", JString (Machine_Fingerprint m));
    ("online", JBool (match tunnels s with
                      | Some t => td_Online (uuid_String (Machine_ID m)) t
                      | None => false
                      end));
    ("created_at", JTime (Machine_CreatedAt m));
    ("last_seen_at", match Machine_LastSeenAt m with Some t => JTime t | None => JNull end)].

Definition unauthenticated : Response := writeJSONError 401 "authentication required".
Definition internal_error : Response := writeJSONError 500 "internal error".
Definition machine_not_found : Response := writeJSONError 404 "machine not found".

Definition HandleListMachines (r : Request) : Handler Srv :=
  let! user := resolveUser r else_return (λ _, unauthenticated) in
  let! ms := on_db (ds_ListMachines (User_TenantID user)) else_return (λ _, internal_error) in
  let! s := get in
  ret (writeJSON (JList (machineJSON s <$> ms))).

Definition HandleCreateMachine (r : Request) : Handler Srv :=
  let! user := resolveUser r else_return (λ _, unauthenticated) in
  match Decode ["name"; "hostname"; "public_key"] (Body r) with
  | None => throw (writeJSONError 400 "invalid request body")
  | Some req =>
      let hostname := Values_Get "hostname" req in
      let name := TrimSpace (Values_Get "name" req) in
      let name := if String.eqb name EmptyString then TrimSpace hostname else name in
      if String.eqb name EmptyString then throw (writeJSONError 400 "name is required")
      else
        let! pubKey := lift (ParseAuthorizedKey (Values_Get "public_key" req))
          else_return (λ _, writeJSONError 400 "public_key must be in authorized_keys format") in
        let! m := on_db (ds_CreateMachine (User_TenantID user) name hostname (FingerprintSHA256 pubKey))
          else_return (λ err,
            if errors_Is err ErrDuplicateName then
              writeJSONError 409 "a machine with that name already exists"
            else if errors_Is err ErrDuplicateFingerprint then
              writeJSONError 409 "that machine key is already enrolled"
            else internal_error) in
        let! s := get in
        ret (Reply 201 (Json (machineJSON s m)))
  end.

(** The machine of the path, when it is the caller's; otherwise the response
    has been written. *)
Definition tenantMachine (r : Request) : M Srv Response (User * Machine) :=
  let! user := resolveUser r else_return (λ _, unauthenticated) in
  let! id := lift (uuid_Parse (PathValue r)) else_return (λ _, machine_not_found) in
  let! res := attempt (on_db (ds_GetMachine id)) in
  match res with
  | inl err => throw (if errors_Is err ErrNotFound then machine_not_found else internal_error)
  | inr m =>
      if negb (N.eqb (Machine_TenantID m) (User_TenantID user)) then throw machine_not_found
      else ret (user, m)
  end.

Definition HandleUpdateMachine (r : Request) : Handler Srv :=
  let! um := tenantMachine r in
  let m := um.2 in
  let '(ok, req) := Decode_lax ["name"] (Body r) in
  let name := TrimSpace (Values_Get "name" req) in
  if negb ok || String.eqb name EmptyString then throw (writeJSONError 400 "name is required")
  else
    do! on_db (ds_RenameMachine (Machine_ID m) name)
      else_return (λ err,
        if errors_Is err ErrDuplicateName then writeJSONError 409 "a machine with that name already exists"
        else internal_error) in
    let! s := get in
    ret (writeJSON (machineJSON s (Machine_set_name name m))).

Definition HandleDeleteMachine (r : Request) : Handler Srv :=
  let! um := tenantMachine r in
  let m := um.2 in
  let! res := attempt (on_db (ds_DeleteMachine (Machine_ID m))) in
  match res with
  | inl err =>
      if negb (errors_Is err ErrNotFound) then throw internal_error
      else
        do! attempt (on_tunnels false (td_Close (uuid_String (Machine_ID m)))) in
        ret (Reply 204 NoContent)
  | inr _ =>
      do! attempt (on_tunnels false (td_Close (uuid_String (Machine_ID m)))) in
      ret (Reply 204 NoContent)
  end.

Definition HandleSSHInfo (r : Request) : Handler Srv :=
  let! s := get in
  match sshHostKey s with
  | None => throw (writeJSONError 503 "ssh gateway not configured")
  | Some k =>
      ret (writeJSON (strings_json [
        ("addr", sshPublicAddr s);
        ("host_key", TrimSpace (MarshalAuthorizedKey k));
        ("fingerprint", FingerprintSHA256 k)]))
  end.

(** * What a handler does to the tables *)

Context `{!DataStoreOk D}.

(** [u] is the caller: the row of the identity the request's token proves. *)
Definition caller (s : Srv) (r : Request) (u : User) (s' : Srv) : Prop :=
  (∃ e, authenticates s (bearer_token r) (User_Provider u, User_Subject u, e)) ∧
  users (ds_view (db s')) !! User_ID u = Some u.

Definition logged_in (s : Srv) (r : Request) (u : User) (s1 : Srv) : Prop :=
  same_server s s1 ∧ ds_inv (db s1) ∧ caller s r u s1 ∧
  machines (ds_view (db s1)) = machines (ds_view (db s)) ∧
  api_keys (ds_view (db s1)) = api_keys (ds_view (db s)).

Lemma resolveUser_logged_in s r :
  ds_inv (db s) → devMode s = false →
  wp (resolveUser r) (λ res s1, ds_inv (db s1) ∧ machines (ds_view (db s1)) = machines (ds_view (db s)) ∧
    match res with inl _ => True | inr u => logged_in s r u s1 end) s.
Proof.
  intros Hs Hdev. wp_use (resolveUser_production_wp s r Hs Hdev).
  intros [err|u] s1 (Hsame & Hinv & Hr); [by rewrite Hr|]. destruct Hr as (e & Hauth & Hpost).
  apply GetOrCreateUser_post_row in Hpost as (Hrow & Hm & Hk).
  split; [done|]. split; [done|]. split; [done|]. split; [done|]. split; [|done]. split; [by exists e|done].
Qed.

Lemma tenantMachine_wp s r :
  ds_inv (db s) → devMode s = false →
  wp (tenantMachine r) (λ res s1, ds_inv (db s1) ∧ machines (ds_view (db s1)) = machines (ds_view (db s)) ∧
    match res with
    | inl resp => is_success resp = false
    | inr (u, m) => logged_in s r u s1 ∧ uuid_Parse (PathValue r) = inr (Machine_ID m) ∧
        machines (ds_view (db s)) !! Machine_ID m = Some m ∧ Machine_TenantID m = User_TenantID u
    end) s.
Proof.
  intros Hs Hdev. unfold tenantMachine. wp_simpl. wp_use (resolveUser_logged_in s r Hs Hdev).
  intros [err|u] s1 (Hinv & Hm & Hr); [done|]. wp_simpl. rewrite wp_lift.
  destruct (uuid_Parse (PathValue r)) as [err|id] eqn:Hid; [done|]. unfold on_db. wp_simpl.
  wp_use (ds_GetMachine_ok id (db s1) Hinv). intros [err|m] d2 (Hd & Hv & Hr2).
  { wp_simpl. cbn. split; [done|]. rewrite Hv. split; [done|]. by destruct (errors_Is err ErrNotFound). }
  destruct (N.eqb_spec (Machine_TenantID m) (User_TenantID u)) as [Ht|]; cbn [negb]; wp_simpl; cbn;
    (split; [done|]; split; [by rewrite Hv|]); [|done].
  destruct Hr as (Hsame & _ & Hc & _ & Hk).
  rewrite Hm in Hr2.
  pose proof (machines_pkey _ (ds_inv_ok _ Hs) _ _ Hr2) as <-.
  split; [|done]. split; [by etransitivity; [|apply same_server_db]|]. split; [done|].
  unfold caller in *. cbn. by rewrite Hv.
Qed.

(** The machines of other tenants. *)
Definition foreign (tid : UUID) (t : Tables) (k : UUID) (m : Machine) : Prop :=
  machines t !! k = Some m ∧ Machine_TenantID m ≠ tid.

Definition keeps_foreign (tid : UUID) (t t' : Tables) : Prop :=
  ∀ k m, foreign tid t k m ↔ foreign tid t' k m.

Lemma keeps_foreign_eq tid t t' : machines t' = machines t → keeps_foreign tid t t'.
Proof. intros E k m. unfold foreign. by rewrite E. Qed.

(** A row of the tenant is added, changed or removed. *)
Lemma keeps_foreign_alter f id tid t m0 :
  machines t !! id = Some m0 → Machine_TenantID m0 = tid → Machine_TenantID (f m0) = tid →
  keeps_foreign tid t (with_machines (alter f id) t).
Proof.
  intros Hm Ht Hf k m. unfold foreign. simpl. rewrite lookup_alter. case_decide; subst; [|done].
  rewrite Hm. simpl. split; intros [[= <-] ?]; done.
Qed.

Lemma keeps_foreign_insert id tid t m0 :
  machines t !! id = None → Machine_TenantID m0 = tid → keeps_foreign tid t (with_machines <[id := m0]> t).
Proof.
  intros Hm Ht k m. unfold foreign. simpl. rewrite lookup_insert. case_decide; subst; [|done].
  rewrite Hm. split; intros [[= <-] ?]; done.
Qed.

Lemma keeps_foreign_delete id tid t m0 :
  machines t !! id = Some m0 → Machine_TenantID m0 = tid → keeps_foreign tid t (with_machines (delete id) t).
Proof.
  intros Hm Ht k m. unfold foreign. simpl. rewrite lookup_delete. case_decide; subst; [|done].
  rewrite Hm. split; intros [[= <-] ?]; done.
Qed.

(** The four calls of the API that touch machines. *)
Inductive machines_call := ListMachines | CreateMachine | UpdateMachine | DeleteMachine.

Definition handle (c : machines_call) (r : Request) : Handler Srv :=
  match c with
  | ListMachines => HandleListMachines r
  | CreateMachine => HandleCreateMachine r
  | UpdateMachine => HandleUpdateMachine r
  | DeleteMachine => HandleDeleteMachine r
  end.

(** The name a registration asks for. *)
Definition created_name (req : list (string * string)) : string :=
  let name := TrimSpace (Values_Get "name" req) in
  if String.eqb name EmptyString then TrimSpace (Values_Get "hostname" req) else name.

(** The caller's machine that the path names. *)
Definition named_machine (s : Srv) (r : Request) (u : User) (m : Machine) : Prop :=
  uuid_Parse (PathValue r) = inr (Machine_ID m) ∧ machines (ds_view (db s)) !! Machine_ID m = Some m ∧
  Machine_TenantID m = User_TenantID u.

(** What a successful call does for its caller [u]. *)
Definition call_done (c : machines_call) (s : Srv) (r : Request) (u : User) (resp : Response) (s' : Srv) : Prop :=
  let t := ds_view (db s) in
  let t' := ds_view (db s') in
  match c with
  | ListMachines => ∃ ms, resp = writeJSON (JList (machineJSON s' <$> ms)) ∧ machines t' = machines t ∧
      NoDup ms ∧ ∀ m, m ∈ ms ↔ machines t !! Machine_ID m = Some m ∧ Machine_TenantID m = User_TenantID u
  | CreateMachine => ∃ m, resp = Reply 201 (Json (machineJSON s' m)) ∧
      machines t !! Machine_ID m = None ∧ machines t' = <[Machine_ID m := m]> (machines t) ∧
      Machine_TenantID m = User_TenantID u ∧ Machine_Name m ≠ EmptyString ∧
      (∀ id m0, machines t !! id = Some m0 →
        Machine_Fingerprint m0 ≠ Machine_Fingerprint m ∧
        (Machine_TenantID m0 = User_TenantID u → Machine_Name m0 ≠ Machine_Name m)) ∧
      (∃ req k, Decode ["name"; "hostname"; "public_key"] (Body r) = Some req ∧ Machine_Name m = created_name req ∧
        Machine_Hostname m = Values_Get "hostname" req ∧
        ParseAuthorizedKey (Values_Get "public_key" req) = inr k ∧ Machine_Fingerprint m = FingerprintSHA256 k)
  | UpdateMachine => ∃ m n, named_machine s r u m ∧ n ≠ EmptyString ∧
      machines t' = <[Machine_ID m := Machine_set_name n m]> (machines t) ∧
      resp = writeJSON (machineJSON s' (Machine_set_name n m))
  | DeleteMachine => ∃ m, named_machine s r u m ∧ machines t' = delete (Machine_ID m) (machines t) ∧
      resp = Reply 204 NoContent ∧
      tunnels s' = (λ tn, (td_Close (uuid_String (Machine_ID m)) tn).2) <$> tunnels s
  end.

(** A response that is not a success leaves the machines alone; a success is
    for a caller whose tenant is the only one whose machines change. *)
Definition isolated (c : machines_call) (s : Srv) (r : Request) (resp : Response) (s' : Srv) : Prop :=
  ds_inv (db s') ∧
  if is_success resp then
    ∃ u, caller s r u s' ∧ keeps_foreign (User_TenantID u) (ds_view (db s)) (ds_view (db s')) ∧
      call_done c s r u resp s'
  else machines (ds_view (db s')) = machines (ds_view (db s)).

Definition handler_ok (c : machines_call) (s : Srv) (r : Request) : Prop :=
  wp (handle c r) (λ res s', match res with inl x | inr x => isolated c s r x s' end) s.

Lemma caller_update s r u s1 d :
  logged_in s r u s1 → users (ds_view d) = users (ds_view (db s1)) → caller s r u (set_db d s1).
Proof. intros (_ & _ & [? ?] & _) E. split; [done|]. cbn. by rewrite E. Qed.

Lemma HandleListMachines_ok s r :
  ds_inv (db s) → devMode s = false → handler_ok ListMachines s r.
Proof.
  intros Hs Hdev. unfold handler_ok, handle, HandleListMachines. wp_simpl.
  wp_use (resolveUser_logged_in s r Hs Hdev). intros [err|u] s1 (Hinv & Hm & Hu); [by split|].
  unfold on_db. wp_simpl. wp_use (ds_ListMachines_ok (User_TenantID u) (db s1) Hinv).
  intros [err|ms] d2 (Hd & Hv & Hms); wp_simpl; (split; [done|]); [cbn; by rewrite Hv|].
  assert (machines (ds_view d2) = machines (ds_view (db s))) as E by (by rewrite Hv).
  exists u. split; [apply caller_update; [done|by rewrite Hv]|]. split; [by apply keeps_foreign_eq|].
  exists ms. rewrite Hm in Hms. done.
Qed.

Lemma HandleCreateMachine_ok s r :
  ds_inv (db s) → devMode s = false → handler_ok CreateMachine s r.
Proof.
  intros Hs Hdev. unfold handler_ok, handle, HandleCreateMachine. wp_simpl.
  wp_use (resolveUser_logged_in s r Hs Hdev). intros [err|u] s1 (Hinv & Hm & Hu); [by split|].
  destruct (Decode _ _) as [req|] eqn:Hreq; [|by wp_simpl; split]. cbn zeta.
  set (name := if String.eqb _ _ then TrimSpace (Values_Get "hostname" req) else _). destruct (String.eqb_spec name EmptyString); [by wp_simpl; split|].
  wp_simpl. rewrite wp_lift. destruct (ParseAuthorizedKey _) as [err|k] eqn:Hk; [by split|].
  unfold on_db. wp_simpl. eapply wp_mono.
  { apply (ds_CreateMachine_ok _ name (Values_Get "hostname" req) (FingerprintSHA256 k) (db s1) Hinv).
    destruct Hu as (_ & _ & [_ Hrow] & _). by eapply users_tenant_id_fkey; [eapply ds_inv_ok|]. }
  cbv beta. intros [err|m] d2 [Hd Hpost].
  - destruct Hpost as [Hv _]. repeat case_match; (split; [done|]); cbn; by rewrite Hv.
  - destruct Hpost as (Hnew & Hnone & Ht & Hname & Hhost & Hfp & _ & Hv). wp_simpl. split; [done|].
    exists u. split; [apply caller_update; [done|by rewrite Hv]|].
    assert (keeps_foreign (User_TenantID u) (ds_view (db s1)) (ds_view d2)) as Hk'.
    { rewrite Hv. by apply keeps_foreign_insert. }
    split; [unfold keeps_foreign, foreign in *; by rewrite <-Hm|].
    exists m. cbn. rewrite Hv, <-Hm. cbn. rewrite Hname, Hfp. rewrite Ht in *. eauto 15.
Qed.

Lemma named_machine_row s r u s1 m :
  logged_in s r u s1 → named_machine s r u m → machines (ds_view (db s1)) !! Machine_ID m = Some m.
Proof. intros (_ & _ & _ & -> & _) (_ & ? & _). done. Qed.

Lemma HandleUpdateMachine_ok s r :
  ds_inv (db s) → devMode s = false → handler_ok UpdateMachine s r.
Proof.
  intros Hs Hdev. unfold handler_ok, handle, HandleUpdateMachine. wp_simpl.
  wp_use (tenantMachine_wp s r Hs Hdev). intros [resp|[u m]] s1 (Hinv & Hm & Hr); [by split; [|rewrite Hr]|].
  destruct Hr as [Hu Hnamed]. pose proof (named_machine_row _ _ _ _ _ Hu Hnamed) as Hrow.
  destruct (Decode_lax _ _) as [ok req]. cbn [fst snd]. set (name := TrimSpace _).
  destruct (negb ok || _) eqn:Hbad; [by wp_simpl; split|]. apply orb_false_iff in Hbad as [_ Hne%String.eqb_neq].
  unfold on_db. wp_simpl. wp_use (ds_RenameMachine_ok (Machine_ID m) name (db s1) Hinv).
  intros [err|[]] d2 [Hd Hpost].
  - destruct Hpost as [Hv _]. repeat case_match; (split; [done|]); cbn; by rewrite Hv.
  - destruct Hpost as [_ Hv]. wp_simpl. split; [done|]. exists u.
    split; [apply caller_update; [done|by rewrite Hv]|].
    assert (keeps_foreign (User_TenantID u) (ds_view (db s1)) (ds_view d2)) as Hk.
    { rewrite Hv. destruct Hnamed as (_ & _ & ?). by eapply keeps_foreign_alter. }
    split; [unfold keeps_foreign, foreign in *; by rewrite <-Hm|].
    exists m, name. split; [done|]. split; [done|]. cbn. rewrite Hv, <-Hm. split; [|done]. cbn.
    by apply alter_insert_Some.
Qed.

(** The end of [HandleDeleteMachine]: the tunnel is closed when there is one. *)
Lemma on_tunnels_wp {X} (skip : X) m s (Q : error + X → Srv → Prop) :
  (∀ r, Q r (set_tunnels ((λ tn, (m tn).2) <$> tunnels s) s)) → wp (on_tunnels skip m) Q s.
Proof. intros HQ. unfold on_tunnels, wp. destruct (tunnels s) eqn:E; [apply HQ|]. specialize (HQ (inr skip)). destruct s. cbn in *. by subst. Qed.

Lemma HandleDeleteMachine_ok s r :
  ds_inv (db s) → devMode s = false → handler_ok DeleteMachine s r.
Proof.
  intros Hs Hdev. unfold handler_ok, handle, HandleDeleteMachine. wp_simpl.
  wp_use (tenantMachine_wp s r Hs Hdev). intros [resp|[u m]] s1 (Hinv & Hm & Hr); [by split; [|rewrite Hr]|].
  destruct Hr as [Hu Hnamed]. pose proof (named_machine_row _ _ _ _ _ Hu Hnamed) as Hrow.
  unfold on_db. wp_simpl. wp_use (ds_DeleteMachine_ok (Machine_ID m) (db s1) Hinv). cbn [fst snd].
  assert (∀ d2, ds_inv d2 → users (ds_view d2) = users (ds_view (db s1)) →
    machines (ds_view d2) = delete (Machine_ID m) (machines (ds_view (db s1))) →
    wp (do! attempt (on_tunnels false (td_Close (uuid_String (Machine_ID m)))) in ret (Reply 204 NoContent))
      (λ res s', match res with inl x | inr x => isolated DeleteMachine s r x s' end) (set_db d2 s1)) as Hend.
  { intros d2 Hd Hus Hdel. wp_simpl. apply on_tunnels_wp. intros res. wp_simpl. split; [done|]. exists u.
    assert (keeps_foreign (User_TenantID u) (ds_view (db s1)) (with_machines (delete (Machine_ID m)) (ds_view (db s1)))) as Hk.
    { destruct Hnamed as (_ & _ & ?). by eapply keeps_foreign_delete. }
    split; [exact (caller_update _ _ _ _ _ Hu Hus)|].
    split; [unfold keeps_foreign, foreign in *; cbn in *; by rewrite Hdel, <-Hm|].
    exists m. split; [done|]. cbn. rewrite Hdel, Hm. destruct Hu as [Hsame _]. by rewrite (same_tunnels _ _ Hsame). }
  intros [err|[]] d2 [Hd Hpost]; [|destruct Hpost as [_ Hv]; apply Hend; by rewrite ?Hv].
  destruct Hpost as [Hv Hnf]. destruct (errors_Is err ErrNotFound); cbn [negb].
  - specialize (Hnf eq_refl). by rewrite Hrow in Hnf.
  - wp_simpl. split; [done|]. cbn. by rewrite Hv.
Qed.

Lemma handle_ok c s r : ds_inv (db s) → devMode s = false → handler_ok c s r.
Proof.
  destruct c; [apply HandleListMachines_ok|apply HandleCreateMachine_ok|
    apply HandleUpdateMachine_ok|apply HandleDeleteMachine_ok].
Qed.

(** C3: Tenant isolation of the machines API in production, over any store
    that keeps the contract: a response that is not a success leaves every
    machine as it was; a success goes to a caller whose token proves the
    identity of a stored user, never touches a machine of another tenant, and
    does what the call says: the list is exactly the tenant's machines, a new
    machine is in the caller's tenant under a fresh ID, a rename or a deletion
    hits exactly the machine the path names, and the deletion closes that
    machine's tunnel. *)
Theorem machines_tenant_isolation (c : machines_call) (s s' : Srv) (r : Request) (resp : Response) :
  ds_inv (db s) → devMode s = false → serve (handle c r) s = (resp, s') → isolated c s r resp s'.
Proof.
  intros Hs Hdev Hrun. pose proof (serve_wp _ (λ x, isolated c s r x) s (handle_ok c s r Hs Hdev)) as Hx.
  by rewrite Hrun in Hx.
Qed.

End machines.

#[local] Existing Instances toy_oidc toy_channels toy_jose toy_ssh toy_uuid range_in_order.

(** Bob's deletion of Alice's machine is a "not found", Alice's succeeds. *)
Lemma machines_tenant_isolation_witness :
  (serve (handle DeleteMachine (get_as bob "kkkkk")) (server0 false)).1 = machine_not_found ∧
  (serve (handle DeleteMachine (get_as alice "kkkkk")) (server0 false)).1 = Reply 204 NoContent ∧
  isolated DeleteMachine (server0 false) (get_as bob "kkkkk") machine_not_found
    (serve (handle DeleteMachine (get_as bob "kkkkk")) (server0 false)).2.
Proof.
  assert ((serve (handle DeleteMachine (get_as bob "kkkkk")) (server0 false)).1 = machine_not_found) as E
    by (vm_compute; reflexivity).
  split; [exact E|]. split; [vm_compute; reflexivity|].
  apply (machines_tenant_isolation DeleteMachine (server0 false) _ (get_as bob "kkkkk") machine_not_found fake1_inv eq_refl).
  rewrite <-E. apply surjective_pairing.
Defined.
