(* ===== verification/Bridge.v ===== *)
(** The bridge between a browser's WebSocket and a machine's tunnel
    (internal/relay/handler_ws_ssh.go): its authorization, the cap on
    concurrent sessions, the copying of bytes and the idle watchdog. *)
From Stdlib Require Import ZArith Lia Ascii.
From stdpp Require Import base gmap strings list relations.
From S2P Require Import Prelude GoStrings StoreSpec FakeStore StoreProps AuthSession Http Oidc.
From S2P Require Import ApiKey SshKeys RelayAuth SshGate Scenario.

(** * The cap on concurrent sessions *)

Definition maxBridgesPerMachine : nat := 16.

(** [b.n[machineID]]: 0 for a missing key. *)
Definition bridge_count (machineID : string) (b : gmap string nat) : nat := default 0 (b !! machineID).

Definition acquire (machineID : string) (b : gmap string nat) : bool * gmap string nat :=
  if maxBridgesPerMachine <=? bridge_count machineID b then (false, b)
  else (true, <[machineID := S (bridge_count machineID b)]> b).

Definition release (machineID : string) (b : gmap string nat) : gmap string nat :=
  if 0 <? bridge_count machineID b then <[machineID := bridge_count machineID b - 1]> b else b.

(** The counter as the handlers' goroutines use it: [held] lists the machines
    of the handlers between their [acquire] and their deferred [release]. *)
Inductive bridge_step : gmap string nat * list string → gmap string nat * list string → Prop :=
  | bridge_acquired b held machineID b' :
      acquire machineID b = (true, b') → bridge_step (b, held) (b', machineID :: held)
  | bridge_refused b held machineID b' :
      acquire machineID b = (false, b') → bridge_step (b, held) (b', held)
  | bridge_released b l1 machineID l2 :
      bridge_step (b, l1 ++ machineID :: l2) (release machineID b, l1 ++ l2).

Definition sessions_of (machineID : string) (held : list string) : nat :=
  length (filter (λ id, id = machineID) held).

Lemma sessions_of_cons id k held : sessions_of id (k :: held) = (if decide (k = id) then 1 else 0) + sessions_of id held.
Proof. unfold sessions_of. rewrite filter_cons. by case_decide. Qed.

Lemma sessions_of_app id l1 l2 : sessions_of id (l1 ++ l2) = sessions_of id l1 + sessions_of id l2.
Proof. unfold sessions_of. by rewrite filter_app, length_app. Qed.

Lemma bridge_count_insert id k n b :
  bridge_count id (<[k := n]> b) = if decide (k = id) then n else bridge_count id b.
Proof. unfold bridge_count. rewrite lookup_insert. by case_decide. Qed.

Definition bridge_inv (c : gmap string nat * list string) : Prop :=
  ∀ id, bridge_count id c.1 = sessions_of id c.2 ∧ bridge_count id c.1 ≤ maxBridgesPerMachine.

Lemma bridge_inv_step c c' : bridge_inv c → bridge_step c c' → bridge_inv c'.
Proof.
  intros Hc Hs. destruct Hs as [b held k b' Ha|b held k b' Ha|b l1 k l2]; intros id;
    destruct (Hc id) as [E B]; destruct (Hc k) as [Ek Bk]; cbn [fst snd] in *.
  - unfold acquire in Ha. destruct (Nat.leb_spec maxBridgesPerMachine (bridge_count k b)); simplify_eq.
    rewrite bridge_count_insert, sessions_of_cons. case_decide; subst; lia.
  - unfold acquire in Ha. destruct (maxBridgesPerMachine <=? bridge_count k b); by simplify_eq.
  - rewrite !sessions_of_app, !sessions_of_cons in *. rewrite decide_True in Ek by done.
    unfold release. rewrite (proj2 (Nat.ltb_lt _ _)) by lia. rewrite bridge_count_insert.
    case_decide; subst; lia.
Qed.

(** The session counter is exact under every interleaving of handlers: a
    machine's count is the number of handlers that hold a session to it, it
    never exceeds the cap of 16, and a session is refused exactly when the
    machine has 16. *)
Theorem bridge_counts_exact (b : gmap string nat) (held : list string) (machineID : string) :
  rtc bridge_step (∅, []) (b, held) →
  bridge_count machineID b = sessions_of machineID held ∧ sessions_of machineID held ≤ 16 ∧
  ((acquire machineID b).1 = false ↔ sessions_of machineID held = 16).
Proof.
  intros Hr. assert (bridge_inv (b, held)) as Hinv.
  { assert (∀ c c', rtc bridge_step c c' → bridge_inv c → bridge_inv c') as Hall.
    { induction 1; eauto using bridge_inv_step. }
    eapply Hall; [done|]. intros id. cbn. unfold bridge_count. rewrite lookup_empty. simpl. split; [done|]. unfold maxBridgesPerMachine. lia. }
  destruct (Hinv machineID) as [E B]. cbn [fst snd] in *. unfold maxBridgesPerMachine in *.
  split; [done|]. split; [lia|]. unfold acquire, maxBridgesPerMachine.
  destruct (Nat.leb_spec 16 (bridge_count machineID b)); cbn; split; [lia|done|done|lia].
Qed.

(** * Copying bytes *)

(** What [src.Read] returns: bytes and whether there was an error; and, when
    it is called, whether [dst.Write] succeeds.  [None] is a pending read. *)
Fixpoint copyOne (reads : list (string * bool)) (writes : list bool) : string * bool :=
  match reads with
  | [] => (EmptyString, false)
  | (buf, err) :: reads =>
      if 0 <? String.length buf then
        match writes with
        | true :: writes =>
            if (err : bool) then (buf, true)
            else let '(out, fin) := copyOne reads writes in (buf +:+ out, fin)
        | _ => (EmptyString, true)
        end
      else if err then (EmptyString, true) else copyOne reads writes
  end.

(** Everything read, up to the first error. *)
Fixpoint read_bytes (reads : list (string * bool)) : string :=
  match reads with
  | [] => EmptyString
  | (buf, err) :: reads => if (err : bool) then buf else buf +:+ read_bytes reads
  end.

(** The bytes written to the other side are the bytes read, in order: a
    prefix of them, and all of them when no write fails. *)
Theorem copyOne_in_order (reads : list (string * bool)) (writes : list bool) :
  (∃ rest, read_bytes reads = (copyOne reads writes).1 +:+ rest) ∧
  (length reads ≤ length writes → Forall (λ w, w = true) writes → (copyOne reads writes).1 = read_bytes reads).
Proof.
  revert writes. induction reads as [|[buf err] reads IH]; intros writes; simpl; [by split; [exists EmptyString|]|].
  destruct (Nat.ltb_spec 0 (String.length buf)) as [Hb|Hb].
  - destruct writes as [|[|] writes]; simpl.
    + split; [by eexists|lia].
    + destruct err; simpl; [split; [exists EmptyString; by rewrite string_app_nil_r|done]|].
      destruct (IH writes) as [[rest Hr] Hall]. destruct (copyOne reads writes) as [out fin]; simpl in *. split.
      * exists rest. by rewrite Hr, string_app_assoc.
      * intros ? [_ ?]%Forall_cons. rewrite Hall; [done|lia|done].
    + split; [by eexists|]. intros _ [? _]%Forall_cons. done.
  - assert (buf = EmptyString) as -> by (destruct buf; [done|simpl in Hb; lia]).
    destruct err; simpl; [by split; [exists EmptyString|]|]. destruct (IH writes) as [Hr Hall].
    split; [done|]. intros. apply Hall; [lia|done].
Qed.

(** * The idle watchdog *)

Definition bridgeIdleTimeout : Duration := (30 * Minute)%Z.

(** [traffic]: the times at which bytes were read, since the session began at
    time 0.  Tick [k] finds [active] set when there was traffic since the tick
    before; the result is the first tick that does not, among [n] ticks. *)
Fixpoint watchdog (n : nat) (k : Z) (traffic : list Time) : option Time :=
  match n with
  | 0 => None
  | S n =>
      let tick := (k * bridgeIdleTimeout)%Z in
      if existsb (λ t, (tick - bridgeIdleTimeout <? t)%Z && (t <=? tick)%Z) traffic
      then watchdog n (k + 1) traffic
      else Some tick
  end.

Lemma watchdog_Some n k traffic tick :
  watchdog n k traffic = Some tick →
  (∀ t, t ∈ traffic → ¬ (tick - bridgeIdleTimeout < t ≤ tick))%Z ∧
  (tick = k * bridgeIdleTimeout ∨
   ∃ t, t ∈ traffic ∧ tick - 2 * bridgeIdleTimeout < t ≤ tick - bridgeIdleTimeout)%Z.
Proof.
  revert k. induction n as [|n IH]; intros k; simpl; [done|].
  destruct (existsb _ traffic) eqn:He.
  - intros Hw. destruct (IH _ Hw) as [Hno Hlast]. split; [done|]. right.
    destruct Hlast as [->|?]; [|done]. apply existsb_exists in He as (t & Hin & Ht).
    apply andb_true_iff in Ht as [?%Z.ltb_lt ?%Z.leb_le]. exists t.
    split; [by apply list_elem_of_In|]. lia.
  - intros [= <-]. split; [|by left]. intros t Hin Ht.
    assert (existsb (λ t, (k * bridgeIdleTimeout - bridgeIdleTimeout <? t)%Z && (t <=? k * bridgeIdleTimeout)%Z) traffic = true) as E.
    { apply existsb_exists. exists t. split; [by apply list_elem_of_In|].
      apply andb_true_iff. split; [apply Z.ltb_lt|apply Z.leb_le]; lia. }
    by rewrite He in E.
Qed.

(** The idle watchdog.  When it closes a session there has been no
    traffic for at least the 30 minutes of [bridgeIdleTimeout], and less than
    twice that: the last traffic, or the start of the session, was in the
    period before. *)
Theorem idle_watchdog_bounds (n : nat) (traffic : list Time) (closed : Time) :
  (∀ t, t ∈ traffic → 0 < t ≤ closed)%Z → watchdog n 1 traffic = Some closed →
  (∀ t, t ∈ 0%Z :: traffic → t ≤ closed - bridgeIdleTimeout)%Z ∧
  (∃ t, t ∈ 0%Z :: traffic ∧ closed - t < 2 * bridgeIdleTimeout)%Z.
Proof.
  intros Ht Hw. destruct (watchdog_Some _ _ _ _ Hw) as [Hno Hlast].
  assert (0 < bridgeIdleTimeout)%Z as Hpos by done.
  destruct Hlast as [->|(t & Hin & Hb)].
  - split.
    + intros t [->|Hin]%elem_of_cons; [lia|]. specialize (Hno _ Hin). specialize (Ht _ Hin). lia.
    + exists 0%Z. split; [left|lia].
  - split.
    + intros t' [->|Hin']%elem_of_cons; [specialize (Ht _ Hin); lia|].
      specialize (Hno _ Hin'). specialize (Ht _ Hin'). lia.
    + exists t. split; [by right|lia].
Qed.

(** * Opening a session *)

Definition StatusNormalClosure : nat := 1000.
Definition StatusPolicyViolation : nat := 1008.
Definition StatusInternalError : nat := 1011.
Definition StatusTryAgainLater : nat := 1013.

(** How [HandleSSHBridge] ends when no session is opened. *)
Inductive bridge_end :=
  | NotUpgraded (r : Response)          (** answered as plain HTTP *)
  | AcceptFailed                        (** [websocket.Accept] has answered *)
  | Closed (code : nat) (reason : string)
  | WriteFailed.                        (** the browser is gone *)

(** What the browser's side does: the upgrade, the first frame (its bytes as
    JSON), the write of the readiness message. *)
Record Browser := mkBrowser {
  br_accept : error + unit;
  br_frame : error + option json;
  br_write : error + unit
}.

Section bridge.
  Context `{OIDC} `{SSH} `{Jose} `{MapRange} `{UUIDText}.
  Context {D A T : Type} `{DataStore D} `{TunnelDialer T}.
  Abbreviation Srv := (Server D A T).

Definition bridges_acquire (machineID : string) : M Srv bridge_end bool := λ s,
  let '(ok, b) := acquire machineID (bridges s) in (inr ok, set_bridges b s).

Definition bridges_release (machineID : string) : M Srv bridge_end unit :=
  modify (λ s, set_bridges (release machineID (bridges s)) s).

(** [s.tunnels.Dial] once [s.tunnels] is known not to be nil. *)
Definition tunnels_Dial (machineID : string) : M Srv error Conn := λ s,
  match tunnels s with
  | Some t => ((td_Dial machineID t).1, set_tunnels (Some (td_Dial machineID t).2) s)
  | None => (inl ErrNotConnected, s)
  end.

(** [HandleSSHBridge] from [s.bridges.acquire] to the readiness message; the
    deferred [release] runs on the ways out. *)
Definition bridge_connect (machineID : string) (br : Browser) : M Srv bridge_end Conn :=
  let! ok := bridges_acquire machineID in
  if negb ok then throw (Closed StatusTryAgainLater "too many concurrent sessions")
  else
    let! r := attempt (tunnels_Dial machineID) in
    match r with
    | inl _ =>
        do! bridges_release machineID in
        throw (Closed StatusTryAgainLater "machine offline")
    | inr tunnelConn =>
        match br_write br with
        | inl _ => do! bridges_release machineID in throw WriteFailed
        | inr _ => ret tunnelConn
        end
    end.

(** [HandleSSHBridge] up to the piping of bytes: the tunnel's connection of
    the session, or how it ended. *)
Definition HandleSSHBridge_open (machineID : string) (br : Browser) : M Srv bridge_end Conn :=
  let! s := get in
  match tunnels s with
  | None => throw (NotUpgraded (http_Error "ssh gateway not configured" 503))
  | Some _ =>
      do! lift (br_accept br) else_return (λ _, AcceptFailed) in
      let! data := lift (br_frame br) else_return (λ _, Closed StatusPolicyViolation "expected auth message") in
      match Decode ["token"] data with
      | None => throw (Closed StatusPolicyViolation "invalid auth message")
      | Some authMsg =>
          let! id := verifyToken (Values_Get "token" authMsg)
            else_return (λ _, Closed StatusPolicyViolation "authentication failed") in
          let! user := on_db (ds_GetOrCreateUser id.1.1 id.1.2 id.2)
            else_return (λ _, Closed StatusInternalError "internal error") in
          let! mid := lift (uuid_Parse machineID)
            else_return (λ _, Closed StatusPolicyViolation "machine not found") in
          let! machine := on_db (ds_GetMachine mid)
            else_return (λ err, if errors_Is err ErrNotFound then Closed StatusPolicyViolation "machine not found"
                                else Closed StatusInternalError "internal error") in
          if negb (N.eqb (Machine_TenantID machine) (User_TenantID user)) then
            throw (Closed StatusPolicyViolation "machine not found")
          else
            bridge_connect machineID br
      end
  end.

(** The whole handler: an open session is piped until either side closes,
    then released. *)
Definition HandleSSHBridge (machineID : string) (br : Browser) : M Srv bridge_end bridge_end :=
  do! HandleSSHBridge_open machineID br in
  do! bridges_release machineID in
  ret (Closed StatusNormalClosure "session ended").

Context `{!DataStoreOk D}.

(** The browser's token, as the handler reads it. *)
Definition browser_token (br : Browser) (token : string) : Prop :=
  ∃ data authMsg, br_frame br = inr data ∧ Decode ["token"] data = Some authMsg ∧
    token = Values_Get "token" authMsg.

(** [u]'s token opened this session, and the machine is of [u]'s tenant. *)
Definition bridge_authorized (s : Srv) (machineID : string) (br : Browser) (ch : Conn) (s' : Srv) : Prop :=
  ∃ token u e m tn,
    browser_token br token ∧ authenticates s token (User_Provider u, User_Subject u, e) ∧
    users (ds_view (db s')) !! User_ID u = Some u ∧
    uuid_Parse machineID = inr (Machine_ID m) ∧
    machines (ds_view (db s)) !! Machine_ID m = Some m ∧ Machine_TenantID m = User_TenantID u ∧
    tunnels s = Some tn ∧ (td_Dial machineID tn).1 = inr ch ∧
    bridge_count machineID (bridges s) < 16 ∧
    bridges s' = <[machineID := S (bridge_count machineID (bridges s))]> (bridges s).

Definition same_counts (b b' : gmap string nat) : Prop := ∀ id, bridge_count id b' = bridge_count id b.

Lemma release_acquire machineID b b' : acquire machineID b = (true, b') → same_counts b (release machineID b').
Proof.
  unfold acquire. destruct (maxBridgesPerMachine <=? _); [done|]. intros [= <-] id. unfold release.
  rewrite bridge_count_insert, decide_True by done. cbn. rewrite Nat.sub_0_r, !bridge_count_insert.
  case_decide; by subst.
Qed.

Definition bridge_post (s : Srv) (machineID : string) (br : Browser) (r : bridge_end + Conn) (s' : Srv) : Prop :=
  ds_inv (db s') ∧ machines (ds_view (db s')) = machines (ds_view (db s)) ∧
  match r with
  | inr ch => bridge_authorized s machineID br ch s'
  | inl _ => same_counts (bridges s) (bridges s')
  end.

(** An end before the counter is touched. *)
Lemma bridge_early s machineID br s' e :
  ds_inv (db s') → machines (ds_view (db s')) = machines (ds_view (db s)) → bridges s' = bridges s →
  bridge_post s machineID br (inl e) s'.
Proof. intros ?? E. split; [done|]. split; [done|]. intros id. by rewrite E. Qed.

(** From the counter on. *)
Lemma bridge_session_wp s s1 machineID br token u e m :
  ds_inv (db s1) → machines (ds_view (db s1)) = machines (ds_view (db s)) →
  bridges s1 = bridges s → tunnels s1 = tunnels s → is_Some (tunnels s) →
  browser_token br token → authenticates s token (User_Provider u, User_Subject u, e) →
  users (ds_view (db s1)) !! User_ID u = Some u → uuid_Parse machineID = inr (Machine_ID m) →
  machines (ds_view (db s)) !! Machine_ID m = Some m → Machine_TenantID m = User_TenantID u →
  wp (bridge_connect machineID br) (bridge_post s machineID br) s1.
Proof.
  intros Hinv Hm Hb Ht [tn Htn] Htok Hauth Hrow Hid Hmach Hten.
  unfold bridge_connect. rewrite wp_bind. unfold bridges_acquire, wp at 1. destruct (acquire machineID (bridges s1)) as [ok b'] eqn:Ha. cbn.
  destruct ok; cbn [negb]; wp_simpl.
  2:{ apply bridge_early; [done|done|]. cbn. rewrite <-Hb.
      unfold acquire in Ha. destruct (maxBridgesPerMachine <=? _); by simplify_eq. }
  unfold tunnels_Dial, wp at 1. cbn. rewrite Ht, Htn.
  destruct (td_Dial machineID tn) as [[err|ch] tn'] eqn:Hd; cbn.
  - unfold bridges_release. wp_simpl. split; [done|]. split; [done|]. cbn. rewrite <-Hb. by apply release_acquire.
  - destruct (br_write br) as [err|[]]; [unfold bridges_release|]; wp_simpl; (split; [done|]; split; [done|]; cbn).
    + rewrite <-Hb. by apply release_acquire.
    + exists token, u, e, m, tn. unfold acquire in Ha.
      destruct (Nat.leb_spec maxBridgesPerMachine (bridge_count machineID (bridges s1))) as [|Hlt]; [done|]. simplify_eq.
      unfold maxBridgesPerMachine in Hlt. cbn. rewrite Hd, <-Hb. by repeat (split; [done|]).
Qed.

Lemma HandleSSHBridge_open_wp s machineID br :
  ds_inv (db s) → devMode s = false →
  wp (HandleSSHBridge_open machineID br) (bridge_post s machineID br) s.
Proof.
  intros Hs Hdev. unfold HandleSSHBridge_open. wp_simpl.
  destruct (tunnels s) as [tn|] eqn:Htn; wp_simpl; [|by apply bridge_early].
  rewrite wp_lift. destruct (br_accept br) as [err|[]]; [by apply bridge_early|].
  wp_simpl. rewrite wp_lift. destruct (br_frame br) as [err|data] eqn:Hframe; [by apply bridge_early|].
  destruct (Decode ["token"] data) as [authMsg|] eqn:Hdec; wp_simpl; [|by apply bridge_early].
  wp_use (verifyToken_production_wp s (Values_Get "token" authMsg) Hs Hdev).
  intros [err|[[p sub] e]] s1 [(Hsame & Hs1 & Hv1) Hauth]; [apply bridge_early; [done|by rewrite Hv1|by destruct Hsame]|].
  unfold on_db. wp_simpl. wp_use (ds_GetOrCreateUser_ok p sub e (db s1) Hs1).
  intros [err|u] d2 [Hd2 Hu].
  { apply bridge_early; cbn; [done|by rewrite Hu, Hv1|by destruct Hsame]. }
  pose proof (GetOrCreateUser_post_row _ _ _ _ _ _ Hu) as (Hrow & Hm2 & _).
  assert (machines (ds_view d2) = machines (ds_view (db s))) as Hm by (by rewrite Hm2, Hv1).
  wp_simpl. rewrite wp_lift. destruct (uuid_Parse machineID) as [err|mid] eqn:Hid.
  { apply bridge_early; [done|done|by destruct Hsame]. }
  wp_simpl. wp_use (ds_GetMachine_ok mid d2 Hd2). intros [err|m] d3 (Hd3 & Hv3 & Hm3).
  { apply bridge_early; cbn; [done|by rewrite Hv3|by destruct Hsame]. }
  destruct (N.eqb_spec (Machine_TenantID m) (User_TenantID u)) as [Hten|]; cbn [negb]; wp_simpl.
  2:{ apply bridge_early; cbn; [done|by rewrite Hv3|by destruct Hsame]. }
  rewrite Hm in Hm3. pose proof (machines_pkey _ (ds_inv_ok _ Hs) _ _ Hm3) as <-.
  destruct Hu as [[Hp Hsub]%is_user_true _].
  eapply bridge_session_wp; [done|cbn; by rewrite Hv3|by destruct Hsame|by destruct Hsame|by rewrite Htn|
    by exists data, authMsg|by rewrite Hp, Hsub|cbn; by rewrite Hv3|done|done|done].
Qed.

(** C4: Authorization of the bridge in production.  A session to a machine's
    tunnel is opened only for a browser whose first frame carries a token
    that proves the identity of a stored user of the tenant that owns the
    machine, when the machine is enrolled and its tunnel accepts the dial,
    and only below the cap; it is then counted.  However else the handler
    ends, the session counts are what they were; the machines never change. *)
Theorem bridge_authorization (s s' : Srv) (machineID : string) (br : Browser) (r : bridge_end + Conn) :
  ds_inv (db s) → devMode s = false → HandleSSHBridge_open machineID br s = (r, s') →
  ds_inv (db s') ∧ machines (ds_view (db s')) = machines (ds_view (db s)) ∧
  match r with
  | inr ch => bridge_authorized s machineID br ch s'
  | inl _ => same_counts (bridges s) (bridges s')
  end.
Proof. intros Hs Hdev Hrun. exact (wp_run _ _ _ _ _ (HandleSSHBridge_open_wp s machineID br Hs Hdev) Hrun). Qed.

End bridge.

#[local] Existing Instances toy_oidc toy_channels toy_jose toy_ssh toy_uuid range_in_order.

Definition browser_of (token : string) : Browser :=
  mkBrowser (inr tt) (inr (Some (strings_json [("token", token)]))) (inr tt).

(** Alice reaches her machine on connection 0; Bob is told it does not exist. *)
Lemma bridge_authorization_witness :
  (HandleSSHBridge_open "kkkkk" (browser_of bob) (server0 false)).1 =
    inl (Closed StatusPolicyViolation "machine not found") ∧
  bridge_authorized (server0 false) "kkkkk" (browser_of alice) (0, "0.0.0.0")
    (HandleSSHBridge_open "kkkkk" (browser_of alice) (server0 false)).2.
Proof.
  split; [vm_compute; reflexivity|].
  assert ((HandleSSHBridge_open "kkkkk" (browser_of alice) (server0 false)).1 = inr (0, "0.0.0.0")) as E
    by (vm_compute; reflexivity).
  refine (proj2 (proj2 (bridge_authorization (server0 false) _ "kkkkk" (browser_of alice) (inr (0, "0.0.0.0")) fake1_inv eq_refl _))).
  rewrite <-E. apply surjective_pairing.
Defined.

Lemma bridge_counts_exact_witness :
  let b := {["m" := 1]} in
  bridge_count "m" b = sessions_of "m" ["m"] ∧ sessions_of "m" ["m"] ≤ 16 ∧
  ((acquire "m" b).1 = false ↔ sessions_of "m" ["m"] = 16).
Proof.
  intros b. apply (bridge_counts_exact b ["m"] "m").
  eapply rtc_l; [apply (bridge_acquired ∅ [] "m" b); vm_compute; reflexivity|apply rtc_refl].
Defined.

Lemma idle_watchdog_bounds_witness :
  let P := bridgeIdleTimeout in
  watchdog 5 1 [1; P + 7]%Z = Some (3 * P)%Z ∧
  (∃ t, t ∈ [0; 1; P + 7]%Z ∧ 3 * P - t < 2 * P)%Z.
Proof.
  intros P. split; [vm_compute; reflexivity|].
  refine (proj2 (idle_watchdog_bounds 5 [1; P + 7]%Z (3 * P)%Z _ _)); [|vm_compute; reflexivity].
  intros t [->|[->|[]%elem_of_nil]%elem_of_cons]%elem_of_cons; vm_compute; done.
Defined.
