(* ===== verification/Pipe.v ===== *)
(** The two copies and the watchdog of a bridge, running at the same time
    ([pipe] of internal/relay/handler_ws_ssh.go).

    Four goroutines share the context, the flag [active], the wait group and
    the two connections: one copy in each direction, the idle watchdog, and
    the handler that waits for them.  Each is cut at every operation the
    others can see, and any interleaving is a run.  Time is part of the state:
    the ticker fires every [bridgeIdleTimeout], and the watchdog is scheduled
    at most [latency] after a tick. *)
From Stdlib Require Import ZArith Lia Ascii.
From stdpp Require Import base strings list.
From S2P Require Import Prelude GoStrings Bridge.

(** * State *)

(** The sides of a bridge: [a] is the WebSocket, [b] the tunnel. *)
Inductive side := Ws | Tun.

#[export] Instance side_eq_dec : EqDecision side.
Proof. solve_decision. Defined.

Definition other (d : side) : side := match d with Ws => Tun | Tun => Ws end.

Record Sides (A : Type) := mkSides { on_ws : A; on_tun : A }.
Arguments mkSides {A}.
Arguments on_ws {A}.
Arguments on_tun {A}.

Definition at_side {A} (d : side) (x : Sides A) : A := match d with Ws => on_ws x | Tun => on_tun x end.

Definition set_side {A} (d : side) (v : A) (x : Sides A) : Sides A :=
  match d with Ws => mkSides v (on_tun x) | Tun => mkSides (on_ws x) v end.

Lemma at_set_side {A} d e (v : A) x : at_side e (set_side d v x) = if decide (e = d) then v else at_side e x.
Proof. by destruct d, e, x. Qed.

(** Where [copyOne] is: in [src.Read], before [active.Store(true)], in
    [dst.Write], at the deferred [cancel], at the deferred [wg.Done]. *)
Inductive copier :=
  | Reading
  | Marking (buf : string) (err : bool)
  | Writing (buf : string) (err : bool)
  | Cancelling
  | Finishing
  | CopyReturned.

(** The copy from one side to the other, with all it has read and written. *)
Record flow := mkFlow { fl_pc : copier; fl_in : string; fl_out : string }.

(** The watchdog: in its [select], then at its three calls. *)
Inductive dog := Watching | DogCancel | DogCloseA | DogCloseB | DogReturned.

(** The handler: at [<-ctx.Done()], the two closings, [wg.Wait()]. *)
Inductive waiter := AwaitDone | CloseA | CloseB | AwaitCopies | Returned.

(** [p_tick] is the channel of the ticker, with the time of the tick in it;
    [p_next] is when it fires next.  [p_marked] and [p_swapped] are the times
    of the last [active.Store(true)] and the last [active.Swap(false)]. *)
Record pipe := mkPipe {
  p_flows : Sides flow;
  p_closed : Sides bool;
  p_done : bool;
  p_active : bool;
  p_wg : nat;
  p_dog : dog;
  p_main : waiter;
  p_now : Time;
  p_next : Time;
  p_tick : option Time;
  p_marked : Time;
  p_swapped : Time
}.

Definition set_flow (d : side) (f : flow) (p : pipe) : pipe :=
  mkPipe (set_side d f (p_flows p)) (p_closed p) (p_done p) (p_active p) (p_wg p) (p_dog p) (p_main p)
    (p_now p) (p_next p) (p_tick p) (p_marked p) (p_swapped p).
Definition cancel (p : pipe) : pipe :=
  mkPipe (p_flows p) (p_closed p) true (p_active p) (p_wg p) (p_dog p) (p_main p)
    (p_now p) (p_next p) (p_tick p) (p_marked p) (p_swapped p).
Definition close_side (d : side) (p : pipe) : pipe :=
  mkPipe (p_flows p) (set_side d true (p_closed p)) (p_done p) (p_active p) (p_wg p) (p_dog p) (p_main p)
    (p_now p) (p_next p) (p_tick p) (p_marked p) (p_swapped p).
Definition mark (p : pipe) : pipe :=
  mkPipe (p_flows p) (p_closed p) (p_done p) true (p_wg p) (p_dog p) (p_main p)
    (p_now p) (p_next p) (p_tick p) (p_now p) (p_swapped p).
Definition wg_Done (p : pipe) : pipe :=
  mkPipe (p_flows p) (p_closed p) (p_done p) (p_active p) (p_wg p - 1) (p_dog p) (p_main p)
    (p_now p) (p_next p) (p_tick p) (p_marked p) (p_swapped p).
Definition set_dog (g : dog) (p : pipe) : pipe :=
  mkPipe (p_flows p) (p_closed p) (p_done p) (p_active p) (p_wg p) g (p_main p)
    (p_now p) (p_next p) (p_tick p) (p_marked p) (p_swapped p).
Definition set_main (w : waiter) (p : pipe) : pipe :=
  mkPipe (p_flows p) (p_closed p) (p_done p) (p_active p) (p_wg p) (p_dog p) w
    (p_now p) (p_next p) (p_tick p) (p_marked p) (p_swapped p).

(** [active.Swap(false)], after taking the tick. *)
Definition swap (p : pipe) : pipe :=
  mkPipe (p_flows p) (p_closed p) (p_done p) false (p_wg p) (p_dog p) (p_main p)
    (p_now p) (p_next p) None (p_marked p) (p_now p).

(** The ticker fires; a tick that finds the channel full is dropped. *)
Definition fire (p : pipe) : pipe :=
  mkPipe (p_flows p) (p_closed p) (p_done p) (p_active p) (p_wg p) (p_dog p) (p_main p) (p_now p)
    (p_next p + bridgeIdleTimeout)%Z (match p_tick p with Some t => Some t | None => Some (p_next p) end)
    (p_marked p) (p_swapped p).
Definition elapse (dt : Duration) (p : pipe) : pipe :=
  mkPipe (p_flows p) (p_closed p) (p_done p) (p_active p) (p_wg p) (p_dog p) (p_main p) (p_now p + dt)%Z
    (p_next p) (p_tick p) (p_marked p) (p_swapped p).

Definition flow0 : flow := mkFlow Reading EmptyString EmptyString.

Definition pipe_init : pipe :=
  mkPipe (mkSides flow0 flow0) (mkSides false false) false false 2 Watching AwaitDone 0 bridgeIdleTimeout None 0 0.

Definition flow_of (d : side) (p : pipe) : flow := at_side d (p_flows p).

(** * Steps *)

Inductive action :=
  | Read (d : side) (buf : string) (err : bool)
  | Mark (d : side)
  | Write (d : side) (ok : bool) (n : nat)    (** when it fails, [n] bytes were written *)
  | Cancel (d : side)
  | WgDone (d : side)
  | DogDone                                   (** the [ctx.Done()] of its [select] *)
  | DogTick                                   (** the tick of its [select] *)
  | DogNext
  | MainNext
  | Upstream                                  (** the request's context is cancelled *)
  | Fire
  | Elapse (dt : Duration).

(** A call on a connection fails once it is closed; those on the WebSocket
    also when the context of [websocket.NetConn] is cancelled. *)
Definition broken (d : side) (p : pipe) : bool :=
  at_side d (p_closed p) || match d with Ws => p_done p | Tun => false end.

(** [32<<10] *)
Definition buffer_size : Z := Z.shiftl 32 10.

Definition copy_step (d : side) (pc : copier) (f : flow) (p : pipe) : pipe :=
  set_flow d (mkFlow pc (fl_in f) (fl_out f)) p.

Definition exec_read (d : side) (buf : string) (err : bool) (p : pipe) : option pipe :=
  let f := flow_of d p in
  match fl_pc f with
  | Reading =>
      if (Z.of_nat (String.length buf) <=? buffer_size)%Z && (negb (broken d p) || err) then
        let pc := if 0 <? String.length buf then Marking buf err else if err then Cancelling else Reading in
        Some (set_flow d (mkFlow pc (fl_in f +:+ buf) (fl_out f)) p)
      else None
  | _ => None
  end.

Definition exec_write (d : side) (ok : bool) (n : nat) (p : pipe) : option pipe :=
  let f := flow_of d p in
  match fl_pc f with
  | Writing buf err =>
      if ok then
        if broken (other d) p then None
        else Some (set_flow d (mkFlow (if err then Cancelling else Reading) (fl_in f) (fl_out f +:+ buf)) p)
      else Some (set_flow d (mkFlow Cancelling (fl_in f) (fl_out f +:+ string_take n buf)) p)
  | _ => None
  end.

Section exec.
  Context (latency : Duration).

Definition exec_elapse (dt : Duration) (p : pipe) : option pipe :=
  let t := (p_now p + dt)%Z in
  let in_time := match p_tick p with Some tick => (t <=? tick + latency)%Z | None => true end in
  if (0 <? dt)%Z && (match p_dog p with Watching => (t <=? p_next p)%Z && in_time | _ => true end)
  then Some (elapse dt p) else None.

Definition exec (a : action) (p : pipe) : option pipe :=
  match a with
  | Read d buf err => exec_read d buf err p
  | Mark d =>
      match fl_pc (flow_of d p) with
      | Marking buf err => Some (copy_step d (Writing buf err) (flow_of d p) (mark p))
      | _ => None
      end
  | Write d ok n => exec_write d ok n p
  | Cancel d =>
      match fl_pc (flow_of d p) with
      | Cancelling => Some (copy_step d Finishing (flow_of d p) (cancel p))
      | _ => None
      end
  | WgDone d =>
      match fl_pc (flow_of d p) with
      | Finishing => Some (copy_step d CopyReturned (flow_of d p) (wg_Done p))
      | _ => None
      end
  | DogDone =>
      match p_dog p with Watching => if p_done p then Some (set_dog DogReturned p) else None | _ => None end
  | DogTick =>
      match p_dog p, p_tick p with
      | Watching, Some _ => Some (if p_active p then swap p else set_dog DogCancel (swap p))
      | _, _ => None
      end
  | DogNext =>
      match p_dog p with
      | DogCancel => Some (set_dog DogCloseA (cancel p))
      | DogCloseA => Some (set_dog DogCloseB (close_side Ws p))
      | DogCloseB => Some (set_dog DogReturned (close_side Tun p))
      | _ => None
      end
  | MainNext =>
      match p_main p with
      | AwaitDone => if p_done p then Some (set_main CloseA p) else None
      | CloseA => Some (set_main CloseB (close_side Ws p))
      | CloseB => Some (set_main AwaitCopies (close_side Tun p))
      | AwaitCopies => if Nat.eqb (p_wg p) 0 then Some (set_main Returned p) else None
      | Returned => None
      end
  | Upstream => Some (cancel p)
  | Fire => if Z.leb (p_next p) (p_now p) then Some (fire p) else None
  | Elapse dt => exec_elapse dt p
  end.

(** A run, with its steps in order. *)
Inductive pipe_run : list action → pipe → Prop :=
  | run_nil : pipe_run [] pipe_init
  | run_snoc ls p a p' : pipe_run ls p → exec a p = Some p' → pipe_run (ls ++ [a]) p'.

Fixpoint execs (ls : list action) (p : pipe) : option pipe :=
  match ls with
  | [] => Some p
  | a :: ls => match exec a p with Some p' => execs ls p' | None => None end
  end.

Lemma execs_run pre ls p p' : pipe_run pre p → execs ls p = Some p' → pipe_run (pre ++ ls) p'.
Proof.
  revert pre p. induction ls as [|a ls IH]; intros pre p Hr; simpl.
  - intros [= <-]. by rewrite app_nil_r.
  - destruct (exec a p) as [p1|] eqn:E; [|done]. intros Hls. replace (pre ++ a :: ls) with ((pre ++ [a]) ++ ls) by (by rewrite <-app_assoc).
    eapply IH; [|done]. by econstructor.
Qed.


End exec.

(** * What a step changes *)

(** Splits an executed step into the branches of the code. *)
Ltac exec_cases :=
  repeat match goal with
  | H : exec _ ?a _ = Some _ |- _ => destruct a; cbn [exec] in H
  | H : exec_read _ _ _ _ = Some _ |- _ => unfold exec_read in H
  | H : exec_write _ _ _ _ = Some _ |- _ => unfold exec_write in H
  | H : exec_elapse _ _ _ = Some _ |- _ => unfold exec_elapse in H
  | H : ?t = Some _ |- _ =>
      match t with context [match ?x with _ => _ end] => destruct x eqn:?; try discriminate end
  end; simplify_eq.

Section session.
  Context (latency : Duration).

(** What a step reads from a side. *)
Definition read_by (d : side) (a : action) : string :=
  match a with Read e buf _ => if decide (e = d) then buf else EmptyString | _ => EmptyString end.

(** The control point of a copy: the successors its code allows. *)
Definition copier_step (a : action) (d : side) (f f' : flow) : Prop :=
  match a with
  | Read e buf err => e = d ∧ fl_pc f = Reading ∧ (Z.of_nat (String.length buf) <= buffer_size)%Z ∧
      f' = mkFlow (if 0 <? String.length buf then Marking buf err else if err then Cancelling else Reading)
        (fl_in f +:+ buf) (fl_out f)
  | Mark e => e = d ∧ ∃ buf err, fl_pc f = Marking buf err ∧ f' = mkFlow (Writing buf err) (fl_in f) (fl_out f)
  | Write e ok n => e = d ∧ ∃ buf err, fl_pc f = Writing buf err ∧
      f' = if ok then mkFlow (if err then Cancelling else Reading) (fl_in f) (fl_out f +:+ buf)
           else mkFlow Cancelling (fl_in f) (fl_out f +:+ string_take n buf)
  | Cancel e => e = d ∧ fl_pc f = Cancelling ∧ f' = mkFlow Finishing (fl_in f) (fl_out f)
  | WgDone e => e = d ∧ fl_pc f = Finishing ∧ f' = mkFlow CopyReturned (fl_in f) (fl_out f)
  | _ => False
  end.

Lemma flow_of_set_flow d e f p : flow_of e (set_flow d f p) = if decide (e = d) then f else flow_of e p.
Proof. apply at_set_side. Qed.

(** A step moves the copy it belongs to, and no other. *)
Lemma exec_flow a p p' d :
  exec latency a p = Some p' →
  (flow_of d p' = flow_of d p ∧ read_by d a = EmptyString) ∨ copier_step a d (flow_of d p) (flow_of d p').
Proof.
  intros He. exec_cases; try (by left); unfold copy_step;
    rewrite flow_of_set_flow; (destruct (decide _) as [->|]; [right; unfold copier_step|left; cbn; by rewrite ?decide_False by congruence]); eauto 6.
  all: match goal with H : _ && _ = true |- _ => apply andb_true_iff in H as [?%Z.leb_le _] end.
  all: match goal with H : (0 <? _) = _ |- _ => rewrite H end; by split_and!.
Qed.


(** * The streams *)

(** What a copy has read and not yet written. *)
Definition in_flight (pc : copier) : string :=
  match pc with Marking buf _ | Writing buf _ => buf | _ => EmptyString end.

Definition running (pc : copier) : bool :=
  match pc with Reading | Marking _ _ | Writing _ _ => true | _ => false end.

(** The bytes the reads of a run gave. *)
Fixpoint received (d : side) (ls : list action) : string :=
  match ls with [] => EmptyString | a :: ls => read_by d a +:+ received d ls end.

Definition write_failed (d : side) (ls : list action) : Prop := ∃ n, Write d false n ∈ ls.
Definition read_failed (d : side) (ls : list action) : Prop := ∃ buf, Read d buf true ∈ ls.

Record flow_ok (d : side) (ls : list action) (f : flow) : Prop := {
  fo_in : fl_in f = received d ls;
  fo_prefix : ∃ rest, fl_in f = fl_out f +:+ rest;
  fo_buffer : (Z.of_nat (String.length (in_flight (fl_pc f))) <= buffer_size)%Z;
  fo_running : running (fl_pc f) = true → fl_in f = fl_out f +:+ in_flight (fl_pc f);
  fo_stopped : running (fl_pc f) = false → write_failed d ls ∨ fl_in f = fl_out f;
  fo_reason : running (fl_pc f) = false → write_failed d ls ∨ read_failed d ls;
  fo_err : ∀ buf, fl_pc f = Marking buf true ∨ fl_pc f = Writing buf true → read_failed d ls
}.

Lemma received_snoc d ls a : received d (ls ++ [a]) = received d ls +:+ read_by d a.
Proof. induction ls as [|b ls IH]; simpl; [by rewrite string_app_nil_r|]. by rewrite IH, string_app_assoc. Qed.

Lemma write_failed_snoc d ls a : write_failed d ls → write_failed d (ls ++ [a]).
Proof. intros [n ?]. exists n. apply elem_of_app. by left. Qed.

Lemma read_failed_snoc d ls a : read_failed d ls → read_failed d (ls ++ [a]).
Proof. intros [buf ?]. exists buf. apply elem_of_app. by left. Qed.

Create HintDb pipe.
#[local] Hint Resolve write_failed_snoc read_failed_snoc : pipe.

(** A step of another goroutine. *)
Lemma flow_ok_other d ls a f : flow_ok d ls f → read_by d a = EmptyString → flow_ok d (ls ++ [a]) f.
Proof.
  intros [Hin Hp Hb Hr Hs Hw He] Ha. split; try done.
  - by rewrite received_snoc, Ha, string_app_nil_r.
  - intros H. destruct (Hs H); eauto with pipe.
  - intros H. destruct (Hw H); eauto with pipe.
  - intros buf H. eauto with pipe.
Qed.

Lemma last_elem {A} (l : list A) a : a ∈ l ++ [a].
Proof. apply elem_of_app. right. by left. Qed.

Lemma flow_ok_running d ls pc i o :
  running pc = true → i = received d ls → i = o +:+ in_flight pc →
  (Z.of_nat (String.length (in_flight pc)) <= buffer_size)%Z →
  (∀ buf, pc = Marking buf true ∨ pc = Writing buf true → read_failed d ls) →
  flow_ok d ls (mkFlow pc i o).
Proof. intros Hpc ????. split; cbn; try done; [by eexists|by rewrite Hpc..]. Qed.

Lemma flow_ok_stopped d ls pc i o rest :
  running pc = false → i = received d ls → i = o +:+ rest → (write_failed d ls ∨ rest = EmptyString) →
  (write_failed d ls ∨ read_failed d ls) → flow_ok d ls (mkFlow pc i o).
Proof.
  intros Hpc Hi Hr Hw Hf. split; cbn; try done; [by exists rest|by destruct pc|by rewrite Hpc| |].
  - intros _. destruct Hw as [?| ->]; [by left|right]. by rewrite Hr, string_app_nil_r.
  - intros buf [-> | ->]; done.
Qed.

(** The deferred calls leave the bytes alone. *)
Lemma flow_ok_unwind d ls a f pc :
  flow_ok d ls f → running (fl_pc f) = false → running pc = false → read_by d a = EmptyString →
  flow_ok d (ls ++ [a]) (mkFlow pc (fl_in f) (fl_out f)).
Proof.
  intros [Hin [rest Hp] _ _ Hs Hw _] Hf Hpc Ha.
  assert (fl_in f = received d (ls ++ [a])) by (by rewrite received_snoc, Ha, string_app_nil_r).
  assert (write_failed d (ls ++ [a]) ∨ read_failed d (ls ++ [a])) by (destruct (Hw Hf); eauto with pipe).
  destruct (Hs Hf).
  - apply (flow_ok_stopped _ _ _ _ _ rest); eauto with pipe.
  - apply (flow_ok_stopped _ _ _ _ _ EmptyString); auto. by rewrite string_app_nil_r.
Qed.

(** A step of the copy. *)
Lemma flow_ok_step d ls a f f' : flow_ok d ls f → copier_step a d f f' → flow_ok d (ls ++ [a]) f'.
Proof.
  intros Hf Hstep. pose proof Hf as [Hin Hp Hb Hr Hs Hw He]. destruct a; cbn [copier_step] in Hstep; try done.
  - destruct Hstep as (-> & Hpc & Hlen & ->). rewrite Hpc in Hr. cbn in Hr. rewrite string_app_nil_r in Hr.
    assert (fl_in f +:+ buf = received d (ls ++ [Read d buf err])) as Hrec.
    { rewrite received_snoc. cbn. by rewrite decide_True, Hin by done. }
    assert (err = true → read_failed d (ls ++ [Read d buf err])) as Herr by (intros ->; exists buf; apply last_elem).
    set (ls' := ls ++ _) in *. clearbody ls'. specialize (Hr eq_refl).
    destruct (Nat.ltb_spec 0 (String.length buf)) as [|Hz].
    + apply flow_ok_running; [done|done|by rewrite Hr|done|]. intros b [[= -> ->]|]; [auto|done].
    + assert (buf = EmptyString) as -> by (destruct buf; [done|cbn in Hz; lia]).
      rewrite string_app_nil_r in Hrec |- *. destruct err.
      * apply (flow_ok_stopped _ _ _ _ _ EmptyString); [done|done|by rewrite string_app_nil_r, Hr|by right|auto].
      * apply flow_ok_running; [done|done|by rewrite string_app_nil_r, Hr|done|]. by intros b [].
  - destruct Hstep as (-> & buf & err & Hpc & ->). rewrite Hpc in Hr, Hb. cbn in Hr, Hb.
    apply flow_ok_running; [done|by rewrite received_snoc, string_app_nil_r|auto|done|].
    intros b [|[= -> ->]]; [done|]. eauto with pipe.
  - destruct Hstep as (-> & buf & err & Hpc & ->). rewrite Hpc in Hr, Hb. cbn in Hr, Hb. specialize (Hr eq_refl).
    assert (fl_in f = received d (ls ++ [Write d ok n])) as Hrec by (by rewrite received_snoc, string_app_nil_r).
    destruct ok; [destruct err|].
    + apply (flow_ok_stopped _ _ _ _ _ EmptyString); [done|done|by rewrite string_app_nil_r|by right|]. right. eauto with pipe.
    + apply flow_ok_running; [done|done|by rewrite string_app_nil_r|done|]. by intros b [].
    + assert (write_failed d (ls ++ [Write d false n])) by (exists n; apply last_elem).
      apply (flow_ok_stopped _ _ _ _ _ (string_drop n buf)); [done|done| |by left|by left].
      by rewrite string_app_assoc, string_take_drop.
  - destruct Hstep as (-> & Hpc & ->). apply flow_ok_unwind; by rewrite ?Hpc.
  - destruct Hstep as (-> & Hpc & ->). apply flow_ok_unwind; by rewrite ?Hpc.
Qed.


(** * The session *)

Definition not_returned (d : side) (p : pipe) : nat :=
  match fl_pc (flow_of d p) with CopyReturned => 0 | _ => 1 end.

(** Past the deferred [cancel]. *)
Definition cancelled (pc : copier) : bool := match pc with Finishing | CopyReturned => true | _ => false end.

(** How far the handler is, in closings. *)
Definition main_closed (d : side) (w : waiter) : bool :=
  match w, d with CloseB, Ws | AwaitCopies, _ | Returned, _ => true | _, _ => false end.

(** The watchdog found the session idle. *)
Definition dog_fired (ls : list action) : Prop :=
  ∃ ls1 ls2 p1, ls = ls1 ++ DogTick :: ls2 ∧ pipe_run latency ls1 p1 ∧
    p_dog p1 = Watching ∧ is_Some (p_tick p1) ∧ p_active p1 = false.

Definition ended_by (ls : list action) : Prop :=
  Upstream ∈ ls ∨ (∃ d, read_failed d ls ∨ write_failed d ls) ∨ dog_fired ls.

Record session_ok (ls : list action) (p : pipe) : Prop := {
  so_flows : ∀ d, flow_ok d ls (flow_of d p);
  so_wg : p_wg p = not_returned Ws p + not_returned Tun p;
  so_done : ∀ d, cancelled (fl_pc (flow_of d p)) = true → p_done p = true;
  so_main : p_main p ≠ AwaitDone → p_done p = true;
  so_closed : ∀ d, main_closed d (p_main p) = true → at_side d (p_closed p) = true;
  so_returned : p_main p = Returned → p_wg p = 0;
  so_dog : p_dog p ≠ Watching → p_done p = true ∨ p_dog p = DogCancel;
  so_fired : p_dog p = DogCancel → dog_fired ls;
  so_ended : p_done p = true → ended_by ls
}.

Lemma dog_fired_snoc ls a : dog_fired ls → dog_fired (ls ++ [a]).
Proof. intros (l1 & l2 & p1 & -> & H). exists l1, (l2 ++ [a]), p1. by rewrite <-app_assoc. Qed.

Lemma ended_by_snoc ls a : ended_by ls → ended_by (ls ++ [a]).
Proof.
  intros [H|[(d & [H|H])|H]]; [left; apply elem_of_app; by left|right; left; exists d..|right; right];
    eauto using dog_fired_snoc with pipe.
Qed.

#[local] Hint Resolve ended_by_snoc dog_fired_snoc last_elem : pipe.

Lemma pipe_ok_step ls p a p' :
  pipe_run latency ls p → session_ok ls p → exec latency a p = Some p' → session_ok (ls ++ [a]) p'.
Proof.
  intros Hrun [Hf Hwg Hd Hm Hc Hr Hg Hfired He] Hex.
  assert (∀ d, flow_ok d (ls ++ [a]) (flow_of d p')) as Hf'.
  { intros d. destruct (exec_flow _ _ _ d Hex) as [[-> ?]|Hs]; [by apply flow_ok_other|by eapply flow_ok_step]. }
  pose proof (λ d, exec_flow _ _ _ d Hex) as Hstep.
  clear Hstep. split; [done|..]; clear Hf'.
  - exec_cases; cbn; try done; unfold not_returned, copy_step in *; rewrite ?flow_of_set_flow; destruct d;
      unfold flow_of in *; cbn in *; match goal with H : fl_pc _ = _ |- _ => rewrite H in Hwg end; repeat (case_decide; try done); cbn; lia.
  - intros d. specialize (Hd d). exec_cases; cbn; try done; unfold copy_step in *; rewrite ?flow_of_set_flow;
      try (case_decide; subst); cbn; try done. intros _. apply Hd. by match goal with H : fl_pc _ = _ |- _ => rewrite H end.
  - exec_cases; cbn in *; try done; auto.
  - intros d. specialize (Hc d). exec_cases; cbn in *; try done; rewrite ?at_set_side; by destruct d; simplify_eq.
  - exec_cases; cbn in *; try done; [intros; by rewrite Hr|]. intros _. by apply Nat.eqb_eq.
  - exec_cases; cbn in *; intros; try (by right); try (by left); try (by apply Hg); destruct Hg; try congruence; auto.
  - exec_cases; cbn in *; intros; try congruence; try (apply dog_fired_snoc, Hfired; congruence).
    exists ls, [], p. by repeat (split; [by eauto|]).
  - intros Hd'. exec_cases; cbn in *; try (by apply ended_by_snoc, He).
    + right. left. exists d. destruct (fo_reason _ _ _ (Hf d)) as [?|?]; [by rewrite Heqc|right|left]; auto with pipe.
    + right. right. auto with pipe.
    + by left; apply last_elem.
Qed.

Lemma pipe_init_ok : session_ok [] pipe_init.
Proof.
  split; cbn; try done; try (by intros []). intros []; split; cbn; try done; try (by exists EmptyString); by intros ? [].
Qed.

Lemma pipe_run_ok ls p : pipe_run latency ls p → session_ok ls p.
Proof. induction 1; [apply pipe_init_ok|by eapply pipe_ok_step]. Qed.


(** * The clock *)

Context (latency_ok : (0 ≤ latency < bridgeIdleTimeout)%Z).

(** While the watchdog waits: where the last swap, the tick and the last mark
    are. *)
Record clock_ok (p : pipe) : Prop := {
  co_tick : match p_tick p with
    | None => p_now p <= p_next p ∧ p_next p - bridgeIdleTimeout <= p_swapped p <= p_next p - bridgeIdleTimeout + latency
    | Some t => p_next p = t + bridgeIdleTimeout ∧ t <= p_now p <= t + latency ∧
        t - bridgeIdleTimeout <= p_swapped p <= t - bridgeIdleTimeout + latency
    end%Z;
  co_now : (p_swapped p <= p_now p ∧ p_marked p <= p_now p)%Z;
  co_marked : (p_swapped p - bridgeIdleTimeout - latency <= p_marked p)%Z;
  co_idle : p_active p = false → (p_marked p <= p_swapped p)%Z;
  co_active : p_active p = true → (p_swapped p <= p_marked p)%Z
}.

Lemma clock_ok_step a p p' :
  (p_dog p = Watching → clock_ok p) → exec latency a p = Some p' → p_dog p' = Watching → clock_ok p'.
Proof using latency_ok.
  intros Hp Hex Hw'. assert (p_dog p = Watching) as Hw by (exec_cases; cbn in *; congruence).
  specialize (Hp Hw) as [Ht [Hs Hm] Hb Hi Ha].
  destruct (p_tick p) as [t|] eqn:Htick; exec_cases; cbn in *; try congruence;
    repeat match goal with
    | H : context [match p_dog p with _ => _ end] |- _ => rewrite Hw, ?Htick in H
    | H : _ && _ = true |- _ => apply andb_true_iff in H as [? ?]
    | H : (_ <=? _)%Z = true |- _ => apply Z.leb_le in H
    | H : (_ <? _)%Z = true |- _ => apply Z.ltb_lt in H
    end; split; cbn; rewrite ?Htick; try done; intros; simplify_eq; lia.
Qed.

Lemma clock_ok_run ls p : pipe_run latency ls p → p_dog p = Watching → clock_ok p.
Proof using latency_ok.
  induction 1 as [|ls p a p' _ IH Hex]; [|by eapply clock_ok_step].
  intros _. split; cbn; unfold bridgeIdleTimeout, Minute, Second in *; try done; lia.
Qed.

(** How long the session has been without traffic. *)
Definition idle (p : pipe) : Duration := (p_now p - p_marked p)%Z.

(** A session that is idle longer than this is no longer watched. *)
Lemma watching_idle ls p :
  pipe_run latency ls p → p_dog p = Watching → (idle p <= 2 * bridgeIdleTimeout + 2 * latency)%Z.
Proof using latency_ok.
  intros Hr Hw. destruct (clock_ok_run _ _ Hr Hw) as [Ht [? ?] ? Hi Ha]. unfold idle.
  destruct (p_tick p), (p_active p); try specialize (Ha eq_refl); try specialize (Hi eq_refl); lia.
Qed.

Lemma dog_fired_idle ls :
  dog_fired ls → ∃ ls1 ls2 p1, ls = ls1 ++ DogTick :: ls2 ∧ pipe_run latency ls1 p1 ∧
    (bridgeIdleTimeout - latency <= idle p1 <= 2 * bridgeIdleTimeout + 2 * latency)%Z.
Proof using latency_ok.
  intros (ls1 & ls2 & p1 & -> & Hr & Hw & [t Ht] & Hact). exists ls1, ls2, p1. split; [done|]. split; [done|].
  split; [|by eapply watching_idle]. destruct (clock_ok_run _ _ Hr Hw) as [Htick [? ?] ? Hi _].
  rewrite Ht in Htick. specialize (Hi Hact). unfold idle. lia.
Qed.

(** C13: The bridge carries two byte streams, whatever the interleaving of its
    goroutines.  What was written to one side is a prefix of what was read
    from the other; a copy that still runs holds back at most one 32 KiB
    buffer; one that has stopped without a failed write has passed on all it
    read, the bytes that came with the error included.  When the handler goes
    on, both copies have returned and both connections are closed, so no byte
    is carried after it. *)
Theorem pipe_streams (ls : list action) (p : pipe) (d : side) :
  pipe_run latency ls p →
  let f := flow_of d p in
  fl_in f = received d ls ∧
  (∃ rest, fl_in f = fl_out f +:+ rest) ∧
  (running (fl_pc f) = true → fl_in f = fl_out f +:+ in_flight (fl_pc f) ∧
    (Z.of_nat (String.length (in_flight (fl_pc f))) <= 32768)%Z) ∧
  (running (fl_pc f) = false → ¬ write_failed d ls → fl_out f = received d ls) ∧
  (p_main p = Returned → fl_pc f = CopyReturned ∧ at_side d (p_closed p) = true).
Proof.
  intros Hr f. destruct (pipe_run_ok _ _ Hr) as [Hf Hwg _ _ Hc Hret _ _ _].
  destruct (Hf d) as [Hin Hp Hb Hrun Hs _ _]. fold f in Hin, Hp, Hb, Hrun, Hs.
  split; [done|]. split; [done|]. split; [by auto|]. split.
  - intros H Hw. destruct (Hs H) as [?|E]; [done|]. by rewrite <-E.
  - intros H. split; [|by apply Hc; rewrite H]. specialize (Hret H). rewrite Hwg in Hret.
    unfold f. destruct d; unfold not_returned in Hret; destruct (fl_pc (flow_of Ws p)), (fl_pc (flow_of Tun p)); done.
Qed.


End session.

(** A session: a greeting one way and an answer the other, then an hour of
    silence until the watchdog ends it and all goroutines return. *)
Definition session_example : list action :=
  [Read Tun "SSH-2.0" false; Mark Tun; Write Tun true 0; Read Ws "hello" false; Mark Ws; Write Ws true 0;
   Elapse bridgeIdleTimeout; Fire; DogTick; Elapse bridgeIdleTimeout; Fire; DogTick; DogNext; MainNext; MainNext;
   MainNext; Read Tun EmptyString true; Cancel Tun; Read Ws "late" true; Mark Ws; Write Ws false 2; Cancel Ws;
   WgDone Ws; WgDone Tun; MainNext; DogNext; DogNext].

Definition session_end : pipe := default pipe_init (execs 0 session_example pipe_init).

Lemma session_example_run : pipe_run 0 session_example session_end.
Proof. apply (execs_run 0 [] _ pipe_init); [constructor|vm_compute; reflexivity]. Qed.

Lemma pipe_streams_witness :
  p_main session_end = Returned ∧ fl_out (flow_of Tun session_end) = "SSH-2.0" ∧
  fl_pc (flow_of Ws session_end) = CopyReturned ∧ at_side Ws (p_closed session_end) = true.
Proof.
  split; [vm_compute; reflexivity|]. split; [vm_compute; reflexivity|].
  refine (proj2 (proj2 (proj2 (proj2 (pipe_streams 0 session_example session_end Ws session_example_run)))) _).
  vm_compute; reflexivity.
Defined.

