(* ===== verification/PipeLive.v ===== *)
(** A bridge comes to an end: in every fair schedule of its goroutines, once
    a side has failed, the context is cancelled, or the traffic stops, the
    handler returns. *)
From Stdlib Require Import ZArith Lia Ascii.
From stdpp Require Import base strings list.
From S2P Require Import Prelude GoStrings Bridge Pipe.

Inductive goroutine := GCopy (d : side) | GMain | GDog.

Definition goroutine_of (a : action) : option goroutine :=
  match a with
  | Read d _ _ | Mark d | Write d _ _ | Cancel d | WgDone d => Some (GCopy d)
  | DogDone | DogTick | DogNext => Some GDog
  | MainNext => Some GMain
  | Upstream | Fire | Elapse _ => None
  end.

(** The goroutine is not blocked.  A read or a write may block for ever on a
    connection that is open; closing it unblocks them, as [net.Conn]
    documents (for the tunnel's channel, when the other end answers the close
    or the SSH connection is gone). *)
Definition runnable (g : goroutine) (p : pipe) : bool :=
  match g with
  | GCopy d =>
      match fl_pc (flow_of d p) with
      | Reading => broken d p
      | Writing _ _ => broken (other d) p
      | CopyReturned => false
      | _ => true
      end
  | GMain =>
      match p_main p with
      | AwaitDone => p_done p
      | AwaitCopies => Nat.eqb (p_wg p) 0
      | Returned => false
      | _ => true
      end
  | GDog =>
      match p_dog p with
      | Watching => p_done p || bool_decide (is_Some (p_tick p))
      | DogReturned => false
      | _ => true
      end
  end.

Section live.
  Context (latency : Duration) (latency_ok : (0 ≤ latency < bridgeIdleTimeout)%Z).
  Context (tr : nat → pipe) (lb : nat → option action).

Definition reachable (p : pipe) : Prop := ∃ ls, pipe_run latency ls p.

(** An infinite schedule; [None] when nothing happens. *)
Definition is_trace : Prop :=
  reachable (tr 0) ∧
  ∀ n, match lb n with Some a => exec latency a (tr n) = Some (tr (S n)) | None => tr (S n) = tr n end.

(** No goroutine is runnable for ever without a step. *)
Definition fair : Prop :=
  ∀ g n, ∃ m, n ≤ m ∧ (runnable g (tr m) = false ∨ ∃ a, lb m = Some a ∧ goroutine_of a = Some g).

Context (Htrace : is_trace) (Hfair : fair).

Definition leads_to (P Q : pipe → Prop) : Prop := ∀ n, P (tr n) → ∃ m, n ≤ m ∧ Q (tr m).

Lemma leads_to_trans P Q R : leads_to P Q → leads_to Q R → leads_to P R.
Proof. intros HP HQ n Hn. destruct (HP n Hn) as (m & ? & Hm), (HQ m Hm) as (k & ? & ?). exists k. split; [lia|done]. Qed.

Lemma leads_to_weaken (P Q R : pipe → Prop) : leads_to P Q → (∀ p, reachable p → Q p → R p) → (∀ n, reachable (tr n)) → leads_to P R.
Proof. intros HP HQ Hr n Hn. destruct (HP n Hn) as (m & ? & ?). exists m. auto. Qed.

Lemma trace_reachable n : reachable (tr n).
Proof using Htrace.
  destruct Htrace as [H0 Hs]. induction n as [|n [ls IH]]; [done|]. specialize (Hs n).
  destruct (lb n) as [a|]; [|rewrite Hs; by exists ls]. exists (ls ++ [a]). by econstructor.
Qed.

(** What every step keeps, the trace keeps. *)
Lemma trace_stable (P : pipe → Prop) :
  (∀ p a p', reachable p → P p → exec latency a p = Some p' → P p') →
  ∀ n m, n ≤ m → P (tr n) → P (tr m).
Proof using Htrace.
  intros HP n m Hle Hn. induction Hle as [|m _ IH]; [done|]. pose proof (proj2 Htrace m) as Hs.
  destruct (lb m) as [a|]; [|by rewrite Hs]. eapply HP; [apply trace_reachable|done|done].
Qed.

(** Progress by a rank: no step raises it, and the steps of a goroutine that
    is runnable lower it. *)
Section rank.
  Context (P : pipe → Prop) (rank : pipe → nat) (g : goroutine) (low : nat).
  Context (Hkeep : ∀ p a p', reachable p → P p → exec latency a p = Some p' → P p' ∧ rank p' ≤ rank p).
  Context (Hrun : ∀ p, reachable p → P p → low < rank p → runnable g p = true).
  Context (Hless : ∀ p a p', reachable p → P p → low < rank p → goroutine_of a = Some g →
    exec latency a p = Some p' → rank p' < rank p).

Lemma rank_keep n m : n ≤ m → P (tr n) → P (tr m) ∧ rank (tr m) ≤ rank (tr n).
Proof using Htrace Hkeep.
  intros Hle Hn. apply (trace_stable (λ p, P p ∧ rank p ≤ rank (tr n))) with n; [|done|done].
  intros p a p' Hr [Hp ?] He. destruct (Hkeep _ _ _ Hr Hp He). split; [done|lia].
Qed.

Lemma rank_step n : P (tr n) → low < rank (tr n) → ∃ m, n ≤ m ∧ P (tr m) ∧ rank (tr m) < rank (tr n).
Proof using Htrace Hfair Hkeep Hrun Hless.
  intros Hn Hlow. destruct (Hfair g n) as (m & Hle & Hm). destruct (rank_keep n m Hle Hn) as [Hp Hr].
  destruct (decide (rank (tr m) < rank (tr n))) as [|]; [by exists m|].
  assert (low < rank (tr m)) as Hl by lia. pose proof (trace_reachable m) as Hreach.
  destruct Hm as [Hno|(a & Ha & Hg)]; [by rewrite Hrun in Hno|].
  pose proof (proj2 Htrace m) as Hs. rewrite Ha in Hs. exists (S m).
  destruct (Hkeep _ _ _ Hreach Hp Hs). pose proof (Hless _ _ _ Hreach Hp Hl Hg Hs). split; [lia|]. split; [done|lia].
Qed.

Lemma leads_to_low : leads_to P (λ p, P p ∧ rank p ≤ low).
Proof using Htrace Hfair Hkeep Hrun Hless.
  intros n. remember (rank (tr n)) as r eqn:Hr. revert n Hr.
  induction (lt_wf r) as [r _ IH]. intros n -> Hn.
  destruct (decide (rank (tr n) ≤ low)); [by exists n|].
  destruct (rank_step n Hn ltac:(lia)) as (m & ? & Hm & Hlt). destruct (IH _ Hlt m eq_refl Hm) as (k & ? & ?).
  exists k. split; [lia|done].
Qed.

End rank.

(** ** The ranks *)

Definition main_rank (p : pipe) : nat :=
  match p_main p with AwaitDone => 4 | CloseA => 3 | CloseB => 2 | AwaitCopies => 1 | Returned => 0 end.

Definition copier_rank (d : side) (p : pipe) : nat :=
  match fl_pc (flow_of d p) with
  | Reading => 5 | Marking _ _ => 4 | Writing _ _ => 3 | Cancelling => 2 | Finishing => 1 | CopyReturned => 0
  end.

Definition dog_rank (p : pipe) : nat := match p_dog p with DogCancel => 1 | _ => 0 end.

Lemma done_stable p a p' : exec latency a p = Some p' → p_done p = true → p_done p' = true.
Proof. intros He Hd. exec_cases; cbn; congruence. Qed.

Lemma closed_stable d p a p' : exec latency a p = Some p' → at_side d (p_closed p) = true → at_side d (p_closed p') = true.
Proof. intros He Hd. exec_cases; by destruct d. Qed.

Lemma main_rank_step p a p' : exec latency a p = Some p' → main_rank p' ≤ main_rank p ∧ (a = MainNext → main_rank p' < main_rank p).
Proof.
  intros He. unfold main_rank.
  exec_cases; cbn; try (by split); repeat match goal with H : p_main _ = _ |- _ => rewrite H end; split; intros; lia.
Qed.

(** A copy that has stopped, or whose connections are broken, goes on to its
    end. *)
Definition ending (d : side) (p : pipe) : Prop :=
  running (fl_pc (flow_of d p)) = false ∨ (broken d p = true ∧ broken (other d) p = true).

Lemma copier_rank_step d p a p' :
  exec latency a p = Some p' → ending d p →
  copier_rank d p' ≤ copier_rank d p ∧ (goroutine_of a = Some (GCopy d) → copier_rank d p' < copier_rank d p) ∧
  (running (fl_pc (flow_of d p)) = false → running (fl_pc (flow_of d p')) = false).
Proof.
  intros He Hs. unfold copier_rank, ending in *.
  exec_cases; try (split; [done|split; [done|done]]); unfold copy_step; rewrite ?flow_of_set_flow;
    (case_decide; [subst|split; [done|split; [cbn; congruence|done]]]); cbn [fl_pc];
    repeat match goal with H : fl_pc _ = _ |- _ => rewrite H in * end; cbn in Hs |- *;
    try (split; [lia|split; [intros; lia|done]]); destruct Hs as [|[Hb1 Hb2]]; try done; [|congruence].
  match goal with H : _ && _ = true |- _ => by rewrite Hb1, andb_false_r in H end.
Qed.

Lemma dog_rank_step p a p' :
  exec latency a p = Some p' → p_dog p ≠ Watching →
  p_dog p' ≠ Watching ∧ dog_rank p' ≤ dog_rank p ∧ (goroutine_of a = Some GDog → p_dog p = DogCancel → dog_rank p' < dog_rank p).
Proof.
  intros He Hd. unfold dog_rank. exec_cases; cbn; try done; try (by split_and!);
    repeat match goal with H : p_dog _ = _ |- _ => rewrite H end; split_and!; try done; lia.
Qed.

(** ** The stages of the end *)

(** A copy that has stopped cancels the context. *)
Lemma stopped_cancels d : leads_to (λ p, running (fl_pc (flow_of d p)) = false) (λ p, p_done p = true).
Proof using Htrace Hfair.
  eapply leads_to_weaken; [apply (leads_to_low _ (copier_rank d) (GCopy d) 1)| |apply trace_reachable].
  - intros p a p' _ Hs He. destruct (copier_rank_step d p a p' He ltac:(by left)) as (? & _ & ?). auto.
  - intros p _ Hs Hr. unfold copier_rank in Hr. cbn. destruct (fl_pc (flow_of d p)); try done; lia.
  - intros p a p' _ Hs _ Hg He. by apply (copier_rank_step d p a p' He ltac:(by left)).
  - cbn. intros p [ls Hls] [Hs Hr]. apply (so_done _ _ _ (pipe_run_ok _ _ _ Hls) d). unfold copier_rank in Hr.
    destruct (fl_pc (flow_of d p)); try done; lia.
Qed.

(** So does the watchdog once it has found the session idle. *)
Lemma fired_cancels : leads_to (λ p, p_dog p ≠ Watching) (λ p, p_done p = true).
Proof using Htrace Hfair.
  eapply leads_to_weaken; [apply (leads_to_low _ dog_rank GDog 0)| |apply trace_reachable].
  - intros p a p' _ Hs He. destruct (dog_rank_step p a p' He Hs) as (? & ? & _). auto.
  - intros p _ Hs Hr. unfold dog_rank in Hr. cbn. destruct (p_dog p); try done; lia.
  - intros p a p' _ Hs Hr Hg He. apply (dog_rank_step p a p' He Hs); [done|]. unfold dog_rank in Hr. destruct (p_dog p); try done; lia.
  - cbn. intros p [ls Hls] [Hs Hr]. destruct (so_dog _ _ _ (pipe_run_ok _ _ _ Hls) Hs) as [|Hd]; [done|].
    unfold dog_rank in Hr. rewrite Hd in Hr. lia.
Qed.

(** The handler closes both connections once the context is cancelled. *)
Lemma cancel_closes : leads_to (λ p, p_done p = true) (λ p, p_done p = true ∧ main_rank p ≤ 1).
Proof using Htrace Hfair.
  apply (leads_to_low _ main_rank GMain 1).
  - intros p a p' _ Hd He. split; [by eapply done_stable|]. by apply (main_rank_step p a p').
  - intros p _ Hd Hr. unfold main_rank in Hr. cbn. destruct (p_main p); try done; lia.
  - intros p a p' _ _ _ Hg He. apply (main_rank_step p a p' He). by destruct a.
Qed.

Lemma closing_ending p d : reachable p → main_rank p ≤ 1 → ending d p.
Proof.
  intros [ls Hls] Hr. right. pose proof (so_closed _ _ _ (pipe_run_ok _ _ _ Hls)) as Hc.
  assert (∀ e, at_side e (p_closed p) = true) as Hall.
  { intros e. apply Hc. unfold main_rank in Hr. destruct (p_main p); try done; lia. }
  unfold broken. by rewrite !Hall.
Qed.

(** Then a copy returns. *)
Lemma closed_returns d (P : pipe → Prop) :
  (∀ p a p', reachable p → P p → exec latency a p = Some p' → P p') →
  (∀ p, P p → main_rank p ≤ 1) →
  leads_to P (λ p, P p ∧ copier_rank d p ≤ 0).
Proof using Htrace Hfair.
  intros Hkeep HP. apply (leads_to_low _ (copier_rank d) (GCopy d) 0).
  - intros p a p' Hr Hp He. split; [by eapply Hkeep|]. by apply (copier_rank_step d p a p' He), closing_ending, HP.
  - intros p Hr Hp Hk. destruct (closing_ending p d Hr (HP p Hp)) as [Hs|[H1 H2]]; unfold copier_rank in Hk; cbn.
    + destruct (fl_pc (flow_of d p)); try done; lia.
    + destruct (fl_pc (flow_of d p)); try done; lia.
  - intros p a p' Hr Hp _ Hg He. destruct (copier_rank_step d p a p' He (closing_ending p d Hr (HP p Hp))) as (_ & H & _). auto.
Qed.

(** And the handler, once both have. *)
Lemma cancel_returns : leads_to (λ p, p_done p = true) (λ p, p_main p = Returned).
Proof using Htrace Hfair.
  set (P0 := λ p, p_done p = true ∧ main_rank p ≤ 1).
  assert (∀ p a p', reachable p → P0 p → exec latency a p = Some p' → P0 p') as H0.
  { intros p a p' _ [Hd Hm] He. split; [by eapply done_stable|]. pose proof (main_rank_step _ _ _ He). lia. }
  set (P1 := λ p, P0 p ∧ copier_rank Ws p ≤ 0).
  assert (∀ d p a p', reachable p → P0 p → exec latency a p = Some p' → copier_rank d p ≤ 0 → copier_rank d p' ≤ 0) as Hc.
  { intros d p a p' Hr [_ Hm] He Hk. destruct (copier_rank_step d p a p' He (closing_ending p d Hr Hm)). lia. }
  assert (∀ p a p', reachable p → P1 p → exec latency a p = Some p' → P1 p') as H1.
  { intros p a p' Hr [Hp Hk] He. split; eauto. }
  set (P2 := λ p, P1 p ∧ copier_rank Tun p ≤ 0).
  eapply leads_to_trans; [apply cancel_closes|].
  eapply leads_to_trans; [apply (closed_returns Ws P0 H0); by intros p []|].
  eapply leads_to_trans; [apply (closed_returns Tun P1 H1); by intros p [[]]|].
  eapply leads_to_weaken; [apply (leads_to_low P2 main_rank GMain 0)| |apply trace_reachable].
  - intros p a p' Hr [Hp Hk] He. split; [|by apply (main_rank_step p a p')]. split; [by eauto|]. destruct Hp. eauto.
  - intros p [ls Hls] [[[_ Hm] Hw] Ht] Hr. pose proof (so_wg _ _ _ (pipe_run_ok _ _ _ Hls)) as Hwg.
    unfold main_rank, copier_rank, not_returned in *. cbn.
    destruct (p_main p), (fl_pc (flow_of Ws p)), (fl_pc (flow_of Tun p)); try lia. by rewrite Hwg.
  - intros p a p' _ _ _ Hg He. apply (main_rank_step p a p' He). by destruct a.
  - cbn. intros p _ [_ Hr]. unfold main_rank in Hr. destruct (p_main p); try done; lia.
Qed.

Lemma now_step p a p' : exec latency a p = Some p' → (p_now p <= p_now p')%Z.
Proof.
  intros He. exec_cases; cbn; try lia.
  all: match goal with H : _ && _ = true |- _ => apply andb_true_iff in H as [?%Z.ltb_lt _] end; lia.
Qed.

(** When the traffic stops and the clock goes on, the watchdog gives up. *)
Lemma silence_fires n :
  (∀ m, n ≤ m → p_marked (tr m) = p_marked (tr n)) → (∀ t, ∃ m, (t <= p_now (tr m))%Z) →
  ∃ m, p_dog (tr m) ≠ Watching.
Proof using Htrace latency_ok.
  intros Hsilent Hclock.
  destruct (Hclock (Z.max (p_now (tr n)) (p_marked (tr n)) + 2 * bridgeIdleTimeout + 2 * latency + 1)%Z) as [m Hm].
  assert (n ≤ m) as Hle.
  { destruct (decide (n ≤ m)) as [|Hnm]; [done|].
    assert (p_now (tr m) <= p_now (tr n))%Z; [|lia].
    apply (trace_stable (λ p, p_now (tr m) <= p_now p)%Z) with m; [|lia|done].
    intros p a p' _ ? ?%now_step. lia. }
  exists m. intros Hw. destruct (trace_reachable m) as [ls Hls].
  pose proof (watching_idle latency latency_ok ls _ Hls Hw) as Hi. unfold idle in Hi. rewrite (Hsilent m Hle) in Hi. lia.
Qed.


End live.

(** The example of [Pipe], going on for ever at its end. *)
Definition example_at (n : nat) : pipe := default pipe_init (execs 0 (take n session_example) pipe_init).

Definition example_label (n : nat) : option action := session_example !! n.

Lemma example_late n : 27 ≤ n → example_at n = session_end ∧ example_label n = None.
Proof.
  intros Hn. unfold example_at, example_label, session_end. split; [|by apply lookup_ge_None_2].
  rewrite take_ge by exact Hn. reflexivity.
Qed.

Lemma example_trace : is_trace 0 example_at example_label.
Proof.
  split; [exists []; constructor|]. intros n. destruct (decide (27 ≤ n)) as [Hn|Hn].
  - destruct (example_late n Hn) as [E ->]. destruct (example_late (S n) ltac:(lia)) as [E' _]. by rewrite E, E'.
  - do 27 (destruct n as [|n]; [vm_compute; reflexivity|]). lia.
Qed.

Lemma example_fair : fair example_at example_label.
Proof.
  intros g n. exists (n + 27). split; [lia|]. left. destruct (example_late (n + 27) ltac:(lia)) as [-> _].
  destruct g as [[]| |]; vm_compute; reflexivity.
Qed.

