(* ===== verification/System.v ===== *)
(** The relay, its bridges and the gateway at work together, over one store
    and one registry.

    The handlers of bridges are cut at every call that other goroutines can
    see: the calls of the store, the counter, the look-up in the registry, the
    opening of the channel.  Between them come the steps of the gateway
    ([SshGate]), the store calls of any other handler, one by one, and the
    closing of tunnels by the machines API. *)
From Stdlib Require Import ZArith Lia Ascii.
From stdpp Require Import base gmap strings list.
From S2P Require Import Prelude GoStrings StoreSpec StoreFresh AuthSession Http Oidc.
From S2P Require Import ApiKey SshKeys RelayAuth SshGate Bridge.

Section system.
  Context `{OIDC} `{SSH} `{Jose} `{MapRange} `{UUIDText} `{SSHChannels}.
  Context {D A : Type} `{DataStore D}.
  Abbreviation Srv := (Server D A Registry).

(** * A bridge's handler, step by step *)

(** The control points of [HandleSSHBridge], with what it holds there. *)
Inductive session_pc :=
  | Started
  | Verifying (token : string)
  | Resolving (id : string * string * string)
  | Loading (u : User)
  | Acquiring (u : User) (m : Machine)
  | Dialing (u : User) (m : Machine)
  | Opening (u : User) (m : Machine) (t : Tunnel)
  | Confirming (u : User) (m : Machine) (t : Tunnel) (ch : Channel)
  | Piping (u : User) (m : Machine) (t : Tunnel) (ch : Channel)
  | Releasing (e : bridge_end)                   (** the deferred [release] *)
  | Ended (e : bridge_end).

Record session := mkSession { ses_machine : string; ses_browser : Browser; ses_pc : session_pc }.

Definition set_pc (pc : session_pc) (ses : session) : session := mkSession (ses_machine ses) (ses_browser ses) pc.

Definition denied (reason : string) : session_pc := Ended (Closed StatusPolicyViolation reason).
Definition failed : session_pc := Ended (Closed StatusInternalError "internal error").
Definition offline : session_pc := Releasing (Closed StatusTryAgainLater "machine offline").

(** The error of [GetMachine], or the machine unless it is another tenant's. *)
Definition load_machine (machineID : string) (u : User) : M Srv error session_pc :=
  match uuid_Parse machineID with
  | inl _ => ret (denied "machine not found")
  | inr id =>
      let! r := attempt (on_db (ds_GetMachine id)) in
      ret (match r with
           | inl err => if errors_Is err ErrNotFound then denied "machine not found" else failed
           | inr m => if negb (N.eqb (Machine_TenantID m) (User_TenantID u)) then denied "machine not found"
                      else Acquiring u m
           end)
  end.

Definition open_channel (u : User) (m : Machine) (t : Tunnel) (s : Srv) : session_pc :=
  match tunnels s with
  | Some r =>
      match OpenChannel (reg_closed r) (conn t) "forwarded-tcpip" (mkPayload (bindAddr t) (bindPort t) "127.0.0.1" 1) with
      | inl _ => offline
      | inr ch => Confirming u m t ch
      end
  | None => offline
  end.

(** The first frame of the browser. *)
Definition first_frame (br : Browser) : session_pc :=
  match br_accept br with
  | inl _ => Ended AcceptFailed
  | inr _ =>
      match br_frame br with
      | inl _ => denied "expected auth message"
      | inr data =>
          match Decode ["token"] data with
          | None => denied "invalid auth message"
          | Some authMsg => Verifying (Values_Get "token" authMsg)
          end
      end
  end.

(** One step of the handler of a session. *)
Definition session_next (machineID : string) (br : Browser) (pc : session_pc) : M Srv error session_pc :=
  match pc with
  | Started => λ s,
      (inr (match tunnels s with
            | None => Ended (NotUpgraded (http_Error "ssh gateway not configured" 503))
            | Some _ => first_frame br
            end), s)
  | Verifying token =>
      let! r := attempt (verifyToken token) in
      ret (match r with inl _ => denied "authentication failed" | inr id => Resolving id end)
  | Resolving id =>
      let! r := attempt (on_db (ds_GetOrCreateUser id.1.1 id.1.2 id.2)) in
      ret (match r with inl _ => failed | inr u => Loading u end)
  | Loading u => load_machine machineID u
  | Acquiring u m => λ s,
      let '(ok, b) := acquire machineID (bridges s) in
      (inr (if ok then Dialing u m else Ended (Closed StatusTryAgainLater "too many concurrent sessions")), set_bridges b s)
  | Dialing u m => λ s,
      (inr (match tunnels s with
            | Some r => match reg_tunnels r !! machineID with Some t => Opening u m t | None => offline end
            | None => offline
            end), s)
  | Opening u m t => gets (open_channel u m t)
  | Confirming u m t ch => ret (match br_write br with inl _ => Releasing WriteFailed | inr _ => Piping u m t ch end)
  | Piping u m t ch => ret (Releasing (Closed StatusNormalClosure "session ended"))
  | Releasing e =>
      do! modify (λ s, set_bridges (release machineID (bridges s)) s) in
      ret (Ended e)
  | Ended e => ret (Ended e)
  end.

(** The step always gives a control point. *)
Definition next_pc (machineID : string) (br : Browser) (pc : session_pc) (s : Srv) : session_pc * Srv :=
  match session_next machineID br pc s with
  | (inr pc', s') => (pc', s')
  | (inl _, s') => (pc, s')
  end.

(** The handler alone, from its start to the piping, or to its end. *)
Fixpoint session_run (n : nat) (machineID : string) (br : Browser) (pc : session_pc) (s : Srv) : session_pc * Srv :=
  match n with
  | 0 => (pc, s)
  | S n =>
      match pc with
      | Piping _ _ _ _ | Ended _ => (pc, s)
      | _ => let '(pc', s') := next_pc machineID br pc s in session_run n machineID br pc' s'
      end
  end.

(** How the handler of [Bridge] sees a control point. *)
Definition opened_as (pc : session_pc) (r : bridge_end + Conn (T := Registry)) : Prop :=
  match pc, r with
  | Piping _ _ _ ch, inr ch' => ch = ch'
  | Ended e, inl e' => e = e'
  | _, _ => False
  end.

Definition agrees (x : session_pc * Srv) (y : (bridge_end + Conn (T := Registry)) * Srv) : Prop :=
  opened_as x.1 y.1 ∧ x.2 = y.2.

Lemma run_ended n machineID br e s : session_run n machineID br (Ended e) s = (Ended e, s).
Proof. by destruct n. Qed.

Lemma set_tunnels_same (s : Srv) r : tunnels s = Some r → set_tunnels (Some r) s = s.
Proof. intros E. destruct s. cbn in *. by subst. Qed.

(** The handler goes on from here. *)
Definition going (pc : session_pc) : bool := match pc with Piping _ _ _ _ | Ended _ => false | _ => true end.

Lemma run_step n machineID br pc s pc' s' :
  going pc = true → session_next machineID br pc s = (inr pc', s') →
  session_run (S n) machineID br pc s = session_run n machineID br pc' s'.
Proof. intros Hg Hn. cbn [session_run]. unfold next_pc. rewrite Hn. by destruct pc. Qed.

Lemma run_release n machineID br e s :
  session_run (S n) machineID br (Releasing e) s = (Ended e, set_bridges (release machineID (bridges s)) s).
Proof. erewrite run_step; [|done|reflexivity]. apply run_ended. Qed.

Lemma Registry_Dial_eq machineID r :
  td_Dial machineID r =
    (match reg_tunnels r !! machineID with
     | None => inl ErrNotConnected
     | Some t =>
         match OpenChannel (reg_closed r) (conn t) "forwarded-tcpip" (mkPayload (bindAddr t) (bindPort t) "127.0.0.1" 1) with
         | inl e => inl (WrapError ("opening channel to " +:+ machineID) e)
         | inr ch => inr ch
         end
     end, r).
Proof.
  cbn [td_Dial Registry_TunnelDialer]. unfold Registry_Dial, bind, get. destruct (reg_tunnels r !! machineID) as [t|]; [|done].
  unfold or_return, lift. cbn [fst snd]. by destruct (OpenChannel _ _ _ _).
Qed.

(** From the counter on. *)
Lemma connect_alone machineID br u m s :
  agrees (session_run 5 machineID br (Acquiring u m) s) (bridge_connect machineID br s).
Proof.
  unfold agrees, bridge_connect, bridges_acquire, tunnels_Dial, bridges_release, bind, attempt, ret, throw, modify.
  destruct (acquire machineID (bridges s)) as [ok b] eqn:Ha.
  erewrite run_step; [|done|cbn [session_next]; rewrite Ha; reflexivity].
  destruct ok; cbn [negb]; [|rewrite run_ended; split; reflexivity].
  set (s1 := set_bridges b s). cbn [fst snd].
  erewrite (run_step _ _ _ (Dialing u m)); [|done|cbn [session_next]; reflexivity].
  destruct (tunnels s1) as [r|] eqn:Hr; cbn [fst snd]; [|unfold offline; rewrite run_release; split; reflexivity].
  rewrite Registry_Dial_eq. cbn [fst snd]. rewrite (set_tunnels_same s1) by done.
  destruct (reg_tunnels r !! machineID) as [t|]; [|unfold offline; rewrite run_release; split; reflexivity].
  erewrite (run_step _ _ _ (Opening u m t)); [|done|reflexivity].
  unfold open_channel. rewrite Hr.
  destruct (OpenChannel _ _ _ _) as [e|ch]; [unfold offline; rewrite run_release; split; reflexivity|].
  erewrite (run_step _ _ _ (Confirming u m t ch)); [|done|reflexivity].
  destruct (br_write br) as [e|[]]; [rewrite run_release|]; split; reflexivity.
Qed.

(** From the machine on. *)
Lemma load_alone machineID br u s :
  agrees (session_run 6 machineID br (Loading u) s)
    (match match uuid_Parse machineID with
           | inl _ => inl (Closed StatusPolicyViolation "machine not found")
           | inr mid => inr mid
           end with
     | inl e => (inl e, s)
     | inr mid =>
         (let! m := on_db (ds_GetMachine mid)
            else_return (λ err, if errors_Is err ErrNotFound then Closed StatusPolicyViolation "machine not found"
                                else Closed StatusInternalError "internal error") in
          if negb (N.eqb (Machine_TenantID m) (User_TenantID u)) then
            throw (Closed StatusPolicyViolation "machine not found")
          else bridge_connect machineID br) s
     end).
Proof.
  destruct (uuid_Parse machineID) as [e|mid] eqn:Hid.
  { erewrite run_step; [|done|cbn [session_next]; unfold load_machine; rewrite Hid; reflexivity].
    unfold denied. rewrite run_ended. split; reflexivity. }
  erewrite run_step; [|done|cbn [session_next]; unfold load_machine; rewrite Hid; reflexivity].
  unfold bind at 1, or_return at 1. cbn [fst snd].
  destruct (on_db (ds_GetMachine mid) s) as [[e|m] s1]; cbn [fst snd].
  - destruct (errors_Is e ErrNotFound); [unfold denied|unfold failed]; rewrite run_ended; split; reflexivity.
  - destruct (negb _); [unfold denied; rewrite run_ended; split; reflexivity|]. apply connect_alone.
Qed.

(** The handler cut at its calls is the handler: run with nothing in
    between, the steps from the upgrade on come in nine rounds to the piping
    or to an end, with the same channel or the same close frame and the same
    state of the server as [HandleSSHBridge_open]. *)
Theorem session_alone (machineID : string) (br : Browser) (s : Srv) :
  let '(pc, s') := session_run 9 machineID br Started s in
  opened_as pc (HandleSSHBridge_open machineID br s).1 ∧ s' = (HandleSSHBridge_open machineID br s).2.
Proof.
  enough (agrees (session_run 9 machineID br Started s) (HandleSSHBridge_open machineID br s)) as Hag.
  { unfold agrees in Hag. by destruct (session_run _ _ _ _ _). }
  unfold HandleSSHBridge_open. unfold bind at 1. unfold get.
  erewrite run_step; [|done|reflexivity]. destruct (tunnels s) as [tn|]; [|rewrite run_ended; split; reflexivity].
  unfold first_frame, bind at 1, lift at 1, or_return at 1. cbn [fst snd].
  destruct (br_accept br) as [e|[]]; [rewrite run_ended; split; reflexivity|].
  unfold bind at 1, lift at 1, or_return at 1. cbn [fst snd].
  destruct (br_frame br) as [e|data]; [unfold denied; rewrite run_ended; split; reflexivity|].
  destruct (Decode ["token"] data) as [msg|]; [|unfold denied; rewrite run_ended; split; reflexivity].
  unfold bind at 1, or_return at 1.
  erewrite (run_step _ _ _ (Verifying _)); [|done|reflexivity]. cbn [fst snd].
  destruct (verifyToken (Values_Get "token" msg) s) as [[e|id] s1]; cbn [fst snd]; [unfold denied; rewrite run_ended; split; reflexivity|].
  unfold bind at 1, or_return at 1.
  erewrite (run_step _ _ _ (Resolving id)); [|done|reflexivity]. cbn [fst snd].
  destruct (on_db _ s1) as [[e|u] s2]; cbn [fst snd]; [unfold failed; rewrite run_ended; split; reflexivity|].
  unfold bind at 1, lift at 1, or_return at 1. cbn [fst snd].
  apply load_alone.
Qed.

(** * The whole system *)

Context `{!DataStoreOk D}.

(** The server, whose [db] and [tunnels] the gateway shares; the gateway's
    connections; the handlers of bridges, those that have ended included. *)
Record Sys := mkSys {
  sy_srv : Srv;
  sy_conns : gmap nat ServerConn;
  sy_closing : list nat;
  sy_sessions : gmap nat session
}.

Definition sy_registry (s : Sys) : Registry := default NewRegistry (tunnels (sy_srv s)).

Definition gate_of (s : Sys) : Gate := mkGate (db (sy_srv s)) (sy_registry s) (sy_conns s) (sy_closing s).

Definition with_gate (g : Gate) (s : Sys) : Sys :=
  mkSys (set_tunnels (Some (g_reg g)) (set_db (g_db g) (sy_srv s))) (g_conns g) (g_closing g) (sy_sessions s).

Definition with_srv (srv : Srv) (s : Sys) : Sys := mkSys srv (sy_conns s) (sy_closing s) (sy_sessions s).

Definition with_session (sid : nat) (ses : session) (s : Sys) : Sys :=
  mkSys (sy_srv s) (sy_conns s) (sy_closing s) (<[sid := ses]> (sy_sessions s)).

(** [Moved sid srv pc]: the handler [sid] came to [pc] from the server [srv]. *)
Inductive sys_label :=
  | AtGate (l : gate_label (D := D))
  | StoreCall (o : store_op)
  | Accepted (sid : nat) (machineID : string) (br : Browser)
  | Moved (sid : nat) (srv : Srv) (pc : session_pc)
  | LoginFlow.

(** One step of one goroutine: of the gateway; a store call of any other
    handler; a bridge that begins or goes on; and what the login flow does,
    to its sessions and the sources of randomness. *)
Inductive sys_step : Sys → sys_label → Sys → Prop :=
  | sys_gate s l g :
      l ≠ Database → gate_step (gate_of s) l g → sys_step s (AtGate l) (with_gate g s)
  | sys_store s o :
      op_pre o (ds_view (db (sy_srv s))) →
      sys_step s (StoreCall o) (with_srv (set_db (run_op o (db (sy_srv s))).2 (sy_srv s)) s)
  | sys_accept s sid machineID br :
      sy_sessions s !! sid = None →
      sys_step s (Accepted sid machineID br) (with_session sid (mkSession machineID br Started) s)
  | sys_session s sid ses pc srv :
      sy_sessions s !! sid = Some ses →
      next_pc (ses_machine ses) (ses_browser ses) (ses_pc ses) (sy_srv s) = (pc, srv) →
      sys_step s (Moved sid (sy_srv s) pc) (with_session sid (set_pc pc ses) (with_srv srv s))
  | sys_login s a w :
      sys_step s LoginFlow (with_srv (set_authSessions a (set_world w (sy_srv s))) s).

Inductive sys_run : Sys → list sys_label → Sys → Prop :=
  | sys_nil s : sys_run s [] s
  | sys_snoc s ls s1 l s2 : sys_run s ls s1 → sys_step s1 l s2 → sys_run s (ls ++ [l]) s2.

(** A relay that has just been set up, with its gateway. *)
Definition sys_init (s : Sys) : Prop :=
  ds_inv (db (sy_srv s)) ∧ devMode (sy_srv s) = false ∧ tunnels (sy_srv s) = Some NewRegistry ∧
  bridges (sy_srv s) = ∅ ∧ sy_conns s = ∅ ∧ sy_closing s = [] ∧ sy_sessions s = ∅.

(** Between [acquire] and the deferred [release]. *)
Definition holding (pc : session_pc) : bool :=
  match pc with
  | Dialing _ _ | Opening _ _ _ | Confirming _ _ _ _ | Piping _ _ _ _ | Releasing _ => true
  | _ => false
  end.

End system.
