(* ===== verification/Sha256.v ===== *)
(** SHA-256 (package crypto/sha256), on 32-bit words as integers with their
    wrap-around, for the PKCE code challenge. *)
From Stdlib Require Import ZArith Lia Ascii.
From stdpp Require Import base strings list.
From S2P Require Import Prelude GoStrings.

Open Scope Z_scope.

Definition w32 (x : Z) : Z := Z.land x 0xffffffff.

Definition rotr (x n : Z) : Z := Z.lor (Z.shiftr x n) (w32 (Z.shiftl x (32 - n))).

(** The constants are the first 32 bits of the fractional parts of the cube
    roots of the first 64 primes, the initial hash those of the square roots
    of the first 8. *)
Definition is_prime (n : Z) : bool :=
  forallb (λ k, negb (n mod Z.of_nat k =? 0)) (seq 2 (Z.to_nat (Z.sqrt n) - 1)).

Definition primes : list Z :=
  Eval vm_compute in List.filter is_prime (Z.of_nat <$> seq 2 310).

(** The largest number below [r + 2 ^ n] whose cube is at most [x]. *)
Fixpoint cbrt (n : nat) (r x : Z) : Z :=
  match n with
  | O => r
  | S n =>
      let r' := r + Z.shiftl 1 (Z.of_nat n) in
      cbrt n (if r' * r' * r' <=? x then r' else r) x
  end.

Definition sha_K : list Z :=
  Eval vm_compute in (λ p, w32 (cbrt 35 0 (Z.shiftl p 96))) <$> primes.

Definition sha_H0 : list Z :=
  Eval vm_compute in (λ p, w32 (Z.sqrt (Z.shiftl p 64))) <$> take 8 primes.

(** Bytes of a string, and of a word, most significant first. *)
Fixpoint string_bytes (s : string) : list Z :=
  match s with
  | EmptyString => []
  | String c s => Z.of_nat (nat_of_ascii c) :: string_bytes s
  end.

Fixpoint be_bytes (n : nat) (x : Z) : list Z :=
  match n with
  | O => []
  | S n => Z.land (Z.shiftr x (8 * Z.of_nat n)) 0xff :: be_bytes n x
  end.

(** The message, a 1 bit, zeros up to 56 modulo 64 bytes, and its bit length. *)
Definition sha_pad (m : list Z) : list Z :=
  let n := Z.of_nat (length m) in
  m ++ [0x80] ++ repeat 0 (Z.to_nat ((55 - n) mod 64)) ++ be_bytes 8 (8 * n).

Fixpoint words (m : list Z) : list Z :=
  match m with
  | a :: b :: c :: d :: m =>
      Z.lor (Z.shiftl a 24) (Z.lor (Z.shiftl b 16) (Z.lor (Z.shiftl c 8) d)) :: words m
  | _ => []
  end.

(** The message schedule, latest word first. *)
Fixpoint sha_schedule (n : nat) (w : list Z) : list Z :=
  match n with
  | O => w
  | S n =>
      let at_ k := nth k w 0 in
      let s0 := Z.lxor (rotr (at_ 14%nat) 7) (Z.lxor (rotr (at_ 14%nat) 18) (Z.shiftr (at_ 14%nat) 3)) in
      let s1 := Z.lxor (rotr (at_ 1%nat) 17) (Z.lxor (rotr (at_ 1%nat) 19) (Z.shiftr (at_ 1%nat) 10)) in
      sha_schedule n (w32 (at_ 15%nat + s0 + at_ 6%nat + s1) :: w)
  end.

Definition sha_round (h : list Z) (kw : Z * Z) : list Z :=
  match h with
  | [a; b; c; d; e; f; g; i] =>
      let s1 := Z.lxor (rotr e 6) (Z.lxor (rotr e 11) (rotr e 25)) in
      let ch := Z.lxor (Z.land e f) (Z.land (Z.lxor e 0xffffffff) g) in
      let t1 := i + s1 + ch + kw.1 + kw.2 in
      let s0 := Z.lxor (rotr a 2) (Z.lxor (rotr a 13) (rotr a 22)) in
      let maj := Z.lxor (Z.land a b) (Z.lxor (Z.land a c) (Z.land b c)) in
      [w32 (t1 + s0 + maj); a; b; c; w32 (d + t1); e; f; g]
  | _ => h
  end.

Definition sha_block (h : list Z) (block : list Z) : list Z :=
  let w := List.rev (sha_schedule 48 (List.rev (words block))) in
  zip_with (λ x y, w32 (x + y)) h (foldl sha_round h (zip sha_K w)).

Fixpoint sha_blocks (fuel : nat) (h m : list Z) : list Z :=
  match fuel, m with
  | S fuel, _ :: _ => sha_blocks fuel (sha_block h (take 64 m)) (drop 64 m)
  | _, _ => h
  end.

(** [sha256.Sum256]; one round per block, of which there are no more than
    bytes. *)
Definition Sum256 (s : string) : string :=
  let m := sha_pad (string_bytes s) in
  bytes (Z.to_nat <$> (sha_blocks (length m) sha_H0 m ≫= be_bytes 4)).

Close Scope Z_scope.

Lemma length_words m k : length m = 4 * k → length (words m) = k.
Proof.
  revert k. induction m as [m IH] using (well_founded_induction (Wf_nat.well_founded_ltof _ length)).
  intros k Hk. destruct m as [|a [|b [|c [|d m]]]]; simpl in *; try lia.
  destruct k as [|k]; [lia|]. f_equal. apply IH; [unfold Wf_nat.ltof; simpl; lia|lia].
Qed.

Lemma sha_round_length h kw : length (sha_round h kw) = length h.
Proof. by destruct h as [|? [|? [|? [|? [|? [|? [|? [|? [|? ?]]]]]]]]]. Qed.

Lemma sha_block_length h m : length (sha_block h m) = length h.
Proof.
  unfold sha_block. rewrite length_zip_with.
  assert (∀ l h, length (foldl sha_round h l) = length h) as ->; [|lia].
  induction l as [|x l IH]; intros h'; simpl; [done|]. by rewrite IH, sha_round_length.
Qed.

Lemma bytes_length l : String.length (bytes l) = length l.
Proof. by induction l; simpl; [|f_equal]. Qed.

(** A digest is 32 bytes. *)
Lemma Sum256_length s : String.length (Sum256 s) = 32.
Proof.
  unfold Sum256. rewrite bytes_length, length_fmap.
  assert (∀ n h m, length h = 8 → length (sha_blocks n h m) = 8) as Hb.
  { induction n as [|n IH]; intros h [|x m] Hh; simpl; try done. apply IH. by rewrite sha_block_length. }
  assert (∀ l, length (l ≫= be_bytes 4) = 4 * length l) as Hl.
  { induction l as [|x l IH]; [done|]. rewrite bind_cons, length_app, IH. simpl. lia. }
  by rewrite Hl, Hb.
Qed.

(** The empty message (FIPS 180-4). *)
Example Sum256_empty : take 4 (string_bytes (Sum256 EmptyString)) = [0xe3; 0xb0; 0xc4; 0x42]%Z.
Proof. vm_compute. reflexivity. Qed.
