(* ===== verification/Apple.v ===== *)
(** Sign in with Apple: the client secret and the private key
    (internal/auth/apple.go), and the device-code login of
    internal/auth/device.go.

    PEM, PKCS#8 and ES256 signing are parameters; a private key is a [string],
    which only the signer reads, as in [Oidc.ProviderConfig]. *)
From Stdlib Require Import ZArith Lia Ascii.
From stdpp Require Import base strings list.
From S2P Require Import Prelude GoStrings Http.

(** The claims of the client secret; times in seconds. *)
Record AppleClaims := mkAppleClaims {
  ac_Issuer : string;
  ac_Subject : string;
  ac_Audience : list string;
  ac_IssuedAt : Z;
  ac_Expiry : Z
}.

Inductive pkcs8_key := ECDSAKey (key : string) | OtherKey.

Class AppleCrypto := {
  (** [jose.NewSigner] for ES256 with the key and the header "kid" *)
  es256_NewSigner : string → string → error + unit;
  es256_Serialize : string → string → AppleClaims → error + string;
  (** [pem.Decode]: the block's type and bytes, if any, and the rest *)
  pem_Decode : string → option (string * string) * string;
  x509_ParsePKCS8PrivateKey : string → error + pkcs8_key
}.

Section apple.
  Context `{AppleCrypto}.

Definition GenerateAppleClientSecret (now : Time) (teamID clientID keyID privateKey : string) : error + string :=
  match es256_NewSigner privateKey keyID with
  | inl err => inl (WrapError "create signer" err)
  | inr _ =>
      let claims := mkAppleClaims teamID clientID ["https://appleid.apple.com"]
        (now / Second) ((now + 180 * 24 * 3600 * Second) / Second) in
      match es256_Serialize privateKey keyID claims with
      | inl err => inl (WrapError "sign token" err)
      | inr token => inr token
      end
  end.

Definition ParseP8PrivateKey (pemData : string) : error + string :=
  match pem_Decode pemData with
  | (None, _) => inl (ErrorString "no PEM block found")
  | (Some (ty, der), rest) =>
      if negb (String.eqb ty "PRIVATE KEY") then inl (ErrorString "expected PEM type PRIVATE KEY")
      else if 0 <? String.length (TrimSpace rest) then inl (ErrorString "unexpected trailing data after PEM block")
      else
        match x509_ParsePKCS8PrivateKey der with
        | inl err => inl (WrapError "parse PKCS8 key" err)
        | inr (ECDSAKey k) => inr k
        | inr OtherKey => inl (ErrorString "key is not ECDSA")
        end
  end.

(** Apple's client secret is signed for the team, client and audience it
    is asked for, and its life is exactly 180 days, below Apple's limit of
    15777000 seconds, whatever the clock's fraction of a second. *)
Theorem apple_client_secret_claims (now : Time) (team client kid key secret : string) :
  GenerateAppleClientSecret now team client kid key = inr secret →
  ∃ c, es256_Serialize key kid c = inr secret ∧ ac_Issuer c = team ∧ ac_Subject c = client ∧
    ac_Audience c = ["https://appleid.apple.com"] ∧
    (ac_Expiry c - ac_IssuedAt c = 180 * 86400 ∧ ac_Expiry c - ac_IssuedAt c < 15777000)%Z.
Proof.
  unfold GenerateAppleClientSecret. destruct (es256_NewSigner key kid) as [|[]]; [done|].
  set (c := mkAppleClaims _ _ _ _ _). destruct (es256_Serialize key kid c) eqn:Hs; [done|]. intros [= <-].
  exists c. split; [done|]. cbn [c ac_Issuer ac_Subject ac_Audience ac_IssuedAt ac_Expiry].
  split; [done|]. split; [done|]. split; [done|].
  replace (now + 180 * 24 * 3600 * Second)%Z with (now + 15552000 * Second)%Z by lia.
  rewrite Z.div_add by done. lia.
Qed.

End apple.

(** * The device-code flow *)

Record DeviceCodeResponse := mkDeviceCode {
  DeviceCode : string;
  UserCode : string;
  VerificationURI : string;
  ExpiresIn : Z;
  Interval : Z
}.

Record DeviceTokenResponse := mkDeviceToken {
  AccessToken : string;
  DT_IDToken : string;
  RefreshToken : string;
  TokenType : string;
  DT_ExpiresIn : Z;
  Error : string;
  ErrorDesc : string
}.

(** The form [RequestDeviceCode] posts. *)
Definition device_code_form (clientID : string) (scopes : list string) : string :=
  Values_Encode [("client_id", clientID); ("scope", String.concat " " scopes)].

(** [RequestDeviceCode] with the outcome of its request: the status, and the
    body as [json.Unmarshal] reads it. *)
Definition RequestDeviceCode (clientID : string) (scopes : list string)
    (post : string → error + (nat * (error + DeviceCodeResponse))) : error + DeviceCodeResponse :=
  match post (device_code_form clientID scopes) with
  | inl err => inl (WrapError "device auth request" err)
  | inr (status, body) =>
      if negb (Nat.eqb status 200) then inl (ErrorString "device auth failed")
      else
        match body with
        | inl err => inl (WrapError "decode device code response" err)
        | inr dcr =>
            inr (if Z.eqb (Interval dcr) 0
                 then mkDeviceCode (DeviceCode dcr) (UserCode dcr) (VerificationURI dcr) (ExpiresIn dcr) 5
                 else dcr)
        end
  end.

(** One round of [PollForToken]: [ctx.Done()] before it, and the outcome of
    its request. *)
Inductive poll_round :=
  | PollCancelled (err : error)
  | PollFailed (err : error)
  | PollUndecodable (err : error)
  | PollAnswer (dtr : DeviceTokenResponse).

Inductive poll_next :=
  | PollReturn (r : error + DeviceTokenResponse)
  | PollSleep (d : Duration).

Definition poll_step (e : poll_round) : poll_next :=
  match e with
  | PollCancelled err => PollReturn (inl err)
  | PollFailed err => PollReturn (inl (WrapError "token request" err))
  | PollUndecodable err => PollReturn (inl (WrapError "decode token response" err))
  | PollAnswer dtr =>
      if String.eqb (Error dtr) EmptyString then PollReturn (inr dtr)
      else if String.eqb (Error dtr) "authorization_pending" then PollSleep (5 * Second)
      else if String.eqb (Error dtr) "slow_down" then PollSleep (10 * Second)
      else if String.eqb (Error dtr) "expired_token" then
        PollReturn (inl (ErrorString "device code expired — please try again"))
      else if String.eqb (Error dtr) "access_denied" then PollReturn (inl (ErrorString "access denied by user"))
      else PollReturn (inl (ErrorString ("token error: " +:+ Error dtr +:+ ": " +:+ ErrorDesc dtr)))
  end.

(** [PollForToken] over the rounds to come: what it returns and how long it
    has slept; [None] when it is still polling after them. *)
Fixpoint PollForToken (rounds : list poll_round) : option (error + DeviceTokenResponse) * Duration :=
  match rounds with
  | [] => (None, 0%Z)
  | e :: rounds =>
      match poll_step e with
      | PollReturn r => (Some r, 0%Z)
      | PollSleep d => let '(r, t) := PollForToken rounds in (r, (d + t)%Z)
      end
  end.

Definition is_pending (e : poll_round) : bool :=
  match poll_step e with PollSleep _ => true | PollReturn _ => false end.

(** Polling for a device token: it goes on exactly while the answers say
    "authorization_pending" or "slow_down", sleeping at least five seconds
    between two requests; it returns the first other round's outcome, and a
    token only from an answer without an error, so that a token endpoint
    answering anything else ends it. *)
Theorem PollForToken_spec (rounds : list poll_round) :
  match PollForToken rounds with
  | (None, t) => forallb is_pending rounds = true ∧ (5 * Second * Z.of_nat (length rounds) ≤ t)%Z
  | (Some r, t) => ∃ before e after, rounds = before ++ e :: after ∧ forallb is_pending before = true ∧
      is_pending e = false ∧ (5 * Second * Z.of_nat (length before) ≤ t)%Z ∧
      match r with
      | inr dtr => e = PollAnswer dtr ∧ Error dtr = EmptyString
      | inl _ => ∀ dtr, e = PollAnswer dtr → Error dtr ≠ EmptyString
      end
  end.
Proof.
  induction rounds as [|e rounds IH]; [cbn; lia|]. cbn [PollForToken forallb].
  assert (Second > 0)%Z as Hsec by done.
  destruct (poll_step e) as [r|d] eqn:He.
  - exists [], e, rounds. split; [done|]. split; [done|]. unfold is_pending. rewrite He. split; [done|].
    split; [simpl; lia|]. unfold poll_step in He. destruct e as [| | |dtr]; simplify_eq; try done.
    destruct (String.eqb_spec (Error dtr) EmptyString); simplify_eq; [done|].
    repeat case_match; simplify_eq; intros ? [= <-]; done.
  - assert (is_pending e = true) as Hp by (unfold is_pending; by rewrite He).
    assert (5 * Second ≤ d)%Z as Hd.
    { unfold poll_step in He. repeat case_match; simplify_eq; unfold Second; lia. }
    destruct (PollForToken rounds) as [[r|] t].
    + destruct IH as (before & e' & after & -> & Hb & He' & Ht & Hr).
      exists (e :: before), e', after. split; [done|]. cbn [forallb]. rewrite Hp, Hb.
      split; [done|]. split; [done|]. split; [|done]. cbn [length]. rewrite Nat2Z.inj_succ. lia.
    + destruct IH as [Hb Ht]. rewrite Hp, Hb. split; [done|]. cbn [length]. rewrite Nat2Z.inj_succ. lia.
Qed.

(** A concrete signer. *)
Definition toy_apple : AppleCrypto := {|
  es256_NewSigner _ _ := inr tt;
  es256_Serialize key kid c := inr (key +:+ kid +:+ ac_Issuer c +:+ ac_Subject c);
  pem_Decode s := (Some ("PRIVATE KEY", s), EmptyString);
  x509_ParsePKCS8PrivateKey s := inr (ECDSAKey s)
|}.

Lemma apple_client_secret_claims_witness :
  ∃ c, @es256_Serialize toy_apple "k" "i" c = inr "kiteamclient" ∧ ac_Issuer c = "team" ∧ ac_Subject c = "client" ∧
    ac_Audience c = ["https://appleid.apple.com"] ∧
    (ac_Expiry c - ac_IssuedAt c = 180 * 86400 ∧ ac_Expiry c - ac_IssuedAt c < 15777000)%Z.
Proof.
  exact (@apple_client_secret_claims toy_apple 1500000000 "team" "client" "i" "k" "kiteamclient" eq_refl).
Defined.
