(* ===== verification/AuthFlow.v ===== *)
(** The login flow (internal/relay/handler_auth.go): provider choice, PKCE,
    the redirect to the provider and its callback, polling, API keys, and the
    pages it renders. *)
From Stdlib Require Import ZArith Lia Ascii.
From stdpp Require Import base gmap strings list pretty.
From S2P Require Import Prelude GoStrings StoreSpec AuthSession Http Oidc ApiKey SshKeys RelayAuth Sha256 Apple.

(** * PKCE *)

Definition generateCodeVerifier {E} : M World E string :=
  let! b := rand_Read in ret (RawURLEncode b).

Definition codeChallenge (verifier : string) : string := RawURLEncode (Sum256 verifier).

(** * Pages *)

Definition result_page_style (color : string) : string :=
  q "<!DOCTYPE html><html><body style=`background:#0a0a0a;color:" +:+ color +:+
  q ";font-family:monospace;display:flex;justify-content:center;align-items:center;height:100vh;margin:0`><div style=`text-align:center`>".

Definition renderAuthResult (baseURL : string) (success : bool) (errMsg : string) : Response :=
  Reply 200 (Html (
    if success then
      result_page_style "#00ff41" +:+
      q "<h2>Authentication Complete</h2><p>You can close this tab and return to your terminal.</p><p style=`margin-top:1em`><a href=`"
      +:+ EscapeString baseURL +:+ q "` style=`color:#00ff41`>View your sessions</a></p></div></body></html>"
    else
      result_page_style "#ff4444" +:+ "<h2>Authentication Failed</h2><p>" +:+ EscapeString errMsg +:+
      "</p></div></body></html>")).

(** [strings.ToUpper] of one byte: a byte that is not ASCII is no rune. *)
Definition upper_byte (c : ascii) : string :=
  let n := nat_of_ascii c in
  if (97 <=? n) && (n <=? 122) then String (ascii_of_nat (n - 32)) EmptyString
  else if n <? 128 then String c EmptyString
  else bytes [239; 191; 189].

(** [strings.ToUpper(p[:1]) + p[1:]]; [None]: the slice panics. *)
Definition provider_label (p : string) : option string :=
  match p with
  | EmptyString => None
  | String c p => Some (upper_byte c +:+ p)
  end.

Definition provider_button (p label : string) : string :=
  q "<button type=`submit` name=`provider` value=`" +:+ EscapeString p +:+
  q "` style=`display:block;width:100%;padding:12px 24px;margin:8px 0;background:#1a1a1a;color:#00ff41;border:1px solid #00ff41;font-family:monospace;font-size:16px;cursor:pointer`>Sign in with "
  +:+ EscapeString label +:+ "</button>".

(** The loop over the providers; [None] when it panics. *)
Fixpoint provider_buttons (ps : list string) : option string :=
  match ps with
  | [] => Some EmptyString
  | p :: ps =>
      match provider_label p, provider_buttons ps with
      | Some label, Some rest => Some (provider_button p label +:+ rest)
      | _, _ => None
      end
  end.

Definition nl : string := bytes [10].

Definition login_page (baseURL sessionID buttons : string) : string :=
  "<!DOCTYPE html>" +:+ nl +:+ "<html>" +:+ nl +:+
  "<head><title>Phosphor — Sign In</title></head>" +:+ nl +:+
  q "<body style=`background:#0a0a0a;color:#00ff41;font-family:monospace;display:flex;justify-content:center;align-items:center;height:100vh;margin:0`>" +:+ nl +:+
  q "<div style=`text-align:center;max-width:320px`>" +:+ nl +:+
  "<h2>Phosphor</h2>" +:+ nl +:+ "<p>Choose a sign-in provider:</p>" +:+ nl +:+
  q "<form method=`POST` action=`" +:+ EscapeString baseURL +:+ q "/api/auth/cli-choose`>" +:+ nl +:+
  q "<input type=`hidden` name=`session` value=`" +:+ EscapeString sessionID +:+ q "`>" +:+ nl +:+
  buttons +:+ nl +:+ "</form>" +:+ nl +:+ "</div>" +:+ nl +:+ "</body>" +:+ nl +:+ "</html>".

(** * The development provider *)

Definition generateDevToken (now : Time) : string :=
  let header := RawURLEncode (q "{`typ`:`JWT`,`alg`:`none`}") in
  let exp := ((now + 24 * 3600 * Second) / Second)%Z in
  let payload := q "{`sub`:`dev-user`,`iss`:`dev`,`email`:`dev@localhost`,`exp`:" +:+ pretty exp +:+ "}" in
  header +:+ "." +:+ RawURLEncode payload +:+ ".".

Section flow.
  Context `{OIDC} `{SSH} `{Jose} `{MapRange} `{AppleCrypto}.
  Context {D A T : Type} `{DataStore D} `{AuthSessionStore A}.
  Abbreviation Srv := (Server D A T).

(** [s.verifier]; a method call on a nil verifier panics. *)
Definition the_verifier : M Srv Response (gmap string providerEntry) := λ s,
  match verifier s with
  | Some v => (inr v, s)
  | None => (inl Aborted, s)
  end.

Definition json_error (msg : string) (status : nat) : Response :=
  http_Error (q "{`error`:`" +:+ msg +:+ q "`}") status.

(** [fmt.Sprintf("%s/api/auth/authorize?session=%s", ...)] and the like *)
Definition authorize_url (baseURL session : string) : string :=
  baseURL +:+ "/api/auth/authorize?session=" +:+ session.
Definition callback_url (baseURL : string) : string := baseURL +:+ "/api/auth/callback".

Definition HandleAuthConfig (r : Request) : Handler Srv :=
  let! s := get in
  let! v := the_verifier in
  let providers := (if devMode s then ["dev"] else []) ++ ProviderNames v in
  ret (writeJSON (JObject [("providers", JList (JString <$> providers))])).

(** The first half of [HandleAuthLogin] for the provider "dev". *)
Definition dev_login (source : string) : Handler Srv :=
  let! s := get in
  if negb (devMode s) then throw (json_error "unknown provider" 400)
  else
    let! sess := on_sessions (as_Create "dev" EmptyString source)
      else_return (λ _, json_error "internal error" 500) in
    do! attempt (on_sessions (as_Complete (ID sess) (generateDevToken (w_now (world s))))) in
    ret (writeJSON (strings_json [("session_id", ID sess); ("auth_url", EmptyString)])).

Definition HandleAuthLogin (r : Request) : Handler Srv :=
  match Decode ["provider"; "source"] (Body r) with
  | None => throw (json_error "invalid request body" 400)
  | Some req =>
      let provider := Values_Get "provider" req in
      let source := Values_Get "source" req in
      let source := if String.eqb source EmptyString then "cli" else source in
      if String.eqb provider "dev" then dev_login source
      else
        let! v := the_verifier in
        match GetProvider v provider with
        | None => throw (json_error "unknown provider" 400)
        | Some _ =>
            let! verifier := on_world generateCodeVerifier in
            let! sess := on_sessions (as_Create provider verifier source)
              else_return (λ _, json_error "internal error" 500) in
            let! s := get in
            ret (writeJSON (strings_json [("session_id", ID sess); ("auth_url", authorize_url (baseURL s) (ID sess))]))
        end
  end.

(** The parameters of the redirect to the provider. *)
Definition authorize_params (clientID redirectURI state challenge provider : string) : list (string * string) :=
  let params := [
    ("client_id", clientID); ("redirect_uri", redirectURI); ("response_type", "code");
    ("scope", "openid email profile"); ("state", state); ("code_challenge", challenge);
    ("code_challenge_method", "S256")] in
  let params := if String.eqb provider "apple" then Values_Set "response_mode" "form_post" params else params in
  if String.eqb provider "microsoft" then Values_Set "prompt" "select_account" params else params.

Definition HandleAuthAuthorize (r : Request) : Handler Srv :=
  let sessionID := Values_Get "session" (Query r) in
  let! res := on_sessions (as_Get sessionID) else_return (λ _, http_Error "internal error" 500) in
  match res with
  | None => throw (http_Error "invalid or expired session" 400)
  | Some sess =>
      let! v := the_verifier in
      match GetAuthEndpoint v (Provider sess) with
      | None => throw (http_Error "provider auth endpoint not found" 500)
      | Some authEndpoint =>
          let cfg := default no_config (GetProvider v (Provider sess)) in
          let! s := get in
          let params := authorize_params (ClientID cfg) (callback_url (baseURL s)) sessionID
            (codeChallenge (CodeVerifier sess)) (Provider sess) in
          ret (Redirect (authEndpoint +:+ "?" +:+ Values_Encode params))
      end
  end.

(** The form posted to the provider's token endpoint. *)
Definition token_form (now : Time) (cfg : ProviderConfig) (code redirectURI codeVerifier provider : string) : error + string :=
  let data := [
    ("client_id", ClientID cfg); ("code", code); ("grant_type", "authorization_code");
    ("redirect_uri", redirectURI); ("code_verifier", codeVerifier)] in
  match String.eqb provider "apple", PrivateKey cfg with
  | true, Some key =>
      match GenerateAppleClientSecret now (TeamID cfg) (ClientID cfg) (KeyID cfg) key with
      | inl err => inl err
      | inr secret => inr (Values_Encode (Values_Set "client_secret" secret data))
      end
  | _, _ =>
      if negb (String.eqb (ClientSecret cfg) EmptyString)
      then inr (Values_Encode (Values_Set "client_secret" (ClientSecret cfg) data))
      else inr (Values_Encode data)
  end.

(** Why the provider sent no code. *)
Definition callback_error (r : Request) : string :=
  let pick a b := if String.eqb a EmptyString then b else a in
  pick (Values_Get "error_description" (Query r))
    (pick (Values_Get "error" (Query r))
      (pick (FormValue r "error_description")
        (pick (FormValue r "error") "missing code or state"))).

(** [exchange url form]: the body of the answer to the token request, or the
    error of [http.Post]. *)
Definition HandleAuthCallback (exchange : string → string → error + option json) (r : Request) : Handler Srv :=
  let! s := get in
  let fail msg := renderAuthResult (baseURL s) false msg in
  let post := String.eqb (Method r) "POST" in
  if post && bool_decide (PostForm r = None) then throw (http_Error "invalid form data" 400)
  else
    let get k := if post then FormValue r k else Values_Get k (Query r) in
    let code := get "code" in
    let state := get "state" in
    if String.eqb code EmptyString || String.eqb state EmptyString then throw (fail (callback_error r))
    else
      let! res := on_sessions (as_Get state) else_return (λ _, fail "internal error") in
      match res with
      | None => throw (fail "session expired or invalid")
      | Some sess =>
          let! v := the_verifier in
          let cfg := default no_config (GetProvider v (Provider sess)) in
          match GetTokenEndpoint v (Provider sess) with
          | None => throw (fail "provider token endpoint not found")
          | Some tokenEndpoint =>
              let! data := lift (token_form (w_now (world s)) cfg code (callback_url (baseURL s))
                (CodeVerifier sess) (Provider sess)) else_return (λ _, fail "internal error") in
              let! body := lift (exchange tokenEndpoint data) else_return (λ _, fail "token exchange failed") in
              match Decode ["id_token"; "error"] body with
              | None => throw (fail "invalid token response")
              | Some result =>
                  let error := Values_Get "error" result in
                  let idToken := Values_Get "id_token" result in
                  if negb (String.eqb error EmptyString) then throw (fail ("token error: " +:+ error))
                  else if String.eqb idToken EmptyString then throw (fail "no id_token in response")
                  else
                    do! attempt (on_sessions (as_Complete state idToken)) in
                    if String.eqb (Source sess) "web" then ret (Redirect (baseURL s))
                    else if String.eqb (Source sess) "mobile" || String.eqb (Source sess) "desktop" then
                      ret (Redirect ("phosphor://auth/callback?session=" +:+ QueryEscape state))
                    else ret (renderAuthResult (baseURL s) true EmptyString)
              end
          end
      end.

Definition HandleAuthPoll (r : Request) : Handler Srv :=
  let! res := on_sessions (as_Consume (Values_Get "session" (Query r)))
    else_return (λ _, json_error "internal error" 500) in
  ret (writeJSON (match res with
    | Some token => strings_json [("status", "complete"); ("id_token", token)]
    | None => strings_json [("status", "pending")]
    end)).

Definition HandleCLIStart (r : Request) : Handler Srv :=
  let! sess := on_sessions (as_Create EmptyString EmptyString "cli")
    else_return (λ _, json_error "internal error" 500) in
  ret (writeJSON (strings_json [("session_id", ID sess)])).

Definition HandleCLILogin (r : Request) : Handler Srv :=
  let sessionID := Values_Get "session" (Query r) in
  if String.eqb sessionID EmptyString then throw (http_Error "missing session parameter" 400)
  else
    let! res := on_sessions (as_Get sessionID) else_return (λ _, http_Error "internal error" 500) in
    match res with
    | None => throw (http_Error "invalid or expired session" 400)
    | Some _ =>
        let! v := the_verifier in
        match provider_buttons (ProviderNames v) with
        | None => throw Aborted
        | Some buttons =>
            let! s := get in
            ret (Reply 200 (Html (login_page (baseURL s) sessionID buttons)))
        end
    end.

Definition HandleCLIChoose (r : Request) : Handler Srv :=
  if String.eqb (Method r) "POST" && bool_decide (PostForm r = None) then throw (http_Error "invalid form data" 400)
  else
    let sessionID := FormValue r "session" in
    let provider := FormValue r "provider" in
    let! v := the_verifier in
    match GetProvider v provider with
    | None => throw (http_Error "unknown provider" 400)
    | Some _ =>
        let! res := on_sessions (as_Get sessionID) else_return (λ _, http_Error "internal error" 500) in
        match res with
        | None => throw (http_Error "invalid or expired session" 400)
        | Some _ =>
            let! verifier := on_world generateCodeVerifier in
            do! on_sessions (as_SetProvider sessionID provider verifier)
              else_return (λ _, http_Error "internal error" 500) in
            let! s := get in
            ret (Redirect (authorize_url (baseURL s) (QueryEscape sessionID)))
        end
    end.

Definition HandleGenerateAPIKey (r : Request) : Handler Srv :=
  let! id := extractIdentity r else_return (λ _, json_error "authentication required" 401) in
  let '(provider, sub, email) := id in
  let identity := if negb (String.eqb email EmptyString) then email else sub in
  let! s := get in
  let! key := on_world (GenerateAPIKey (apiKeySecret s) provider identity)
    else_return (λ _, json_error "internal error" 500) in
  let! user := on_db (ds_GetOrCreateUser provider sub email)
    else_return (λ _, json_error "internal error" 500) in
  do! on_db (ds_RecordAPIKey key.2 (User_ID user))
    else_return (λ _, json_error "internal error" 500) in
  ret (writeJSON (strings_json [("api_key", "phk:" +:+ key.1); ("key_id", key.2)])).

End flow.

(** The example of RFC 7636, appendix B. *)
Example codeChallenge_rfc7636 :
  codeChallenge "dBjftJeZ4CVP-mB92K27uhbUJU1p1r_wW1gFWFOEjXk" = "E9Melhoa2OwvFrEMTJguCHaoeK1t8URWbuGJSstw-cM".
Proof. vm_compute. reflexivity. Qed.
