(* ===== verification/AuthFlowProps.v ===== *)
(** What the login flow guarantees. *)
From Stdlib Require Import ZArith Lia Ascii.
From stdpp Require Import base gmap strings list pretty.
From S2P Require Import Prelude GoStrings StoreSpec FakeStore StoreProps AuthSession Http Oidc.
From S2P Require Import ApiKey SshKeys RelayAuth SshGate Scenario Sha256 Apple AuthFlow.

(** * Pages *)

(** The bytes of a page that can open or close tags and attributes. *)
Fixpoint markup (s : string) : string :=
  match s with
  | EmptyString => EmptyString
  | String c s => if html_inert c then markup s else String c (markup s)
  end.

Lemma markup_app s t : markup (s +:+ t) = markup s +:+ markup t.
Proof. induction s as [|c s IH]; simpl; [done|]. destruct (html_inert c); simpl; by rewrite IH. Qed.

Lemma markup_inert s : all_bytes html_inert s = true → markup s = EmptyString.
Proof. induction s as [|c s IH]; simpl; [done|]. intros [-> ?]%andb_true_iff. auto. Qed.

Lemma markup_escaped s : markup (EscapeString s) = EmptyString.
Proof. apply markup_inert, EscapeString_inert. Qed.

Definition page_markup (r : Response) : option string :=
  match r with Reply 200 (Html s) => Some (markup s) | _ => None end.

Lemma provider_button_markup p l : markup (provider_button p l) = markup (provider_button EmptyString EmptyString).
Proof. unfold provider_button. rewrite !markup_app, !markup_escaped. reflexivity. Qed.

Lemma provider_buttons_markup ps b :
  provider_buttons ps = Some b →
  markup b = concat_map (λ _, markup (provider_button EmptyString EmptyString)) (bytes (repeat 0 (length ps))).
Proof.
  revert b. induction ps as [|p ps IH]; intros b; cbn [provider_buttons]; [by intros [= <-]|].
  destruct (provider_label p) as [l|]; [|done]. destruct (provider_buttons ps) as [rest|]; [|done].
  intros Hb. assert (b = provider_button p l +:+ rest) as -> by congruence.
  rewrite markup_app, (IH rest eq_refl), (provider_button_markup p l). cbn [length repeat bytes concat_map].
  reflexivity.
Qed.

(** C34: No injection into the pages the relay renders: whatever the error
    message (which the provider's redirect chooses), the session ID (which the
    query string chooses), the base URL and the provider names, the bytes that
    delimit tags and attributes are those of the template, with one button for
    each provider. *)
Theorem pages_injection_free (url1 url2 msg1 msg2 : string) (success : bool) (sid1 sid2 b1 b2 : string) (ps1 ps2 : list string) :
  page_markup (renderAuthResult url1 success msg1) = page_markup (renderAuthResult url2 success msg2) ∧
  (length ps1 = length ps2 → provider_buttons ps1 = Some b1 → provider_buttons ps2 = Some b2 →
    markup (login_page url1 sid1 b1) = markup (login_page url2 sid2 b2)).
Proof.
  split.
  - unfold renderAuthResult, page_markup. destruct success; by rewrite !markup_app, !markup_escaped.
  - intros Hl H1 H2. unfold login_page.
    rewrite !markup_app, !markup_escaped, (provider_buttons_markup _ _ H1), (provider_buttons_markup _ _ H2).
    by rewrite Hl.
Qed.

(** * The development token *)

Lemma b64_not_colon s : no_byte ":" (RawURLEncode s) = true.
Proof.
  unfold no_byte. eapply all_bytes_impl; [|apply RawURLEncode_ok].
  intros [[] [] [] [] [] [] [] []]; vm_compute; intros; congruence.
Qed.

(** The token starts like any unsigned JWT and has no colon. *)
Lemma dev_token_shape now :
  (∃ rest, generateDevToken now = "eyJ0" +:+ rest) ∧ no_byte ":" (generateDevToken now) = true.
Proof.
  unfold generateDevToken. set (payload := RawURLEncode (_ +:+ _)).
  assert (no_byte ":" payload = true) as Hp by apply b64_not_colon. clearbody payload.
  assert (RawURLEncode (q "{`typ`:`JWT`,`alg`:`none`}") = "eyJ0" +:+ "eXAiOiJKV1QiLCJhbGciOiJub25lIn0") as ->
    by (vm_compute; reflexivity).
  split; [eexists; apply string_app_assoc|]. unfold no_byte in *. rewrite !all_bytes_app, Hp. reflexivity.
Qed.

Section flow.
  Context `{OIDC} `{SSH} `{Jose} `{MapRange} `{AppleCrypto}.
  Context {D A T : Type} `{DataStore D} `{AuthSessionStore A}.
  Abbreviation Srv := (Server D A T).

(** The development login signs in as "dev"/"anonymous": the token it
    hands out names the subject "dev-user", but since no provider verifies it,
    it is accepted as the anonymous identity. *)
Theorem dev_token_identity (s : Srv) (now : Time) :
  devMode s = true →
  (∀ v, verifier s = Some v → ∃ err, VerifyToken v (w_now (world s)) (generateDevToken now) = inl err) →
  verifyToken (generateDevToken now) s = (inr ("dev", "anonymous", EmptyString), s).
Proof.
  intros Hdev Hver. unfold verifyToken, bind, get. cbn [fst snd].
  destruct (dev_token_shape now) as [[rest Ht] Hcolon]. set (t := generateDevToken now) in *. clearbody t.
  replace (String.eqb t EmptyString) with false by (by rewrite Ht).
  replace (HasPrefix t "phk:") with false by (by rewrite Ht).
  unfold SplitN2. rewrite (proj2 (Cut_None _ _) Hcolon), Hdev. cbn [andb].
  destruct (verifier s) as [v|]; [|done]. destruct (Hver v eq_refl) as [err ->]. done.
Qed.

End flow.

(** * The callback *)

Section callback.
  Context `{OIDC} `{SSH} `{Jose} `{MapRange} `{AppleCrypto}.
  Context {D A T : Type} `{DataStore D} `{AuthSessionStoreOk A}.
  Abbreviation Srv := (Server D A T).
  Context (exchange : string → string → error + option json).

(** The session a callback is for. *)
Definition callback_param (r : Request) (k : string) : string :=
  if String.eqb (Method r) "POST" then FormValue r k else Values_Get k (Query r).

(** The provider of the pending session [d] exchanged the callback's code,
    with the session's own code verifier, for the ID token [tok]. *)
Definition exchanged (s : Srv) (r : Request) (d : AuthSessionData) (tok : string) : Prop :=
  ∃ v ep form body vs,
    verifier s = Some v ∧ GetTokenEndpoint v (Provider d) = Some ep ∧
    token_form (w_now (world s)) (default no_config (GetProvider v (Provider d))) (callback_param r "code")
      (callback_url (baseURL s)) (CodeVerifier d) (Provider d) = inr form ∧
    exchange ep form = inr body ∧ Decode ["id_token"; "error"] body = Some vs ∧
    Values_Get "error" vs = EmptyString ∧ Values_Get "id_token" vs = tok ∧ tok ≠ EmptyString.

Definition login_failed (s : Srv) (resp : Response) : Prop :=
  (∃ msg, resp = renderAuthResult (baseURL s) false msg) ∨ (∃ msg st, resp = http_Error msg st ∧ 400 ≤ st) ∨ resp = Aborted.

(** The rest of the server is as it was. *)
Definition only_sessions (s s' : Srv) : Prop := s' = set_authSessions (authSessions s') s.

Definition callback_post (s : Srv) (r : Request) (resp : Response) (s' : Srv) : Prop :=
  let m := as_view (authSessions s) in
  let m' := as_view (authSessions s') in
  let state := callback_param r "state" in
  as_inv (authSessions s') ∧ only_sessions s s' ∧
  (login_failed s resp ∧ (m' = m ∨ m' = delete state m ∧ ∀ d, m !! state = Some d → as_old (authSessions s) d = true) ∨
   ∃ d tok, m !! state = Some d ∧ as_old (authSessions s) d = false ∧ exchanged s r d tok ∧
     (m' = alter (set_IDToken tok) state m ∨ m' = m)).

(** A failure that leaves the sessions alone. *)
Lemma callback_fails s r resp s' :
  as_inv (authSessions s') → only_sessions s s' → as_view (authSessions s') = as_view (authSessions s) →
  login_failed s resp → callback_post s r resp s'.
Proof. intros. split; [done|]. split; [done|]. left. auto. Qed.

Lemma only_sessions_set s a : only_sessions s (set_authSessions a s).
Proof. done. Qed.

Lemma only_sessions_refl s : only_sessions s s.
Proof. by destruct s. Qed.

Lemma failed_page s msg : login_failed s (renderAuthResult (baseURL s) false msg).
Proof. left. by exists msg. Qed.

Lemma failed_error s msg st : 400 ≤ st → login_failed s (http_Error msg st).
Proof. intros. right. left. by exists msg, st. Qed.

Lemma failed_aborted s : login_failed s Aborted.
Proof. by right; right. Qed.

#[local] Hint Resolve only_sessions_set only_sessions_refl failed_page failed_error failed_aborted : core.

Lemma HandleAuthCallback_wp s r :
  as_inv (authSessions s) →
  wp (HandleAuthCallback exchange r) (λ res s', match res with inl x | inr x => callback_post s r x s' end) s.
Proof.
  intros Hs. unfold HandleAuthCallback. wp_simpl. cbn zeta.
  destruct (String.eqb (Method r) "POST" && _); wp_simpl; [apply callback_fails; auto; apply failed_error; lia|].
  change (if String.eqb (Method r) "POST" then FormValue r "code" else Values_Get "code" (Query r))
    with (callback_param r "code").
  change (if String.eqb (Method r) "POST" then FormValue r "state" else Values_Get "state" (Query r))
    with (callback_param r "state").
  destruct (_ || _); wp_simpl; [by apply callback_fails; auto|].
  unfold on_sessions. wp_simpl. wp_use (as_Get_ok (authSessions s) (callback_param r "state") Hs).
  intros [err|[d|]] a1 [Ha1 Hget]; cbn in Hget; wp_simpl; [by apply callback_fails; auto| |].
  2:{ destruct Hget as [Hold Hv]. split; [done|]. split; [done|]. left. split; [auto|]. by right. }
  destruct Hget as (Hd & Hold & Hv). unfold the_verifier, wp at 1. cbn [set_authSessions verifier].
  destruct (verifier s) as [v|] eqn:Hver; cbn; [|by apply callback_fails; auto].
  destruct (GetTokenEndpoint v (Provider d)) as [ep|] eqn:Hep; wp_simpl; [|by apply callback_fails; auto].
  rewrite wp_lift. destruct (token_form _ _ _ _ _ _) as [err|form] eqn:Hform; [by apply callback_fails; auto|].
  wp_simpl. rewrite wp_lift. destruct (exchange ep form) as [err|body] eqn:Hex; [by apply callback_fails; auto|].
  destruct (Decode _ body) as [vs|] eqn:Hdec; wp_simpl; [|by apply callback_fails; auto].
  destruct (String.eqb_spec (Values_Get "error" vs) EmptyString) as [Herr|]; cbn [negb]; wp_simpl; [|by apply callback_fails; auto].
  destruct (String.eqb_spec (Values_Get "id_token" vs) EmptyString) as [|Htok]; wp_simpl; [by apply callback_fails; auto|].
  wp_use (as_Complete_ok a1 (callback_param r "state") (Values_Get "id_token" vs) Ha1).
  intros res a2 [Ha2 Hc]. cbn [authSessions set_authSessions] in *.
  assert (exchanged s r d (Values_Get "id_token" vs)) as Hexch by (exists v, ep, form, body, vs; auto 10).
  assert (∀ resp, callback_post s r resp (set_authSessions a2 (set_authSessions a1 s))) as Hdone.
  { intros resp. split; [done|]. split; [done|]. right. exists d, (Values_Get "id_token" vs). split; [done|].
    split; [done|]. split; [done|]. destruct res; cbn in Hc |- *; rewrite Hc, Hv; auto. }
  destruct (String.eqb _ "web"); wp_simpl; [apply Hdone|]. destruct (_ || _); wp_simpl; apply Hdone.
Qed.

(** C19: The callback completes a login only with a token its provider gave:
    a pending session changes only when it exists, is not expired, and the
    provider chosen for it exchanged the code of the request, with the
    session's own code verifier and redirect URL, for a non-empty ID token,
    which is then the session's token; in every other case the browser is
    shown a failure, and at most an expired session is forgotten. *)
Theorem callback_completes_exchanged (s s' : Srv) (r : Request) (resp : Response) :
  as_inv (authSessions s) → serve (HandleAuthCallback exchange r) s = (resp, s') → callback_post s r resp s'.
Proof.
  intros Hs Hrun. pose proof (serve_wp _ (λ x, callback_post s r x) s (HandleAuthCallback_wp s r Hs)) as Hx.
  by rewrite Hrun in Hx.
Qed.

End callback.

(** * A login from the CLI, end to end *)

Section cli_login.
  Context `{OIDC} `{SSH} `{Jose} `{MapRange} `{AppleCrypto}.
  Context {D T : Type} `{DataStore D}.
  Abbreviation Srv := (Server D MemoryAuthSessionStore T).

Definition pending (s : Srv) (id : string) (d : AuthSessionData) : Prop :=
  sessions (authSessions s) !! id = Some d ∧ expired (authSessions s) d = false.

Definition query (l : list (string * string)) : Request := mkRequest "GET" EmptyString l None EmptyString None.
Definition form (l : list (string * string)) : Request := mkRequest "POST" EmptyString [] (Some l) EmptyString None.

(** The server after a pause. *)
Definition pause (d : Duration) (s : Srv) : Srv := set_authSessions (wait d (authSessions s)) s.

Definition put_session (id : string) (d : AuthSessionData) (s : Srv) : Srv :=
  set_authSessions (set_sessions (<[id := d]> (sessions (authSessions s))) (authSessions s)) s.

Lemma Mem_Get_pending a id d :
  sessions a !! id = Some d → expired a d = false → Mem_Get id a = (inr (Some d), a).
Proof. intros Hd He. unfold Mem_Get, bind, get. cbn. by rewrite Hd, He. Qed.

Lemma set_authSessions_id (s : Srv) : set_authSessions (authSessions s) s = s.
Proof. by destruct s. Qed.

Lemma on_get_pending s id d :
  pending s id d → on_sessions (D := D) (T := T) (Mem_Get id) s = (inr (Some d), s).
Proof.
  intros [Hd He]. unfold on_sessions, zoom. rewrite (Mem_Get_pending _ _ _ Hd He). cbn.
  by rewrite set_authSessions_id.
Qed.

Lemma choose_pending s id d p v cfg :
  pending s id d → verifier s = Some v → GetProvider v p = Some cfg →
  let w := world s in
  let s' := set_world (mkWorld (w_now w) (w_nanoid w) (w_nanoid_pos w) (w_rand w) (S (w_rand_pos w))) s in
  serve (HandleCLIChoose (form [("session", id); ("provider", p)])) s =
  (Redirect (authorize_url (baseURL s) (QueryEscape id)),
   put_session id (set_Provider p (RawURLEncode (w_rand w (w_rand_pos w))) d) s').
Proof.
  intros [Hd He] Hv Hp. unfold serve, HandleCLIChoose, form. cbn [Method PostForm FormValue String.eqb].
  unfold bind, the_verifier, or_return, on_sessions, on_world, zoom, get. cbn -[Mem_Get Mem_SetProvider]. rewrite Hv, Hp.
  rewrite (Mem_Get_pending _ _ _ Hd He). cbn -[Mem_SetProvider]. unfold Mem_SetProvider, bind, get. cbn. by rewrite Hd.
Qed.

Lemma authorize_pending s id d v entry ae :
  pending s id d → verifier s = Some v → v !! Provider d = Some entry →
  authorization_endpoint (entry_provider entry) = inr ae →
  serve (HandleAuthAuthorize (query [("session", id)])) s =
  (Redirect (ae +:+ "?" +:+ Values_Encode (authorize_params (ClientID (entry_config entry))
     (callback_url (baseURL s)) id (codeChallenge (CodeVerifier d)) (Provider d))), s).
Proof.
  intros [Hd He] Hv Hp Hae. unfold serve, HandleAuthAuthorize, query. cbn [Query Values_Get List.find String.eqb fst snd].
  unfold bind, the_verifier, or_return, on_sessions, zoom, get. cbn -[authorize_params Values_Encode Mem_Get].
  rewrite (Mem_Get_pending _ _ _ Hd He). cbn -[authorize_params Values_Encode].
  rewrite Hv. unfold GetAuthEndpoint, GetProvider. rewrite Hp, Hae. cbn -[authorize_params Values_Encode].
  by rewrite set_authSessions_id.
Qed.

Lemma callback_pending exchange s id d v entry ep code tok data :
  pending s id d → verifier s = Some v → v !! Provider d = Some entry →
  token_endpoint (entry_provider entry) = inr ep → Source d = "cli" →
  id ≠ EmptyString → code ≠ EmptyString → tok ≠ EmptyString →
  token_form (w_now (world s)) (entry_config entry) code (callback_url (baseURL s)) (CodeVerifier d) (Provider d) = inr data →
  exchange ep data = inr (Some (strings_json [("id_token", tok)])) →
  serve (HandleAuthCallback exchange (query [("code", code); ("state", id)])) s =
  (renderAuthResult (baseURL s) true EmptyString, put_session id (set_IDToken tok d) s).
Proof.
  intros [Hd He] Hv Hp Hep Hsrc Hid Hcode Htok Hdata Hex.
  assert (Decode ["id_token"; "error"] (Some (strings_json [("id_token", tok)])) = Some [("id_token", tok)]) as Hdec by done.
  unfold serve, HandleAuthCallback, query. unfold bind, get. cbn [fst snd Method Query PostForm String.eqb Ascii.eqb Bool.eqb andb].
  change (Values_Get "code" [("code", code); ("state", id)]) with code.
  change (Values_Get "state" [("code", code); ("state", id)]) with id.
  rewrite (proj2 (String.eqb_neq _ _) Hcode), (proj2 (String.eqb_neq _ _) Hid). cbn [orb].
  unfold or_return at 1. cbn [as_Get Mem_AuthSessionStore]. rewrite (on_get_pending s id d) by done. cbn [fst snd].
  unfold the_verifier. rewrite Hv. unfold GetTokenEndpoint, GetProvider. rewrite Hp, Hep.
  cbn [fmap option_fmap option_map default from_option]. unfold Datatypes.id.
  unfold or_return, lift. cbn [fst snd]. rewrite Hdata. cbn [fst snd]. rewrite Hex. cbn [fst snd]. rewrite Hdec.
  change (Values_Get "error" [("id_token", tok)]) with EmptyString.
  change (Values_Get "id_token" [("id_token", tok)]) with tok.
  rewrite (proj2 (String.eqb_neq _ _) Htok). cbn [negb String.eqb]. unfold attempt. cbn [fst snd]. rewrite Hsrc.
  cbn -[renderAuthResult]. unfold Mem_Complete, bind, get. cbn -[renderAuthResult]. rewrite Hd. done.
Qed.

Lemma start_ok (s : Srv) r id :
  mem_ids (authSessions s) (mem_pos (authSessions s)) = Some id →
  let a := authSessions s in
  serve (HandleCLIStart r) s =
  (writeJSON (strings_json [("session_id", id)]),
   set_authSessions (mkMem (<[id := mkSession id EmptyString EmptyString "cli" EmptyString (mem_now a)]> (sessions a))
     (ttl a) (stopped a) (mem_now a) (mem_ids a) (S (mem_pos a))) s).
Proof.
  intros Hid. unfold serve, HandleCLIStart, bind, or_return, on_sessions, zoom. cbn.
  unfold Mem_Create, bind, nanoid_New. cbn. by rewrite Hid.
Qed.

Lemma poll_complete (s : Srv) id d :
  sessions (authSessions s) !! id = Some d → IDToken d ≠ EmptyString →
  serve (HandleAuthPoll (query [("session", id)])) s =
  (writeJSON (strings_json [("status", "complete"); ("id_token", IDToken d)]),
   set_authSessions (set_sessions (delete id (sessions (authSessions s))) (authSessions s)) s).
Proof.
  intros Hd Htok. unfold serve, HandleAuthPoll, bind, or_return, on_sessions, zoom. cbn.
  unfold Mem_Consume, bind, get. cbn. rewrite Hd, (proj2 (String.eqb_neq _ _) Htok). done.
Qed.

Lemma poll_pending (s : Srv) id :
  sessions (authSessions s) !! id = None →
  serve (HandleAuthPoll (query [("session", id)])) s = (writeJSON (strings_json [("status", "pending")]), s).
Proof.
  intros Hd. unfold serve, HandleAuthPoll, bind, or_return, on_sessions, zoom. cbn.
  unfold Mem_Consume, bind, get. cbn. rewrite Hd. cbn. by rewrite set_authSessions_id.
Qed.

(** A session is pending while its age is within the time to live. *)
Lemma pending_age (s : Srv) id d :
  sessions (authSessions s) !! id = Some d → (ttl (authSessions s) < maxDuration)%Z →
  (0 ≤ mem_now (authSessions s) - CreatedAt d ≤ ttl (authSessions s))%Z → pending s id d.
Proof.
  intros Hd Httl Hage. split; [done|]. unfold expired. apply Z.ltb_ge. unfold Time_Sub.
  unfold minDuration, maxDuration in *. lia.
Qed.

(** C20: The CLI's login, end to end.  For a configured provider other than
    Apple, any choice of the user within the session's time to live, and a
    provider that exchanges the code for an ID token when the code verifier
    it gets is the preimage of the challenge it was shown: the session
    started, the provider chosen, the redirect followed (it carries the
    session as state, the client ID and the SHA-256 challenge of the very
    verifier that the token request sends) and the callback received, the CLI
    polls that ID token, and a second poll gets none. *)
Theorem cli_login_end_to_end (exchange : string → string → error + option json) (s0 : Srv)
    (v : gmap string providerEntry) (p : string) (entry : providerEntry) (ae ep id code tok : string) (d1 d2 d3 : Duration) :
  let w := RawURLEncode (w_rand (world s0) (w_rand_pos (world s0))) in
  let client := ClientID (entry_config entry) in
  let callback := callback_url (baseURL s0) in
  verifier s0 = Some v → v !! p = Some entry → p ≠ "apple" →
  authorization_endpoint (entry_provider entry) = inr ae → token_endpoint (entry_provider entry) = inr ep →
  mem_ids (authSessions s0) (mem_pos (authSessions s0)) = Some id →
  id ≠ EmptyString → code ≠ EmptyString → tok ≠ EmptyString →
  (0 ≤ d1 ∧ 0 ≤ d2 ∧ 0 ≤ d3 ∧ d1 + d2 + d3 ≤ ttl (authSessions s0) < maxDuration)%Z →
  (∀ data, token_form (w_now (world s0)) (entry_config entry) code callback w p = inr data →
    exchange ep data = inr (Some (strings_json [("id_token", tok)]))) →
  ∃ s1 s2 s4 s5,
    serve (HandleCLIStart (form [])) s0 = (writeJSON (strings_json [("session_id", id)]), s1) ∧
    serve (HandleCLIChoose (form [("session", id); ("provider", p)])) (pause d1 s1) =
      (Redirect (authorize_url (baseURL s0) (QueryEscape id)), s2) ∧
    serve (HandleAuthAuthorize (query [("session", id)])) (pause d2 s2) =
      (Redirect (ae +:+ "?" +:+ Values_Encode (authorize_params client callback id (codeChallenge w) p)), pause d2 s2) ∧
    serve (HandleAuthCallback exchange (query [("code", code); ("state", id)])) (pause d3 (pause d2 s2)) =
      (renderAuthResult (baseURL s0) true EmptyString, s4) ∧
    serve (HandleAuthPoll (query [("session", id)])) s4 =
      (writeJSON (strings_json [("status", "complete"); ("id_token", tok)]), s5) ∧
    serve (HandleAuthPoll (query [("session", id)])) s5 = (writeJSON (strings_json [("status", "pending")]), s5).
Proof.
  intros w client callback Hv Hp Happle Hae Hep Hid Hne Hcode Htok Hd Hex.
  assert (∃ data, token_form (w_now (world s0)) (entry_config entry) code callback w p = inr data) as [data Hdata].
  { unfold token_form. rewrite (proj2 (String.eqb_neq _ _) Happle). destruct (negb _); by eexists. }
  eexists _, _, _, _. split; [by apply start_ok|]. split.
  { etransitivity; [eapply choose_pending; [eapply pending_age; cbn; [apply lookup_insert_eq|lia|cbn; lia]|exact Hv|unfold GetProvider; by rewrite Hp]|reflexivity]. }
  split.
  { etransitivity; [eapply authorize_pending; [eapply pending_age; cbn; [apply lookup_insert_eq|lia|cbn; lia]|exact Hv|exact Hp|exact Hae]|reflexivity]. }
  split.
  { etransitivity; [eapply callback_pending; [eapply pending_age; cbn; [apply lookup_insert_eq|lia|cbn; lia]|exact Hv|exact Hp|exact Hep|done|done|exact Hcode|exact Htok|exact Hdata|by apply Hex]|reflexivity]. }
  split; [etransitivity; [eapply (poll_complete _ id (set_IDToken tok _)); [apply lookup_insert_eq|done]|reflexivity]|].
  apply poll_pending. apply lookup_delete_eq.
Qed.

End cli_login.

#[local] Existing Instances toy_oidc toy_channels toy_jose toy_ssh toy_uuid toy_apple range_in_order.

(** The provider of the scenario: it gives the token for the right verifier. *)
Definition google_exchange (url data : string) : error + option json :=
  if String.eqb url "https://g/token" &&
     String.eqb data (q "client_id=client&client_secret=shh&code=c0de&code_verifier=MA&grant_type=authorization_code&redirect_uri=https%3A%2F%2Frelay%2Fapi%2Fauth%2Fcallback")
  then inr (Some (strings_json [("id_token", "tok")])) else inl (ErrorString "invalid_grant").

Lemma cli_login_end_to_end_witness :
  ∃ s4 s5 : Server Fake MemoryAuthSessionStore Registry,
    serve (HandleAuthPoll (query [("session", "0")])) s4 =
      (writeJSON (strings_json [("status", "complete"); ("id_token", "tok")]), s5) ∧
    serve (HandleAuthPoll (query [("session", "0")])) s5 = (writeJSON (strings_json [("status", "pending")]), s5).
Proof.
  destruct (cli_login_end_to_end google_exchange (server0 false) verifier0 "google" (@mkEntry toy_oidc google "https://g" false)
    "https://g/authorize" "https://g/token" "0" "c0de" "tok" Minute Minute Minute) as (s1 & s2 & s4 & s5 & _ & _ & _ & _ & H4 & H5);
    try done.
  - intros data. vm_compute. intros [= <-]. reflexivity.
  - by exists s4, s5.
Defined.

(** A callback whose code the provider refuses. *)
Lemma callback_completes_exchanged_witness :
  let r := query [("code", "bad"); ("state", "0")] in
  let s := (serve (HandleCLIStart (form [])) (server0 false)).2 in
  let x := serve (HandleAuthCallback google_exchange r) s in
  x.1 = renderAuthResult "https://relay" false "provider token endpoint not found" ∧
  callback_post google_exchange s r x.1 x.2.
Proof.
  intros r s x. split; [vm_compute; reflexivity|].
  apply (callback_completes_exchanged google_exchange s x.2 r x.1); [|apply surjective_pairing].
  exact (proj1 (Mem_Create_ok mem0 EmptyString EmptyString "cli" mem_inv0)).
Defined.

Lemma dev_token_identity_witness :
  verifyToken (generateDevToken 0) (server0 true) = (inr ("dev", "anonymous", EmptyString), server0 true).
Proof.
  refine (dev_token_identity (server0 true) 0 eq_refl _). intros v [= <-].
  eexists. vm_compute. reflexivity.
Defined.
