(* ===== verification/ApiKeyIdentity.v ===== *)
(** Whom an API key stands for: the key handed out by [HandleGenerateAPIKey]
    (internal/relay/handler_auth.go), used again through [resolveUser]. *)
From Stdlib Require Import ZArith Lia Ascii.
From stdpp Require Import base gmap strings list pretty.
From S2P Require Import Prelude GoStrings StoreSpec FakeStore StoreProps AuthSession Http Oidc.
From S2P Require Import ApiKey SshKeys RelayAuth SshGate Scenario Sha256 Apple AuthFlow.

Section issue.
  Context `{OIDC} `{SSH} `{Jose} `{!JoseOk} `{MapRange}.
  Context {D A T : Type} `{DataStoreOk D}.
  Abbreviation Srv := (Server D A T).

(** A key was issued to the caller with identity [id]. *)
Definition key_issued (s : Srv) (id : string * string * string) (raw keyID : string) (u : User) (s' : Srv) : Prop :=
  ds_inv (db s') ∧ devMode s' = devMode s ∧ apiKeySecret s' = apiKeySecret s ∧
  (∃ w, GenerateAPIKey (apiKeySecret s) id.1.1 (if negb (String.eqb id.2 EmptyString) then id.2 else id.1.2) (world s)
     = (inr (raw, keyID), w)) ∧
  is_user id.1.1 id.1.2 u = true ∧ users (ds_view (db s')) !! User_ID u = Some u ∧
  api_keys (ds_view (db s')) !! keyID = Some (mkAPIKey (User_ID u) None).

Definition key_response (raw keyID : string) : Response :=
  writeJSON (strings_json [("api_key", "phk:" +:+ raw); ("key_id", keyID)]).

Lemma key_response_inj r1 k1 r2 k2 : key_response r1 k1 = key_response r2 k2 → r1 = r2 ∧ k1 = k2.
Proof. by intros [= -> ->]. Qed.

Lemma HandleGenerateAPIKey_wp s r :
  ds_inv (db s) → devMode s = false →
  wp (HandleGenerateAPIKey r) (λ res s',
    match res with
    | inr resp => ∃ id raw keyID u, authenticates s (bearer_token r) id ∧ resp = key_response raw keyID ∧
        key_issued s id raw keyID u s' ∧ (verifyToken (bearer_token r) s).1 = inr id
    | inl resp => is_success resp = false
    end) s.
Proof.
  intros Hs Hdev. unfold HandleGenerateAPIKey, extractIdentity. wp_simpl. fold (bearer_token r).
  pose proof (verifyToken_production_wp s (bearer_token r) Hs Hdev) as Hver.
  unfold wp at 1. destruct (verifyToken (bearer_token r) s) as [[err|[[p sub] e]] s1] eqn:Hrun; cbn [fst snd]; [done|].
  destruct (wp_run _ _ _ _ _ Hver Hrun) as [(Hsame & Hs1 & Hv1) Hauth]. clear Hver.
  wp_simpl. unfold on_world. wp_simpl. unfold wp at 1.
  set (ident := if negb (String.eqb e EmptyString) then e else sub).
  rewrite (same_apiKeySecret _ _ Hsame), (same_world _ _ Hsame).
  destruct (GenerateAPIKey (apiKeySecret s) p ident (world s)) as [[err|[raw keyID]] w] eqn:Hgen; cbn [fst snd]; [done|].
  unfold on_db. wp_simpl. wp_use (ds_GetOrCreateUser_ok p sub e (db s1) Hs1). intros [err|u] d2 [Hd2 Hu]; [done|].
  pose proof (GetOrCreateUser_post_row _ _ _ _ _ _ Hu) as (Hrow & _ & _). destruct Hu as [Hu _].
  wp_simpl. wp_use (ds_RecordAPIKey_ok keyID (User_ID u) d2 Hd2). intros [err|[]] d3 [Hd3 Hk]; [done|].
  wp_simpl. exists (p, sub, e), raw, keyID, u. split; [done|]. split; [done|]. split; [|done]. cbn in Hk.
  split; [done|]. split; [cbn; apply Hsame|]. split; [cbn; apply Hsame|]. split; [by exists w|]. split; [done|].
  cbn. rewrite Hk. cbn. by rewrite lookup_insert_eq.
Qed.

(** A key proves one identity. *)
Lemma authenticates_key (s : Srv) raw p sub id :
  valid_api_key s raw p sub → authenticates s ("phk:" +:+ raw) id → id = (p, sub, EmptyString).
Proof.
  intros (c & Hc & _ & Hp) [(raw' & Heq & (c' & Hc' & _ & Hp') & He)|[Hpre _]]; [|by rewrite HasPrefix_app in Hpre].
  apply (f_equal (λ t, TrimPrefix t "phk:")) in Heq. rewrite !TrimPrefix_app in Heq. subst raw'.
  destruct id as [[p' sub'] e]. cbn in *. congruence.
Qed.

(** The key just issued is valid, for the email when there is one. *)
Lemma key_issued_valid s p sub email raw keyID u s' :
  key_issued s (p, sub, email) raw keyID u s' → email ≠ EmptyString → no_byte ":" p = true →
  valid_api_key s' raw p email.
Proof.
  intros (_ & _ & Hsec & [w Hgen] & _ & _ & Hk) Hne Hp. cbn in Hgen. rewrite (proj2 (String.eqb_neq _ _) Hne) in Hgen.
  eexists. rewrite Hsec. split; [by eapply VerifyAPIKey_generated|]. cbn. split.
  - unfold key_revoked. rewrite Hk. done.
  - apply GenerateAPIKey_inr in Hgen as (_ & Hpn & _). by apply ParseAPIKeySubject_Some.
Qed.

(** Logins of two identities find or make two users; a user made now has a
    tenant that no stored user has. *)
Lemma GetOrCreateUser_other t t' p email e u owner :
  Tables_ok t → GetOrCreateUser_post p email e t (inr u) t' → users t !! User_ID owner = Some owner →
  User_Subject owner ≠ email →
  User_ID u ≠ User_ID owner ∧
  ((∀ k u0, users t !! k = Some u0 → is_user p email u0 = false) → User_TenantID u ≠ User_TenantID owner).
Proof.
  intros Hok [Hu Hcase] Hrow Hne. apply is_user_true in Hu as [Hprov Hsub].
  destruct Hcase as [(u0 & Hu0 & -> & _)|(tn & _ & Hnone & Hten & _)].
  - assert (User_Subject (refresh_email e u0) = User_Subject u0) as E by (unfold refresh_email; by case_match).
    assert (User_ID (refresh_email e u0) = User_ID u0) as Ei by (unfold refresh_email; by case_match).
    assert (User_Provider (refresh_email e u0) = User_Provider u0) as Ep by (unfold refresh_email; by case_match).
    split.
    + intros Heq. rewrite Heq in Hu0. congruence.
    + intros Hno. exfalso. specialize (Hno _ _ Hu0). apply not_true_iff_false in Hno. apply Hno.
      apply is_user_true. split; congruence.
  - split; [congruence|]. intros _ Heq. destruct (users_tenant_id_fkey _ Hok _ _ Hrow) as [x Hx]. congruence.
Qed.

(** C18: An API key does not stand for the account it was made by.  When a
    caller whose ID token carries an email asks a production server for an
    API key, the key is recorded for the caller's user, but it authenticates
    as the email in the place of the subject; so a request with the key is
    resolved to another user than the key's owner whenever the email is not
    the subject, and, unless a user with that odd identity is already there,
    to one of another, freshly made tenant. *)
Theorem api_key_identity (s s' : Srv) (r : Request) (p sub email raw keyID : string) :
  ds_inv (db s) → devMode s = false → (verifyToken (bearer_token r) s).1 = inr (p, sub, email) →
  email ≠ EmptyString → no_byte ":" p = true → sub ≠ email →
  serve (HandleGenerateAPIKey r) s = (key_response raw keyID, s') →
  ((verifyToken ("phk:" +:+ raw) s').1 = inr (p, email, EmptyString) ∨
   ∃ err, (verifyToken ("phk:" +:+ raw) s').1 = inl (WrapError "checking key revocation" err)) ∧
  ∃ owner, is_user p sub owner = true ∧ api_keys (ds_view (db s')) !! keyID = Some (mkAPIKey (User_ID owner) None) ∧
    ∀ r' u s2, bearer_token r' = "phk:" +:+ raw → resolveUser r' s' = (inr u, s2) →
      is_user p email u = true ∧ User_ID u ≠ User_ID owner ∧
      ((∀ k u0, users (ds_view (db s')) !! k = Some u0 → is_user p email u0 = false) →
        User_TenantID u ≠ User_TenantID owner).
Proof.
  intros Hs Hdev Hid Hne Hp Hsub Hrun. pose proof (HandleGenerateAPIKey_wp s r Hs Hdev) as Hw. unfold wp in Hw.
  unfold serve in Hrun. destruct (HandleGenerateAPIKey r s) as [[resp|resp] s1]; cbn [fst snd] in Hw; simplify_eq.
  destruct Hw as (id & raw' & keyID' & owner & _ & Hresp & Hissued & Hid'). rewrite Hid in Hid'. injection Hid' as <-. apply key_response_inj in Hresp as [<- <-].
  pose proof (key_issued_valid _ _ _ _ _ _ _ _ Hissued Hne Hp) as Hvalid.
  destruct Hissued as (Hs' & Hdev' & _ & _ & Hown & Hrow & Hk). cbn in Hown. rewrite Hdev in Hdev'. split.
  - pose proof (verifyToken_production_wp s' ("phk:" +:+ raw) Hs' Hdev') as Hw. unfold wp in Hw.
    destruct (verifyToken _ s').1 as [err|id]; [right|left]; destruct Hw as [_ Hw].
    + destruct (proj2 Hw raw p email eq_refl Hvalid) as [e ->]. by exists e.
    + by rewrite (authenticates_key _ _ _ _ _ Hvalid Hw).
  - exists owner. split; [done|]. split; [done|]. intros r' u s2 Hr' Hres.
    destruct (wp_run _ _ _ _ _ (resolveUser_production_wp s' r' Hs' Hdev') Hres) as (_ & _ & e & Hauth & Hpost).
    rewrite Hr' in Hauth. apply (authenticates_key _ _ _ _ _ Hvalid) in Hauth as [= Hup Hus ->].
    rewrite Hup, Hus in Hpost. split; [by apply is_user_true|]. apply is_user_true in Hown as [_ Hos].
    eapply GetOrCreateUser_other; [by apply ds_inv_ok|exact Hpost|exact Hrow|congruence].
Qed.

End issue.

#[local] Existing Instances toy_oidc toy_channels toy_jose toy_jose_ok toy_ssh toy_uuid range_in_order.

(** Alice's key signs in as the user "a@x" of a new tenant. *)
Lemma api_key_identity_witness :
  let s' := (serve (HandleGenerateAPIKey (get_as alice EmptyString)) (server0 false)).2 in
  let raw := "secret|0|phosphor|google:a@x" in
  (User_TenantID <$> users (ds_view (db s')) !! 2%N) = Some 1%N ∧
  match (resolveUser (get_as ("phk:" +:+ raw) EmptyString) s').1 with
  | inr u => u = mkUser 7 6 "google" "a@x" EmptyString 0
  | inl _ => False
  end ∧
  ∃ owner, is_user "google" "alice" owner = true ∧
    ∀ r' u s2, bearer_token r' = "phk:" +:+ raw → resolveUser r' s' = (inr u, s2) → User_ID u ≠ User_ID owner.
Proof.
  intros s' raw. split; [vm_compute; reflexivity|]. split; [vm_compute; reflexivity|].
  destruct (api_key_identity (server0 false) s' (get_as alice EmptyString) "google" "alice" "a@x" raw "0" fake1_inv)
    as (_ & owner & Ho & _ & Hall).
  - reflexivity.
  - vm_compute. reflexivity.
  - discriminate.
  - vm_compute. reflexivity.
  - discriminate.
  - assert ((serve (HandleGenerateAPIKey (get_as alice EmptyString)) (server0 false)).1 = key_response raw "0") as E
      by (vm_compute; reflexivity).
    rewrite <-E. apply surjective_pairing.
  - exists owner. split; [exact Ho|]. intros r' u s2 Hr Hres. exact (proj1 (proj2 (Hall r' u s2 Hr Hres))).
Defined.
