(* ===== verification/Routes.v ===== *)
(** The relay as one server: the route table (internal/relay/server.go), the
    static files (internal/relay/static.go), and what any sequence of
    requests leaves of a tenant's machines. *)
From Stdlib Require Import ZArith Lia Ascii.
From stdpp Require Import base gmap strings list.
From S2P Require Import Prelude GoStrings StoreSpec FakeStore StoreProps AuthSession Http Oidc.
From S2P Require Import ApiKey SshKeys RelayAuth SshGate Scenario Machines Bridge Apple AuthFlow.

(** * Static files *)

(** [StaticHandler]: the first of the directories that exists when the server
    is set up is served; [fileServer] is [http.FileServerFS] of it, given the
    URL's path. *)
Definition dist_dirs : list string := ["web/dist"; "/web/dist"].

Definition no_ui_page : Response :=
  Reply 200 (Html (q "<!DOCTYPE html><html><body style=`background:#000;color:#0f0;font-family:monospace;padding:2em`><h1>phosphor</h1><p>Web UI not built. Run: cd web && npm ci && npm run build</p></body></html>")).

(** [stat dir path]: [fs.Stat] of a file in the directory succeeds. *)
Definition spaHandler (stat : string → bool) (fileServer : string → Response) (path : string) : Response :=
  let name := TrimPrefix path "/" in
  let name := if String.eqb name EmptyString then "index.html" else name in
  if stat name then fileServer path else fileServer "/".

Definition StaticHandler (dir_exists : string → bool) (stat : string → string → bool)
    (fileServer : string → string → Response) (path : string) : Response :=
  match List.find dir_exists dist_dirs with
  | Some dir => spaHandler (stat dir) (fileServer dir) path
  | None => no_ui_page
  end.

(** * The route table *)

Inductive endpoint :=
  | SSHBridge (machineID : string)
  | MachinesList | MachinesCreate | MachinesUpdate (id : string) | MachinesDelete (id : string)
  | SSHInfo
  | AuthConfig | AuthLogin | AuthAuthorize | AuthCallback | AuthPoll | AuthAPIKey
  | CLIStart | CLILogin | CLIChoose
  | Health
  | Static.

(** The patterns of [Server.Handler], on the segments of a clean path (a
    final slash is an empty last segment).  A GET pattern also matches HEAD;
    a wildcard matches one segment that is not empty; "/" takes whatever no
    other pattern matches, with any method. *)
Definition route (method : string) (path : list string) : endpoint :=
  let GET := String.eqb method "GET" || String.eqb method "HEAD" in
  let POST := String.eqb method "POST" in
  let wild (id : string) := negb (String.eqb id EmptyString) in
  match path with
  | ["ws"; "ssh"; id] => if GET && wild id then SSHBridge id else Static
  | ["api"; "machines"] => if GET then MachinesList else if POST then MachinesCreate else Static
  | ["api"; "machines"; id] =>
      if String.eqb method "PATCH" && wild id then MachinesUpdate id
      else if String.eqb method "DELETE" && wild id then MachinesDelete id else Static
  | ["api"; "ssh-info"] => if GET then SSHInfo else Static
  | ["api"; "auth"; "config"] => if GET then AuthConfig else Static
  | ["api"; "auth"; "login"] => if POST then AuthLogin else Static
  | ["api"; "auth"; "authorize"] => if GET then AuthAuthorize else Static
  | ["api"; "auth"; "callback"] => if GET || POST then AuthCallback else Static
  | ["api"; "auth"; "poll"] => if GET then AuthPoll else Static
  | ["api"; "auth"; "api-key"] => if POST then AuthAPIKey else Static
  | ["api"; "auth"; "cli-start"] => if POST then CLIStart else Static
  | ["api"; "auth"; "cli-login"] => if GET then CLILogin else Static
  | ["api"; "auth"; "cli-choose"] => if POST then CLIChoose else Static
  | ["health"] => if GET then Health else Static
  | _ => Static
  end.

Definition with_PathValue (id : string) (r : Request) : Request :=
  mkRequest (Method r) (Authorization r) (Query r) (PostForm r) id (Body r).

(** A request as it comes in; [in_browser] is what the browser does when it
    is a WebSocket. *)
Record Incoming := mkIncoming {
  in_path : list string;
  in_request : Request;
  in_browser : Browser
}.

(** What an endpoint answers: a response, or how a bridge ended. *)
Inductive Answer := Responded (r : Response) | Bridged (b : bridge_end).

(** The directories of the file system, as [StaticHandler] finds them. *)
Record StaticFiles := mkStaticFiles {
  dir_exists : string → bool;
  file_exists : string → string → bool;
  fileServer : string → string → Response
}.

Section relay.
  Context `{OIDC} `{SSH} `{Jose} `{MapRange} `{UUIDText} `{AppleCrypto}.
  Context {D A T : Type} `{DataStore D} `{AuthSessionStore A} `{TunnelDialer T}.
  Abbreviation Srv := (Server D A T).

(** The answers of token endpoints, and the static files. *)
Context (exchange : string → string → error + option json) (static : StaticFiles).

Definition health : Response := Reply 200 (Text "ok").

Definition http (h : Handler Srv) (s : Srv) : Answer * Srv :=
  ((λ x, Responded x) (serve h s).1, (serve h s).2).

(** [Server.Handler]: the endpoint of a request, run. *)
Definition Server_Handler (i : Incoming) (s : Srv) : Answer * Srv :=
  let r := in_request i in
  match route (Method r) (in_path i) with
  | SSHBridge id =>
      match HandleSSHBridge id (in_browser i) s with
      | (inl e, s') | (inr e, s') => (Bridged e, s')
      end
  | MachinesList => http (HandleListMachines r) s
  | MachinesCreate => http (HandleCreateMachine r) s
  | MachinesUpdate id => http (HandleUpdateMachine (with_PathValue id r)) s
  | MachinesDelete id => http (HandleDeleteMachine (with_PathValue id r)) s
  | SSHInfo => http (HandleSSHInfo r) s
  | AuthConfig => http (HandleAuthConfig r) s
  | AuthLogin => http (HandleAuthLogin r) s
  | AuthAuthorize => http (HandleAuthAuthorize r) s
  | AuthCallback => http (HandleAuthCallback exchange r) s
  | AuthPoll => http (HandleAuthPoll r) s
  | AuthAPIKey => http (HandleGenerateAPIKey r) s
  | CLIStart => http (HandleCLIStart r) s
  | CLILogin => http (HandleCLILogin r) s
  | CLIChoose => http (HandleCLIChoose r) s
  | Health => (Responded health, s)
  | Static =>
      let path := "/" +:+ String.concat "/" (in_path i) in
      (Responded (StaticHandler (dir_exists static) (file_exists static) (fileServer static) path), s)
  end.

(** The state after a sequence of requests. *)
Fixpoint relay_run (reqs : list Incoming) (s : Srv) : Srv :=
  match reqs with
  | [] => s
  | i :: reqs => relay_run reqs (Server_Handler i s).2
  end.

(** ** The mode never changes *)

Lemma fixed_verifier {B} (f : Srv → B) : fixed f the_verifier.
Proof. intros s. unfold the_verifier. by destruct (verifier s). Qed.

Lemma fixed_on_tunnels {B X} (f : Srv → B) (skip : X) (m : M T error X) :
  (∀ t s, f (set_tunnels t s) = f s) → fixed f (on_tunnels skip m).
Proof. intros Hf s. unfold on_tunnels. destruct (tunnels s); cbn; [apply Hf|done]. Qed.

Lemma fixed_acquire {B} (f : Srv → B) id : (∀ b s, f (set_bridges b s) = f s) → fixed f (bridges_acquire id).
Proof. intros Hf s. unfold bridges_acquire. destruct (acquire id (bridges s)). apply Hf. Qed.

Lemma fixed_Dial {B} (f : Srv → B) id : (∀ t s, f (set_tunnels t s) = f s) → fixed f (tunnels_Dial id).
Proof. intros Hf s. unfold tunnels_Dial. destruct (tunnels s); cbn; [apply Hf|done]. Qed.

Hint Resolve fixed_verifier fixed_on_tunnels fixed_acquire fixed_Dial : fixed.

Lemma fixed_verifyToken {B} (f : Srv → B) token : (∀ d s, f (set_db d s) = f s) → fixed f (verifyToken token).
Proof. intros Hf. unfold verifyToken, on_db. solve_fixed. Qed.

Lemma fixed_resolveUser {B} (f : Srv → B) r : (∀ d s, f (set_db d s) = f s) → fixed f (resolveUser r).
Proof. intros Hf. pose proof (fixed_verifyToken f). unfold resolveUser, extractIdentity, on_db. solve_fixed. Qed.

Lemma serve_fixed {B} (f : Srv → B) h s : fixed f h → f (http h s).2 = f s.
Proof. intros Hh. unfold http, serve. cbn. specialize (Hh s). by destruct (h s) as [[] ?]. Qed.

(** The login flow touches the sessions and the random sources only. *)
Section login.
  Context {B : Type} (f : Srv → B).
  Context (Ha : ∀ a s, f (set_authSessions a s) = f s) (Hw : ∀ w s, f (set_world w s) = f s).

Lemma fixed_on_sessions {E X} (m : M A E X) : fixed f (on_sessions m).
Proof. by apply fixed_zoom. Qed.

Lemma fixed_on_world {E X} (m : M World E X) : fixed f (on_world m).
Proof. by apply fixed_zoom. Qed.

Hint Resolve fixed_on_sessions fixed_on_world : fixed.

Lemma fixed_HandleAuthLogin r : fixed f (HandleAuthLogin r).
Proof. unfold HandleAuthLogin, dev_login. solve_fixed. Qed.

Lemma fixed_HandleAuthCallback r : fixed f (HandleAuthCallback exchange r).
Proof. unfold HandleAuthCallback. solve_fixed. Qed.

Lemma fixed_sessions_only r :
  fixed f (HandleAuthConfig r) ∧ fixed f (HandleAuthAuthorize r) ∧ fixed f (HandleAuthPoll r) ∧
  fixed f (HandleCLIStart r) ∧ fixed f (HandleCLILogin r) ∧ fixed f (HandleCLIChoose r) ∧ fixed f (HandleSSHInfo r).
Proof.
  unfold HandleAuthConfig, HandleAuthAuthorize, HandleAuthPoll, HandleCLIStart, HandleCLILogin, HandleCLIChoose,
    HandleSSHInfo. split_and!; solve_fixed.
Qed.

End login.

Lemma fixed_tenantMachine {B} (f : Srv → B) r : (∀ d s, f (set_db d s) = f s) → fixed f (tenantMachine r).
Proof. intros Hf. pose proof (fixed_resolveUser f r Hf). unfold tenantMachine, on_db. solve_fixed. Qed.

(** No request changes the mode of the server. *)
Lemma Server_Handler_devMode i s : devMode (Server_Handler i s).2 = devMode s.
Proof.
  assert (∀ r, fixed devMode (resolveUser r)) by (intros; by apply fixed_resolveUser).
  assert (∀ r, fixed devMode (tenantMachine r)) by (intros; by apply fixed_tenantMachine).
  assert (∀ t, fixed devMode (verifyToken t)) by (intros; by apply fixed_verifyToken).
  destruct (fixed_sessions_only devMode ltac:(done) ltac:(done) (in_request i)) as (? & ? & ? & ? & ? & ? & ?).
  unfold Server_Handler. destruct (route _ _); try (apply serve_fixed; try done).
  - assert (fixed (devMode : Srv → bool) (HandleSSHBridge machineID (in_browser i))) as Hb.
    { unfold HandleSSHBridge, HandleSSHBridge_open, bridge_connect, bridges_release, on_db. solve_fixed. }
    specialize (Hb s). by destruct (HandleSSHBridge _ _ s) as [[] ?].
  - unfold HandleListMachines, on_db. solve_fixed.
  - unfold HandleCreateMachine, on_db. solve_fixed.
  - unfold HandleUpdateMachine, on_db. solve_fixed.
  - unfold HandleDeleteMachine, on_db. solve_fixed.
  - by apply fixed_HandleAuthLogin.
  - by apply fixed_HandleAuthCallback.
  - unfold HandleGenerateAPIKey, extractIdentity, on_world, on_db. solve_fixed.
  - done.
  - done.
Qed.

Context `{!DataStoreOk D}.

(** One request: the machines stay, or a member of some tenant is the caller
    and those of the other tenants stay. *)
Definition request_isolated (i : Incoming) (s s' : Srv) : Prop :=
  ds_inv (db s') ∧
  (machines (ds_view (db s')) = machines (ds_view (db s)) ∨
   ∃ u, caller s (in_request i) u s' ∧ keeps_foreign (User_TenantID u) (ds_view (db s)) (ds_view (db s'))).

Lemma machines_request_isolated c i r s :
  ds_inv (db s) → devMode s = false → bearer_token r = bearer_token (in_request i) →
  request_isolated i s (http (handle c r) s).2.
Proof.
  intros Hs Hdev Hr. pose proof (serve_wp _ (λ x, isolated c s r x) s (handle_ok c s r Hs Hdev)) as [Hinv Hx].
  split; [done|]. cbn in *. destruct (is_success _); [|by left]. right. destruct Hx as (u & Hc & Hk & _).
  exists u. split; [|done]. unfold caller in *. by rewrite <-Hr.
Qed.

Lemma login_request_isolated i h s :
  ds_inv (db s) → fixed db h → request_isolated i s (http h s).2.
Proof. intros Hs Hh. unfold request_isolated. rewrite (serve_fixed db h s Hh). by split; [|left]. Qed.

Lemma api_key_machines r (s : Srv) :
  ds_inv (db s) → devMode s = false →
  wp (HandleGenerateAPIKey r) (λ _ s', ds_inv (db s') ∧ machines (ds_view (db s')) = machines (ds_view (db s))) s.
Proof.
  intros Hs Hdev. unfold HandleGenerateAPIKey, extractIdentity. wp_simpl.
  wp_use (verifyToken_production_wp s (bearer_token r) Hs Hdev).
  intros [err|[[p sub] e]] s1 [(Hsame & Hs1 & Hv1) _]; [by rewrite Hv1|].
  wp_simpl. unfold on_world. wp_simpl. unfold wp at 1. destruct (GenerateAPIKey _ _ _ _) as [[err|key] w]; cbn [fst snd]; [cbn; by rewrite Hv1|].
  unfold on_db. wp_simpl. wp_use (ds_GetOrCreateUser_ok p sub e (db s1) Hs1). intros [err|u] d2 [Hd2 Hu].
  { cbn. by rewrite Hu, Hv1. }
  pose proof (GetOrCreateUser_post_row _ _ _ _ _ _ Hu) as (_ & Hm2 & _).
  wp_simpl. wp_use (ds_RecordAPIKey_ok key.2 (User_ID u) d2 Hd2). intros [err|[]] d3 [Hd3 Hk]; wp_simpl; (split; [done|]); cbn.
  - by rewrite Hk, Hm2, Hv1.
  - rewrite Hk. cbn. by rewrite Hm2, Hv1.
Qed.

Lemma Server_Handler_isolated i s :
  ds_inv (db s) → devMode s = false → request_isolated i s (Server_Handler i s).2.
Proof.
  intros Hs Hdev. unfold Server_Handler.
  destruct (fixed_sessions_only (db : Srv → D) ltac:(done) ltac:(done) (in_request i)) as (? & ? & ? & ? & ? & ? & ?).
  destruct (route _ _); try (apply login_request_isolated; done).
  - pose proof (HandleSSHBridge_open_wp s machineID (in_browser i) Hs Hdev) as Hb. unfold HandleSSHBridge, bind.
    unfold wp, bridge_post in Hb. destruct (HandleSSHBridge_open machineID (in_browser i) s) as [[e|ch] s1];
      destruct Hb as (Hinv & Hm & _); (split; [done|by left]).
  - by apply (machines_request_isolated ListMachines).
  - by apply (machines_request_isolated CreateMachine).
  - by apply (machines_request_isolated UpdateMachine).
  - by apply (machines_request_isolated DeleteMachine).
  - apply login_request_isolated; [done|]. by apply fixed_HandleAuthLogin.
  - apply login_request_isolated; [done|]. by apply fixed_HandleAuthCallback.
  - assert (wp (HandleGenerateAPIKey (in_request i)) (λ res s', match res with inl _ | inr _ =>
      ds_inv (db s') ∧ machines (ds_view (db s')) = machines (ds_view (db s)) end) s) as Hk.
    { wp_use (api_key_machines (in_request i) s Hs Hdev). by intros []. }
    apply (serve_wp _ (λ _ s', ds_inv (db s') ∧ machines (ds_view (db s')) = machines (ds_view (db s)))) in Hk as [Hinv Hm].
    split; [done|by left].
  - by split; [|left].
  - by split; [|left].
Qed.

(** C5: The whole relay keeps tenants apart.  Whatever sequence of requests a
    production server gets, to any path with any method, its WebSockets, its
    login flow and its API keys included: the machines of a tenant are at the
    end exactly those at the start, each as it was, unless some request of
    the sequence carries a token that proves the identity of a stored user of
    that very tenant. *)
Theorem relay_keeps_tenants (reqs : list Incoming) (s : Srv) (tid : UUID) :
  ds_inv (db s) → devMode s = false →
  (∀ before i after u, reqs = before ++ i :: after →
    caller (relay_run before s) (in_request i) u (relay_run (before ++ [i]) s) → User_TenantID u ≠ tid) →
  ∀ k m, Machine_TenantID m = tid →
    (machines (ds_view (db (relay_run reqs s))) !! k = Some m ↔ machines (ds_view (db s)) !! k = Some m).
Proof.
  revert s. induction reqs as [|i reqs IH]; intros s Hs Hdev Hcallers k m Hm; [done|]. cbn.
  destruct (Server_Handler_isolated i s Hs Hdev) as [Hs1 Hstep].
  rewrite IH; [|done|by rewrite Server_Handler_devMode| |done].
  - destruct Hstep as [->|(u & Hu & Hk)]; [done|]. specialize (Hcallers [] i reqs u eq_refl Hu).
    specialize (Hk k m). unfold foreign in Hk. rewrite Hm in Hk. naive_solver.
  - intros before i' after u -> Hu. exact (Hcallers (i :: before) i' after u eq_refl Hu).
Qed.

End relay.

#[local] Existing Instances toy_oidc toy_channels toy_jose toy_ssh toy_uuid range_in_order.

(** Bob, of tenant 3, tries to delete Alice's machine and to make one of his
    own; the machine of tenant 1 stays as it was. *)
Definition bob_delete : Incoming :=
  mkIncoming ["api"; "machines"; "kkkkk"] (mkRequest "DELETE" ("Bearer " +:+ bob) [] None EmptyString None)
    (browser_of EmptyString).

Definition bob_create : Incoming :=
  mkIncoming ["api"; "machines"]
    (mkRequest "POST" ("Bearer " +:+ bob) [] None EmptyString
      (Some (strings_json [("name", "desk"); ("hostname", "h"); ("public_key", "kkk")])))
    (browser_of EmptyString).

Definition no_files : StaticFiles := mkStaticFiles (λ _, false) (λ _ _, false) (λ _ _, no_ui_page).

Definition no_exchange (url data : string) : error + option json := inl (ErrorString "unused").

#[local] Existing Instance toy_apple.

Abbreviation toy_server := (Server Fake MemoryAuthSessionStore Registry).

(** Who acts with Bob's token: a user with his subject. *)
Lemma bob_caller (s s' : toy_server) (r : Request) (u : User) :
  bearer_token r = bob → verifier s = Some verifier0 → caller s r u s' →
  forallb (λ kv, negb (String.eqb (User_Subject kv.2) "bob") || negb (N.eqb (User_TenantID kv.2) 1))
    (map_to_list (users (ds_view (db s')))) = true →
  User_TenantID u ≠ 1%N.
Proof.
  intros Hr Hv [[e [(raw & Heq & _)|(_ & v & Hv' & entry & tok & Hentry & Htok & Hsub & _)]] Hrow] Hall.
  - by rewrite Hr in Heq.
  - rewrite Hr in Htok. rewrite Hv in Hv'. injection Hv' as <-. cbn in Hsub, Hentry.
    assert (Subject tok = "bob") as Hbob.
    { unfold verifier0 in Hentry. cbn in Hentry. apply lookup_insert_Some in Hentry as [[_ <-]|[_ Hno]]; [|done].
      vm_compute in Htok. by injection Htok as <-. }
    rewrite forallb_forall in Hall. specialize (Hall (User_ID u, u)).
    rewrite <-list_elem_of_In, elem_of_map_to_list in Hall. specialize (Hall Hrow). cbn in Hall.
    rewrite Hsub, Hbob in Hall. cbn in Hall. by apply negb_true_iff, N.eqb_neq in Hall.
Qed.

Lemma bob_callers before i after u :
  [bob_delete; bob_create] = before ++ i :: after →
  caller (relay_run no_exchange no_files before (server0 false)) (in_request i) u
    (relay_run no_exchange no_files (before ++ [i]) (server0 false)) → User_TenantID u ≠ 1%N.
Proof.
  intros Heq Hu. destruct before as [|i1 [|i2 [|i3 before]]]; [injection Heq as <- <-|injection Heq as <- <- <-|done|done];
    (eapply bob_caller; [| |exact Hu|]); vm_compute; reflexivity.
Qed.

Lemma relay_keeps_tenants_witness :
  machines (ds_view (db (relay_run no_exchange no_files [bob_delete; bob_create] (server0 false)))) !! 5%N =
    machines (ds_view fake1) !! 5%N ∧
  size (machines (ds_view (db (relay_run no_exchange no_files [bob_delete; bob_create] (server0 false))))) = 2.
Proof.
  split; [|vm_compute; reflexivity].
  pose proof (relay_keeps_tenants no_exchange no_files [bob_delete; bob_create] (server0 false) 1%N
    fake1_inv eq_refl bob_callers 5%N) as H.
  destruct (machines (ds_view fake1) !! 5%N) as [m|] eqn:Hm; [|vm_compute in Hm; discriminate].
  apply H; [vm_compute in Hm; by injection Hm as <-|exact Hm].
Defined.
