(* ===== verification/SystemProps.v ===== *)
(** What the whole system guarantees: whom a browser's bytes reach, and what a
    deletion means, under every interleaving of the handlers of bridges, the
    gateway and all other store calls. *)
From Stdlib Require Import ZArith Lia Ascii.
From stdpp Require Import base gmap strings list.
From S2P Require Import Prelude GoStrings StoreSpec StoreFresh AuthSession Http Oidc.
From S2P Require Import ApiKey SshKeys RelayAuth SshGate Bridge Apple AuthFlow Routes System.
From S2P Require Import FakeStore Scenario GateProps.

(** * Machines over time *)

(** What of a machine never changes. *)
Definition same_key (m m' : Machine) : Prop :=
  Machine_TenantID m' = Machine_TenantID m ∧ Machine_Fingerprint m' = Machine_Fingerprint m.

#[export] Instance same_key_equiv : Equivalence same_key.
Proof. split; [done|intros ?? []; split; congruence|]. intros m1 m2 m3 [] []. split; congruence. Qed.

(** What a store call may do to the machines. *)
Lemma op_post_machines o t r t' :
  op_post o t r t' →
  machines t' = machines t ∨
  (∃ f k, machines t' = alter f k (machines t) ∧ ∀ m, same_key m (f m)) ∨
  (∃ k, machines t' = delete k (machines t)) ∨
  (∃ tid n h fp m, o = OpCreateMachine tid n h fp ∧ r = inr (RMachine m) ∧ machines t' = <[Machine_ID m := m]> (machines t)).
Proof.
  destruct o, r as [e|x]; cbn; try (intros Hx; left; by (rewrite Hx || destruct Hx as [-> _])).
  - intros (u & -> & _ & [(u0 & _ & _ & ->)|(tn & _ & _ & _ & _ & _ & _ & ->)]); by left.
  - intros (u & -> & -> & _). by left.
  - intros (m & -> & _ & _ & _ & _ & _ & _ & _ & ->). right. right. right. by exists tenantID, name, hostname, fingerprint, m.
  - intros (m & -> & -> & _). by left.
  - intros (m & -> & -> & _). by left.
  - intros (ms & -> & -> & _). by left.
  - intros (_ & -> & ts & ->). right. left. by exists (Machine_touch ts), id.
  - intros (_ & -> & _ & ->). right. left. by exists (Machine_set_name name), id.
  - intros (_ & -> & _ & ->). right. right. left. by exists id.
  - intros (_ & -> & ->). by left.
  - intros (b & -> & -> & _). by left.
  - intros (_ & -> & k & ts & _ & _ & _ & ->). by left.
Qed.

Section rows.
  Context {D : Type} `{DataStoreFresh D}.

(** A store call. *)
Definition db_moved (d d' : D) : Prop := d' = d ∨ ∃ o, op_pre o (ds_view d) ∧ d' = (run_op o d).2.

Lemma db_moved_inv d d' : ds_inv d → db_moved d d' → ds_inv d'.
Proof. intros Hd [->|(o & Hpre & ->)]; [done|]. exact (proj1 (run_op_ok o d Hd Hpre)). Qed.

Lemma db_moved_spent d d' id : db_moved d d' → ds_spent d id → ds_spent d' id.
Proof. intros [->|(o & _ & ->)]; [done|]. apply ds_spent_op. Qed.

Lemma reply_state {X} (f : X → store_reply) (m : M D error X) d : (reply f m d).2 = (m d).2.
Proof. unfold reply, bind. by destruct (m d) as [[] ?]. Qed.

Lemma reply_result {X} (f : X → store_reply) (m : M D error X) d x :
  (reply f m d).1 = inr x → ∃ a, (m d).1 = inr a ∧ x = f a.
Proof. unfold reply, bind. destruct (m d) as [[e|a] d']; cbn; [done|]. intros [= <-]. by exists a. Qed.

(** Where the rows of machines come from. *)
Lemma machine_rows d d' id m' :
  ds_inv d → db_moved d d' → machines (ds_view d') !! id = Some m' →
  (∃ m, machines (ds_view d) !! id = Some m ∧ same_key m m') ∨ ¬ ds_spent d id.
Proof.
  intros Hd [->|(o & Hpre & ->)] Hm'; [left; by exists m'|].
  destruct (run_op_ok o d Hd Hpre) as [_ Hpost].
  apply op_post_machines in Hpost as [E|[(f & k & E & Hf)|[(k & E)|(tid & n & h & fp & m & -> & Hr & E)]]]; rewrite E in Hm'.
  - left. by exists m'.
  - rewrite lookup_alter in Hm'. case_decide; [|left; by exists m'].
    apply fmap_Some in Hm' as (m & ? & ->). left. exists m. subst. auto.
  - apply lookup_delete_Some in Hm' as [_ ?]. left. by exists m'.
  - apply lookup_insert_Some in Hm' as [[<- _]|[_ ?]]; [right|left; by exists m'].
    cbn in Hr. apply reply_result in Hr as (m1 & Hr & [= <-]). by eapply ds_fresh_machine.
Qed.

(** A machine that is gone stays gone. *)
Lemma machine_gone d d' id :
  ds_inv d → db_moved d d' → ds_spent d id → machines (ds_view d) !! id = None → machines (ds_view d') !! id = None.
Proof.
  intros Hd Hmv Hs Hn. destruct (machines (ds_view d') !! id) as [m'|] eqn:Hm'; [|done].
  destruct (machine_rows _ _ _ _ Hd Hmv Hm') as [(m & ? & _)|]; congruence.
Qed.

End rows.

Section system.
  Context `{OIDC} `{SSH} `{Jose} `{MapRange} `{UUIDText} `{SSHChannels}.
  Context {D A : Type} `{DataStoreFresh D}.
  Abbreviation Srv := (Server D A Registry).
  Abbreviation Sy := (Sys (D := D) (A := A)).

(** * Every step is a store call at most *)

Lemma PublicKeyCallback_moved user key d : db_moved d (PublicKeyCallback user key d).2.
Proof.
  right. exists (OpGetMachineByFingerprint (FingerprintSHA256 key)). split; [done|]. cbn. rewrite reply_state.
  unfold PublicKeyCallback, bind, or_return. destruct (ds_GetMachineByFingerprint _ d) as [[e|m] d']; cbn; [done|].
  by destruct (negb _).
Qed.

Lemma touch_moved machineID d : db_moved d (touch machineID d).2.
Proof.
  unfold touch. destruct (uuid_Parse machineID) as [e|id]; [by left|]. right. exists (OpTouchMachine id).
  split; [done|]. cbn. by rewrite reply_state.
Qed.

Lemma verifyToken_moved token (s : Srv) : db_moved (db s) (db (verifyToken token s).2).
Proof.
  unfold verifyToken, bind, get, lift, or_return, on_db, zoom. cbn [fst snd].
  repeat (case_match; cbn [fst snd] in *; simplify_eq; try (by left)).
  all: right; eexists (OpIsAPIKeyRevoked _); split; [done|]; cbn; by rewrite reply_state.
Qed.

Lemma fixed_session_next {B} (f : Srv → B) machineID br pc :
  (∀ d s, f (set_db d s) = f s) → (∀ b s, f (set_bridges b s) = f s) → fixed f (session_next machineID br pc).
Proof.
  intros Hd Hb. pose proof (λ t, fixed_verifyToken f t Hd) as Hv.
  destruct pc; cbn [session_next]; unfold load_machine, on_db; try solve [solve_fixed];
    intros s; cbn; try done; by destruct (acquire machineID (bridges s)); cbn.
Qed.

Lemma session_next_moved machineID br pc (s : Srv) : db_moved (db s) (db (session_next machineID br pc s).2).
Proof.
  destruct pc; cbn [session_next]; try (by left).
  - pose proof (verifyToken_moved token s) as Hm. unfold bind, attempt. cbn [fst snd].
    by destruct (verifyToken token s) as [[] s'].
  - right. exists (OpGetOrCreateUser id.1.1 id.1.2 id.2). split; [done|]. cbn. by rewrite reply_state.
  - unfold load_machine. destruct (uuid_Parse machineID) as [e|mid]; [by left|]. right. exists (OpGetMachine mid).
    split; [done|]. cbn. by rewrite reply_state.
  - cbn. by destruct (acquire machineID (bridges s)); left.
Qed.

Lemma next_pc_server machineID br pc pc' (s s' : Srv) :
  next_pc machineID br pc s = (pc', s') →
  db_moved (db s) (db s') ∧ tunnels s' = tunnels s ∧ devMode s' = devMode s.
Proof.
  intros E. assert (s' = (session_next machineID br pc s).2) as ->.
  { unfold next_pc in E. by destruct (session_next machineID br pc s) as [[] ?]; simplify_eq/=. }
  split; [apply session_next_moved|]. split; by apply fixed_session_next.
Qed.

(** * What a handler has established *)

Section session.
  Context (sid : nat) (ls : list (sys_label (D := D) (A := A))) (machineID : string) (br : Browser).

(** The browser's token proved this identity to the server as it was then. *)
Definition proven (id : string * string * string) : Prop :=
  ∃ token srv, browser_token br token ∧ Moved sid srv (Resolving id) ∈ ls ∧ authenticates srv token id.

(** The session's user may reach this machine: it was stored, of the user's
    tenant, when the handler looked. *)
Definition allowed (u : User) (m : Machine) : Prop :=
  (∃ e, proven (User_Provider u, User_Subject u, e)) ∧ uuid_Parse machineID = inr (Machine_ID m) ∧
  Machine_TenantID m = User_TenantID u ∧
  ∃ srv, Moved sid srv (Acquiring u m) ∈ ls ∧ machines (ds_view (db srv)) !! Machine_ID m = Some m.

(** The tunnel is of a connection that a key of the machine of this ID opened. *)
Definition tunnel_ok (id : string) (t : Tunnel) : Prop :=
  ∃ user key d, AtGate (Handshake (conn t) user key d) ∈ ls ∧ authentic d user key id (Tunnel_TenantID t).

Definition session_ok (pc : session_pc) : Prop :=
  match pc with
  | Started | Releasing _ | Ended _ => True
  | Verifying token => browser_token br token
  | Resolving id => proven id
  | Loading u => ∃ e, proven (User_Provider u, User_Subject u, e)
  | Acquiring u m | Dialing u m => allowed u m
  | Opening u m t | Confirming u m t _ | Piping u m t _ => allowed u m ∧ tunnel_ok machineID t
  end.

End session.

Lemma session_ok_snoc sid ls machineID br pc l : session_ok sid ls machineID br pc → session_ok sid (ls ++ [l]) machineID br pc.
Proof.
  assert (∀ x, x ∈ ls → x ∈ ls ++ [l]) as Hin by (intros; apply elem_of_app; by left).
  assert (∀ id, proven sid ls br id → proven sid (ls ++ [l]) br id) as Hp by (intros id (tk & srv & ? & ? & ?); exists tk, srv; auto).
  assert (∀ u m, allowed sid ls machineID br u m → allowed sid (ls ++ [l]) machineID br u m) as Ha.
  { intros u m ([e ?] & ? & ? & srv & ? & ?). split; [by exists e; auto|]. split; [done|]. split; [done|]. exists srv. auto. }
  assert (∀ id t, tunnel_ok ls id t → tunnel_ok (ls ++ [l]) id t) as Ht by (intros id t (u & k & d & ? & ?); exists u, k, d; auto).
  destruct pc; cbn; try naive_solver.
Qed.

(** The machine the handler goes on with, if it does. *)
Lemma next_pc_Loading machineID br u pc' (s s' : Srv) :
  ds_inv (db s) → next_pc machineID br (Loading u) s = (pc', s') →
  (∃ e, pc' = Ended e) ∨
  ∃ m, pc' = Acquiring u m ∧ uuid_Parse machineID = inr (Machine_ID m) ∧ Machine_TenantID m = User_TenantID u ∧
    machines (ds_view (db s)) !! Machine_ID m = Some m.
Proof.
  intros Hs Hn. unfold next_pc, session_next, load_machine in Hn. destruct (uuid_Parse machineID) as [e|mid] eqn:Hid.
  { unfold ret in Hn. simplify_eq/=. left. by eexists. }
  unfold bind, attempt, ret, on_db, zoom in Hn. cbn [fst snd] in Hn.
  pose proof (ds_GetMachine_ok mid (db s) Hs) as Hp. unfold wp in Hp.
  destruct (ds_GetMachine mid (db s)) as [[e|m] d]; cbn [fst snd] in *.
  { simplify_eq. left. destruct (errors_Is e ErrNotFound); by eexists. }
  destruct (N.eqb_spec (Machine_TenantID m) (User_TenantID u)) as [Ht|]; cbn [negb] in *; simplify_eq; [right|left; by eexists].
  destruct Hp as (_ & _ & Hrow). exists m. by rewrite (machines_pkey _ (ds_inv_ok _ Hs) _ _ Hrow).
Qed.

(** Nobody else gets there. *)
Lemma acquiring_from machineID br pc u m (s s' : Srv) :
  next_pc machineID br pc s = (Acquiring u m, s') → ∃ u0, pc = Loading u0.
Proof.
  unfold next_pc. destruct pc; cbn [session_next]; try (intros _; by eexists); intros Hn; exfalso;
    unfold bind, attempt, ret, gets, modify, first_frame, open_channel, offline, denied, failed, on_db, zoom in Hn; cbn [fst snd] in Hn;
    repeat (case_match; simplify_eq/=); by simplify_eq/=.
Qed.

(** Each step of the handler establishes what its next point claims. *)
Lemma session_ok_step sid ls machineID br pc pc' (s s' : Srv) :
  ds_inv (db s) → devMode s = false →
  (∀ r t, tunnels s = Some r → reg_tunnels r !! machineID = Some t → tunnel_ok ls machineID t) →
  session_ok sid ls machineID br pc → next_pc machineID br pc s = (pc', s') →
  session_ok sid (ls ++ [Moved sid s pc']) machineID br pc'.
Proof.
  intros Hs Hdev Htun Hok Hn. set (ls' := ls ++ [Moved sid s pc']).
  assert (Moved sid s pc' ∈ ls') as Hlast by (apply elem_of_app; right; by left).
  pose proof (session_ok_snoc sid ls machineID br pc (Moved sid s pc') Hok) as Hok'. fold ls' in Hok'.
  assert (∀ r t, tunnels s = Some r → reg_tunnels r !! machineID = Some t → tunnel_ok ls' machineID t) as Htun'.
  { intros r t Hr Ht. destruct (Htun r t Hr Ht) as (u & k & d & ? & ?). exists u, k, d. split; [|done]. apply elem_of_app. by left. }
  clearbody ls'. clear Htun.
  destruct pc; cbn [session_ok] in Hok; unfold next_pc in Hn; cbn [session_next] in Hn.
  - destruct (tunnels s); simplify_eq/=; [|done]. unfold first_frame in *.
    destruct (br_accept br); [done|]. destruct (br_frame br) as [|data] eqn:Hf; [done|].
    destruct (Decode ["token"] data) as [msg|] eqn:Hd; [|done]. by exists data, msg.
  - pose proof (verifyToken_production_wp s token Hs Hdev) as Hv. unfold wp in Hv. unfold bind, attempt, ret in Hn.
    destruct (verifyToken token s) as [[e|id] s1]; simplify_eq/=; [done|]. exists token, s. by destruct Hv.
  - unfold bind, attempt, ret in Hn. cbn [fst snd] in Hn.
    destruct (on_db (ds_GetOrCreateUser id.1.1 id.1.2 id.2) s) as [[e|u] s1] eqn:Hu; simplify_eq/=; [done|].
    assert (is_user id.1.1 id.1.2 u = true) as [Ep Es]%is_user_true.
    { pose proof (ds_GetOrCreateUser_ok id.1.1 id.1.2 id.2 (db s) Hs) as Hp. unfold wp in Hp.
      unfold on_db, zoom in Hu. injection Hu as Hu _. rewrite Hu in Hp. by destruct Hp as (_ & Hp & _). }
    exists id.2. destruct id as [[p sub] e]. cbn in *. by subst.
  - destruct (next_pc_Loading machineID br u pc' s s' Hs Hn) as [[e ->]|(m & -> & Hid & Ht & Hrow)]; [done|].
    split; [done|]. split; [done|]. split; [done|]. by exists s.
  - destruct (acquire machineID (bridges s)) as [[|] b]; by simplify_eq/=.
  - destruct (tunnels s) as [r|] eqn:Hr; simplify_eq/=; [|done].
    destruct (reg_tunnels r !! machineID) as [t|] eqn:Ht; [|done]. split; [done|]. by eapply Htun'.
  - unfold gets, open_channel in Hn. destruct (tunnels s) as [r|]; simplify_eq/=; [|done].
    by destruct (OpenChannel _ _ _ _).
  - unfold ret in Hn. destruct (br_write br); by simplify_eq/=.
  - unfold ret in Hn. by simplify_eq/=.
  - unfold bind, modify, ret in Hn. by simplify_eq/=.
  - unfold ret in Hn. by simplify_eq/=.
Qed.

(** * The invariant of the system *)

(** The step as the gateway sees it. *)
Definition gate_view (l : sys_label (D := D) (A := A)) : gate_label := match l with AtGate l => l | _ => Database end.

(** The store a label shows. *)
Definition snapshot (l : sys_label (D := D) (A := A)) : option D :=
  match l with AtGate (Handshake _ _ _ d) => Some d | Moved _ srv _ => Some (db srv) | _ => None end.

(** A machine some label shows. *)
Definition seen (ls : list (sys_label (D := D) (A := A))) (m : Machine) : Prop :=
  ∃ l d, l ∈ ls ∧ snapshot l = Some d ∧ machines (ds_view d) !! Machine_ID m = Some m.

(** The handlers that hold a slot of a machine. *)
Definition held (id : string) (ss : gmap nat session) : nat :=
  size (filter (λ kv, ses_machine kv.2 = id ∧ holding (ses_pc kv.2) = true) ss).

(** What the store says of a machine once seen. *)
Definition remembered (d : D) (m : Machine) : Prop :=
  ds_spent d (Machine_ID m) ∧ ∀ m', machines (ds_view d) !! Machine_ID m = Some m' → same_key m m'.

Record sys_inv (s0 : Sy) (ls : list sys_label) (s : Sy) : Prop := {
  si_db : ds_inv (db (sy_srv s));
  si_dev : devMode (sy_srv s) = false;
  si_tunnels : is_Some (tunnels (sy_srv s));
  si_gate : gate_run (gate_of s0) (gate_view <$> ls) (gate_of s);
  si_seen : ∀ m, seen ls m → remembered (db (sy_srv s)) m;
  si_agree : ∀ m1 m2, seen ls m1 → seen ls m2 → Machine_ID m1 = Machine_ID m2 → same_key m1 m2;
  si_sessions : ∀ sid ses, sy_sessions s !! sid = Some ses → session_ok sid ls (ses_machine ses) (ses_browser ses) (ses_pc ses);
  si_counts : ∀ id, bridge_count id (bridges (sy_srv s)) = held id (sy_sessions s) ∧ held id (sy_sessions s) ≤ 16
}.

Lemma remembered_moved d d' m : ds_inv d → db_moved d d' → remembered d m → remembered d' m.
Proof.
  intros Hd Hmv [Hs Hk]. split; [by eapply db_moved_spent|]. intros m' Hm'.
  destruct (machine_rows _ _ _ _ Hd Hmv Hm') as [(m1 & Hm1 & Hsame)|]; [|done]. etransitivity; eauto.
Qed.

(** The step of the system is a store call at most. *)
Lemma gate_step_moved g l g' : gate_step g l g' → l ≠ Database → db_moved (g_db g) (g_db g').
Proof.
  intros Hs Hl. destruct Hs as [g c user key perms d _ _ Hcb|g user key err d Hcb|g c sc _ _| | | | | |g c sc _ _|];
    try (by left); try done; try apply touch_moved;
    pose proof (PublicKeyCallback_moved user key (g_db g)) as Hm; by rewrite Hcb in Hm.
Qed.

Lemma sys_step_moved (s s' : Sy) l : sys_step s l s' → db_moved (db (sy_srv s)) (db (sy_srv s')).
Proof.
  intros Hs. destruct Hs as [s l g Hl Hg|s o Hpre|s sid id br Hn|s sid ses pc srv Hses Hn|s a w]; cbn; try (by left).
  - exact (gate_step_moved _ _ _ Hg Hl).
  - right. by exists o.
  - by apply next_pc_server in Hn as (? & _).
Qed.

Lemma sys_step_snapshot (s s' : Sy) l d : sys_step s l s' → snapshot l = Some d → d = db (sy_srv s).
Proof.
  intros Hs. destruct Hs as [s l g Hl Hg|s o Hpre|s sid id br Hn|s sid ses pc srv Hses Hn|s a w]; cbn; try done.
  - change (db (sy_srv s)) with (g_db (gate_of s)). destruct Hg; cbn; try done. by intros [= <-].
  - by intros [= <-].
Qed.

(** The rows seen so far, this step's included, seen from the store before it. *)
Lemma seen_snoc s0 ls s l s' m :
  sys_inv s0 ls s → sys_step s l s' → seen (ls ++ [l]) m →
  remembered (db (sy_srv s)) m ∧ (seen ls m ∨ machines (ds_view (db (sy_srv s))) !! Machine_ID m = Some m).
Proof.
  intros Hinv Hs (l' & d & [Hin|[->|[]%elem_of_nil]%elem_of_cons]%elem_of_app & Hd & Hm).
  - assert (seen ls m) by (by exists l', d). split; [by apply (si_seen _ _ _ Hinv)|by left].
  - rewrite (sys_step_snapshot _ _ _ _ Hs Hd) in Hm. split; [|by right]. split.
    + eapply ds_spent_machine; [apply (si_db _ _ _ Hinv)|by eexists].
    + intros m' Hm'. by simplify_eq.
Qed.

Lemma agree_snoc s0 ls s l s' m1 m2 :
  sys_inv s0 ls s → sys_step s l s' → seen (ls ++ [l]) m1 → seen (ls ++ [l]) m2 →
  Machine_ID m1 = Machine_ID m2 → same_key m1 m2.
Proof.
  intros Hinv Hs Ha Hb E. destruct (seen_snoc _ _ _ _ _ _ Hinv Hs Ha) as [[_ R1] O1].
  destruct (seen_snoc _ _ _ _ _ _ Hinv Hs Hb) as [[_ R2] O2].
  destruct O2 as [S2|C2]; [|by apply R1; rewrite E].
  destruct O1 as [S1|C1]; [by eapply si_agree|]. symmetry. apply R2. by rewrite <-E.
Qed.

(** ** The slots *)

Definition slot (id : string) (ses : session) : nat :=
  if decide (ses_machine ses = id ∧ holding (ses_pc ses) = true) then 1 else 0.

Lemma held_insert_new id sid ses ss :
  ss !! sid = None → held id (<[sid := ses]> ss) = slot id ses + held id ss.
Proof.
  intros Hn. unfold held, slot. rewrite map_filter_insert. cbn. case_decide.
  - rewrite map_size_insert_None; [done|]. apply map_lookup_filter_None. by left.
  - by rewrite delete_id by done.
Qed.

Lemma held_insert id sid ses0 ses ss :
  ss !! sid = Some ses0 → held id (<[sid := ses]> ss) + slot id ses0 = slot id ses + held id ss.
Proof.
  intros Hs. rewrite <-(insert_delete_id ss sid ses0) at 2 by done. rewrite <-insert_delete_eq.
  rewrite !held_insert_new by apply lookup_delete_eq. lia.
Qed.

Definition slot_at (id machineID : string) (pc : session_pc) : nat :=
  if decide (machineID = id ∧ holding pc = true) then 1 else 0.

Lemma slot_at_same id machineID pc pc' : holding pc = holding pc' → slot_at id machineID pc = slot_at id machineID pc'.
Proof. intros E. unfold slot_at. by rewrite E. Qed.

(** A step moves the count with the slot. *)
Lemma next_pc_counts machineID br pc pc' (s s' : Srv) id :
  next_pc machineID br pc s = (pc', s') →
  (holding pc = true → 0 < bridge_count machineID (bridges s)) →
  bridge_count id (bridges s') + slot_at id machineID pc = bridge_count id (bridges s) + slot_at id machineID pc' ∧
  (bridge_count id (bridges s) ≤ 16 → bridge_count id (bridges s') ≤ 16).
Proof.
  intros Hn Hpos.
  assert (bridges s' = bridges s → holding pc = holding pc' →
    bridge_count id (bridges s') + slot_at id machineID pc = bridge_count id (bridges s) + slot_at id machineID pc' ∧
    (bridge_count id (bridges s) ≤ 16 → bridge_count id (bridges s') ≤ 16)) as Hsame.
  { intros -> E. by rewrite (slot_at_same id machineID pc pc' E). }
  unfold next_pc in Hn. destruct pc; cbn [session_next] in Hn.
  - destruct (tunnels s); simplify_eq/=; [|by apply Hsame]. apply Hsame; [done|]. unfold first_frame, denied. by repeat case_match.
  - unfold bind, attempt, ret in Hn. assert (bridges (verifyToken token s).2 = bridges s) as E by (by apply fixed_verifyToken).
    destruct (verifyToken token s) as [[e|x] s1]; simplify_eq/=; by apply Hsame.
  - unfold bind, attempt, ret, on_db, zoom in Hn. simplify_eq/=. apply Hsame; [done|]. by case_match.
  - unfold load_machine in Hn. destruct (uuid_Parse machineID); unfold ret, bind, attempt, on_db, zoom in Hn; simplify_eq/=;
      apply Hsame; try done. unfold denied, failed. by repeat case_match.
  - unfold acquire in Hn. destruct (Nat.leb_spec maxBridgesPerMachine (bridge_count machineID (bridges s))) as [|Hlt]; simplify_eq/=.
    + by apply Hsame.
    + rewrite bridge_count_insert. unfold slot_at, maxBridgesPerMachine in *. cbn.
      destruct (decide (machineID = id)) as [->|]; repeat case_decide; naive_solver lia.
  - destruct (tunnels s) as [r|]; [|by simplify_eq/=; apply Hsame]. destruct (reg_tunnels r !! machineID); simplify_eq/=; by apply Hsame.
  - unfold gets, open_channel in Hn. simplify_eq/=. apply Hsame; [done|]. by repeat case_match.
  - unfold ret in Hn. simplify_eq/=. apply Hsame; [done|]. by case_match.
  - unfold ret in Hn. simplify_eq/=. by apply Hsame.
  - unfold bind, modify, ret in Hn. simplify_eq/=. specialize (Hpos eq_refl). unfold release.
    rewrite (proj2 (Nat.ltb_lt _ _)) by done. rewrite bridge_count_insert. unfold slot_at. cbn.
    destruct (decide (machineID = id)) as [->|]; repeat case_decide; naive_solver lia.
  - unfold ret in Hn. simplify_eq/=. by apply Hsame.
Qed.

(** ** Every step keeps the invariant *)

Lemma gate_of_with_gate (g : Gate) (s : Sy) : gate_of (with_gate g s) = g.
Proof. by destruct g. Qed.

Lemma gate_of_sessions srv sid ses (s : Sy) :
  gate_of (with_session sid ses (with_srv srv s)) = gate_of (with_srv srv s).
Proof. done. Qed.

(** A step that leaves the registry alone is one of another writer. *)
Lemma gate_view_other (s s' : Sy) :
  ds_inv (db (sy_srv s')) → tunnels (sy_srv s') = tunnels (sy_srv s) → sy_conns s' = sy_conns s →
  sy_closing s' = sy_closing s → gate_step (gate_of s) Database (gate_of s').
Proof.
  intros Hd Ht Hc Hl. assert (gate_of s' = mkGate (db (sy_srv s')) (g_reg (gate_of s)) (g_conns (gate_of s)) (g_closing (gate_of s))) as ->.
  { unfold gate_of, sy_registry. by rewrite Ht, Hc, Hl. }
  by constructor.
Qed.

Lemma gate_view_step (s s' : Sy) l :
  sys_step s l s' → ds_inv (db (sy_srv s')) → gate_step (gate_of s) (gate_view l) (gate_of s').
Proof.
  intros Hs Hd. destruct Hs as [s l g Hl Hg|s o Hpre|s sid id br Hn|s sid ses pc srv Hses Hn|s a w]; cbn [gate_view].
  - by rewrite gate_of_with_gate.
  - by apply gate_view_other.
  - by apply gate_view_other.
  - apply next_pc_server in Hn as (_ & Ht & _). by apply gate_view_other.
  - by apply gate_view_other.
Qed.

Lemma registered_tunnel_ok s0 ls (s : Sy) r id t :
  sys_init s0 → sys_inv s0 ls s → tunnels (sy_srv s) = Some r → reg_tunnels r !! id = Some t → tunnel_ok ls id t.
Proof.
  intros (Hd0 & _ & Ht0 & _ & Hc0 & Hl0 & _) Hinv Hr Ht.
  assert (gate_of s0 = gate_init (db (sy_srv s0))) as E.
  { unfold gate_of, gate_init, sy_registry. by rewrite Ht0, Hc0, Hl0. }
  pose proof (si_gate _ _ _ Hinv) as Hg. rewrite E in Hg.
  destruct (registered_authentic _ _ _ id t Hd0 Hg) as (_ & _ & u & k & d & Hin & Ha).
  { cbn. unfold sy_registry. by rewrite Hr. }
  exists u, k, d. split; [|done]. apply list_elem_of_fmap in Hin as ([] & E' & Hin); cbn in E'; try done. by subst.
Qed.

(** A tunnel stands under the ID of the machine it carries, and its connection
    is in its request loop. *)
Lemma registered_tunnel_served s0 ls (s : Sy) id t :
  sys_init s0 → sys_inv s0 ls s → reg_tunnels (sy_registry s) !! id = Some t →
  MachineID t = id ∧ served (sy_conns s) t.
Proof.
  intros (Hd0 & _ & Ht0 & _ & Hc0 & Hl0 & _) Hinv Ht.
  assert (gate_of s0 = gate_init (db (sy_srv s0))) as E.
  { unfold gate_of, gate_init, sy_registry. by rewrite Ht0, Hc0, Hl0. }
  pose proof (si_gate _ _ _ Hinv) as Hg. rewrite E in Hg.
  by destruct (gi_tunnels _ _ (gate_inv_run _ _ _ (gate_init_inv _ Hd0) Hg) id t Ht) as (? & ? & _).
Qed.

Lemma sys_counts_step s0 ls (s s' : Sy) l :
  sys_inv s0 ls s → sys_step s l s' →
  ∀ id, bridge_count id (bridges (sy_srv s')) = held id (sy_sessions s') ∧ held id (sy_sessions s') ≤ 16.
Proof.
  intros Hinv Hs id. pose proof (si_counts _ _ _ Hinv) as Hc.
  destruct Hs as [s l g Hl Hg|s o Hpre|s sid mid br Hn|s sid ses pc srv Hses Hn|s a w]; try apply Hc.
  - cbn. rewrite held_insert_new by done. unfold slot. rewrite decide_False by (by intros []). apply Hc.
  - assert (holding (ses_pc ses) = true → 0 < bridge_count (ses_machine ses) (bridges (sy_srv s))) as Hpos.
    { intros Hh. destruct (Hc (ses_machine ses)) as [-> _]. rewrite <-(insert_delete_id _ _ _ Hses), held_insert_new by apply lookup_delete_eq.
      unfold slot. rewrite decide_True by done. lia. }
    destruct (next_pc_counts _ _ _ _ _ _ id Hn Hpos) as [Hcount Hcap].
    pose proof (held_insert id sid ses (set_pc pc ses) (sy_sessions s) Hses) as Hheld. cbn.
    change (slot id (set_pc pc ses)) with (slot_at id (ses_machine ses) pc) in Hheld.
    change (slot id ses) with (slot_at id (ses_machine ses) (ses_pc ses)) in Hheld.
    destruct (Hc id) as [E Hle]. rewrite E in Hcap. specialize (Hcap Hle). lia.
Qed.

Lemma sys_inv_step s0 ls (s s' : Sy) l :
  sys_init s0 → sys_inv s0 ls s → sys_step s l s' → sys_inv s0 (ls ++ [l]) s'.
Proof.
  intros H00 Hinv Hs. pose proof (sys_step_moved _ _ _ Hs) as Hmv.
  assert (ds_inv (db (sy_srv s'))) as Hd by (eapply db_moved_inv; [apply (si_db _ _ _ Hinv)|done]).
  split; [done|..].
  - pose proof (si_dev _ _ _ Hinv). destruct Hs as [s l g Hl Hg|s o Hpre|s sid mid br Hn|s sid ses pc srv Hses Hn|s a w]; try done.
    apply next_pc_server in Hn as (_ & _ & E). cbn. by rewrite E.
  - pose proof (si_tunnels _ _ _ Hinv). destruct Hs as [s l g Hl Hg|s o Hpre|s sid mid br Hn|s sid ses pc srv Hses Hn|s a w]; try done.
    apply next_pc_server in Hn as (_ & E & _). cbn. by rewrite E.
  - rewrite fmap_app. cbn. econstructor; [apply (si_gate _ _ _ Hinv)|]. by apply gate_view_step.
  - intros m Hm. destruct (seen_snoc _ _ _ _ _ _ Hinv Hs Hm) as [Hr _].
    eapply remembered_moved; [apply (si_db _ _ _ Hinv)|done|done].
  - intros m1 m2. by eapply agree_snoc.
  - pose proof (si_sessions _ _ _ Hinv) as Hok.
    destruct Hs as [s l g Hl Hg|s o Hpre|s sid mid br Hn|s sid ses pc srv Hses Hn|s a w]; cbn;
      try (intros sid' ses' ?; apply session_ok_snoc; by eapply Hok).
    + intros sid' ses' [[<- <-]|[_ ?]]%lookup_insert_Some; [done|]. apply session_ok_snoc. by eapply Hok.
    + intros sid' ses' [[<- <-]|[_ ?]]%lookup_insert_Some; [|apply session_ok_snoc; by eapply Hok].
      eapply (session_ok_step sid ls (ses_machine ses) (ses_browser ses) (ses_pc ses)); [apply (si_db _ _ _ Hinv)|apply (si_dev _ _ _ Hinv)| |by eapply Hok|done].
      intros r t ??. by eapply registered_tunnel_ok.
  - by eapply sys_counts_step.
Qed.

Lemma sys_init_inv (s : Sy) : sys_init s → sys_inv s [] s.
Proof.
  intros (Hd & Hdev & Ht & Hb & Hc & Hl & Hss). split; try done.
  - constructor.
  - by intros m (l & d & []%elem_of_nil & _).
  - by intros m1 m2 (l & d & []%elem_of_nil & _).
  - intros sid ses. by rewrite Hss.
  - intros id. rewrite Hb, Hss. unfold bridge_count, held. rewrite lookup_empty, map_filter_empty, map_size_empty. split; [done|lia].
Qed.

Lemma sys_run_inv s0 ls (s : Sy) : sys_init s0 → sys_run s0 ls s → sys_inv s0 ls s.
Proof. intros H00 Hr. induction Hr as [s|s ls s1 l s2 _ IH Hs]; [by apply sys_init_inv|]. eapply sys_inv_step; eauto. Qed.

(** A handler run on its own inside the system, for examples. *)
Fixpoint advance (n sid : nat) (s : Sy) : list (sys_label (D := D) (A := A)) * Sy :=
  match n, sy_sessions s !! sid with
  | S n, Some ses =>
      let '(pc, srv) := next_pc (ses_machine ses) (ses_browser ses) (ses_pc ses) (sy_srv s) in
      let '(ls, s') := advance n sid (with_session sid (set_pc pc ses) (with_srv srv s)) in
      (Moved sid (sy_srv s) pc :: ls, s')
  | _, _ => ([], s)
  end.

Lemma advance_run n sid s0 ls (s : Sy) : sys_run s0 ls s → sys_run s0 (ls ++ (advance n sid s).1) (advance n sid s).2.
Proof.
  revert ls s. induction n as [|n IH]; intros ls s Hr; cbn [advance]; [by rewrite app_nil_r|].
  destruct (sy_sessions s !! sid) as [ses|] eqn:Hses; [|by rewrite app_nil_r].
  destruct (next_pc _ _ _ _) as [pc srv] eqn:Hn.
  pose proof (IH (ls ++ [Moved sid (sy_srv s) pc]) (with_session sid (set_pc pc ses) (with_srv srv s))) as Hrec.
  destruct (advance n sid _) as [ls' s']. cbn in *. rewrite <-app_assoc in Hrec. apply Hrec.
  econstructor; [done|]. by constructor.
Qed.

Context `{Huuid : !UUIDTextOk}.

Lemma uuid_String_inj id id' : uuid_String id = uuid_String id' → id = id'.
Proof. intros E. apply (f_equal uuid_Parse) in E. rewrite !uuid_Parse_String in E. congruence. Qed.

(** C1: Whom a browser's bytes reach.  Take any run of the whole system, with
    any number of browsers, CLIs, API calls and logins interleaved at every
    call they make.  When the handler of a browser is piping, the token in the
    browser's first frame proved to the server the identity of a user; the
    machine named in the URL was stored in that user's tenant when the handler
    looked; and the tunnel the bytes go down is an SSH connection that was
    authenticated with the very key that machine is enrolled with, although
    the handshake, the look-up and the dial happened at different times, with
    renames, deletions and enrolments in between. *)
Theorem tunnel_end_to_end (s0 s : Sy) (ls : list sys_label) (sid : nat) (ses : session)
    (u : User) (m : Machine) (t : Tunnel) (ch : Channel) :
  sys_init s0 → sys_run s0 ls s → sy_sessions s !! sid = Some ses → ses_pc ses = Piping u m t ch →
  (∃ token srv e, browser_token (ses_browser ses) token ∧
    Moved sid srv (Resolving (User_Provider u, User_Subject u, e)) ∈ ls ∧
    authenticates srv token (User_Provider u, User_Subject u, e)) ∧
  (∃ srv, Moved sid srv (Acquiring u m) ∈ ls ∧ machines (ds_view (db srv)) !! Machine_ID m = Some m) ∧
  Machine_TenantID m = User_TenantID u ∧ ses_machine ses = uuid_String (Machine_ID m) ∧
  ∃ key d, AtGate (Handshake (conn t) (uuid_String (Machine_ID m)) key d) ∈ ls ∧
    FingerprintSHA256 key = Machine_Fingerprint m.
Proof.
  intros H00 Hr Hses Hpc. pose proof (sys_run_inv _ _ _ H00 Hr) as Hinv.
  pose proof (si_sessions _ _ _ Hinv _ _ Hses) as Hok. rewrite Hpc in Hok.
  destruct Hok as [([e (token & srv & Htok & Hmv & Hauth)] & Hid & Hten & srv1 & Hload & Hrow) Htun].
  destruct Htun as (user & key & d & Hhs & m' & Hm' & Hfp & Hu & Hmach & _).
  split; [by exists token, srv, e|]. split; [by exists srv1|]. split; [done|].
  assert (Machine_ID m = Machine_ID m') as E.
  { rewrite Hmach, Hu, uuid_Parse_String in Hid. congruence. }
  assert (same_key m m') as [_ Hf].
  { apply (si_agree _ _ _ Hinv); [by exists (Moved sid srv1 (Acquiring u m)), (db srv1)|by exists (AtGate (Handshake (conn t) user key d)), d|done]. }
  split; [by rewrite E, <-Hu|]. exists key, d. rewrite E, <-Hu. split; [done|]. by rewrite <-Hfp.
Qed.

(** The shape of the relay's state: the constraints of the schema; tunnels
    under the machine they carry, that the text of some machine's ID names,
    on a connection in its request loop that agrees with them; counters that
    never pass the cap; and handlers past the look-up that hold a user and a
    machine of one tenant, which is the machine of their URL. *)
Record Sys_ok (s : Sy) : Prop := {
  ok_tables : Tables_ok (ds_view (db (sy_srv s)));
  ok_mode : devMode (sy_srv s) = false;
  ok_gateway : is_Some (tunnels (sy_srv s));
  ok_tunnels : ∀ id t, reg_tunnels (sy_registry s) !! id = Some t →
    MachineID t = id ∧ (∃ n, id = uuid_String n) ∧ (∃ n, Tunnel_TenantID t = uuid_String n) ∧ served (sy_conns s) t;
  ok_counts : ∀ id, bridge_count id (bridges (sy_srv s)) ≤ maxBridgesPerMachine;
  ok_sessions : ∀ sid ses, sy_sessions s !! sid = Some ses →
    match ses_pc ses with
    | Acquiring u m | Dialing u m => uuid_Parse (ses_machine ses) = inr (Machine_ID m) ∧ Machine_TenantID m = User_TenantID u
    | Opening u m t | Confirming u m t _ | Piping u m t _ =>
        uuid_Parse (ses_machine ses) = inr (Machine_ID m) ∧ Machine_TenantID m = User_TenantID u ∧
        ses_machine ses = uuid_String (Machine_ID m)
    | _ => True
    end
}.

Lemma sys_run_ok (s0 s : Sy) (ls : list sys_label) :
  sys_init s0 → sys_run s0 ls s → Sys_ok s.
Proof.
  intros H00 Hr. pose proof (sys_run_inv _ _ _ H00 Hr) as Hinv. split.
  - apply ds_inv_ok, (si_db _ _ _ Hinv).
  - apply (si_dev _ _ _ Hinv).
  - apply (si_tunnels _ _ _ Hinv).
  - intros id t Ht. destruct (registered_tunnel_served _ _ _ _ _ H00 Hinv Ht) as [Hid Hserved].
    destruct (si_tunnels _ _ _ Hinv) as [r Hreg].
    assert (reg_tunnels r !! id = Some t) as Ht' by (unfold sy_registry in Ht; by rewrite Hreg in Ht).
    destruct (registered_tunnel_ok _ _ _ _ _ _ H00 Hinv Hreg Ht') as (user & key & d & _ & m & _ & _ & -> & -> & ->).
    split; [done|]. split; [by eexists|]. split; [by eexists|done].
  - intros id. destruct (si_counts _ _ _ Hinv id) as [-> ?]. unfold maxBridgesPerMachine. done.
  - intros sid ses Hses. pose proof (si_sessions _ _ _ Hinv _ _ Hses) as Hok.
    destruct (ses_pc ses); cbn in Hok |- *; try done.
    1, 2: destruct Hok as (_ & Hid & Hten & _); done.
    all: destruct Hok as [(_ & Hid & Hten & _) (user & key & d & _ & m' & _ & _ & -> & Hm & _)];
      split; [done|]; split; [done|]; rewrite Hm, uuid_Parse_String in Hid; rewrite Hm; congruence.
Qed.

(** C11: The relay's state stays well formed.  Every state that any
    interleaving of logins, API calls, bridges and gateway connections can
    reach satisfies [Sys_ok]: the tables keep the keys and the foreign keys of
    the schema, every registered tunnel is typed by its machine and tenant
    and is being served, no counter passes the cap, and no handler ever holds
    a user and a machine of different tenants. *)
Theorem system_well_formed (s0 s : Sy) (ls : list sys_label) :
  sys_init s0 → sys_run s0 ls s → Sys_ok s.
Proof. apply sys_run_ok. Qed.


Lemma sys_run_app (s0 s1 s2 : Sy) ls1 ls2 : sys_run s0 ls1 s1 → sys_run s1 ls2 s2 → sys_run s0 (ls1 ++ ls2) s2.
Proof.
  intros Hr1 Hr. induction Hr as [s|s ls sa l sb _ IH Hs]; [by rewrite app_nil_r|].
  rewrite app_assoc. econstructor; eauto.
Qed.

(** A machine that is gone, in the next step. *)
Lemma gone_step s0 ls (s s' : Sy) l id :
  sys_init s0 → sys_run s0 ls s → sys_step s l s' →
  ds_spent (db (sy_srv s)) id → machines (ds_view (db (sy_srv s))) !! id = None →
  ds_spent (db (sy_srv s')) id ∧ machines (ds_view (db (sy_srv s'))) !! id = None.
Proof.
  intros H00 Hr Hs Hsp Hn. pose proof (si_db _ _ _ (sys_run_inv _ _ _ H00 Hr)) as Hd.
  pose proof (sys_step_moved _ _ _ Hs) as Hmv. split; [by eapply db_moved_spent|by eapply machine_gone].
Qed.

(** The label of a step that lets a browser on to a machine, or a tunnel in. *)
Definition admits (id : UUID) (l : sys_label (D := D) (A := A)) : Prop :=
  match l with
  | Moved _ _ (Acquiring _ m) => Machine_ID m = id
  | AtGate (Handshake _ user _ _) => user = uuid_String id
  | _ => False
  end.

Lemma admits_stored s0 ls (s s' : Sy) l id :
  sys_init s0 → sys_run s0 ls s → sys_step s l s' → admits id l → is_Some (machines (ds_view (db (sy_srv s))) !! id).
Proof.
  intros H00 Hr Hs Hl. pose proof (sys_run_inv _ _ _ H00 Hr) as Hinv. pose proof (si_db _ _ _ Hinv) as Hd.
  pose proof (sys_inv_step _ _ _ _ _ H00 Hinv Hs) as Hinv'.
  destruct Hs as [s l g Hl' Hg|s o Hpre|s sid mid br Hn|s sid ses pc srv Hses Hn|s a w]; try done.
  - destruct l as [c user key d| | | | | | | |]; try done. cbn in Hl. subst user. inversion Hg as [? ? ? ? ? ? _ _ Hcb| | | | | | | | |]; subst.
    pose proof (wp_run _ _ _ _ _ (PublicKeyCallback_wp _ _ _ Hd) Hcb) as (_ & _ & m & Hm & _ & Hu & _).
    apply uuid_String_inj in Hu. rewrite Hu. by eexists.
  - destruct pc; try done. cbn in Hl. subst id. destruct (acquiring_from _ _ _ _ _ _ _ Hn) as [u0 E]. rewrite E in Hn.
    destruct (next_pc_Loading _ _ _ _ _ _ Hd Hn) as [[e ?]|(m' & Heq & _ & _ & Hrow)]; [done|].
    injection Heq as _ ->. by eexists.
Qed.

Lemma run_gone s0 ls (s s' : Sy) ls' id :
  sys_init s0 → sys_run s0 ls s → ds_spent (db (sy_srv s)) id → machines (ds_view (db (sy_srv s))) !! id = None →
  sys_run s ls' s' →
  ds_spent (db (sy_srv s')) id ∧ machines (ds_view (db (sy_srv s'))) !! id = None ∧ ∀ l, l ∈ ls' → ¬ admits id l.
Proof.
  intros H00 Hr Hsp Hn Hr'. induction Hr' as [s|s ls' s1 l s2 Hr' IH Hs].
  { split; [done|]. split; [done|]. by intros l ?%elem_of_nil. }
  destruct (IH Hr Hsp Hn) as (Hsp1 & Hn1 & Hno). pose proof (sys_run_app _ _ _ _ _ Hr Hr') as Hr1.
  destruct (gone_step _ _ _ _ _ _ H00 Hr1 Hs Hsp1 Hn1) as [Hsp2 Hn2]. split; [done|]. split; [done|].
  intros l' [?|[->|[]%elem_of_nil]%elem_of_cons]%elem_of_app; [by apply Hno|].
  intros Ha. pose proof (admits_stored _ _ _ _ _ _ H00 Hr1 Hs Ha) as Hsome. rewrite Hn1 in Hsome. by destruct Hsome.
Qed.


(** C12: The slots of a machine are exactly its live sessions.  In every state
    the system can reach, the counter of a machine is the number of handlers
    that have acquired a slot for it and not released it, whatever way they
    fail or end, and that number is at most 16; so ended sessions hold
    nothing, and a bridge is refused exactly when 16 are held. *)
Theorem slots_are_sessions (s0 s : Sy) (ls : list sys_label) (id : string) :
  sys_init s0 → sys_run s0 ls s →
  bridge_count id (bridges (sy_srv s)) = held id (sy_sessions s) ∧ held id (sy_sessions s) ≤ 16 ∧
  ((acquire id (bridges (sy_srv s))).1 = false ↔ held id (sy_sessions s) = 16).
Proof.
  intros H00 Hr. destruct (si_counts _ _ _ (sys_run_inv _ _ _ H00 Hr) id) as [E Hle].
  split; [done|]. split; [done|]. unfold acquire, maxBridgesPerMachine. rewrite E.
  destruct (Nat.leb_spec 16 (held id (sy_sessions s))); cbn; split; try done; lia.
Qed.

End system.

(** * A run of the whole *)

#[local] Existing Instances toy_oidc toy_channels toy_jose toy_ssh toy_uuid toy_uuid_ok range_in_order.

Abbreviation ToySys := (Sys (D := Fake) (A := MemoryAuthSessionStore)).

Definition sys0 : ToySys := mkSys (set_tunnels (Some NewRegistry) (server0 false)) ∅ [] ∅.

Lemma sys0_init : sys_init sys0.
Proof. split; [exact fake1_inv|]. by repeat split. Qed.

(** The laptop connects and forwards; then Alice's browser arrives. *)
Definition laptop_gate (p : conn_phase) (d : Fake) (r : Registry) : Gate := mkGate d r (laptop_conn p) [].

Definition forwarded : Registry := mkRegistry {[ "kkkkk" := laptop_tunnel ]} ∅.

Definition sys1 : ToySys := with_gate (laptop_gate Serving (fake_touched fake1) forwarded)
  (with_gate (laptop_gate Serving (fake_touched fake1) NewRegistry) (with_gate (laptop_gate Connected fake1 NewRegistry) sys0)).

Definition laptop_labels : list (sys_label (D := Fake) (A := MemoryAuthSessionStore)) :=
  [AtGate (Handshake 0 "kkkkk" 2 fake1); AtGate (Touch 0); AtGate (GlobalReq 0 forward_request (Some true))].

Lemma laptop_joins : sys_run sys0 laptop_labels sys1.
Proof.
  refine (sys_snoc _ [_; _] _ _ _ (sys_snoc _ [_] _ _ _ (sys_snoc _ [] _ _ _ (sys_nil _)
    (sys_gate sys0 _ (laptop_gate Connected fake1 NewRegistry) _ _)) (sys_gate _ _ (laptop_gate Serving (fake_touched fake1) NewRegistry) _ _))
    (sys_gate _ _ (laptop_gate Serving (fake_touched fake1) forwarded) _ _)); try done.
  - refine (step_handshake (gate_init fake1) 0 "kkkkk" 2 (mkPermissions "kkkkk" "k") fake1 eq_refl _ _).
    + by apply not_elem_of_empty.
    + vm_compute. reflexivity.
  - rewrite gate_of_with_gate. apply laptop_touched.
  - rewrite gate_of_with_gate. apply laptop_forwards.
Qed.

Definition sys2 : ToySys := with_session 7 (mkSession "kkkkk" (browser_of alice) Started) sys1.

Lemma alice_arrives : sys_run sys0 (laptop_labels ++ [Accepted 7 "kkkkk" (browser_of alice)]) sys2.
Proof. refine (sys_snoc _ _ _ _ _ laptop_joins _). constructor. vm_compute. reflexivity. Qed.

Definition sys3 : ToySys := (advance 8 7 sys2).2.
Definition alice_labels : list (sys_label (D := Fake) (A := MemoryAuthSessionStore)) :=
  (laptop_labels ++ [Accepted 7 "kkkkk" (browser_of alice)]) ++ (advance 8 7 sys2).1.

Lemma alice_run : sys_run sys0 alice_labels sys3.
Proof. apply advance_run, alice_arrives. Qed.

(** Alice's handler is piping down the laptop's tunnel, which key 2 opened. *)
Lemma tunnel_end_to_end_witness :
  ∃ ses u m t ch, sy_sessions sys3 !! 7 = Some ses ∧ ses_pc ses = Piping u m t ch ∧ Machine_ID m = 5%N ∧ conn t = 0 ∧
    ∃ key d, AtGate (Handshake (conn t) (uuid_String (Machine_ID m)) key d) ∈ alice_labels ∧
      FingerprintSHA256 key = Machine_Fingerprint m.
Proof.
  assert (∃ ses u m t ch, sy_sessions sys3 !! 7 = Some ses ∧ ses_pc ses = Piping u m t ch ∧ Machine_ID m = 5%N ∧ conn t = 0)
    as (ses & u & m & t & ch & Hses & Hpc & Hm & Ht).
  { eexists _, _, _, _, _. vm_compute. by repeat split. }
  exists ses, u, m, t, ch. split; [exact Hses|]. split; [exact Hpc|]. split; [exact Hm|]. split; [exact Ht|].
  exact (proj2 (proj2 (proj2 (proj2 (tunnel_end_to_end sys0 sys3 alice_labels 7 ses u m t ch sys0_init alice_run Hses Hpc))))).
Defined.

Lemma system_well_formed_witness : sys_run sys0 alice_labels sys3 ∧ Sys_ok sys3.
Proof. split; [exact alice_run|]. exact (system_well_formed sys0 sys3 alice_labels sys0_init alice_run). Defined.

(** IDs that may be written in capitals, too. *)
Definition lax_uuid : UUIDText := {|
  uuid_String := @uuid_String toy_uuid;
  uuid_Parse s := @uuid_Parse toy_uuid (ToLower s)
|}.

Lemma lower_tally n : ToLower (tally n) = tally n.
Proof. induction n as [|n IH]; [done|]. cbn -[lower_byte]. by rewrite IH. Qed.

Lemma lax_uuid_ok : @UUIDTextOk lax_uuid.
Proof. intros id. cbn. by rewrite lower_tally, untally_tally, N2Nat.id. Qed.


Lemma slots_are_sessions_witness :
  held "kkkkk" (sy_sessions sys3) = 1 ∧
  bridge_count "kkkkk" (bridges (sy_srv sys3)) = held "kkkkk" (sy_sessions sys3).
Proof.
  split; [vm_compute; reflexivity|].
  exact (proj1 (slots_are_sessions sys0 sys3 alice_labels "kkkkk" sys0_init alice_run)).
Defined.

(** The machine is deleted before Alice's browser arrives. *)
Definition sys4 : ToySys := with_srv (set_db (run_op (OpDeleteMachine 5) (db (sy_srv sys1))).2 (sy_srv sys1)) sys1.
Definition sys5 : ToySys := with_session 7 (mkSession "kkkkk" (browser_of alice) Started) sys4.

