(* ===== verification/RelayMain.v ===== *)
(** The start of the relay (cmd/relay/main.go): the server made of the
    environment, the providers that are registered, the address and the host
    key it advertises. *)
From Stdlib Require Import ZArith Lia Ascii.
From stdpp Require Import base gmap strings list pretty.
From S2P Require Import Prelude GoStrings StoreSpec FakeStore AuthSession Http Oidc.
From S2P Require Import ApiKey Files SshKeys RelayAuth SshGate GateLoop Scenario Machines Apple.

(** * Addresses (package net) *)

Definition has_byte (c : ascii) (s : string) : bool := negb (no_byte c s).

(** The last colon: what comes before and after it. *)
Fixpoint cut_last (s : string) (c : ascii) : option (string * string) :=
  match s with
  | EmptyString => None
  | String d s =>
      match cut_last s c with
      | Some (a, b) => Some (String d a, b)
      | None => if Ascii.eqb d c then Some (EmptyString, s) else None
      end
  end.

Definition AddrError (msg addr : string) : error := ErrorString ("address " +:+ addr +:+ ": " +:+ msg).

(** [net.SplitHostPort] *)
Definition SplitHostPort (hostport : string) : error + (string * string) :=
  match cut_last hostport ":" with
  | None => inl (AddrError "missing port in address" hostport)
  | Some (before, port) =>
      if HasPrefix hostport "[" then
        let rest := TrimPrefix hostport "[" in
        match Cut rest "]" with
        | None => inl (AddrError "missing ']' in address" hostport)
        | Some (host, after) =>
            if String.eqb after EmptyString then inl (AddrError "missing port in address" hostport)
            else if negb (String.eqb before ("[" +:+ host +:+ "]")) then
              if HasPrefix after ":" then inl (AddrError "too many colons in address" hostport)
              else inl (AddrError "missing port in address" hostport)
            else if has_byte "[" rest then inl (AddrError "unexpected '[' in address" hostport)
            else if has_byte "]" after then inl (AddrError "unexpected ']' in address" hostport)
            else inr (host, port)
        end
      else if has_byte ":" before then inl (AddrError "too many colons in address" hostport)
      else if has_byte "[" hostport then inl (AddrError "unexpected '[' in address" hostport)
      else if has_byte "]" hostport then inl (AddrError "unexpected ']' in address" hostport)
      else inr (before, port)
  end.

(** [net.JoinHostPort] *)
Definition JoinHostPort (host port : string) : string :=
  if has_byte ":" host then "[" +:+ host +:+ "]:" +:+ port else host +:+ ":" +:+ port.

Example SplitHostPort_ex :
  SplitHostPort ":2222" = inr (EmptyString, "2222") ∧ SplitHostPort "[::1]:22" = inr ("::1", "22") ∧
  (∃ e, SplitHostPort "2222" = inl e) ∧ (∃ e, SplitHostPort "::1:22" = inl e) ∧ (∃ e, SplitHostPort "[::1]" = inl e).
Proof. repeat split; try reflexivity; eexists; reflexivity. Qed.

(** ** Split and join *)

Lemma cut_last_app a b c : no_byte c b = true → cut_last (a +:+ String c b) c = Some (a, b).
Proof.
  intros Hb. induction a as [|d a IH]; cbn; [|by rewrite IH].
  assert (cut_last b c = None) as ->; [|by rewrite Ascii.eqb_refl].
  induction b as [|e b IH]; cbn in *; [done|]. apply andb_true_iff in Hb as [He%negb_true_iff Hb]. by rewrite IH, He.
Qed.

Lemma cut_last_Some s c a b : cut_last s c = Some (a, b) → s = a +:+ String c b ∧ no_byte c b = true.
Proof.
  revert a b. induction s as [|d s IH]; intros a b; cbn; [done|].
  destruct (cut_last s c) as [[a' b']|] eqn:Hs.
  - intros [= <- <-]. destruct (IH a' b' eq_refl) as [-> ?]. done.
  - destruct (Ascii.eqb_spec d c) as [->|]; [|done]. intros [= <- <-]. split; [done|]. clear IH.
    induction s as [|e s IH]; cbn in *; [done|]. destruct (cut_last s c) as [[]|]; [done|].
    destruct (Ascii.eqb_spec e c); [done|]. cbn. by apply IH.
Qed.

Lemma no_byte_app c a b : no_byte c (a +:+ b) = no_byte c a && no_byte c b.
Proof. apply all_bytes_app. Qed.

(** What a listen address is split into has no colon or bracket in its port. *)
Lemma SplitHostPort_port s h p :
  SplitHostPort s = inr (h, p) → no_byte ":" p = true ∧ no_byte "[" p = true ∧ no_byte "]" p = true.
Proof.
  unfold SplitHostPort, has_byte. destruct (cut_last s ":") as [[before port]|] eqn:Hc; [|done].
  apply cut_last_Some in Hc as [Hs Hp].
  subst s. destruct (HasPrefix (before +:+ String ":" port) "[") eqn:Hpre.
  - apply HasPrefix_inv in Hpre as [rest Hrest]. rewrite Hrest, TrimPrefix_app.
    destruct (Cut rest "]") as [[host after]|] eqn:Hcut; [|done].
    destruct (String.eqb after EmptyString); [done|].
    destruct (String.eqb_spec before ("[" +:+ host +:+ "]")) as [->|]; cbn [negb]; [|by destruct (HasPrefix after ":")].
    apply Cut_Some in Hcut as [-> Hhost]. rewrite !string_app_assoc in Hrest. cbn in Hrest. injection Hrest as Hrest.
    pose proof (Cut_app host "]" (String ":" port) Hhost) as Hc1.
    rewrite Hrest, (Cut_app host "]" after Hhost) in Hc1. injection Hc1 as ->.
    rewrite !no_byte_app. cbn. fold (no_byte "[" port) (no_byte "]" port). destruct (no_byte "[" port) eqn:Ho; [|by rewrite andb_false_r].
    destruct (no_byte "]" port) eqn:Hcl; [|by destruct (_ && _)]. destruct (negb _); [done|]. by intros [= <- <-].
  - rewrite !no_byte_app. cbn. fold (no_byte "[" port) (no_byte "]" port). destruct (negb (no_byte ":" before)); [done|].
    destruct (no_byte "[" port) eqn:Ho; [|by rewrite andb_false_r].
    destruct (no_byte "]" port) eqn:Hcl; [|rewrite (andb_false_r (no_byte "]" before)); by destruct (negb _)].
    repeat (destruct (negb _); [done|]). by intros [= <- <-].
Qed.

Lemma SplitHostPort_Join h p :
  no_byte "[" h = true → no_byte "]" h = true →
  no_byte ":" p = true → no_byte "[" p = true → no_byte "]" p = true →
  SplitHostPort (JoinHostPort h p) = inr (h, p).
Proof.
  intros Hho Hhc Hp Hpo Hpc. unfold JoinHostPort, SplitHostPort, has_byte.
  destruct (no_byte ":" h) eqn:Hh; cbn [negb].
  - change (":" +:+ p) with (String ":" p). rewrite (cut_last_app h p ":") by done.
    assert (HasPrefix (h +:+ String ":" p) "[" = false) as ->.
    { apply not_true_iff_false. intros [t Ht]%HasPrefix_inv. destruct h as [|c h]; [done|].
      injection Ht as -> _. done. }
    rewrite Hh, !no_byte_app, Hho, Hhc. cbn. fold (no_byte "[" p) (no_byte "]" p). by rewrite Hpo, Hpc.
  - assert ("[" +:+ h +:+ "]:" +:+ p = ("[" +:+ h +:+ "]") +:+ String ":" p) as E by by rewrite !string_app_assoc.
    rewrite E at 1. rewrite cut_last_app by done. rewrite HasPrefix_app, TrimPrefix_app.
    change ("]:" +:+ p) with (String "]" (String ":" p)).
    rewrite (Cut_app h "]" (String ":" p) Hhc). cbn [String.eqb]. rewrite String.eqb_refl. cbn [negb].
    rewrite !no_byte_app, Hho. cbn. fold (no_byte "[" p) (no_byte "]" p). by rewrite Hpo, Hpc.
Qed.

(** * Start-up *)

Section main.
  Context `{OIDC} `{SSH} `{AppleCrypto} `{UUIDText}.
  Context {D : Type}.

(** [hostname]: [url.Parse] followed by [Hostname], [None] for an error of
    the first. *)
Definition sshPublicAddr_of (getenv : string → string) (hostname : string → option string)
    (baseURL sshAddr : string) : string :=
  if negb (String.eqb (getenv "SSH_PUBLIC_ADDR") EmptyString) then getenv "SSH_PUBLIC_ADDR"
  else
    let host :=
      match hostname baseURL with
      | Some h => if negb (String.eqb h EmptyString) then h else "localhost"
      | None => "localhost"
      end in
    let port :=
      match SplitHostPort sshAddr with
      | inr (_, port) => if String.eqb port EmptyString then "2222" else port
      | inl _ => "2222"
      end in
    JoinHostPort host port.

(** A failure to register a provider is only logged. *)
Definition add_logged (cfg : ProviderConfig) (v : gmap string providerEntry) : gmap string providerEntry :=
  (AddProvider cfg v).2.

Definition register_microsoft (getenv : string → string) (v : gmap string providerEntry) : gmap string providerEntry :=
  let clientID := getenv "MICROSOFT_CLIENT_ID" in
  if String.eqb clientID EmptyString then v
  else add_logged (mkConfig "microsoft" "https://login.microsoftonline.com/common/v2.0" clientID
    (getenv "MICROSOFT_CLIENT_SECRET") "https://login.microsoftonline.com/common/oauth2/v2.0/devicecode"
    EmptyString EmptyString None) v.

Definition register_google (getenv : string → string) (v : gmap string providerEntry) : gmap string providerEntry :=
  let clientID := getenv "GOOGLE_CLIENT_ID" in
  if String.eqb clientID EmptyString then v
  else add_logged (mkConfig "google" "https://accounts.google.com" clientID (getenv "GOOGLE_CLIENT_SECRET")
    "https://oauth2.googleapis.com/device/code" EmptyString EmptyString None) v.

Definition register_apple (getenv : string → string) (v : gmap string providerEntry) : gmap string providerEntry :=
  let clientID := getenv "APPLE_CLIENT_ID" in
  let teamID := getenv "APPLE_TEAM_ID" in
  let keyID := getenv "APPLE_KEY_ID" in
  let pkRaw := getenv "APPLE_PRIVATE_KEY" in
  if String.eqb clientID EmptyString then v
  else if String.eqb teamID EmptyString || String.eqb keyID EmptyString || String.eqb pkRaw EmptyString then v
  else
    match ParseP8PrivateKey pkRaw with
    | inl _ => v
    | inr key => add_logged (mkConfig "apple" "https://appleid.apple.com" clientID EmptyString EmptyString teamID keyID (Some key)) v
    end.

Definition providers_of (getenv : string → string) : gmap string providerEntry :=
  register_apple getenv (register_google getenv (register_microsoft getenv NewVerifier)).

Definition env_or (getenv : string → string) (key def : string) : string :=
  if String.eqb (getenv key) EmptyString then def else getenv key.

(** What is running once [main] waits for a signal. *)
Record Relay := mkRelay {
  relay_server : Server D MemoryAuthSessionStore Registry;
  relay_hostKey : Signer;
  relay_addr : string;
  relay_sshAddr : string;
  relay_debug : option (string * string)     (** the debug listener: address, machine *)
}.

(** [main] up to the wait; an error is [os.Exit(1)].  [open_db]:
    [dbstore.New]; [w], [ids]: the random sources; [generated]: the result of
    [ed25519.GenerateKey], should it be needed. *)
Definition relay_main (getenv : string → string) (hostname : string → option string) (open_db : string → error + D)
    (w : World) (ids : nat → option string) (generated : error + Signer) : M FS error Relay :=
  let addr := env_or getenv "ADDR" ":8080" in
  let baseURL := env_or getenv "BASE_URL" "http://localhost:8080" in
  let devMode := negb (String.eqb (getenv "DEV_MODE") EmptyString) in
  if String.eqb (getenv "DATABASE_URL") EmptyString then throw (ErrorString "DATABASE_URL is required")
  else
    let! db := lift (open_db (getenv "DATABASE_URL")) in
    let verifier := providers_of getenv in
    let authSessions := NewMemoryAuthSessionStore (5 * Minute)%Z (w_now w) ids in
    let '(apiKeySecret, w) :=
      if String.eqb (getenv "API_KEY_SECRET") EmptyString
      then (w_rand w (w_rand_pos w), (rand_Read (E := error) w).2)
      else (getenv "API_KEY_SECRET", w) in
    let srv := NewServer baseURL (Some verifier) devMode authSessions apiKeySecret db w in
    let sshAddr := env_or getenv "SSH_ADDR" ":2222" in
    let! hostKey := LoadOrCreateHostKey (env_or getenv "SSH_HOST_KEY_FILE" "/etc/phosphor/ssh_host_key") generated in
    let srv := SetSSHGate NewRegistry (sshPublicAddr_of getenv hostname baseURL sshAddr) (Signer_PublicKey hostKey) srv in
    ret (mkRelay srv hostKey addr sshAddr
      (if negb (String.eqb (getenv "SSH_DEBUG_LISTEN") EmptyString) && devMode
       then Some (getenv "SSH_DEBUG_LISTEN", getenv "SSH_DEBUG_MACHINE") else None)).

(** [runDebugListener]: the tunnels dialled for the connections accepted
    until [Accept] fails. *)
Fixpoint debug_accepts `{SSHChannels} (machineID : string) (evs : list (error + Registry)) : list (error + Channel) :=
  match evs with
  | inr r :: evs => (Registry_Dial machineID r).1 :: debug_accepts machineID evs
  | _ => []
  end.

Definition runDebugListener `{SSHChannels} (machineID : string) (listen : error + unit) (evs : list (error + Registry))
    : list (error + Channel) :=
  if String.eqb machineID EmptyString then []
  else match listen with inl _ => [] | inr _ => debug_accepts machineID evs end.

(** ** The end of [main]

    What the goroutines that [main] has started, and the system, report. *)
Inductive main_event :=
  | Signalled                           (** SIGINT or SIGTERM *)
  | GatewayReturned (r : error + unit)
  | HttpReturned (err : error).

Definition ErrServerClosed : error := ErrorString "http: Server closed".

(** Whether it cancels the context that [main] waits for. *)
Definition cancels (e : main_event) : bool :=
  match e with
  | Signalled => true
  | GatewayReturned r => match r with inl _ => true | inr _ => false end
  | HttpReturned err => negb (bool_decide (err = ErrServerClosed))
  end.

(** What [main] does, in order, once the context is done; a panic when the
    session store had been stopped before. *)
Inductive shutdown_effect := StopSessions | ShutdownHttp (timeout : Duration) | CloseDB.

Definition shutdown (s : MemoryAuthSessionStore) : option (list shutdown_effect * MemoryAuthSessionStore) :=
  match Mem_Stop s with
  | None => None
  | Some s => Some ([StopSessions; ShutdownHttp (10 * Second)%Z; CloseDB], s)
  end.

(** [None] while it waits. *)
Definition main_wait (evs : list main_event) (s : MemoryAuthSessionStore) : option (option (list shutdown_effect * MemoryAuthSessionStore)) :=
  if existsb cancels evs then Some (shutdown s) else None.

(** The relay goes on through a gateway or an HTTP server that ends as it
    should, and stops at a signal or when one of them fails; the clean-up
    goroutine of the sessions is then free to return. *)
Lemma main_wait_stops evs s :
  stopped s = false →
  (main_wait evs s = None ↔ ∀ e, e ∈ evs → cancels e = false) ∧
  ∀ r, main_wait evs s = Some r → ∃ s', r = Some ([StopSessions; ShutdownHttp (10 * Second)%Z; CloseDB], s') ∧
    sessions s' = sessions s ∧ ∀ R : MapRange, cleanup_step s' None.
Proof.
  intros Hs. unfold main_wait, shutdown, Mem_Stop. rewrite Hs. split.
  - destruct (existsb cancels evs) eqn:E; split; try done.
    + intros Hno. apply existsb_exists in E as (e & Hin & He). rewrite Hno in He; [done|by apply list_elem_of_In].
    + intros _ e Hin. destruct (cancels e) eqn:He; [|done]. rewrite <-E. symmetry. apply existsb_exists. exists e.
      split; [by apply list_elem_of_In|done].
  - intros r. destruct (existsb cancels evs); [|done]. intros [= <-]. eexists. split; [reflexivity|]. split; [done|]. intros. by constructor.
Qed.

(** ** What it advertises *)

Definition public_host (hostname : string → option string) (baseURL : string) : string :=
  match hostname baseURL with
  | Some h => if String.eqb h EmptyString then "localhost" else h
  | None => "localhost"
  end.

(** The advertised address.  Unless SSH_PUBLIC_ADDR is set, the address
    CLIs are told to dial splits back into the host of BASE_URL ("localhost"
    when it has none), an IPv6 literal included, and the port the gateway
    listens on (2222 when its listen address has none). *)
Theorem advertised_address (getenv : string → string) (hostname : string → option string) (baseURL sshAddr : string) :
  getenv "SSH_PUBLIC_ADDR" = EmptyString →
  (∀ h, hostname baseURL = Some h → no_byte "[" h = true ∧ no_byte "]" h = true) →
  SplitHostPort (sshPublicAddr_of getenv hostname baseURL sshAddr) =
    inr (public_host hostname baseURL,
         match SplitHostPort sshAddr with
         | inr (_, port) => if String.eqb port EmptyString then "2222" else port
         | inl _ => "2222"
         end).
Proof.
  intros Henv Hhost. unfold sshPublicAddr_of, public_host. rewrite Henv. cbn [negb String.eqb].
  assert (∀ h, no_byte "[" h = true → no_byte "]" h = true →
    SplitHostPort (JoinHostPort h match SplitHostPort sshAddr with
         | inr (_, port) => if String.eqb port EmptyString then "2222" else port
         | inl _ => "2222"
         end) = inr (h, match SplitHostPort sshAddr with
         | inr (_, port) => if String.eqb port EmptyString then "2222" else port
         | inl _ => "2222"
         end)) as Hj.
  { intros h Ho Hc. destruct (SplitHostPort sshAddr) as [|[h' port]] eqn:Hs; [by apply SplitHostPort_Join|].
    apply SplitHostPort_port in Hs as (? & ? & ?).
    destruct (String.eqb port EmptyString); by apply SplitHostPort_Join. }
  destruct (hostname baseURL) as [h|]; [|by apply Hj]. destruct (Hhost h eq_refl).
  by destruct (String.eqb h EmptyString); apply Hj.
Qed.

Lemma relay_main_inv getenv hostname open_db w ids generated f r f' :
  relay_main getenv hostname open_db w ids generated f = (inr r, f') →
  LoadOrCreateHostKey (env_or getenv "SSH_HOST_KEY_FILE" "/etc/phosphor/ssh_host_key") generated f
    = (inr (relay_hostKey r), f') ∧
  sshHostKey (relay_server r) = Some (Signer_PublicKey (relay_hostKey r)) ∧
  sshPublicAddr (relay_server r) = sshPublicAddr_of getenv hostname
    (env_or getenv "BASE_URL" "http://localhost:8080") (env_or getenv "SSH_ADDR" ":2222") ∧
  devMode (relay_server r) = negb (String.eqb (getenv "DEV_MODE") EmptyString) ∧
  tunnels (relay_server r) = Some NewRegistry ∧
  apiKeySecret (relay_server r) =
    (if String.eqb (getenv "API_KEY_SECRET") EmptyString then w_rand w (w_rand_pos w) else getenv "API_KEY_SECRET").
Proof.
  unfold relay_main. destruct (String.eqb (getenv "DATABASE_URL") EmptyString); [done|].
  unfold bind, lift. destruct (open_db _) as [|d]; [done|].
  destruct (String.eqb (getenv "API_KEY_SECRET") EmptyString); cbn -[LoadOrCreateHostKey];
    destruct (LoadOrCreateHostKey _ _ _) as [[|k] f1]; try done; by intros [= <- <-].
Qed.


End main.

#[local] Existing Instances toy_oidc toy_ssh toy_ssh_ok toy_uuid toy_apple.

Definition env1 (key : string) : string :=
  if String.eqb key "DATABASE_URL" then "postgres://db"
  else if String.eqb key "SSH_ADDR" then "[::]:2200"
  else if String.eqb key "GOOGLE_CLIENT_ID" then "client"
  else EmptyString.

Definition host1 (url : string) : option string := Some "relay.example".

Lemma advertised_address_witness :
  SplitHostPort (sshPublicAddr_of env1 host1 "https://relay.example/" "[::]:2200") = inr ("relay.example", "2200").
Proof.
  refine (advertised_address env1 host1 "https://relay.example/" "[::]:2200" eq_refl _). by intros h [= <-].
Defined.

(** A first start with key 3, then one that would have generated key 7. *)
Definition files0 : FS := mkFS ∅ (λ _, None) [] (inr "/root") None.

Definition start (gen : nat) (f : FS) : (error + Relay) * FS :=
  relay_main env1 host1 (λ _, inr fake1) world0 (λ _, None) (inr gen) f.

Definition key_of (r : error + @Relay toy_oidc toy_ssh Fake) : nat :=
  match r with inr r => relay_hostKey r | inl _ => 0 end.

