(* ===== verification/CliTunnel.v ===== *)
(** The CLI's reverse tunnel (internal/cli/tunnel.go): the reconnection loop
    with its backoff, the keepalives, and how they fit the gateway's idle
    deadline. *)
From Stdlib Require Import ZArith Lia.
From stdpp Require Import base strings list.
From S2P Require Import Prelude GoStrings Http Files SshKeys GateLoop.

Definition keepaliveInterval : Duration := (30 * Second)%Z.
Definition keepaliveTimeout : Duration := (15 * Second)%Z.
Definition maxBackoff : Duration := (60 * Second)%Z.
Definition defaultSSHDAddr : string := "127.0.0.1:22".

(** [MachineConfig] of machinekey.go *)
Record MachineConfig := mkMachineConfig {
  Config_MachineID : string;
  Config_RelayURL : string;
  Config_SSHAddr : string;
  Config_HostKey : string;
  Config_SSHDAddr : string
}.

(** * One connection *)

(** The outcomes of [listener.Accept()]: a channel; or an error, with
    [io.EOF] apart, and [connCtx.Err() != nil] then. *)
Inductive tunnel_accept :=
  | TunnelChannel (ch : nat)
  | TunnelEOF
  | TunnelError (err : error) (cancelled : bool).

(** The channels bridged to the local sshd, and what [runTunnelOnce] returns
    ([None] is nil). *)
Fixpoint tunnel_loop (evs : list tunnel_accept) : list nat * option (option error) :=
  match evs with
  | [] => ([], None)
  | TunnelChannel ch :: evs => let '(chs, r) := tunnel_loop evs in (ch :: chs, r)
  | TunnelEOF :: _ => ([], Some None)
  | TunnelError err cancelled :: _ => ([], Some (if (cancelled : bool) then None else Some err))
  end.

Definition runTunnelOnce (SSHAddr : string) (dial listen : error + unit) (evs : list tunnel_accept) : list nat * option (option error) :=
  match dial with
  | inl err => ([], Some (Some (WrapError ("dialing gateway " +:+ SSHAddr) err)))
  | inr _ =>
      match listen with
      | inl err => ([], Some (Some (WrapError "requesting reverse forward" err)))
      | inr _ => tunnel_loop evs
      end
  end.

(** What [bridgeToSSHD] does with a channel. *)
Inductive bridge_event := DialSSHD (addr : string) | CopyBoth | CloseLocal | CloseChannel.

Definition bridgeToSSHD (sshdAddr : string) (dial : error + unit) : list bridge_event :=
  DialSSHD sshdAddr ::
  match dial with
  | inl _ => [CloseChannel]
  | inr _ => [CopyBoth; CloseLocal; CloseChannel]
  end.

(** * Reconnection *)

(** [rand.Int63n(n)] for a draw of the generator: a value in [0, n). *)
Definition Int63n (draw n : Z) : Z := (draw mod n)%Z.

(** [backoff/2 + time.Duration(rand.Int63n(int64(backoff)))] *)
Definition jittered (draw : Z) (backoff : Duration) : Duration :=
  (backoff / 2 + Int63n draw backoff)%Z.

Definition next_backoff (backoff : Duration) : Duration :=
  let b := (backoff * 2)%Z in if Z.ltb maxBackoff b then maxBackoff else b.

(** One turn of the loop of [RunTunnel]: what [runTunnelOnce] returned,
    [ctx.Err() != nil] after it, the random draw, and whether [ctx] is done
    before the delay is over. *)
Record tunnel_round := mkRound {
  round_once : option error;
  round_cancelled : bool;
  round_draw : Z;
  round_woken : bool
}.

(** The delays slept, and whether the loop has returned (always nil). *)
Fixpoint reconnect (backoff : Duration) (rounds : list tunnel_round) : list Duration * bool :=
  match rounds with
  | [] => ([], false)
  | r :: rounds =>
      if round_cancelled r then ([], true)
      else
        let delay := jittered (round_draw r) backoff in
        if round_woken r then ([delay], true)
        else let '(ds, fin) := reconnect (next_backoff backoff) rounds in (delay :: ds, fin)
  end.

Section tunnel.
  Context `{SSH}.

(** The address [RunTunnel] exposes. *)
Definition sshd_addr (opt : string) (m : MachineConfig) : string :=
  let a := if String.eqb opt EmptyString then Config_SSHDAddr m else opt in
  if String.eqb a EmptyString then defaultSSHDAddr else a.

(** [RunTunnel]: the error it returns at once, or its loop. *)
Definition RunTunnel (opt : string) (m : MachineConfig) (rounds : list tunnel_round)
    : error + (PublicKey * string * (list Duration * bool)) :=
  match ParseAuthorizedKey (Config_HostKey m) with
  | inl err => inl (WrapError "parsing pinned gateway host key" err)
  | inr hostKey => inr (hostKey, sshd_addr opt m, reconnect Second rounds)
  end.

End tunnel.

(** ** The backoff *)

Definition backoff_at (n : nat) : Duration := Nat.iter n next_backoff Second.

Lemma next_backoff_bounds b : (Second ≤ b ≤ maxBackoff → Second ≤ next_backoff b ≤ maxBackoff)%Z.
Proof. unfold next_backoff, maxBackoff, Second. destruct (Z.ltb_spec (60 * 1000000000) (b * 2)); lia. Qed.

Lemma backoff_at_bounds n : (Second ≤ backoff_at n ≤ maxBackoff)%Z.
Proof.
  unfold backoff_at. induction n as [|n IH]; [unfold maxBackoff, Second; simpl; lia|].
  by apply next_backoff_bounds.
Qed.

(** The backoff doubles up to the cap. *)
Lemma backoff_at_eq n : backoff_at n = Z.min (2 ^ Z.of_nat n * Second) maxBackoff.
Proof.
  induction n as [|n IH]; [done|]. change (backoff_at (S n)) with (next_backoff (backoff_at n)).
  rewrite IH, Nat2Z.inj_succ, Z.pow_succ_r by lia. unfold next_backoff.
  assert (1 ≤ 2 ^ Z.of_nat n)%Z by (apply (Z.pow_le_mono_r 2 0); lia).
  unfold maxBackoff, Second. destruct (Z.ltb_spec (60 * 1000000000) (Z.min (2 ^ Z.of_nat n * 1000000000) (60 * 1000000000) * 2)); lia.
Qed.

Lemma backoff_iter b n : Nat.iter n next_backoff (next_backoff b) = next_backoff (Nat.iter n next_backoff b).
Proof. induction n as [|n IH]; simpl; [done|]. by rewrite IH. Qed.

Lemma reconnect_delays b rounds i d :
  (reconnect b rounds).1 !! i = Some d →
  ∃ r, rounds !! i = Some r ∧ round_cancelled r = false ∧ d = jittered (round_draw r) (Nat.iter i next_backoff b).
Proof.
  revert b i. induction rounds as [|r rounds IH]; intros b i; simpl; [done|].
  destruct (round_cancelled r) eqn:Hc; [done|]. destruct (round_woken r).
  - destruct i as [|i]; simpl; [|done]. intros [= <-]. by exists r.
  - specialize (IH (next_backoff b)). destruct (reconnect (next_backoff b) rounds) as [ds fin]. simpl in *.
    destruct i as [|i]; simpl; [intros [= <-]; by exists r|].
    intros (r' & ? & ? & ->)%IH. exists r'. by rewrite backoff_iter.
Qed.

Lemma reconnect_returns b rounds :
  (reconnect b rounds).2 = existsb (λ r, round_cancelled r || round_woken r) rounds.
Proof.
  revert b. induction rounds as [|r rounds IH]; intros b; simpl; [done|].
  destruct (round_cancelled r); [done|]. destruct (round_woken r); [done|]. simpl.
  rewrite <-(IH (next_backoff b)). by destruct (reconnect _ _).
Qed.

(** Reconnection.  The n-th wait is drawn from the upper half-open
    interval from half to one and a half times min(2^n, 60) seconds, so
    between half a second and 90 seconds, whatever the failures were and
    however long the tunnel was up before them (a healthy connection does not
    reset the backoff); and the loop returns, without an error, exactly when
    the context is cancelled. *)
Theorem reconnect_backoff (rounds : list tunnel_round) (i : nat) (d : Duration) :
  ((reconnect Second rounds).2 = true ↔ ∃ r, r ∈ rounds ∧ (round_cancelled r = true ∨ round_woken r = true)) ∧
  ((reconnect Second rounds).1 !! i = Some d →
    let b := Z.min (2 ^ Z.of_nat i * Second) maxBackoff in
    b / 2 ≤ d < b / 2 + b ∧ 500000000 ≤ d < 90 * Second)%Z.
Proof.
  split.
  - rewrite reconnect_returns, existsb_exists. split; intros (r & Hin & Hr); exists r;
      (split; [by apply list_elem_of_In|]); [by apply orb_true_iff in Hr|by apply orb_true_iff].
  - intros (r & _ & _ & ->)%reconnect_delays. cbn zeta. rewrite <-backoff_at_eq.
    change (Nat.iter i next_backoff Second) with (backoff_at i).
    pose proof (backoff_at_bounds i) as Hb. unfold jittered, Int63n.
    unfold maxBackoff, Second in *.
    pose proof (Z.mod_pos_bound (round_draw r) (backoff_at i) ltac:(lia)) as Hm.
    generalize dependent (round_draw r mod backoff_at i)%Z. generalize dependent (backoff_at i).
    intros b Hb x Hx. pose proof (Z.div_mod b 2 ltac:(lia)). pose proof (Z.mod_pos_bound b 2 ltac:(lia)). lia.
Qed.

(** * Keepalives *)

(** What becomes of the keepalive of a tick: the gateway receives it after a
    delay and the reply comes in time; the request fails after a while; or no
    reply comes. *)
Inductive keepalive :=
  | Replied (arrival : Duration)
  | KeepaliveError (after : Duration)
  | NoReply.

(** The keepalives from tick [k] on: when they reach the gateway, and when the
    client is closed, if it is.  A reply is waited for no longer than
    [keepaliveTimeout], less than the ticker's interval, so no tick is lost. *)
Fixpoint keepalives (k : Z) (evs : list keepalive) : list Time * option Time :=
  match evs with
  | [] => ([], None)
  | e :: evs =>
      let tick := (k * keepaliveInterval)%Z in
      match e with
      | Replied arrival => let '(ts, c) := keepalives (k + 1) evs in ((tick + arrival)%Z :: ts, c)
      | KeepaliveError after => ([], Some (tick + after)%Z)
      | NoReply => ([], Some (tick + keepaliveTimeout)%Z)
      end
  end.

(** The delays are those of a reply, or an error, within the timeout. *)
Definition timely (e : keepalive) : Prop :=
  match e with
  | Replied d | KeepaliveError d => (0 ≤ d < keepaliveTimeout)%Z
  | NoReply => True
  end.

Definition answered (e : keepalive) : bool := match e with Replied _ => true | _ => false end.

Lemma keepalives_pauses k evs last :
  Forall timely evs → ((k - 1) * keepaliveInterval ≤ last)%Z →
  pauses_below idleTimeout last ((λ t, (t, 1)) <$> (keepalives k evs).1).
Proof.
  revert k last. induction evs as [|e evs IH]; intros k last; simpl; [done|].
  intros [He Hevs]%Forall_cons Hlast. destruct e as [d| |]; simpl; [|done|done].
  specialize (IH (k + 1)%Z (k * keepaliveInterval + d)%Z Hevs).
  destruct (keepalives (k + 1) evs) as [ts c]. simpl in *.
  unfold idleTimeout, keepaliveInterval, keepaliveTimeout, Second in *.
  split; [lia|]. split; [lia|]. apply IH. lia.
Qed.

Lemma keepalives_closed k before e after :
  forallb answered before = true → answered e = false → Forall timely (before ++ [e]) →
  ∃ c, (keepalives k (before ++ e :: after)).2 = Some c ∧
    ((k + Z.of_nat (length before)) * keepaliveInterval ≤ c ≤
     (k + Z.of_nat (length before)) * keepaliveInterval + keepaliveTimeout)%Z.
Proof.
  revert k. induction before as [|b before IH]; intros k Hb He Ht; simpl in *.
  - apply Forall_cons in Ht as [Ht _]. rewrite Z.add_0_r. unfold keepaliveTimeout, keepaliveInterval, Second in *.
    destruct e as [d|d|]; simpl in *; [done|exists (k * (30 * 1000000000) + d)%Z|exists (k * (30 * 1000000000) + 15 * 1000000000)%Z];
      (split; [done|]); unfold keepaliveTimeout, Second in *; lia.
  - apply andb_true_iff in Hb as [Hb Hbs]. apply Forall_cons in Ht as [_ Ht].
    destruct (IH (k + 1)%Z Hbs He Ht) as (c & Hc & Hbound). destruct b; simpl in *; [|done|done].
    destruct (keepalives (k + 1) (before ++ e :: after)) as [ts c'] eqn:E. simpl in *. exists c.
    split; [done|]. lia.
Qed.

(** Keepalives keep a healthy tunnel and find a dead one.  As long as the
    keepalives reach the gateway within the reply timeout, the gateway's
    90-second idle deadline never ends the connection, whatever the delays;
    and when the keepalive of some tick is the first without a reply, the
    client is closed no later than 15 seconds after that tick. *)
Theorem keepalive_vs_idle (evs before after : list keepalive) (e : keepalive) :
  Forall timely evs →
  is_Some (idle_run ((λ t, (t, 1)) <$> (keepalives 1 evs).1) (idle_start 0)) ∧
  (evs = before ++ e :: after → forallb answered before = true → answered e = false →
    ∃ c, (keepalives 1 evs).2 = Some c ∧
      (0 ≤ c - (1 + Z.of_nat (length before)) * keepaliveInterval ≤ keepaliveTimeout)%Z).
Proof.
  intros Ht. split.
  - apply (idle_run_alive _ _ 0); [done|]. apply keepalives_pauses; [done|]. unfold keepaliveInterval. lia.
  - intros -> Hb He. destruct (keepalives_closed 1 before e after Hb He) as (c & Hc & Hbound).
    + apply Forall_app in Ht as [? [? _]%Forall_cons]. apply Forall_app. auto.
    + exists c. split; [done|]. lia.
Qed.

Lemma keepalive_vs_idle_witness :
  let evs := [Replied (14 * Second); Replied 0; Replied (14 * Second); NoReply]%Z in
  is_Some (idle_run ((λ t, (t, 1)) <$> (keepalives 1 evs).1) (idle_start 0)) ∧
  (keepalives 1 evs).2 = Some (135 * Second)%Z.
Proof.
  intros evs. split; [|vm_compute; reflexivity].
  refine (proj1 (keepalive_vs_idle evs [] [] NoReply _)).
  repeat constructor; vm_compute; congruence.
Defined.
