(* ===== verification/SshdBridge.v ===== *)
(** One session of the tunnel on the machine's side: a forwarded channel
    joined to the local sshd ([bridgeToSSHD] of internal/cli/tunnel.go).

    Two goroutines copy, one each way, and the function waits for the first
    of them, or for the context, and then closes both connections.  Each is
    cut at the operations the others can see; the peers send bytes and close
    at any time. *)
From Stdlib Require Import ZArith Lia Ascii.
From stdpp Require Import base strings list.
From S2P Require Import Prelude GoStrings CliTunnel.

(** * State *)

(** [io.Copy(local, ch)] and [io.Copy(ch, local)]. *)
Inductive direction := ToSshd | ToChannel.

#[export] Instance direction_eq_dec : EqDecision direction.
Proof. solve_decision. Defined.

(** In [Read], in [Write], after [io.Copy] (where the first copy closes the
    writing side of [local]), at [done <- struct{}{}], returned. *)
Inductive copy_pc := CopyRead | CopyWrite (buf : string) | CopyEnd | CopySend | CopyGone.

(** A copy, and the stream it reads: the bytes that have come and are not
    read yet, and whether no more will come. *)
Record copy := mkCopy {
  cp_pc : copy_pc;
  cp_pending : string;
  cp_eof : bool;
  cp_in : string;
  cp_out : string
}.

(** The function: in its [select], at the two deferred closings, returned. *)
Inductive bridge_pc := InSelect | ClosingLocal | ClosingChannel | BridgeReturned.

#[export] Instance bridge_pc_eq_dec : EqDecision bridge_pc.
Proof. solve_decision. Defined.

Record sshd_bridge := mkSshdBridge {
  to_sshd : copy;
  to_channel : copy;
  local_closed : bool;
  channel_closed : bool;
  write_closed : bool;       (** [local.CloseWrite] was called *)
  b_done : nat;              (** values in the channel [done] *)
  b_cancelled : bool;        (** [ctx.Done()] *)
  b_pc : bridge_pc
}.

Definition copy_of (d : direction) (b : sshd_bridge) : copy :=
  match d with ToSshd => to_sshd b | ToChannel => to_channel b end.

Definition set_copy (d : direction) (c : copy) (b : sshd_bridge) : sshd_bridge :=
  match d with
  | ToSshd => mkSshdBridge c (to_channel b) (local_closed b) (channel_closed b) (write_closed b) (b_done b) (b_cancelled b) (b_pc b)
  | ToChannel => mkSshdBridge (to_sshd b) c (local_closed b) (channel_closed b) (write_closed b) (b_done b) (b_cancelled b) (b_pc b)
  end.

Definition goto (d : direction) (pc : copy_pc) (b : sshd_bridge) : sshd_bridge :=
  let c := copy_of d b in set_copy d (mkCopy pc (cp_pending c) (cp_eof c) (cp_in c) (cp_out c)) b.

Definition CloseWrite (b : sshd_bridge) : sshd_bridge :=
  mkSshdBridge (to_sshd b) (to_channel b) (local_closed b) (channel_closed b) true (b_done b) (b_cancelled b) (b_pc b).
Definition set_done (n : nat) (b : sshd_bridge) : sshd_bridge :=
  mkSshdBridge (to_sshd b) (to_channel b) (local_closed b) (channel_closed b) (write_closed b) n (b_cancelled b) (b_pc b).
Definition set_cancelled (b : sshd_bridge) : sshd_bridge :=
  mkSshdBridge (to_sshd b) (to_channel b) (local_closed b) (channel_closed b) (write_closed b) (b_done b) true (b_pc b).
Definition set_pc (pc : bridge_pc) (b : sshd_bridge) : sshd_bridge :=
  mkSshdBridge (to_sshd b) (to_channel b) (local_closed b) (channel_closed b) (write_closed b) (b_done b) (b_cancelled b) pc.
Definition close_local (b : sshd_bridge) : sshd_bridge :=
  mkSshdBridge (to_sshd b) (to_channel b) true (channel_closed b) (write_closed b) (b_done b) (b_cancelled b) (b_pc b).
Definition close_channel (b : sshd_bridge) : sshd_bridge :=
  mkSshdBridge (to_sshd b) (to_channel b) (local_closed b) true (write_closed b) (b_done b) (b_cancelled b) (b_pc b).

Definition source_closed (d : direction) (b : sshd_bridge) : bool :=
  match d with ToSshd => channel_closed b | ToChannel => local_closed b end.
Definition target_closed (d : direction) (b : sshd_bridge) : bool :=
  match d with ToSshd => local_closed b | ToChannel => channel_closed b end.

Definition copy0 : copy := mkCopy CopyRead EmptyString false EmptyString EmptyString.

(** Once the local sshd has been reached. *)
Definition sshd_bridge_init : sshd_bridge := mkSshdBridge copy0 copy0 false false false 0 false InSelect.

(** * Steps *)

Inductive bridge_action :=
  | Arrive (d : direction) (bytes : string)     (** a peer sends *)
  | PeerEOF (d : direction)                     (** a peer sends no more *)
  | CopyIn (d : direction) (n : nat)            (** [Read] gives [n] bytes *)
  | CopyEOF (d : direction)                     (** [Read] gives [io.EOF] *)
  | CopyFail (d : direction)                    (** [Read] gives another error *)
  | CopyOut (d : direction) (ok : bool) (n : nat)   (** [Write]; of a failed one, [n] bytes were written *)
  | AfterCopy (d : direction)
  | SendDone (d : direction)
  | CancelCtx
  | BridgeNext.

Definition with_stream (d : direction) (pending : string) (eof : bool) (b : sshd_bridge) : sshd_bridge :=
  let c := copy_of d b in set_copy d (mkCopy (cp_pc c) pending eof (cp_in c) (cp_out c)) b.

(** One step; [None] when it cannot be taken. *)
Definition bridge_exec (a : bridge_action) (b : sshd_bridge) : option sshd_bridge :=
  match a with
  | Arrive d bytes =>
      let c := copy_of d b in
      if cp_eof c then None else Some (with_stream d (cp_pending c +:+ bytes) false b)
  | PeerEOF d => let c := copy_of d b in Some (with_stream d (cp_pending c) true b)
  | CopyIn d n =>
      let c := copy_of d b in
      match cp_pc c with
      | CopyRead =>
          if negb (source_closed d b) && (0 <? n) && (n <=? String.length (cp_pending c)) then
            let buf := string_take n (cp_pending c) in
            Some (set_copy d (mkCopy (CopyWrite buf) (string_drop n (cp_pending c)) (cp_eof c) (cp_in c +:+ buf) (cp_out c)) b)
          else None
      | _ => None
      end
  | CopyEOF d =>
      let c := copy_of d b in
      match cp_pc c with
      | CopyRead =>
          if negb (source_closed d b) && cp_eof c && String.eqb (cp_pending c) EmptyString then Some (goto d CopyEnd b) else None
      | _ => None
      end
  | CopyFail d =>
      match cp_pc (copy_of d b) with CopyRead => Some (goto d CopyEnd b) | _ => None end
  | CopyOut d ok n =>
      let c := copy_of d b in
      match cp_pc c with
      | CopyWrite buf =>
          if ok then
            if target_closed d b then None
            else Some (set_copy d (mkCopy CopyRead (cp_pending c) (cp_eof c) (cp_in c) (cp_out c +:+ buf)) b)
          else Some (set_copy d (mkCopy CopyEnd (cp_pending c) (cp_eof c) (cp_in c) (cp_out c +:+ string_take n buf)) b)
      | _ => None
      end
  | AfterCopy d =>
      match cp_pc (copy_of d b) with
      | CopyEnd => Some (goto d CopySend (match d with ToSshd => CloseWrite b | ToChannel => b end))
      | _ => None
      end
  | SendDone d =>
      match cp_pc (copy_of d b) with
      | CopySend => if b_done b <? 2 then Some (goto d CopyGone (set_done (S (b_done b)) b)) else None
      | _ => None
      end
  | CancelCtx => Some (set_cancelled b)
  | BridgeNext =>
      match b_pc b with
      | InSelect =>
          if 0 <? b_done b then Some (set_pc ClosingLocal (set_done (Nat.pred (b_done b)) b))
          else if b_cancelled b then Some (set_pc ClosingLocal b) else None
      | ClosingLocal => Some (set_pc ClosingChannel (close_local b))
      | ClosingChannel => Some (set_pc BridgeReturned (close_channel b))
      | BridgeReturned => None
      end
  end.

Fixpoint bridge_execs (ls : list bridge_action) (b : sshd_bridge) : option sshd_bridge :=
  match ls with
  | [] => Some b
  | a :: ls => match bridge_exec a b with Some b' => bridge_execs ls b' | None => None end
  end.

(** A run, with its steps in order. *)
Inductive bridge_run : list bridge_action → sshd_bridge → Prop :=
  | bridge_start : bridge_run [] sshd_bridge_init
  | bridge_snoc ls b a b' : bridge_run ls b → bridge_exec a b = Some b' → bridge_run (ls ++ [a]) b'.

Lemma bridge_execs_run pre ls b b' : bridge_run pre b → bridge_execs ls b = Some b' → bridge_run (pre ++ ls) b'.
Proof.
  revert pre b. induction ls as [|a ls IH]; intros pre b Hr; simpl.
  - intros [= <-]. by rewrite app_nil_r.
  - destruct (bridge_exec a b) as [b1|] eqn:E; [|done]. intros Hls.
    replace (pre ++ a :: ls) with ((pre ++ [a]) ++ ls) by (by rewrite <-app_assoc).
    eapply IH; [|done]. by econstructor.
Qed.

(** * The streams *)

(** The bytes that came from the source of a copy. *)
Fixpoint arrived (d : direction) (ls : list bridge_action) : string :=
  match ls with
  | [] => EmptyString
  | Arrive e bytes :: ls => (if decide (e = d) then bytes else EmptyString) +:+ arrived d ls
  | _ :: ls => arrived d ls
  end.

Definition arrives (d : direction) (a : bridge_action) : string :=
  match a with Arrive e bytes => if decide (e = d) then bytes else EmptyString | _ => EmptyString end.

Lemma arrived_snoc d ls a : arrived d (ls ++ [a]) = arrived d ls +:+ arrives d a.
Proof.
  induction ls as [|b ls IH]; simpl.
  - destruct a; simpl; by rewrite ?string_app_nil_r.
  - destruct b; rewrite ?IH, ?string_app_assoc; done.
Qed.

(** A read or a write of a copy failed. *)
Definition copy_failed (d : direction) (ls : list bridge_action) : Prop :=
  CopyFail d ∈ ls ∨ ∃ n, CopyOut d false n ∈ ls.

Definition in_flight (pc : copy_pc) : string := match pc with CopyWrite buf => buf | _ => EmptyString end.

Definition copying (pc : copy_pc) : bool := match pc with CopyRead | CopyWrite _ => true | _ => false end.

(** A copy that has passed on all that came and will ever come. *)
Definition complete (c : copy) : Prop := cp_eof c = true ∧ cp_pending c = EmptyString ∧ cp_out c = cp_in c.

Record copy_ok (d : direction) (ls : list bridge_action) (c : copy) : Prop := {
  co_arrived : arrived d ls = cp_in c +:+ cp_pending c;
  co_prefix : ∃ rest, cp_in c = cp_out c +:+ rest;
  co_copying : copying (cp_pc c) = true → cp_in c = cp_out c +:+ in_flight (cp_pc c);
  co_ended : copying (cp_pc c) = false → copy_failed d ls ∨ complete c
}.

Lemma copy_failed_snoc d ls a : copy_failed d ls → copy_failed d (ls ++ [a]).
Proof. intros [?|[n ?]]; [left|right; exists n]; apply elem_of_app; by left. Qed.

Lemma copy_of_set d e c b : copy_of d (set_copy e c b) = if decide (d = e) then c else copy_of d b.
Proof. by destruct d, e. Qed.

(** What a step does to a copy. *)
Inductive copy_step (a : bridge_action) (d : direction) (c : copy) : copy → Prop :=
  | cs_same : arrives d a = EmptyString → copy_step a d c c
  | cs_arrive bytes : a = Arrive d bytes → cp_eof c = false →
      copy_step a d c (mkCopy (cp_pc c) (cp_pending c +:+ bytes) false (cp_in c) (cp_out c))
  | cs_eof : a = PeerEOF d → copy_step a d c (mkCopy (cp_pc c) (cp_pending c) true (cp_in c) (cp_out c))
  | cs_read n : a = CopyIn d n → cp_pc c = CopyRead →
      copy_step a d c (mkCopy (CopyWrite (string_take n (cp_pending c))) (string_drop n (cp_pending c)) (cp_eof c)
        (cp_in c +:+ string_take n (cp_pending c)) (cp_out c))
  | cs_read_eof : a = CopyEOF d → cp_pc c = CopyRead → cp_eof c = true → cp_pending c = EmptyString →
      copy_step a d c (mkCopy CopyEnd (cp_pending c) (cp_eof c) (cp_in c) (cp_out c))
  | cs_read_fail : a = CopyFail d → cp_pc c = CopyRead →
      copy_step a d c (mkCopy CopyEnd (cp_pending c) (cp_eof c) (cp_in c) (cp_out c))
  | cs_write buf n : a = CopyOut d true n → cp_pc c = CopyWrite buf →
      copy_step a d c (mkCopy CopyRead (cp_pending c) (cp_eof c) (cp_in c) (cp_out c +:+ buf))
  | cs_write_fail buf n : a = CopyOut d false n → cp_pc c = CopyWrite buf →
      copy_step a d c (mkCopy CopyEnd (cp_pending c) (cp_eof c) (cp_in c) (cp_out c +:+ string_take n buf))
  | cs_after : a = AfterCopy d → cp_pc c = CopyEnd →
      copy_step a d c (mkCopy CopySend (cp_pending c) (cp_eof c) (cp_in c) (cp_out c))
  | cs_send : a = SendDone d → cp_pc c = CopySend →
      copy_step a d c (mkCopy CopyGone (cp_pending c) (cp_eof c) (cp_in c) (cp_out c)).

Ltac bridge_cases :=
  repeat match goal with
  | H : bridge_exec ?a _ = Some _ |- _ => destruct a; cbn [bridge_exec] in H
  | H : ?t = Some _ |- _ =>
      match t with context [match ?x with _ => _ end] => destruct x eqn:?; try discriminate end
  end; simplify_eq.

Lemma bridge_exec_copy a b b' d : bridge_exec a b = Some b' → copy_step a d (copy_of d b) (copy_of d b').
Proof.
  intros He. bridge_cases; try (destruct d; by apply cs_same);
    unfold goto, with_stream; cbn [bridge_exec]; rewrite ?copy_of_set;
    try (destruct (decide _) as [->|]; [|apply cs_same; cbn; by rewrite ?decide_False by congruence]).
  - by apply cs_arrive.
  - by apply cs_eof.
  - by apply cs_read.
  - match goal with H : _ && _ && _ = true |- _ => apply andb_true_iff in H as [[_ ?]%andb_true_iff ?%String.eqb_eq] end. by apply cs_read_eof.
  - by apply cs_read_fail.
  - by eapply cs_write.
  - by eapply cs_write_fail.
  - by apply cs_after.
  - by apply cs_after.
  - destruct d0; by apply cs_send.
Qed.

Lemma copy_ok_step a d ls c c' : copy_ok d ls c → copy_step a d c c' → copy_ok d (ls ++ [a]) c'.
Proof.
  intros [Ha [rest Hp] Hc He] Hs. destruct Hs as [Hn|bytes -> Heof| -> |n -> Hpc| -> Hpc Heof Hpend| -> Hpc|buf n -> Hpc|buf n -> Hpc| -> Hpc| -> Hpc];
    split; rewrite ?arrived_snoc; cbn; rewrite ?decide_True by done; rewrite ?string_app_nil_r.
  - by rewrite Hn, string_app_nil_r.
  - by exists rest.
  - done.
  - intros H. destruct (He H); [left; by apply copy_failed_snoc|by right].
  - by rewrite Ha, string_app_assoc.
  - by exists rest.
  - done.
  - intros H. destruct (He H) as [?|[? _]]; [left; by apply copy_failed_snoc|congruence].
  - done.
  - by exists rest.
  - done.
  - intros H. destruct (He H) as [?|(? & ? & ?)]; [left; by apply copy_failed_snoc|by right].
  - by rewrite Ha, string_app_assoc, string_take_drop.
  - exists (rest +:+ string_take n (cp_pending c)). by rewrite Hp, string_app_assoc.
  - intros _. rewrite Hpc in Hc. rewrite (Hc eq_refl). cbn. by rewrite string_app_nil_r.
  - done.
  - done.
  - by exists rest.
  - done.
  - intros _. right. split; [done|]. split; [done|]. rewrite Hpc in Hc. rewrite (Hc eq_refl). cbn. by rewrite string_app_nil_r.
  - done.
  - by exists rest.
  - done.
  - intros _. left. left. apply elem_of_app. right. left.
  - done.
  - exists EmptyString. rewrite Hpc in Hc. rewrite (Hc eq_refl). cbn. by rewrite string_app_nil_r.
  - intros _. rewrite Hpc in Hc. rewrite (Hc eq_refl). done.
  - done.
  - done.
  - exists (string_drop n buf). rewrite Hpc in Hc. rewrite (Hc eq_refl). cbn. by rewrite string_app_assoc, string_take_drop.
  - done.
  - intros _. left. right. exists n. apply elem_of_app. right. left.
  - done.
  - by exists rest.
  - done.
  - intros _. rewrite Hpc in He. destruct (He eq_refl); [left; by apply copy_failed_snoc|by right].
  - done.
  - by exists rest.
  - done.
  - intros _. rewrite Hpc in He. destruct (He eq_refl); [left; by apply copy_failed_snoc|by right].
Qed.

(** * The goroutines *)

Definition gone (c : copy) : nat := match cp_pc c with CopyGone => 1 | _ => 0 end.

(** [done] holds a value for every copy that has returned, less the one the
    [select] has taken. *)
Record bridge_ok (ls : list bridge_action) (b : sshd_bridge) : Prop := {
  bo_copies : ∀ d, copy_ok d ls (copy_of d b);
  bo_done : b_done b ≤ gone (to_sshd b) + gone (to_channel b);
  bo_select : b_pc b = InSelect → b_done b = gone (to_sshd b) + gone (to_channel b);
  bo_reason : b_pc b ≠ InSelect → CancelCtx ∈ ls ∨ ∃ d, cp_pc (copy_of d b) = CopyGone;
  bo_cancelled : b_cancelled b = true → CancelCtx ∈ ls;
  bo_local : b_pc b = ClosingChannel ∨ b_pc b = BridgeReturned → local_closed b = true;
  bo_channel : b_pc b = BridgeReturned → channel_closed b = true
}.

Lemma gone_le c : gone c ≤ 1.
Proof. unfold gone. destruct (cp_pc c); lia. Qed.

(** The count of [done], whatever the step. *)
Lemma bridge_done a b b' :
  bridge_exec a b = Some b' →
  b_done b ≤ gone (to_sshd b) + gone (to_channel b) →
  (b_pc b = InSelect → b_done b = gone (to_sshd b) + gone (to_channel b)) →
  b_done b' ≤ gone (to_sshd b') + gone (to_channel b') ∧
  (b_pc b' = InSelect → b_done b' = gone (to_sshd b') + gone (to_channel b')).
Proof.
  intros He Hle Hsel. bridge_cases; try (destruct d); cbn in *; unfold gone in *; cbn in *;
    repeat match goal with H : b_pc _ = _ |- _ => rewrite H in Hsel |- * | H : cp_pc _ = _ |- _ => rewrite H in * end;
    cbn in *; (split; [lia|]); try (by intros; lia); try done; intros Hpc; specialize (Hsel Hpc); lia.
Qed.

(** The rest only grows, and the function moves on its own steps. *)
Lemma bridge_grows a b b' :
  bridge_exec a b = Some b' →
  (b_pc b' = b_pc b ∨ a = BridgeNext) ∧
  (∀ d, cp_pc (copy_of d b) = CopyGone → cp_pc (copy_of d b') = CopyGone) ∧
  (b_cancelled b' = true → b_cancelled b = true ∨ a = CancelCtx) ∧
  (local_closed b = true → local_closed b' = true) ∧ (channel_closed b = true → channel_closed b' = true).
Proof.
  intros He. split_and!.
  - bridge_cases; try (by right); left; try done; by destruct d.
  - intros d Hd. pose proof (bridge_exec_copy _ _ _ d He) as Hs. destruct Hs; cbn; congruence.
  - bridge_cases; cbn; try (by left); try (by right); by destruct d; left.
  - bridge_cases; cbn; try done; by destruct d.
  - bridge_cases; cbn; try done; by destruct d.
Qed.

Lemma elem_snoc {A} (x : A) ls : x ∈ ls ++ [x].
Proof. apply elem_of_app. right. left. Qed.

Lemma bridge_ok_step ls a b b' : bridge_ok ls b → bridge_exec a b = Some b' → bridge_ok (ls ++ [a]) b'.
Proof.
  intros [Hc Hd Hs Hr Hx Hl Hch] He. destruct (bridge_done _ _ _ He Hd Hs) as [Hd' Hs'].
  destruct (bridge_grows _ _ _ He) as (Hpc & Hg & Hx' & Hl' & Hch').
  assert (b_pc b' ≠ InSelect → CancelCtx ∈ ls ++ [a] ∨ ∃ d, cp_pc (copy_of d b') = CopyGone) as Hr'.
  { intros Hne. destruct (decide (b_pc b = InSelect)) as [E|E].
    - destruct Hpc as [Hpc| ->]; [congruence|]. unfold bridge_exec in He. rewrite E in He.
      destruct (0 <? b_done b) eqn:Hlt.
      + apply Nat.ltb_lt in Hlt. right. pose proof (gone_le (to_sshd b)). pose proof (gone_le (to_channel b)).
        injection He as <-. unfold gone in *.
        destruct (cp_pc (to_sshd b)) eqn:E1; try (by exists ToSshd);
          destruct (cp_pc (to_channel b)) eqn:E2; try (by exists ToChannel); lia.
      + destruct (b_cancelled b) eqn:Hb; [|done]. left. apply elem_of_app. left. by apply Hx.
    - destruct (Hr E) as [?|[d ?]]; [left; apply elem_of_app; by left|right; exists d; by apply Hg]. }
  split; try done.
  - intros d. eapply copy_ok_step; [apply Hc|by apply bridge_exec_copy].
  - intros H. destruct (Hx' H) as [?| ->]; [apply elem_of_app; left; by apply Hx|apply elem_snoc].
  - destruct Hpc as [->| ->]; [auto|]. unfold bridge_exec in He. destruct (b_pc b) eqn:E; try done.
    + repeat case_match; simplify_eq; by intros [?|?].
    + by injection He as <-.
    + injection He as <-. cbn. intros _. by apply Hl; left.
  - destruct Hpc as [->| ->]; [auto|]. unfold bridge_exec in He. destruct (b_pc b) eqn:E; try done.
    + repeat case_match; by simplify_eq.
    + by injection He as <-.
    + by injection He as <-.
Qed.

Lemma bridge_run_ok ls b : bridge_run ls b → bridge_ok ls b.
Proof.
  induction 1 as [|ls b a b' _ IH He]; [|by eapply bridge_ok_step].
  split; cbn; try done; try lia; [|by intros [?|?]]. intros []; split; cbn; try done; by exists EmptyString.
Qed.

(** The channel [done] has room for both copies. *)
Lemma send_ready ls b d : bridge_ok ls b → cp_pc (copy_of d b) = CopySend → is_Some (bridge_exec (SendDone d) b).
Proof.
  intros [_ Hd _ _ _ _ _] Hpc. unfold bridge_exec. rewrite Hpc.
  destruct (Nat.ltb_spec (b_done b) 2) as [|Hlt]; [by eexists|]. exfalso.
  pose proof (gone_le (to_sshd b)). pose proof (gone_le (to_channel b)).
  destruct d; cbn in Hpc; unfold gone in *; rewrite Hpc in Hd; lia.
Qed.

(** C27: A session of the tunnel carries two streams to or from the local sshd.
    In every interleaving, what was written to one peer is a prefix of what
    came from the other, the rest being with the copy or not read yet.  When
    the session returns, both connections are closed, and its context was
    cancelled, or a read or a write failed, or one of the directions is
    complete: its source had closed and all its bytes were delivered.  The
    channel [done] never blocks a copy. *)
Theorem sshd_bridge_delivers (ls : list bridge_action) (b : sshd_bridge) :
  bridge_run ls b →
  (∀ d, let c := copy_of d b in
    arrived d ls = cp_in c +:+ cp_pending c ∧ (∃ rest, cp_in c = cp_out c +:+ rest) ∧
    (copying (cp_pc c) = true → cp_in c = cp_out c +:+ in_flight (cp_pc c)) ∧
    (cp_pc c = CopySend → is_Some (bridge_exec (SendDone d) b))) ∧
  (b_pc b = BridgeReturned →
    local_closed b = true ∧ channel_closed b = true ∧
    (CancelCtx ∈ ls ∨ ∃ d, copy_failed d ls ∨ (cp_eof (copy_of d b) = true ∧ cp_out (copy_of d b) = arrived d ls))).
Proof.
  intros Hok%bridge_run_ok. pose proof Hok as [Hc _ _ Hr _ Hl Hch]. split.
  - intros d. destruct (Hc d) as [Ha Hp Hrun _]. cbn zeta. repeat (split; [done|]). by eapply send_ready.
  - intros Hpc. split; [auto|]. split; [auto|].
    destruct (Hr ltac:(by rewrite Hpc)) as [?|[d Hg]]; [by left|]. right. exists d.
    destruct (Hc d) as [Ha _ _ He]. rewrite Hg in He. destruct (He eq_refl) as [?|(Heof & Hpend & Hout)]; [by left|right].
    split; [done|]. by rewrite Ha, Hpend, Hout, string_app_nil_r.
Qed.

(** ** What half-closing is worth *)

(** The client has sent its last bytes and closed its side; sshd has answered,
    and its answer is there to be read. *)
Definition half_close_run : list bridge_action :=
  [Arrive ToSshd "exit"; PeerEOF ToSshd; CopyIn ToSshd 4; CopyOut ToSshd true 4; Arrive ToChannel "bye";
   CopyEOF ToSshd; AfterCopy ToSshd; SendDone ToSshd; BridgeNext; BridgeNext; BridgeNext].

Definition half_close_end : sshd_bridge := default sshd_bridge_init (bridge_execs half_close_run sshd_bridge_init).

Lemma half_close_runs : bridge_run half_close_run half_close_end.
Proof.
  assert (bridge_execs half_close_run sshd_bridge_init = Some half_close_end) as E by (vm_compute; reflexivity).
  exact (bridge_execs_run [] half_close_run _ _ bridge_start E).
Qed.

(** C40: Closing one direction cuts the other.  The first copy closes the
    writing side of the connection to sshd, so that sshd can finish its
    answer; but the session returns as soon as one copy is through and closes
    both connections.  There is a run with no failure and no cancellation in
    which the client's last bytes and the end of its stream reach sshd, the
    half-close is made, sshd's answer has arrived, and none of it is ever
    delivered. *)
Theorem half_close_truncates :
  ∃ ls b, bridge_run ls b ∧ b_pc b = BridgeReturned ∧ (CancelCtx ∉ ls) ∧ (∀ d, ¬ copy_failed d ls) ∧
    write_closed b = true ∧ cp_out (to_sshd b) = arrived ToSshd ls ∧
    arrived ToChannel ls = "bye" ∧ cp_out (to_channel b) = EmptyString ∧
    (∀ ls' b', bridge_execs ls' b = Some b' → ∀ n, CopyOut ToChannel true n ∉ ls').
Proof.
  exists half_close_run, half_close_end. split; [exact half_close_runs|]. split; [reflexivity|].
  assert (∀ a, a ∈ half_close_run → match a with CancelCtx | CopyFail _ | CopyOut _ false _ => False | _ => True end) as Hno.
  { unfold half_close_run. intros a Ha. repeat (apply elem_of_cons in Ha as [->|Ha]; [exact I|]). by apply elem_of_nil in Ha. }
  split; [intros H; exact (Hno _ H)|]. split; [intros d [H|[n H]]; exact (Hno _ H)|].
  do 4 (split; [reflexivity|]).
  intros ls'. assert (channel_closed half_close_end = true) as Hcl by reflexivity. revert Hcl.
  generalize half_close_end. induction ls' as [|a ls' IH]; intros b Hcl b' He n; [by intros ?%elem_of_nil|].
  cbn [bridge_execs] in He. destruct (bridge_exec a b) as [b1|] eqn:E; [|done].
  intros [<-|Hin]%elem_of_cons.
  - unfold bridge_exec in E. destruct (cp_pc (copy_of ToChannel b)); try done. unfold target_closed in E. by rewrite Hcl in E.
  - destruct (bridge_grows _ _ _ E) as (_ & _ & _ & _ & Hcl'). by eapply (IH b1 (Hcl' Hcl) b' He n).
Qed.

(** * After the return *)

(** The steps of the two copies. *)
Definition copy_action (a : bridge_action) : bool :=
  match a with CopyIn _ _ | CopyEOF _ | CopyFail _ | CopyOut _ _ _ | AfterCopy _ | SendDone _ => true | _ => false end.

Definition copy_rank (c : copy) : nat :=
  match cp_pc c with CopyRead | CopyWrite _ => 3 | CopyEnd => 2 | CopySend => 1 | CopyGone => 0 end.

Definition bridge_rank (b : sshd_bridge) : nat := copy_rank (to_sshd b) + copy_rank (to_channel b).

Lemma bridge_rank_step a b b' :
  bridge_exec a b = Some b' → local_closed b = true → channel_closed b = true →
  bridge_rank b' + (if copy_action a then 1 else 0) ≤ bridge_rank b.
Proof.
  intros He Hl Hc. unfold bridge_rank, copy_rank.
  bridge_cases; try (destruct d); cbn in *; rewrite ?Hl, ?Hc in *; try done; try lia;
    repeat match goal with H : cp_pc _ = _ |- _ => rewrite H in *; clear H end; cbn in *; lia.
Qed.


Lemma sshd_bridge_delivers_witness :
  b_pc half_close_end = BridgeReturned ∧ ∃ d, copy_failed d half_close_run ∨
    (cp_eof (copy_of d half_close_end) = true ∧ cp_out (copy_of d half_close_end) = arrived d half_close_run).
Proof.
  split; [reflexivity|].
  destruct (proj2 (sshd_bridge_delivers half_close_run half_close_end half_close_runs) eq_refl) as (_ & _ & [Hc|Hd]); [|exact Hd].
  exfalso. unfold half_close_run in Hc.
  repeat (apply elem_of_cons in Hc as [Hc|Hc]; [discriminate Hc|]). by apply elem_of_nil in Hc.
Defined.

