(* ===== verification/CliEnroll.v ===== *)
(** The CLI's state on disk and its commands: the token cache
    (internal/cli/config.go), the machine key and configuration
    (internal/cli/machinekey.go), enrollment (internal/cli/enroll.go), login
    (internal/cli/login.go, internal/cli/browser.go) and the choice of the
    relay (cmd/phosphor/main.go).

    The answers of the relay and of the identity providers are arguments. *)
From Stdlib Require Import ZArith Lia Ascii.
From stdpp Require Import base gmap strings list pretty.
From S2P Require Import Prelude GoStrings Http Files SshKeys GateLoop Apple CliTunnel.

(** * Files *)

Definition configDir : M FS error string :=
  let! home := UserHomeDir in
  do! MkdirAll in
  ret (home +:+ "/.config/phosphor").

Record TokenCache := mkTokenCache {
  Cache_AccessToken : string;
  Cache_RefreshToken : string;
  Cache_Provider : string
}.

Definition tokens_path (dir : string) : string := dir +:+ "/tokens.json".
Definition machineKeyFile : string := "machine_key".
Definition machineConfigFile : string := "machine.json".

Definition LoadTokenCache : M FS error TokenCache :=
  let! dir := configDir in
  let! data := ReadFile (tokens_path dir) in
  match Decode ["access_token"; "refresh_token"; "provider"] (json_of data) with
  | None => throw (ErrorString "invalid JSON")
  | Some vs => ret (mkTokenCache (Values_Get "access_token" vs) (Values_Get "refresh_token" vs) (Values_Get "provider" vs))
  end.

Definition TokenCache_json (c : TokenCache) : json :=
  strings_json [("access_token", Cache_AccessToken c); ("refresh_token", Cache_RefreshToken c);
    ("provider", Cache_Provider c)].

Definition SaveTokenCache (c : TokenCache) : M FS error unit :=
  let! dir := configDir in
  WriteFile (tokens_path dir) (JsonText (TokenCache_json c)).

Definition ClearTokenCache : M FS error unit :=
  let! dir := configDir in
  let! r := attempt (Remove (tokens_path dir)) in
  match r with
  | inl err => if IsNotExist err then ret tt else throw err
  | inr _ => ret tt
  end.

Definition config_fields : list string := ["machine_id"; "relay_url"; "ssh_addr"; "host_key"; "sshd_addr"].

Definition MachineConfig_json (c : MachineConfig) : json :=
  strings_json ([("machine_id", Config_MachineID c); ("relay_url", Config_RelayURL c);
    ("ssh_addr", Config_SSHAddr c); ("host_key", Config_HostKey c)] ++
    (if String.eqb (Config_SSHDAddr c) EmptyString then [] else [("sshd_addr", Config_SSHDAddr c)])).

Definition SaveMachineConfig (c : MachineConfig) : M FS error unit :=
  let! dir := configDir in
  WriteFile (dir +:+ "/" +:+ machineConfigFile) (JsonText (MachineConfig_json c)).

Definition LoadMachineConfig : M FS error MachineConfig :=
  let! dir := configDir in
  let! data := ReadFile (dir +:+ "/" +:+ machineConfigFile) in
  match Decode config_fields (json_of data) with
  | None => throw (ErrorString "invalid JSON")
  | Some vs => ret (mkMachineConfig (Values_Get "machine_id" vs) (Values_Get "relay_url" vs)
      (Values_Get "ssh_addr" vs) (Values_Get "host_key" vs) (Values_Get "sshd_addr" vs))
  end.

Section cli.
  Context `{SSH}.

(** [generated]: the result of [ed25519.GenerateKey]. *)
Definition GenerateMachineKey (generated : error + Signer) : M FS error Signer :=
  let! dir := configDir in
  let! priv := (λ f, (generated, f)) else_return (WrapError "generating machine key") in
  match MarshalPrivateKey priv "phosphor machine key" with
  | inl err => throw (WrapError "marshaling machine key" err)
  | inr pem =>
      do! WriteFile (dir +:+ "/" +:+ machineKeyFile) (Bytes pem) else_return (WrapError "writing machine key") in
      ret priv
  end.

Definition LoadMachineKey : M FS error Signer :=
  let! dir := configDir in
  let! data := ReadFile (dir +:+ "/" +:+ machineKeyFile) in
  match parse_key data with
  | inl err => throw err
  | inr k => ret k
  end.

(** * Enrollment *)

Record EnrollOptions := mkEnrollOptions {
  Opt_RelayURL : string;
  Opt_Name : string;
  Opt_APIKey : string;
  Opt_SSHDAddr : string
}.

Definition httpBaseURL (relayURL : string) : string :=
  let u := TrimSuffix relayURL "/" in
  let u := Replace1 u "ws://" "http://" in
  Replace1 u "wss://" "https://".

(** The relay and the machine, as enrollment meets them: whether a URL makes a
    request; the answers to POST /api/machines and GET /api/ssh-info; the
    outcome of a browser login; the hostname; the key that is generated. *)
Record Surroundings := mkSurroundings {
  new_request : string → error + unit;
  post_machines : string → string → json → error + (nat * option json);
  get_ssh_info : string → error + option json;
  browser_login : string → error + string;
  os_hostname : string;
  generated_key : error + Signer
}.

Definition pure {A} (r : error + A) : M FS error A := λ f, (r, f).

(** The token of the request: the API key, the cached token or a login. *)
Definition enroll_token (w : Surroundings) (opts : EnrollOptions) : M FS error string :=
  if negb (String.eqb (Opt_APIKey opts) EmptyString) then ret (Opt_APIKey opts)
  else
    let! cache := attempt LoadTokenCache in
    let cached := match cache with inr c => Cache_AccessToken c | inl _ => EmptyString end in
    if negb (String.eqb cached EmptyString) then ret cached
    else pure (browser_login w (Opt_RelayURL opts)) else_return (WrapError "authenticating").

(** The answer to the registration: the machine's ID, or the error. *)
Definition enroll_created (resp : nat * option json) : error + string :=
  match Decode ["id"; "name"; "error"] resp.2 with
  | None => inl (WrapError "decoding enrollment response" (ErrorString "invalid JSON"))
  | Some created =>
      if negb (Nat.eqb resp.1 201) then
        if negb (String.eqb (Values_Get "error" created) EmptyString)
        then inl (ErrorString ("enrollment failed: " +:+ Values_Get "error" created))
        else inl (ErrorString "enrollment failed with status")
      else inr (Values_Get "id" created)
  end.

(** [Enroll] up to the first request: its Authorization header and its body.
    The key is already on disk. *)
Definition enroll_prepare (w : Surroundings) (opts : EnrollOptions) : M FS error (string * json) :=
  let! token := enroll_token w opts in
  let hostname := os_hostname w in
  let name := if String.eqb (Opt_Name opts) EmptyString then hostname else Opt_Name opts in
  if String.eqb name EmptyString then
    throw (ErrorString "--name is required when the hostname cannot be determined")
  else
    let! signer := GenerateMachineKey (generated_key w) in
    let pubKey := TrimSpace (MarshalAuthorizedKey (Signer_PublicKey signer)) in
    do! pure (new_request w (httpBaseURL (Opt_RelayURL opts) +:+ "/api/machines")) in
    ret ("Bearer " +:+ token, strings_json [("name", name); ("hostname", hostname); ("public_key", pubKey)]).

(** [Enroll] from the answer to the first request on. *)
Definition enroll_finish (w : Surroundings) (opts : EnrollOptions) (resp : nat * option json) : M FS error MachineConfig :=
  let baseURL := httpBaseURL (Opt_RelayURL opts) in
  let! id := pure (enroll_created resp) in
  do! pure (new_request w (baseURL +:+ "/api/ssh-info")) in
  let! info := pure (get_ssh_info w (baseURL +:+ "/api/ssh-info"))
    else_return (WrapError "fetching ssh gateway info") in
  match Decode ["addr"; "host_key"; "fingerprint"] info with
  | None => throw (WrapError "decoding ssh gateway info" (ErrorString "invalid JSON"))
  | Some info =>
      if String.eqb (Values_Get "addr" info) EmptyString || String.eqb (Values_Get "host_key" info) EmptyString
      then throw (ErrorString "relay did not provide ssh gateway info")
      else
        let cfg := mkMachineConfig id (Opt_RelayURL opts) (Values_Get "addr" info)
          (Values_Get "host_key" info) (Opt_SSHDAddr opts) in
        do! SaveMachineConfig cfg else_return (WrapError "saving machine config") in
        ret cfg
  end.

Definition Enroll (w : Surroundings) (opts : EnrollOptions) : M FS error MachineConfig :=
  let! req := enroll_prepare w opts in
  let! resp := pure (post_machines w (httpBaseURL (Opt_RelayURL opts) +:+ "/api/machines") req.1 req.2)
    else_return (WrapError "registering machine") in
  enroll_finish w opts resp.

(** * Login *)

(** [BrowserLogin]'s URLs *)
Definition browser_base (relayURL : string) : string :=
  Replace1 (Replace1 relayURL "ws://" "http://") "wss://" "https://".

(** The answer to POST /api/auth/cli-start: status, content type, body. *)
Definition browser_start (resp : error + (nat * string * option json)) : error + string :=
  match resp with
  | inl err => inl (WrapError "start auth session" err)
  | inr (status, ct, body) =>
      if negb (Nat.eqb status 200) then inl (ErrorString "relay returned an error starting auth")
      else if negb (HasPrefix ct "application/json") then inl (ErrorString "relay does not support auto-login")
      else
        match Decode ["session_id"] body with
        | None => inl (WrapError "decode cli-start response" (ErrorString "invalid JSON"))
        | Some vs => inr (Values_Get "session_id" vs)
        end
  end.

(** One round of polling: cancellation before the two seconds are over; the
    answer, if any; and how long the round takes beyond the two seconds. *)
Record browser_poll := mkBrowserPoll {
  bp_cancelled : option error;
  bp_answer : error + option json;
  bp_extra : nat
}.

Definition poll_deadline : Duration := (5 * Minute)%Z.

(** The loop of [BrowserLogin] from time [elapsed] on; [None] when it is still
    polling after these rounds. *)
Fixpoint browser_loop (elapsed : Duration) (rounds : list browser_poll) : option (error + string) :=
  if Z.leb poll_deadline elapsed then Some (inl (ErrorString "authentication timed out"))
  else
    match rounds with
    | [] => None
    | r :: rounds =>
        match bp_cancelled r with
        | Some err => Some (inl err)
        | None =>
            let continue := browser_loop (elapsed + 2 * Second + Z.of_nat (bp_extra r))%Z rounds in
            match bp_answer r with
            | inl _ => continue
            | inr body =>
                let pr := (Decode_lax ["status"; "id_token"] body).2 in
                if String.eqb (Values_Get "status" pr) "complete" &&
                   negb (String.eqb (Values_Get "id_token" pr) EmptyString)
                then Some (inr (Values_Get "id_token" pr))
                else continue
            end
        end
    end.

Definition BrowserLogin (start : error + (nat * string * option json)) (rounds : list browser_poll) : option (error + string) :=
  match browser_start start with
  | inl err => Some (inl err)
  | inr _ => browser_loop 0 rounds
  end.

Definition supportedProviders : list string := ["apple"; "microsoft"; "google"].

(** [deviceCodeConfigs]: device and token endpoints, variable, scopes. *)
Definition deviceCodeConfigs (name : string) : option (string * string * string * list string) :=
  if String.eqb name "microsoft" then
    Some ("https://login.microsoftonline.com/common/oauth2/v2.0/devicecode",
          "https://login.microsoftonline.com/common/oauth2/v2.0/token",
          "PHOSPHOR_MICROSOFT_CLIENT_ID", ["openid"; "profile"; "email"; "offline_access"])
  else if String.eqb name "google" then
    Some ("https://oauth2.googleapis.com/device/code", "https://oauth2.googleapis.com/token",
          "PHOSPHOR_GOOGLE_CLIENT_ID", ["openid"; "profile"; "email"])
  else None.

(** [device url clientID scopes] and [poll url clientID code] are the outcomes
    of [auth.RequestDeviceCode] and [auth.PollForToken]. *)
Definition loginDeviceCode (env : string → string)
    (device : string → string → list string → error + DeviceCodeResponse)
    (poll : string → string → string → error + DeviceTokenResponse) (providerName : string) : M FS error unit :=
  match deviceCodeConfigs providerName with
  | None => throw (ErrorString ("device code flow not supported for " +:+ providerName))
  | Some (deviceURL, tokenURL, var, scopes) =>
      if String.eqb (env var) EmptyString then throw (ErrorString "no client ID configured")
      else
        let! dcr := pure (device deviceURL (env var) scopes) else_return (WrapError "request device code") in
        let! dtr := pure (poll tokenURL (env var) (DeviceCode dcr)) else_return (WrapError "authentication failed") in
        let token := if String.eqb (DT_IDToken dtr) EmptyString then AccessToken dtr else DT_IDToken dtr in
        do! SaveTokenCache (mkTokenCache token (RefreshToken dtr) providerName) else_return (WrapError "save token") in
        ret tt
  end.

Definition Login (env : string → string)
    (device : string → string → list string → error + DeviceCodeResponse)
    (poll : string → string → string → error + DeviceTokenResponse)
    (browser : string → error + string) (providerName relayURL : string) (useDeviceCode : bool) : M FS error unit :=
  let providerName := ToLower providerName in
  if useDeviceCode then
    if negb (existsb (String.eqb providerName) supportedProviders)
    then throw (ErrorString ("unknown provider: " +:+ providerName))
    else loginDeviceCode env device poll providerName
  else
    let! token := pure (browser relayURL) else_return (WrapError "browser login") in
    do! SaveTokenCache (mkTokenCache token EmptyString EmptyString) else_return (WrapError "save token") in
    ret tt.

(** * The relay of the command line (cmd/phosphor) *)

Definition DefaultRelayURL : string := EmptyString.
Definition relay_flag_default : string := "phosphor.betaporter.dev".

Definition resolveRelay (flag : string) : error + string :=
  let relay := if String.eqb flag EmptyString then DefaultRelayURL else flag in
  if String.eqb relay EmptyString then inl (ErrorString "--relay flag is required") else inr relay.

End cli.

Example httpBaseURL_wss : httpBaseURL "wss://relay.example/" = "https://relay.example".
Proof. vm_compute. reflexivity. Qed.
Example httpBaseURL_ws : httpBaseURL "ws://localhost:8080" = "http://localhost:8080".
Proof. vm_compute. reflexivity. Qed.
