(* ===== verification/CliProps.v ===== *)
(** What the CLI's commands guarantee. *)
From Stdlib Require Import ZArith Lia Ascii.
From stdpp Require Import base gmap strings list pretty.
From S2P Require Import Prelude GoStrings Http Files SshKeys GateLoop Apple CliTunnel CliEnroll.

(** * Files *)

(** The configuration directory is there, under this home. *)
Definition home_ok (f : FS) (home : string) : Prop := homedir f = inr home ∧ mkdir_err f = None.

Lemma configDir_ok f home : home_ok f home → configDir f = (inr (home +:+ "/.config/phosphor"), f).
Proof. intros [Hh Hm]. unfold configDir, bind, UserHomeDir, MkdirAll, bind, get. by rewrite Hh, Hm. Qed.

Lemma configDir_inv f dir f' : configDir f = (inr dir, f') → ∃ home, home_ok f home ∧ dir = home +:+ "/.config/phosphor" ∧ f' = f.
Proof.
  unfold configDir, bind, UserHomeDir, MkdirAll, bind, get. destruct (homedir f) as [e|home] eqn:Hh; [done|].
  destruct (mkdir_err f) eqn:Hm; [done|]. cbn. intros [= <- <-]. by exists home.
Qed.

Lemma configDir_state f : (configDir f).2 = f.
Proof.
  unfold configDir, bind, UserHomeDir, MkdirAll, bind, get. destruct (homedir f); [done|]. by destruct (mkdir_err f).
Qed.

(** What a write leaves of the file system. *)
Record written (path : string) (c : file_text) (f f' : FS) : Prop := {
  written_files : files f' = <[path := c]> (files f);
  written_read : read_err f' = read_err f;
  written_home : homedir f' = homedir f;
  written_mkdir : mkdir_err f' = mkdir_err f
}.

Lemma WriteFile_written path c f f' : WriteFile path c f = (inr tt, f') → written path c f f'.
Proof.
  unfold WriteFile, bind, next_write, put_file, modify, throw. cbn. destruct (default WriteOk _); try done.
  by intros [= <-].
Qed.

Lemma ReadFile_lookup path c f :
  read_err f path = None → files f !! path = Some c → ReadFile path f = (inr c, f).
Proof. intros Hr Hf. unfold ReadFile, bind, get. cbn. by rewrite Hr, Hf. Qed.

Lemma MachineConfig_decode c :
  ∃ vs, Decode config_fields (Some (MachineConfig_json c)) = Some vs ∧
    mkMachineConfig (Values_Get "machine_id" vs) (Values_Get "relay_url" vs) (Values_Get "ssh_addr" vs)
      (Values_Get "host_key" vs) (Values_Get "sshd_addr" vs) = c.
Proof.
  destruct c as [mid url addr hk sshd]. unfold MachineConfig_json. cbn [Config_SSHDAddr].
  destruct (String.eqb_spec sshd EmptyString) as [->|]; eexists; (split; [reflexivity|reflexivity]).
Qed.

Lemma config_path home :
  (home +:+ "/.config/phosphor") +:+ "/" +:+ machineConfigFile = home +:+ "/.config/phosphor/machine.json".
Proof. by rewrite string_app_assoc. Qed.

Lemma key_path home :
  (home +:+ "/.config/phosphor") +:+ "/" +:+ machineKeyFile = home +:+ "/.config/phosphor/machine_key".
Proof. by rewrite string_app_assoc. Qed.

(** The configuration is read back as it was saved. *)
Lemma MachineConfig_load f home c :
  home_ok f home → (∀ p, read_err f p = None) →
  files f !! (home +:+ "/.config/phosphor/machine.json") = Some (JsonText (MachineConfig_json c)) →
  LoadMachineConfig f = (inr c, f).
Proof.
  intros Hh Hr Hf. unfold LoadMachineConfig, bind. rewrite (configDir_ok _ _ Hh), config_path.
  rewrite (ReadFile_lookup _ (JsonText (MachineConfig_json c)) f (Hr _) Hf). cbn [json_of].
  destruct (MachineConfig_decode c) as (vs & Hd & Hc). rewrite Hd. by rewrite Hc.
Qed.

Section cli.
  Context `{SSH}.

Lemma MachineKey_load f home k pem :
  home_ok f home → (∀ p, read_err f p = None) → ParsePrivateKey pem = inr k →
  files f !! (home +:+ "/.config/phosphor/machine_key") = Some (Bytes pem) →
  LoadMachineKey f = (inr k, f).
Proof.
  intros Hh Hr Hk Hf. unfold LoadMachineKey, bind. rewrite (configDir_ok _ _ Hh), key_path.
  rewrite (ReadFile_lookup _ (Bytes pem) f (Hr _) Hf). cbn [parse_key]. by rewrite Hk.
Qed.

Lemma GenerateMachineKey_inv g f k f' :
  GenerateMachineKey g f = (inr k, f') →
  ∃ home pem, home_ok f home ∧ g = inr k ∧ MarshalPrivateKey k "phosphor machine key" = inr pem ∧
    written (home +:+ "/.config/phosphor/machine_key") (Bytes pem) f f'.
Proof.
  unfold GenerateMachineKey, bind, or_return. destruct (configDir f) as [[e|dir] f1] eqn:Hd; [done|].
  apply configDir_inv in Hd as (home & Hh & -> & ->). destruct g as [e|priv]; cbn [fst snd]; [done|].
  destruct (MarshalPrivateKey priv _) as [e|pem] eqn:Hm; [done|]. cbn [fst snd].
  destruct (WriteFile _ _ f) as [[e|[]] f2] eqn:Hw; cbn [fst snd]; [done|]. intros [= <- <-].
  exists home, pem. rewrite key_path in Hw. apply WriteFile_written in Hw. done.
Qed.

Lemma SaveMachineConfig_inv c f f' home :
  home_ok f home → SaveMachineConfig c f = (inr tt, f') →
  written (home +:+ "/.config/phosphor/machine.json") (JsonText (MachineConfig_json c)) f f'.
Proof.
  intros Hh. unfold SaveMachineConfig, bind. rewrite (configDir_ok _ _ Hh), config_path.
  apply WriteFile_written.
Qed.

Lemma enroll_token_state w opts f : (enroll_token w opts f).2 = f.
Proof.
  unfold enroll_token. destruct (negb _); [done|]. unfold bind, attempt, or_return, pure. cbn [fst snd].
  assert ((LoadTokenCache f).2 = f) as Hs.
  { unfold LoadTokenCache, bind. pose proof (configDir_state f) as Hc. destruct (configDir f) as [[e|dir] f1]; cbn in Hc; [done|].
    subst f1. pose proof (ReadFile_state (tokens_path dir) f) as Hr.
    destruct (ReadFile (tokens_path dir) f) as [[e|data] f1]; cbn in Hr; [done|]. by destruct (Decode _ _). }
  rewrite Hs. by destruct (negb _).
Qed.

(** What the first request carries, and what is on disk when it is made. *)
Lemma enroll_prepare_inv w opts f req f1 :
  enroll_prepare w opts f = (inr req, f1) →
  ∃ token k name, (enroll_token w opts f).1 = inr token ∧ GenerateMachineKey (generated_key w) f = (inr k, f1) ∧
    name = (if String.eqb (Opt_Name opts) EmptyString then os_hostname w else Opt_Name opts) ∧
    req = ("Bearer " +:+ token, strings_json [("name", name); ("hostname", os_hostname w);
      ("public_key", TrimSpace (MarshalAuthorizedKey (Signer_PublicKey k)))]).
Proof.
  unfold enroll_prepare. unfold bind at 1. pose proof (enroll_token_state w opts f) as Hst.
  destruct (enroll_token w opts f) as [[e|token] f0]; cbn in Hst; [done|]. subst f0. cbn zeta.
  set (name := if String.eqb (Opt_Name opts) _ then _ else _). destruct (String.eqb name EmptyString); [done|].
  unfold bind at 1. destruct (GenerateMachineKey (generated_key w) f) as [[e|k] f2] eqn:Hk; [done|].
  unfold bind, pure. destruct (new_request w _) as [e|[]]; [done|]. intros [= <- <-].
  by exists token, k, name.
Qed.

(** What the gateway's answer must be, and what is written. *)
Lemma enroll_finish_inv w opts resp f1 cfg f' :
  enroll_finish w opts resp f1 = (inr cfg, f') →
  ∃ info addr hk, enroll_created resp = inr (Config_MachineID cfg) ∧
    get_ssh_info w (httpBaseURL (Opt_RelayURL opts) +:+ "/api/ssh-info") = inr info ∧
    (∃ vs, Decode ["addr"; "host_key"; "fingerprint"] info = Some vs ∧ addr = Values_Get "addr" vs ∧ hk = Values_Get "host_key" vs) ∧
    addr ≠ EmptyString ∧ hk ≠ EmptyString ∧
    cfg = mkMachineConfig (Config_MachineID cfg) (Opt_RelayURL opts) addr hk (Opt_SSHDAddr opts) ∧
    SaveMachineConfig cfg f1 = (inr tt, f').
Proof.
  unfold enroll_finish, bind, or_return, pure. cbn [fst snd].
  destruct (enroll_created resp) as [e|id] eqn:Hid; [done|].
  destruct (new_request w _) as [e|[]]; [done|]. destruct (get_ssh_info w _) as [e|info] eqn:Hinfo; cbn [fst snd]; [done|].
  destruct (Decode _ info) as [vs|] eqn:Hd; [|done].
  destruct (String.eqb_spec (Values_Get "addr" vs) EmptyString); cbn [orb]; [done|].
  destruct (String.eqb_spec (Values_Get "host_key" vs) EmptyString); cbn [orb]; [done|].
  destruct (SaveMachineConfig _ f1) as [[e|[]] f2] eqn:Hs; cbn [fst snd]; [done|]. intros [= <- <-].
  exists info, (Values_Get "addr" vs), (Values_Get "host_key" vs). cbn [Config_MachineID].
  repeat (split; [done|]). split; [by exists vs|]. repeat (split; [done|]). done.
Qed.

(** A successful enrollment, step by step. *)
Lemma Enroll_inv w opts f cfg f' :
  Enroll w opts f = (inr cfg, f') →
  ∃ req f1 resp, enroll_prepare w opts f = (inr req, f1) ∧
    post_machines w (httpBaseURL (Opt_RelayURL opts) +:+ "/api/machines") req.1 req.2 = inr resp ∧
    enroll_finish w opts resp f1 = (inr cfg, f').
Proof.
  unfold Enroll. unfold bind at 1. destruct (enroll_prepare w opts f) as [[e|req] f1]; [done|].
  unfold bind, or_return, pure. cbn [fst snd]. destruct (post_machines w _ _ _) as [e|resp] eqn:Hp; cbn [fst snd]; [done|].
  intros Hf. by exists req, f1, resp.
Qed.

(** The files a successful enrollment leaves. *)
Lemma enrolled_files `{!SSHOk} (w : Surroundings) (opts : EnrollOptions) (f f' : FS) (cfg : MachineConfig) :
  (∀ p, read_err f p = None) → Enroll w opts f = (inr cfg, f') →
  LoadMachineConfig f' = (inr cfg, f') ∧
  (∃ k, generated_key w = inr k ∧ LoadMachineKey f' = (inr k, f')) ∧
  Config_RelayURL cfg = Opt_RelayURL opts ∧ Config_SSHAddr cfg ≠ EmptyString ∧ Config_HostKey cfg ≠ EmptyString.
Proof.
  intros Hr (req & f1 & resp & (token & k & name & _ & Hk & _ & _)%enroll_prepare_inv & _ &
    (info & addr & hk & _ & _ & _ & Ha & Hh & Hcfg & Hs)%enroll_finish_inv)%Enroll_inv.
  apply GenerateMachineKey_inv in Hk as (home & pem & Hhome & Hg & Hm & W1).
  assert (home_ok f1 home) as Hhome1 by (destruct Hhome, W1; split; congruence).
  apply (SaveMachineConfig_inv _ _ _ _ Hhome1) in Hs as W2.
  assert (home_ok f' home) as Hhome2 by (destruct Hhome1, W2; split; congruence).
  assert (∀ p, read_err f' p = None) as Hr' by (intros p; by rewrite (written_read _ _ _ _ W2), (written_read _ _ _ _ W1)).
  split; [|split].
  - eapply MachineConfig_load; [done|done|]. rewrite (written_files _ _ _ _ W2). by rewrite lookup_insert_eq.
  - exists k. split; [done|]. eapply MachineKey_load; [done|done|by eapply private_key_roundtrip|].
    rewrite (written_files _ _ _ _ W2), (written_files _ _ _ _ W1), lookup_insert_ne, lookup_insert_eq; [done|].
    intros Heq. apply (f_equal (string_drop (String.length home))) in Heq. by rewrite !string_drop_app in Heq.
  - rewrite Hcfg. done.
Qed.

(** What [phosphor enroll] leaves behind is what [phosphor tunnel] needs:
    after a successful enrollment the saved configuration loads as the one
    returned, with the machine ID of the relay's answer and the gateway's
    address and host key it gave (none of them empty), and the saved key
    loads as the key whose public half was registered. *)
Theorem enroll_then_tunnel `{!SSHOk} (w : Surroundings) (opts : EnrollOptions) (f f' : FS) (cfg : MachineConfig) :
  (∀ p, read_err f p = None) → Enroll w opts f = (inr cfg, f') →
  LoadMachineConfig f' = (inr cfg, f') ∧
  (∃ k, generated_key w = inr k ∧ LoadMachineKey f' = (inr k, f')) ∧
  Config_RelayURL cfg = Opt_RelayURL opts ∧ Config_SSHAddr cfg ≠ EmptyString ∧ Config_HostKey cfg ≠ EmptyString.
Proof. apply enrolled_files. Qed.


End cli.

(** * Browser login *)

Lemma browser_loop_terminates elapsed rounds :
  (0 ≤ elapsed)%Z → (poll_deadline ≤ elapsed + 2 * Second * Z.of_nat (length rounds))%Z →
  is_Some (browser_loop elapsed rounds).
Proof.
  revert elapsed. induction rounds as [|r rounds IH]; intros elapsed He Hd; cbn [browser_loop].
  - cbn in Hd. destruct (Z.leb_spec poll_deadline elapsed); [by eexists|lia].
  - destruct (Z.leb poll_deadline elapsed); [by eexists|]. destruct (bp_cancelled r); [by eexists|].
    assert (is_Some (browser_loop (elapsed + 2 * Second + Z.of_nat (bp_extra r))%Z rounds)) as Hrec.
    { apply IH; unfold Second in *; [lia|]. cbn [length] in Hd. lia. }
    destruct (bp_answer r); [done|]. cbn zeta. destruct (_ && _); [by eexists|done].
Qed.

Lemma browser_loop_token elapsed rounds tok :
  browser_loop elapsed rounds = Some (inr tok) →
  tok ≠ EmptyString ∧ ∃ r body, r ∈ rounds ∧ bp_cancelled r = None ∧ bp_answer r = inr body ∧
    Values_Get "status" (Decode_lax ["status"; "id_token"] body).2 = "complete" ∧
    Values_Get "id_token" (Decode_lax ["status"; "id_token"] body).2 = tok.
Proof.
  revert elapsed. induction rounds as [|r rounds IH]; intros elapsed; cbn [browser_loop].
  { by destruct (Z.leb poll_deadline elapsed). }
  destruct (Z.leb poll_deadline elapsed); [done|]. destruct (bp_cancelled r) eqn:Hc; [done|].
  assert (browser_loop (elapsed + 2 * Second + Z.of_nat (bp_extra r))%Z rounds = Some (inr tok) →
    tok ≠ EmptyString ∧ ∃ r' body, r' ∈ r :: rounds ∧ bp_cancelled r' = None ∧ bp_answer r' = inr body ∧
      Values_Get "status" (Decode_lax ["status"; "id_token"] body).2 = "complete" ∧
      Values_Get "id_token" (Decode_lax ["status"; "id_token"] body).2 = tok) as Hrec.
  { intros (Ht & r' & body & Hin & ?)%IH. split; [done|]. exists r', body. split; [by right|done]. }
  destruct (bp_answer r) as [e|body] eqn:Ha; [done|]. cbn zeta.
  destruct (String.eqb_spec (Values_Get "status" (Decode_lax ["status"; "id_token"] body).2) "complete"); cbn [andb]; [|done].
  destruct (String.eqb_spec (Values_Get "id_token" (Decode_lax ["status"; "id_token"] body).2) EmptyString); cbn [negb]; [done|].
  intros [= <-]. split; [done|]. exists r, body. split; [left|done].
Qed.

(** A browser login ends: within 150 polls it has returned, whatever the
    relay answers and however long it takes; and the token it returns is the
    non-empty ID token of an answer "complete". *)
Theorem BrowserLogin_terminates (start : error + (nat * string * option json)) (rounds : list browser_poll) (tok : string) :
  (150 ≤ length rounds → is_Some (BrowserLogin start rounds)) ∧
  (BrowserLogin start rounds = Some (inr tok) →
    tok ≠ EmptyString ∧ ∃ r body, r ∈ rounds ∧ bp_cancelled r = None ∧ bp_answer r = inr body ∧
      Values_Get "status" (Decode_lax ["status"; "id_token"] body).2 = "complete" ∧
      Values_Get "id_token" (Decode_lax ["status"; "id_token"] body).2 = tok).
Proof.
  unfold BrowserLogin. split.
  - intros Hl. destruct (browser_start start); [by eexists|]. apply browser_loop_terminates; [done|].
    unfold poll_deadline, Minute, Second. lia.
  - destruct (browser_start start); [done|]. apply browser_loop_token.
Qed.

(** The default relay cannot be reached: without [--relay] the CLI takes
    its flag's default, so the "--relay flag is required" error is never
    given, and that default has no scheme, so that neither enrollment nor the
    browser login makes an http or https URL of it. *)
Lemma default_relay_has_no_scheme :
  resolveRelay relay_flag_default = inr "phosphor.betaporter.dev" ∧
  forallb (λ u, negb (HasPrefix u "http://" || HasPrefix u "https://"))
    [httpBaseURL relay_flag_default +:+ "/api/machines"; browser_base relay_flag_default +:+ "/api/auth/cli-start"] = true.
Proof. split; vm_compute; reflexivity. Qed.

(** ** A concrete machine *)

#[local] Existing Instances toy_ssh toy_ssh_ok.

Definition fs0 : FS := mkFS ∅ (λ _, None) [] (inr "/home/u") None.

Definition relay_answers (status : nat) (key : nat) : Surroundings :=
  mkSurroundings (λ _, inr tt)
    (λ _ _ _, inr (status, Some (strings_json (if Nat.eqb status 201 then [("id", "m1"); ("name", "n")]
                                               else [("error", "a machine with that name already exists")]))))
    (λ _, inr (Some (strings_json [("addr", "relay:2222"); ("host_key", "kk"); ("fingerprint", "SHA256:kk")])))
    (λ _, inl (ErrorString "no browser")) "host" (inr key).

Definition opts0 : EnrollOptions := mkEnrollOptions "https://relay" "laptop" "phk:key" EmptyString.

Definition cfg0 : MachineConfig := mkMachineConfig "m1" "https://relay" "relay:2222" "kk" EmptyString.

Definition fs1 : FS := (Enroll (relay_answers 201 3) opts0 fs0).2.

Lemma enroll_then_tunnel_witness :
  LoadMachineConfig fs1 = (inr cfg0, fs1) ∧ ∃ k, generated_key (relay_answers 201 3) = inr k ∧ LoadMachineKey fs1 = (inr k, fs1).
Proof.
  assert ((Enroll (relay_answers 201 3) opts0 fs0).1 = inr cfg0) as E by (vm_compute; reflexivity).
  destruct (enroll_then_tunnel (relay_answers 201 3) opts0 fs0 fs1 cfg0 (λ _, eq_refl)) as (H1 & H2 & _).
  - rewrite <-E. apply surjective_pairing.
  - split; [exact H1|exact H2].
Defined.

