(* ===== verification/CliMain.v ===== *)
(** The phosphor command (cmd/phosphor/main.go): its flags and its four
    commands, over the operations of internal/cli. *)
From Stdlib Require Import ZArith Lia Ascii.
From stdpp Require Import base gmap strings list.
From S2P Require Import Prelude GoStrings Http Files SshKeys GateLoop Apple CliTunnel CliEnroll CliProps.

(** * Commands *)

(** A flag that was not given has its default. *)
Definition flag (def : string) (given : option string) : string := default def given.

Definition provider_default : string := "microsoft".

(** The command line, as cobra parses it. *)
Inductive command :=
  | CmdLogin (provider : option string) (device_code : bool)
  | CmdLogout
  | CmdEnroll (name api_key sshd_addr : option string)
  | CmdTunnel (sshd_addr : option string).

Record invocation := mkInvocation { inv_relay : option string; inv_command : command }.

Definition newline : string := String (ascii_of_nat 10) EmptyString.

Section commands.
  Context `{SSH}.

(** What a command that does not fail comes to: the text it prints, or the
    tunnel it maintains, with its delays and whether it has returned. *)
Inductive cmd_output :=
  | Printed (stdout : string)
  | Tunnelling (machine : MachineConfig) (signer : Signer) (hostKey : PublicKey) (sshdAddr : string)
      (loop : list Duration * bool).

(** The outside of the commands: the environment, the device endpoints, the
    relay and the browser, and what becomes of the connections to the gateway. *)
Record outside := mkOutside {
  out_env : string → string;
  out_device : string → string → list string → error + DeviceCodeResponse;
  out_poll : string → string → string → error + DeviceTokenResponse;
  out_relay : Surroundings;
  out_rounds : list tunnel_round
}.

Definition cmd_login (o : outside) (relay : option string) (provider : option string) (device_code : bool) : M FS error cmd_output :=
  let! relay := pure (resolveRelay (flag relay_flag_default relay)) in
  do! Login (out_env o) (out_device o) (out_poll o) (browser_login (out_relay o)) (flag provider_default provider) relay device_code in
  ret (Printed EmptyString).

Definition cmd_logout : M FS error cmd_output :=
  do! ClearTokenCache in
  ret (Printed ("Logged out successfully" +:+ newline)).

Definition enrolled_message (cfg : MachineConfig) : string :=
  "Machine enrolled." +:+ newline +:+ "  id:      " +:+ Config_MachineID cfg +:+ newline +:+
  "  gateway: " +:+ Config_SSHAddr cfg +:+ newline +:+ newline +:+ "Start the tunnel with: phosphor tunnel" +:+ newline.

Definition cmd_enroll (o : outside) (relay name api_key sshd_addr : option string) : M FS error cmd_output :=
  let! relay := pure (resolveRelay (flag relay_flag_default relay)) in
  let! cfg := Enroll (out_relay o) (mkEnrollOptions relay (flag EmptyString name) (flag EmptyString api_key) (flag EmptyString sshd_addr)) in
  ret (Printed (enrolled_message cfg)).

Definition cmd_tunnel (o : outside) (sshd_addr : option string) : M FS error cmd_output :=
  let! machine := LoadMachineConfig
    else_return (WrapError "no machine enrollment found — run `phosphor enroll` first") in
  let! signer := LoadMachineKey else_return (WrapError "loading machine key") in
  let! r := pure (RunTunnel (flag EmptyString sshd_addr) machine (out_rounds o)) in
  ret (Tunnelling machine signer r.1.1 r.1.2 r.2).

Definition run_command (o : outside) (i : invocation) : M FS error cmd_output :=
  match inv_command i with
  | CmdLogin provider device_code => cmd_login o (inv_relay i) provider device_code
  | CmdLogout => cmd_logout
  | CmdEnroll name api_key sshd_addr => cmd_enroll o (inv_relay i) name api_key sshd_addr
  | CmdTunnel sshd_addr => cmd_tunnel o sshd_addr
  end.

(** [main]: the exit status. *)
Definition exit_status (o : outside) (i : invocation) (f : FS) : nat :=
  match (run_command o i f).1 with inl _ => 1 | inr _ => 0 end.

(** * The cached token *)

Lemma tokens_path_home home : tokens_path (home +:+ "/.config/phosphor") = home +:+ "/.config/phosphor/tokens.json".
Proof. unfold tokens_path. by rewrite string_app_assoc. Qed.

Lemma SaveTokenCache_inv c f f1 home :
  home_ok f home → SaveTokenCache c f = (inr tt, f1) →
  written (home +:+ "/.config/phosphor/tokens.json") (JsonText (TokenCache_json c)) f f1.
Proof.
  intros Hh. unfold SaveTokenCache, bind. rewrite (configDir_ok _ _ Hh), tokens_path_home. apply WriteFile_written.
Qed.

Lemma TokenCache_load f home c :
  home_ok f home → (∀ p, read_err f p = None) →
  files f !! (home +:+ "/.config/phosphor/tokens.json") = Some (JsonText (TokenCache_json c)) →
  LoadTokenCache f = (inr c, f).
Proof.
  intros Hh Hr Hf. unfold LoadTokenCache, bind. rewrite (configDir_ok _ _ Hh), tokens_path_home.
  rewrite (ReadFile_lookup _ (JsonText (TokenCache_json c)) f (Hr _) Hf). cbn [json_of]. by destruct c.
Qed.

Lemma TokenCache_absent f home :
  home_ok f home → (∀ p, read_err f p = None) → files f !! (home +:+ "/.config/phosphor/tokens.json") = None →
  LoadTokenCache f = (inl ErrNotExist, f).
Proof.
  intros Hh Hr Hf. unfold LoadTokenCache, bind. rewrite (configDir_ok _ _ Hh), tokens_path_home.
  unfold ReadFile, bind, get. cbn. by rewrite Hr, Hf.
Qed.

(** Enrollment without an API key: the cached token, unless it is empty. *)
Lemma enroll_token_cached w opts f r :
  Opt_APIKey opts = EmptyString → LoadTokenCache f = (r, f) →
  enroll_token w opts f =
    (match r with
     | inr c => if String.eqb (Cache_AccessToken c) EmptyString
                then match browser_login w (Opt_RelayURL opts) with inl e => inl (WrapError "authenticating" e) | inr t => inr t end
                else inr (Cache_AccessToken c)
     | inl _ => match browser_login w (Opt_RelayURL opts) with inl e => inl (WrapError "authenticating" e) | inr t => inr t end
     end, f).
Proof.
  intros Hk Hl. unfold enroll_token. rewrite Hk. cbn [String.eqb negb]. unfold bind, attempt. rewrite Hl.
  unfold or_return, pure, ret. destruct r as [e|c]; cbn [fst snd].
  - by destruct (browser_login w _).
  - destruct (String.eqb (Cache_AccessToken c) EmptyString); cbn [negb]; [by destruct (browser_login w _)|done].
Qed.

(** The token a login ends with. *)
Definition login_token (o : outside) (relay : string) (provider : option string) (device_code : bool) (tok : string) : Prop :=
  if device_code then
    ∃ url client code dtr, out_poll o url client code = inr dtr ∧
      tok = if String.eqb (DT_IDToken dtr) EmptyString then AccessToken dtr else DT_IDToken dtr
  else browser_login (out_relay o) relay = inr tok.

(** Saving is the last thing a login does. *)
Lemma saved c f out f1 :
  (do! SaveTokenCache c else_return (WrapError "save token") in ret tt) f = (inr out, f1) → SaveTokenCache c f = (inr tt, f1).
Proof.
  unfold bind, or_return. destruct (SaveTokenCache c f) as [[e|[]] f2]; cbn [fst snd]; [done|]. by intros [= _ <-].
Qed.

Lemma Login_inv o provider relay dc f f1 :
  Login (out_env o) (out_device o) (out_poll o) (browser_login (out_relay o)) provider relay dc f = (inr tt, f1) →
  ∃ tok refresh name, SaveTokenCache (mkTokenCache tok refresh name) f = (inr tt, f1) ∧
    login_token o relay (Some provider) dc tok.
Proof.
  unfold Login, login_token. destruct dc.
  - destruct (negb _); [done|]. unfold loginDeviceCode.
    destruct (deviceCodeConfigs _) as [[[[durl turl] var] scopes]|]; [|done].
    destruct (String.eqb (out_env o var) EmptyString); [done|]. unfold bind at 1, or_return at 1, pure at 1. cbn [fst snd].
    destruct (out_device o _ _ _) as [e|dcr]; cbn [fst snd]; [done|]. unfold bind at 1, or_return at 1, pure at 1. cbn [fst snd].
    destruct (out_poll o turl (out_env o var) (DeviceCode dcr)) as [e|dtr] eqn:Hp; cbn [fst snd]; [done|]. intros Hs%saved.
    eexists _, _, _. split; [exact Hs|]. by eexists _, _, _, _.
  - unfold bind at 1, or_return at 1, pure. cbn [fst snd].
    destruct (browser_login _ relay) as [e|tok] eqn:Hb; cbn [fst snd]; [done|]. intros Hs%saved. by eexists _, _, _.
Qed.

Lemma cmd_logout_ok f home :
  home_ok f home →
  cmd_logout f = (inr (Printed ("Logged out successfully" +:+ newline)),
    set_files (delete (home +:+ "/.config/phosphor/tokens.json") (files f)) f).
Proof.
  intros Hh. unfold cmd_logout, ClearTokenCache, bind, attempt. rewrite (configDir_ok _ _ Hh), tokens_path_home.
  unfold Remove, bind, get. cbn [fst snd].
  destruct (files f !! (home +:+ "/.config/phosphor/tokens.json")) as [c|] eqn:Hf; unfold modify, throw, ret; cbn -[newline].
  - done.
  - rewrite delete_id by done. by destruct f.
Qed.

(** The life of the cached token.  After [phosphor login] has succeeded,
    an enrollment without an API key goes out with the token the login gave
    (unless that was empty), without another login.  [phosphor logout] then
    succeeds and removes that file and nothing else, the machine's key and
    its enrollment included; afterwards an enrollment has to log in again;
    and a second logout succeeds and changes nothing. *)
Theorem login_then_logout (o : outside) (relay provider : option string) (device_code : bool) (f f1 : FS) (out : cmd_output) :
  (∀ p, read_err f p = None) → run_command o (mkInvocation relay (CmdLogin provider device_code)) f = (inr out, f1) →
  ∃ home tok f2, homedir f = inr home ∧
    (∃ url, resolveRelay (flag relay_flag_default relay) = inr url ∧ login_token o url provider device_code tok) ∧
    (∀ w opts, Opt_APIKey opts = EmptyString → tok ≠ EmptyString → enroll_token w opts f1 = (inr tok, f1)) ∧
    run_command o (mkInvocation relay CmdLogout) f1 = (inr (Printed ("Logged out successfully" +:+ newline)), f2) ∧
    (∀ p, files f2 !! p = if decide (p = home +:+ "/.config/phosphor/tokens.json") then None else files f !! p) ∧
    (∀ w opts, Opt_APIKey opts = EmptyString →
       enroll_token w opts f2 =
         (match browser_login w (Opt_RelayURL opts) with inl e => inl (WrapError "authenticating" e) | inr t => inr t end, f2)) ∧
    (run_command o (mkInvocation relay CmdLogout) f2).1 = inr (Printed ("Logged out successfully" +:+ newline)) ∧
    (∀ p, files (run_command o (mkInvocation relay CmdLogout) f2).2 !! p = files f2 !! p).
Proof.
  intros Hr. unfold run_command. cbn [inv_command inv_relay]. unfold cmd_login. unfold bind at 1, pure at 1.
  destruct (resolveRelay _) as [e|url] eqn:Hrelay; [done|]. unfold bind.
  destruct (Login _ _ _ _ _ _ _ f) as [[e|[]] f1'] eqn:Hlogin; [done|]. unfold ret. intros [= _ ->].
  apply Login_inv in Hlogin as (tok & refresh & name & Hs & Htok).
  pose proof Hs as Hs'. unfold SaveTokenCache, bind in Hs'. destruct (configDir f) as [[e|dir] f0] eqn:Hc; [done|]. clear Hs'.
  apply configDir_inv in Hc as (home & Hh & _ & _). pose proof (SaveTokenCache_inv _ _ _ _ Hh Hs) as W.
  assert (home_ok f1 home) as Hh1 by (destruct Hh, W; split; congruence).
  set (f2 := set_files (delete (home +:+ "/.config/phosphor/tokens.json") (files f1)) f1).
  assert (∀ p, read_err f1 p = None) as Hr1 by (intros p; by rewrite (written_read _ _ _ _ W)).
  exists home, tok, f2. split; [apply Hh|]. split; [by exists url|].
  split; [|split; [by apply cmd_logout_ok|split; [|split; [|split]]]].
  - intros w opts Hk Hne. rewrite (enroll_token_cached _ _ _ (inr (mkTokenCache tok refresh name)) Hk).
    + cbn. by rewrite (proj2 (String.eqb_neq _ _) Hne).
    + eapply TokenCache_load; [done|done|]. by rewrite (written_files _ _ _ _ W), lookup_insert_eq.
  - intros p. cbn. rewrite (written_files _ _ _ _ W), lookup_delete, lookup_insert. repeat case_decide; congruence.
  - intros w opts Hk. rewrite (enroll_token_cached _ _ _ (inl ErrNotExist) Hk); [done|].
    eapply TokenCache_absent; [exact Hh1|exact Hr1|]. apply lookup_delete_eq.
  - by rewrite (cmd_logout_ok f2 home Hh1).
  - intros p. rewrite (cmd_logout_ok f2 home Hh1). cbn. rewrite !lookup_delete. by case_decide.
Qed.

(** * Enrollment and the tunnel *)

Lemma cmd_tunnel_loaded o addr f cfg k :
  LoadMachineConfig f = (inr cfg, f) → LoadMachineKey f = (inr k, f) →
  cmd_tunnel o addr f =
    (match ParseAuthorizedKey (Config_HostKey cfg) with
     | inl e => inl (WrapError "parsing pinned gateway host key" e)
     | inr hk => inr (Tunnelling cfg k hk (sshd_addr (flag EmptyString addr) cfg) (reconnect Second (out_rounds o)))
     end, f).
Proof.
  intros Hc Hk. unfold cmd_tunnel, bind, or_return, pure. rewrite Hc. cbn [fst snd]. rewrite Hk. cbn [fst snd].
  unfold RunTunnel. by destruct (ParseAuthorizedKey _).
Qed.


End commands.

(** * Examples *)

#[local] Existing Instances toy_ssh toy_ssh_ok.

Definition blank_home : FS := mkFS ∅ (λ _, None) [] (inr "/home/u") None.

(** A browser login gives [tok]; the relay answers as it should. *)
Definition outside0 : outside :=
  mkOutside (λ _, EmptyString) (λ _ _ _, inl (ErrorString "unused")) (λ _ _ _, inl (ErrorString "unused"))
    (mkSurroundings (λ _, inr tt) (λ _ _ _, inr (201, Some (strings_json [("id", "m1"); ("name", "host")])))
      (λ _, inr (Some (strings_json [("addr", "relay:2222"); ("host_key", "kk")]))) (λ _, inr "tok") "host" (inr 3))
    [].

Definition after_login : FS := (run_command outside0 (mkInvocation (Some "wss://relay") (CmdLogin None false)) blank_home).2.

Lemma login_then_logout_witness :
  (enroll_token (out_relay outside0) (mkEnrollOptions "wss://relay" EmptyString EmptyString EmptyString) after_login).1 = inr "tok" ∧
  exit_status outside0 (mkInvocation None CmdLogout) after_login = 0.
Proof.
  split; [|vm_compute; reflexivity].
  destruct (login_then_logout outside0 (Some "wss://relay") None false blank_home after_login (Printed EmptyString)
    (λ _, eq_refl) eq_refl) as (home & tok & f2 & _ & (url & Hu & Ht) & Hcached & _).
  injection Hu as <-. cbn in Ht. injection Ht as <-. exact (f_equal fst (Hcached _ (mkEnrollOptions _ _ _ _) eq_refl ltac:(discriminate))).
Defined.

Definition after_enroll : FS :=
  (run_command outside0 (mkInvocation (Some "wss://relay") (CmdEnroll None (Some "phk:1") None)) blank_home).2.

