(* ===== verification/WsConn.v ===== *)
(** The WebSocket of the browser's SSH client as a net.Conn
    (internal/webssh/wsconn.go): the buffer that the JS callbacks fill and
    [Read] drains, failures, and closing. *)
From Stdlib Require Import ZArith Lia Ascii.
From stdpp Require Import base strings list.
From S2P Require Import Prelude GoStrings.

Definition EOF : error := ErrorString "EOF".
Definition ErrClosedPipe : error := ErrorString "io: read/write on closed pipe".
Definition ErrWebSocket : error := ErrorString "websocket error".

(** [ws_sent] is what [ws.send] was given, [ws_close_called] how often
    [ws.close] was called; [ws_released] tells that [closeOne] has fired and
    the callbacks are released: a released callback does nothing. *)
Record wsConn := mkWsConn {
  ws_buf : string;
  ws_closed : bool;
  ws_err : option error;
  ws_sent : list string;
  ws_close_called : nat;
  ws_released : bool
}.

Definition newWSConn : wsConn := mkWsConn EmptyString false None [] 0 false.

(** The data of a message event. *)
Inductive ws_data := TextFrame (s : string) | BinaryFrame (b : string).

Definition on_message (d : ws_data) (c : wsConn) : wsConn :=
  match d with
  | TextFrame _ => c
  | BinaryFrame b =>
      mkWsConn (ws_buf c +:+ b) (ws_closed c) (ws_err c) (ws_sent c) (ws_close_called c) (ws_released c)
  end.

Definition ws_fail (err : error) (c : wsConn) : wsConn :=
  mkWsConn (ws_buf c) true (match ws_err c with None => Some err | Some e => Some e end)
    (ws_sent c) (ws_close_called c) (ws_released c).

(** [Read] of up to [n] bytes, once it holds the mutex; [None] while it has
    to wait for the condition. *)
Definition ws_Read (n : nat) (c : wsConn) : option (error + string) * wsConn :=
  if String.eqb (ws_buf c) EmptyString && negb (ws_closed c) then (None, c)
  else if negb (String.eqb (ws_buf c) EmptyString) then
    (Some (inr (string_take n (ws_buf c))),
     mkWsConn (string_drop n (ws_buf c)) (ws_closed c) (ws_err c) (ws_sent c) (ws_close_called c) (ws_released c))
  else
    match ws_err c with
    | Some err => (Some (inl err), c)
    | None => (Some (inl EOF), c)
    end.

Definition ws_Write (p : string) : M wsConn error nat := λ c,
  if ws_closed c then (inl ErrClosedPipe, c)
  else (inr (String.length p),
        mkWsConn (ws_buf c) (ws_closed c) (ws_err c) (ws_sent c ++ [p]) (ws_close_called c) (ws_released c)).

Definition ws_Close (c : wsConn) : wsConn :=
  if ws_released c then c
  else mkWsConn (ws_buf c) true (ws_err c) (ws_sent c) (S (ws_close_called c)) true.

(** * Histories *)

Inductive ws_op :=
  | MessageEvent (d : ws_data)
  | CloseEvent
  | ErrorEvent
  | OpRead (n : nat)
  | OpWrite (p : string)
  | OpClose.

(** An event reaches its callback unless it is released. *)
Definition event (f : wsConn → wsConn) (c : wsConn) : wsConn := if ws_released c then c else f c.

(** One operation: the bytes it read, if any, and the state it leaves. *)
Definition ws_step (o : ws_op) (c : wsConn) : string * wsConn :=
  match o with
  | MessageEvent d => (EmptyString, event (on_message d) c)
  | CloseEvent => (EmptyString, event (ws_fail EOF) c)
  | ErrorEvent => (EmptyString, event (ws_fail ErrWebSocket) c)
  | OpRead n =>
      (match (ws_Read n c).1 with Some (inr b) => b | _ => EmptyString end, (ws_Read n c).2)
  | OpWrite p => (EmptyString, (ws_Write p c).2)
  | OpClose => (EmptyString, ws_Close c)
  end.

(** All the bytes read, and the final state. *)
Fixpoint ws_run (os : list ws_op) (c : wsConn) : string * wsConn :=
  match os with
  | [] => (EmptyString, c)
  | o :: os => let '(b, c1) := ws_step o c in let '(b', c2) := ws_run os c1 in (b +:+ b', c2)
  end.

(** ** What a history says, without the connection's state *)

(** The bytes of the binary frames delivered before the connection is closed
    from this side. *)
Fixpoint received (os : list ws_op) : string :=
  match os with
  | [] => EmptyString
  | MessageEvent (BinaryFrame b) :: os => b +:+ received os
  | OpClose :: _ => EmptyString
  | _ :: os => received os
  end.

(** What ended the connection first: what a reader gets after the bytes. *)
Fixpoint ended (os : list ws_op) : option error :=
  match os with
  | [] => None
  | CloseEvent :: _ => Some EOF
  | ErrorEvent :: _ => Some ErrWebSocket
  | OpClose :: _ => Some EOF
  | _ :: os => ended os
  end.

(** The writes made before that. *)
Fixpoint accepted_writes (os : list ws_op) : list string :=
  match os with
  | [] => []
  | OpWrite p :: os => p :: accepted_writes os
  | CloseEvent :: _ | ErrorEvent :: _ | OpClose :: _ => []
  | _ :: os => accepted_writes os
  end.

Definition closes (os : list ws_op) : nat :=
  if existsb (λ o, match o with OpClose => true | _ => false end) os then 1 else 0.

(** * The stream *)

(** What a reader gets once the buffer is empty; [None]: it waits. *)
Definition outcome (c : wsConn) : option error :=
  if ws_closed c then Some (match ws_err c with Some err => err | None => EOF end) else None.

Record ws_ok (c : wsConn) : Prop := {
  wo_released : ws_released c = true → ws_closed c = true;
  wo_closed : ws_closed c = true → ws_released c = true ∨ is_Some (ws_err c);
  wo_err : is_Some (ws_err c) → ws_closed c = true
}.

Lemma ws_Read_spec n c :
  ws_Read n c =
    (if String.eqb (ws_buf c) EmptyString then inl <$> outcome c else Some (inr (string_take n (ws_buf c))),
     mkWsConn (string_drop n (ws_buf c)) (ws_closed c) (ws_err c) (ws_sent c) (ws_close_called c) (ws_released c)).
Proof.
  destruct c as [buf cl er se cc re]. unfold ws_Read, outcome. cbn.
  destruct (String.eqb_spec buf EmptyString) as [->|]; cbn; [|done].
  destruct n, cl, er; done.
Qed.

Lemma ws_step_ok o c : ws_ok c → ws_ok (ws_step o c).2.
Proof.
  intros [Hr Hc He]. destruct o as [[t|b]| | |n|p|]; cbn; unfold event, ws_fail, ws_Write, ws_Close;
    try (rewrite ws_Read_spec; by split);
    repeat (case_match; cbn; try by split); split; cbn; intros; try done; eauto.
  all: naive_solver.
Qed.

(** The stream through one operation, [os] being what follows. *)
Lemma ws_step_stream o os c :
  ws_ok c →
  let '(b, c1) := ws_step o c in
  b +:+ ws_buf c1 +:+ (if ws_released c1 then EmptyString else received os) =
    ws_buf c +:+ (if ws_released c then EmptyString else received (o :: os)) ∧
  ws_sent c1 ++ (if ws_closed c1 then [] else accepted_writes os) =
    ws_sent c ++ (if ws_closed c then [] else accepted_writes (o :: os)) ∧
  ws_close_called c1 + (if ws_released c1 then 0 else closes os) =
    ws_close_called c + (if ws_released c then 0 else closes (o :: os)) ∧
  match outcome c1 with Some e => Some e | None => ended os end =
    match outcome c with Some e => Some e | None => ended (o :: os) end.
Proof.
  intros [Hr Hc He]. destruct c as [buf cl er se cc re]. cbn in *.
  destruct o as [[t|b]| | |n|p|]; cbn -[ws_Read]; unfold event, ws_fail, ws_Write, ws_Close, outcome, closes; cbn -[ws_Read].
  - destruct re; cbn; done.
  - destruct re; cbn; [done|]. by rewrite string_app_assoc.
  - destruct re; cbn; [by rewrite Hr by done|]. destruct cl; [destruct (Hc eq_refl) as [|[e ->]]; done|].
    destruct er; [by specialize (He ltac:(eauto))|]. by rewrite app_nil_r.
  - destruct re; cbn; [by rewrite Hr by done|]. destruct cl; [destruct (Hc eq_refl) as [|[e ->]]; done|].
    destruct er; [by specialize (He ltac:(eauto))|]. by rewrite app_nil_r.
  - rewrite ws_Read_spec. cbn. split; [|done].
    destruct (String.eqb_spec buf EmptyString) as [->|]; cbn.
    + unfold outcome. cbn. destruct n, cl; done.
    + by rewrite <-string_app_assoc, string_take_drop.
  - destruct cl; cbn; [done|]. by rewrite <-app_assoc.
  - destruct re; cbn; [by rewrite Hr by done|]. rewrite !string_app_nil_r. destruct cl; cbn; rewrite ?app_nil_r.
    + split_and!; [done|done|lia|done].
    + destruct er; [by specialize (He ltac:(eauto))|]. split_and!; [done|done|lia|done].
Qed.

Lemma ws_run_stream os c :
  ws_ok c →
  let '(out, c') := ws_run os c in
  out +:+ ws_buf c' = ws_buf c +:+ (if ws_released c then EmptyString else received os) ∧
  ws_sent c' = ws_sent c ++ (if ws_closed c then [] else accepted_writes os) ∧
  ws_close_called c' = ws_close_called c + (if ws_released c then 0 else closes os) ∧
  outcome c' = match outcome c with Some e => Some e | None => ended os end.
Proof.
  revert c. induction os as [|o os IH]; intros c Hc; cbn [ws_run].
  - destruct (ws_released c), (ws_closed c), (outcome c); cbn; rewrite ?string_app_nil_r, ?app_nil_r; auto with lia.
  - pose proof (ws_step_stream o os c Hc) as Hstep. pose proof (ws_step_ok o c Hc) as Hc1.
    destruct (ws_step o c) as [b c1]. cbn in Hc1. specialize (IH c1 Hc1). destruct (ws_run os c1) as [out c'].
    destruct Hstep as (<- & <- & <- & <-). destruct IH as (Hbuf & -> & -> & ->).
    by rewrite string_app_assoc, Hbuf.
Qed.

Lemma newWSConn_ok : ws_ok newWSConn.
Proof. split; cbn; [done|done|by intros [? [=]]]. Qed.

(** C36: The connection is a byte stream.  Whatever the history of events,
    reads, writes and closes: the bytes read so far are a prefix of those of
    the binary frames, in order, that came before it was closed from this
    side; a read gives the next of them as long as there are any, even after
    the socket has failed; then it waits as long as nothing has ended the
    connection, and else gives the first thing that did (EOF for a close by
    either side); the socket was given exactly the writes made before that;
    and it is closed at most once. *)
Theorem ws_stream (os : list ws_op) :
  let '(out, c) := ws_run os newWSConn in
  (∃ rest, received os = out +:+ rest ∧ ∀ n,
    (ws_Read n c).1 = if String.eqb rest EmptyString then inl <$> ended os else Some (inr (string_take n rest))) ∧
  ws_sent c = accepted_writes os ∧
  (∀ p, (ws_Write p c).1 = match ended os with Some _ => inl ErrClosedPipe | None => inr (String.length p) end) ∧
  ws_close_called c = closes os.
Proof.
  pose proof (ws_run_stream os newWSConn newWSConn_ok) as Hrun. destruct (ws_run os newWSConn) as [out c].
  destruct Hrun as (Hbuf & Hsent & Hclose & Hout). cbn in *. split; [|split; [done|split; [|done]]].
  - exists (ws_buf c). split; [done|]. intros n. by rewrite ws_Read_spec, <-Hout.
  - intros p. rewrite <-Hout. unfold ws_Write, outcome. by destruct (ws_closed c).
Qed.
