(* ===== verification/WebSsh.v ===== *)
(** The browser's SSH client (internal/webssh): JS values and promises, the
    authentication prelude, the callbacks given to the SSH library,
    [connect], the session handle, and the functions registered for JS. *)
From Stdlib Require Import ZArith Lia Ascii.
From stdpp Require Import base gmap strings list pretty.
From S2P Require Import Prelude GoStrings Http SshKeys WsConn.

(** * JS values (package syscall/js) *)

Inductive js :=
  | JsUndefined
  | JsNull
  | JsBoolean (b : bool)
  | JsNumber (n : Z)
  | JsString (s : string)
  | JsArray (l : list js)
  | JsBytes (b : string)                  (** a Uint8Array *)
  | JsObject (fields : list (string * js))
  | JsFunction.

Fixpoint js_field (k : string) (fields : list (string * js)) : js :=
  match fields with
  | [] => JsUndefined
  | (k', v) :: fields => if String.eqb k k' then v else js_field k fields
  end.

(** [Value.Get]; [None]: it panics on what is neither an object nor a
    function. *)
Definition js_Get (v : js) (k : string) : option js :=
  match v with
  | JsObject fields => Some (js_field k fields)
  | JsArray l => Some (if String.eqb k "length" then JsNumber (Z.of_nat (length l)) else JsUndefined)
  | JsBytes b => Some (if String.eqb k "length" then JsNumber (Z.of_nat (String.length b)) else JsUndefined)
  | JsFunction => Some JsUndefined
  | _ => None
  end.

Definition js_Truthy (v : js) : bool :=
  match v with
  | JsUndefined | JsNull => false
  | JsBoolean b => b
  | JsNumber n => negb (Z.eqb n 0)
  | JsString s => negb (String.eqb s EmptyString)
  | _ => true
  end.

(** [Value.String] *)
Definition js_String (v : js) : string :=
  match v with
  | JsString s => s
  | JsUndefined => "<undefined>"
  | JsNull => "<null>"
  | JsBoolean b => "<boolean: " +:+ (if b then "true" else "false") +:+ ">"
  | JsNumber n => "<number: " +:+ pretty n +:+ ">"
  | JsArray _ | JsBytes _ | JsObject _ => "<object>"
  | JsFunction => "<function>"
  end.

(** [v.Length()] and [v.Index(i)]; [None]: [Length] panics. *)
Definition js_Length (v : js) : option nat :=
  match v with
  | JsArray l => Some (length l)
  | JsBytes b => Some (String.length b)
  | JsObject fields => match js_field "length" fields with JsNumber n => Some (Z.to_nat n) | _ => Some 0 end
  | JsFunction => Some 0
  | _ => None
  end.

Definition js_Index (v : js) (i : nat) : js :=
  match v with
  | JsArray l => default JsUndefined (l !! i)
  | JsBytes b => match String.get i b with Some c => JsNumber (Z.of_nat (nat_of_ascii c)) | None => JsUndefined end
  | JsObject fields => js_field (pretty i) fields
  | _ => JsUndefined
  end.

(** How a Go function that calls into JS ends: a panic kills the module. *)
Inductive go_end (A : Type) :=
  | Returns (r : A)
  | Panics
  | Blocks.
Arguments Returns {A} r.
Arguments Panics {A}.
Arguments Blocks {A}.

(** ** await (promise.go) *)

(** What a JS callback returns. *)
Inductive js_result :=
  | Immediate (v : js)              (** a value without a method [then] *)
  | Resolves (v : js)
  | Rejects (reason : js)
  | NeverSettles.

(** The message of a rejection, [None] when [Get] panics. *)
Definition reject_message (reason : js) : option string :=
  if js_Truthy reason then
    match js_Get reason "message" with
    | None => None
    | Some (JsString m) => Some m
    | Some _ => Some (js_String reason)
    end
  else Some "rejected".

Definition await (promise : js_result) : go_end (error + js) :=
  match promise with
  | Immediate v | Resolves v => Returns (inr v)
  | Rejects reason =>
      match reject_message reason with
      | Some msg => Returns (inl (ErrorString msg))
      | None => Panics
      end
  | NeverSettles => Blocks
  end.

(** * The prelude (prelude.go) *)

Inductive prelude_event :=
  | PreOpen
  | PreText (data : option json)       (** a text frame, as [json.Unmarshal] reads it *)
  | PreBinary
  | PreError
  | PreClose.

(** The struct [ack]: members of the wrong type make decoding an error. *)
Fixpoint ack_members (l : list (string * json)) (ok : bool) (err : string) : option (bool * string) :=
  match l with
  | [] => Some (ok, err)
  | (k, v) :: l =>
      match field_of ["ok"; "error"] k, v with
      | None, _ | _, JNull => ack_members l ok err
      | Some f, JBool b => if String.eqb f "ok" then ack_members l b err else None
      | Some f, JString s => if String.eqb f "error" then ack_members l ok s else None
      | Some _, _ => None
      end
  end.

Definition decode_ack (data : option json) : option (bool * string) :=
  match data with
  | Some JNull => Some (false, EmptyString)
  | Some (JObject l) => ack_members l false EmptyString
  | _ => None
  end.

(** What an acknowledgement means. *)
Definition ack_verdict (data : option json) : error + unit :=
  match decode_ack data with
  | None => inl (ErrorString "invalid auth ack")
  | Some (true, _) => inr tt
  | Some (false, err) =>
      inl (ErrorString (if String.eqb err EmptyString then "authentication rejected" else err))
  end.

Definition auth_payload (token : string) : json := strings_json [("token", token)].

(** The loop over the events: what was sent, and how it ends, [None] while
    it waits; also the events left for the listeners that come after. *)
Fixpoint prelude_loop (token : string) (evs : list prelude_event)
    : list json * option (error + list prelude_event) :=
  match evs with
  | [] => ([], None)
  | PreOpen :: evs => let '(sent, r) := prelude_loop token evs in (auth_payload token :: sent, r)
  | PreBinary :: evs => prelude_loop token evs
  | PreText data :: evs =>
      ([], Some (match ack_verdict data with inl err => inl err | inr _ => inr evs end))
  | PreError :: _ => ([], Some (inl (ErrorString "websocket error before auth")))
  | PreClose :: _ => ([], Some (inl (ErrorString "websocket closed before auth")))
  end.

(** [already_open]: [readyState] is 1 when the listeners are there. *)
Definition openAndAuth (already_open : bool) (token : string) (evs : list prelude_event)
    : list json * option (error + list prelude_event) :=
  let '(sent, r) := prelude_loop token evs in
  ((if already_open then [auth_payload token] else []) ++ sent, r).

(** * The callbacks of the SSH client (client.go) *)

Section client.
  Context `{SSH}.

(** The functions among the properties of [opts.callbacks]; [None] for a
    property that is not a function.  A function is given by what it
    returns. *)
Record callbacks := mkCallbacks {
  onData : bool;
  onClose : bool;
  onPassword : option js_result;
  onKeyboardInteractive : option (string → string → list string → js_result);
  onHostKey : option (string → string → js_result)
}.

Record connectOptions := mkConnectOptions {
  wsURL : string;
  token : string;
  username : string;
  privateKey : string;
  keyPass : string;
  cbs : callbacks;
  rows : Z;
  cols : Z
}.

Definition password_callback (r : js_result) : go_end (error + string) :=
  match await r with
  | Returns (inr v) => Returns (inr (js_String v))
  | Returns (inl err) => Returns (inl err)
  | Panics => Panics
  | Blocks => Blocks
  end.

(** The loop over the answers; [Length] is asked for each of them. *)
Definition read_answers (v : js) (n : nat) : option (list string) :=
  match n, js_Length v with
  | O, _ => Some []
  | _, None => None
  | _, Some len => Some ((λ i, if i <? len then js_String (js_Index v i) else EmptyString) <$> seq 0 n)
  end.

Definition keyboard_callback (fn : string → string → list string → js_result)
    (name instruction : string) (questions : list string) : go_end (error + list string) :=
  match await (fn name instruction questions) with
  | Returns (inr v) =>
      match read_answers v (length questions) with
      | Some answers => Returns (inr answers)
      | None => Panics
      end
  | Returns (inl err) => Returns (inl err)
  | Panics => Panics
  | Blocks => Blocks
  end.

Definition jsHostKeyCallback (cb : callbacks) (key : PublicKey) (key_type : string) : go_end (error + unit) :=
  match onHostKey cb with
  | None => Returns (inr tt)
  | Some fn =>
      match await (fn (FingerprintSHA256 key) key_type) with
      | Returns (inr v) => Returns (if js_Truthy v then inr tt else inl (ErrorString "host key rejected"))
      | Returns (inl err) => Returns (inl err)
      | Panics => Panics
      | Blocks => Blocks
      end
  end.

Inductive auth_method :=
  | PublicKeys (k : Signer)
  | PasswordCallback (r : js_result)
  | KeyboardInteractive (fn : string → string → list string → js_result).

Definition authMethods (opts : connectOptions) (cb : callbacks) : list auth_method :=
  (if negb (String.eqb (privateKey opts) EmptyString) then
     match (if negb (String.eqb (keyPass opts) EmptyString)
            then ParsePrivateKeyWithPassphrase (privateKey opts) (keyPass opts)
            else ParsePrivateKey (privateKey opts)) with
     | inr signer => [PublicKeys signer]
     | inl _ => []
     end
   else []) ++
  match onPassword cb with Some r => [PasswordCallback r] | None => [] end ++
  match onKeyboardInteractive cb with Some fn => [KeyboardInteractive fn] | None => [] end.

(** * connect *)

(** What it does to the socket and to the host, in order.  Closing the SSH
    client closes the connection it runs on. *)
Inductive ssh_effect :=
  | DialWS (url protocol : string)
  | SendWS (v : json)
  | CloseWS                    (** [ws.close] *)
  | CloseWSConn                (** [wsc.Close] *)
  | CloseClient                (** [client.Close] *)
  | Handshake (user : string) (methods : list auth_method)
  | RequestPty (term : string) (rows cols : Z)
  | StartShell.

(** The answers of the SSH library and the host. *)
Record ssh_answers := mkAnswers {
  an_NewClientConn : error + unit;
  an_NewSession : error + unit;
  an_RequestPty : error + unit;
  an_StdinPipe : error + unit;
  an_StdoutPipe : error + unit;
  an_StderrPipe : error + unit;
  an_Shell : error + unit
}.

(** It fails, or still waits for the acknowledgement. *)
Inductive connect_stop := ConnectFailed (err : error) | ConnectWaiting.

Definition emit (e : ssh_effect) : M (list ssh_effect) connect_stop unit := modify (λ l, l ++ [e]).

Definition emit_all (es : list ssh_effect) : M (list ssh_effect) connect_stop unit := modify (λ l, l ++ es).

(** [if err != nil { client.Close(); return ..., wrap(err) }] *)
Definition or_close (r : error + unit) (wrap : error → error) : M (list ssh_effect) connect_stop unit :=
  match r with
  | inr _ => ret tt
  | inl err => do! emit CloseClient in throw (ConnectFailed (wrap err))
  end.

(** On success, the events left for the connection. *)
Definition connect (opts : connectOptions) (already_open : bool) (evs : list prelude_event) (an : ssh_answers)
    : M (list ssh_effect) connect_stop (list prelude_event) :=
  do! emit (DialWS (wsURL opts) "phosphor-ssh") in
  let '(sent, r) := openAndAuth already_open (token opts) evs in
  do! emit_all (SendWS <$> sent) in
  match r with
  | None => throw ConnectWaiting
  | Some (inl err) => do! emit CloseWS in throw (ConnectFailed err)
  | Some (inr rest) =>
      do! emit (Handshake (username opts) (authMethods opts (cbs opts))) in
      match an_NewClientConn an with
      | inl err => do! emit CloseWSConn in throw (ConnectFailed (WrapError "ssh handshake" err))
      | inr _ =>
          do! or_close (an_NewSession an) (WrapError "opening session") in
          let rows := if Z.eqb (rows opts) 0 then 24%Z else rows opts in
          let cols := if Z.eqb (cols opts) 0 then 80%Z else cols opts in
          do! emit (RequestPty "xterm-256color" rows cols) in
          do! or_close (an_RequestPty an) (WrapError "requesting pty") in
          do! or_close (an_StdinPipe an) id in
          do! or_close (an_StdoutPipe an) id in
          do! or_close (an_StderrPipe an) id in
          do! emit StartShell in
          do! or_close (an_Shell an) (WrapError "starting shell") in
          ret rest
      end
  end.

End client.

(** ** What connect guarantees *)

(** Events the prelude goes on after. *)
Definition quiet (e : prelude_event) : bool :=
  match e with PreOpen | PreBinary => true | _ => false end.

Definition opens (evs : list prelude_event) : nat :=
  length (List.filter (λ e, match e with PreOpen => true | _ => false end) evs).

(** How the prelude ends on an event it does not go on after. *)
Definition prelude_end (e : prelude_event) : error + unit :=
  match e with
  | PreText data => ack_verdict data
  | PreError => inl (ErrorString "websocket error before auth")
  | _ => inl (ErrorString "websocket closed before auth")
  end.

Lemma prelude_loop_spec token evs :
  match prelude_loop token evs with
  | (sent, None) => forallb quiet evs = true ∧ sent = replicate (opens evs) (auth_payload token)
  | (sent, Some r) => ∃ pre e rest, evs = pre ++ e :: rest ∧ forallb quiet pre = true ∧ quiet e = false ∧
      sent = replicate (opens pre) (auth_payload token) ∧
      r = match prelude_end e with inl err => inl err | inr _ => inr rest end
  end.
Proof.
  induction evs as [|e evs IH]; cbn; [done|].
  assert (∀ n : nat, prelude_loop token (e :: evs) =
      (if quiet e then ((match e with PreOpen => [auth_payload token] | _ => [] end) ++ (prelude_loop token evs).1,
                        (prelude_loop token evs).2)
       else ([], Some (match prelude_end e with inl err => inl err | inr _ => inr evs end)))) as Hstep.
  { intros _. destruct e as [|data| | |]; cbn; try done; by destruct (prelude_loop token evs). }
  specialize (Hstep 0). cbn in Hstep. rewrite Hstep. clear Hstep.
  destruct (quiet e) eqn:He; [|by exists [], e, evs].
  destruct (prelude_loop token evs) as [sent [r|]]; cbn.
  - destruct IH as (pre & e' & rest & -> & Hq & He' & -> & ->). exists (e :: pre), e', rest.
    destruct e; done || (cbn; rewrite Hq; done).
  - destruct IH as [Hq ->]. rewrite Hq. destruct e; done.
Qed.

Section connects.
  Context `{SSH}.

Definition all_answered (an : ssh_answers) : Prop :=
  an_NewClientConn an = inr tt ∧ an_NewSession an = inr tt ∧ an_RequestPty an = inr tt ∧
  an_StdinPipe an = inr tt ∧ an_StdoutPipe an = inr tt ∧ an_StderrPipe an = inr tt ∧ an_Shell an = inr tt.

Definition closing_effect (e : ssh_effect) : bool :=
  match e with CloseWS | CloseWSConn | CloseClient => true | _ => false end.

(** The effects up to the SSH handshake, [n] being the number of times the
    socket was found open. *)
Definition prelude_effects (opts : connectOptions) (n : nat) : list ssh_effect :=
  DialWS (wsURL opts) "phosphor-ssh" :: replicate n (SendWS (auth_payload (token opts))).

Definition requested_pty (opts : connectOptions) : ssh_effect :=
  RequestPty "xterm-256color" (if Z.eqb (rows opts) 0 then 24%Z else rows opts)
    (if Z.eqb (cols opts) 0 then 80%Z else cols opts).

(** A failure after the effects [before], then [close]. *)
Ltac connect_fails before close :=
  eexists _, _, _, before, close; split_and!;
    [reflexivity|assumption|assumption|cbn; rewrite <-?app_assoc; reflexivity|reflexivity|reflexivity|done].

(** Connecting.  The SSH handshake starts only once the relay has
    acknowledged the token with "ok": true, which was sent each time the
    socket was found open, and nothing else was.  A success comes after a PTY
    of the size asked for (24 by 80 by default) and a shell, with the socket
    open.  Every failure, of the prelude or of any later step, ends with the
    one call that closes the socket. *)
Theorem connect_outcome (opts : connectOptions) (already_open : bool) (evs : list prelude_event) (an : ssh_answers) :
  let '(r, log) := connect opts already_open evs an [] in
  let sent pre := prelude_effects opts ((if already_open then 1 else 0) + opens pre) in
  match r with
  | inr rest => ∃ pre data, evs = pre ++ PreText data :: rest ∧ forallb quiet pre = true ∧
      ack_verdict data = inr tt ∧ all_answered an ∧
      log = sent pre ++ [Handshake (username opts) (authMethods opts (cbs opts)); requested_pty opts; StartShell]
  | inl ConnectWaiting => forallb quiet evs = true ∧ log = sent evs
  | inl (ConnectFailed err) => ∃ pre e rest before close, evs = pre ++ e :: rest ∧ forallb quiet pre = true ∧
      quiet e = false ∧ log = sent pre ++ before ++ [close] ∧ closing_effect close = true ∧
      forallb (λ x, negb (closing_effect x)) before = true ∧ (before ≠ [] → prelude_end e = inr tt)
  end.
Proof.
  unfold connect, openAndAuth, prelude_effects. pose proof (prelude_loop_spec (token opts) evs) as Hp.
  assert (∀ n, SendWS <$> (if already_open then [auth_payload (token opts)] else []) ++ replicate n (auth_payload (token opts))
    = replicate ((if already_open then 1 else 0) + n) (SendWS (auth_payload (token opts)))) as Hsent.
  { intros n. by destruct already_open; rewrite fmap_app, fmap_replicate. }
  destruct (prelude_loop (token opts) evs) as [sent [r|]]; cbn.
  - destruct Hp as (pre & e & rest & -> & Hq & He & -> & ->). rewrite Hsent.
    destruct (prelude_end e) as [err|[]] eqn:Hend; cbn.
    { exists pre, e, rest, [], CloseWS. by rewrite Hend. }
    set (hs := Handshake (username opts) (authMethods opts (cbs opts))). fold (requested_pty opts).
    unfold or_close, bind, emit, modify.
    destruct (an_NewClientConn an) as [|[]] eqn:?; cbn; [connect_fails [hs] CloseWSConn|].
    destruct (an_NewSession an) as [|[]] eqn:?; cbn; [connect_fails [hs] CloseClient|].
    destruct (an_RequestPty an) as [|[]] eqn:?; cbn; [connect_fails [hs; requested_pty opts] CloseClient|].
    destruct (an_StdinPipe an) as [|[]] eqn:?; cbn; [connect_fails [hs; requested_pty opts] CloseClient|].
    destruct (an_StdoutPipe an) as [|[]] eqn:?; cbn; [connect_fails [hs; requested_pty opts] CloseClient|].
    destruct (an_StderrPipe an) as [|[]] eqn:?; cbn; [connect_fails [hs; requested_pty opts] CloseClient|].
    destruct (an_Shell an) as [|[]] eqn:?; cbn; [connect_fails [hs; requested_pty opts; StartShell] CloseClient|].
    destruct e as [|data| | |]; try done. exists pre, data. split_and!; [done..|by split_and!|].
    by rewrite <-!app_assoc.
  - destruct Hp as [Hq ->]. by rewrite Hsent.
Qed.

End connects.

(** [pump]: the data passed to [onData], from the reads of the session's
    output, [true] marking a read that also returns an error. *)
Fixpoint pump (on_data : bool) (reads : list (string * bool)) : list string :=
  match reads with
  | [] => []
  | (b, err) :: reads =>
      (if negb (String.eqb b EmptyString) && on_data then [b] else []) ++
      (if err then [] else pump on_data reads)
  end.

(** * The session (client.go)

    [write], [resize] and [disconnect] of the handle each start a goroutine;
    another waits for the session to end and then runs [session.close]. *)

(** ** The arguments of the handle's functions *)

(** [make([]byte, n)] *)
Fixpoint zero_bytes (n : nat) : string :=
  match n with 0 => EmptyString | S n => String (ascii_of_nat 0) (zero_bytes n) end.

(** [js.CopyBytesToGo] into [n] new bytes; [None]: it panics on what is no
    Uint8Array. *)
Definition CopyBytesToGo (n : nat) (src : js) : option string :=
  match src with
  | JsBytes b => Some (string_take n b +:+ zero_bytes (n - String.length b))
  | _ => None
  end.

(** [write]: the data its goroutine writes, if it starts one. *)
Definition write_args (args : list js) : go_end (option string) :=
  match args with
  | [] => Returns None
  | JsString s :: _ => Returns (Some s)
  | v :: _ =>
      match js_Get v "length" with
      | Some (JsNumber n) =>
          if Z.ltb n 0 then Panics
          else match CopyBytesToGo (Z.to_nat n) v with Some data => Returns (Some data) | None => Panics end
      | _ => Panics
      end
  end.

(** [resize]: the rows and the columns its goroutine asks for. *)
Definition resize_args (args : list js) : go_end (option (Z * Z)) :=
  match args with
  | JsNumber cols :: JsNumber rows :: _ => Returns (Some (rows, cols))
  | [] | [_] => Returns None
  | _ => Panics
  end.

(** ** The goroutines *)

Record session := mkSession {
  s_open : bool;                  (** the session has not ended *)
  s_waiting : bool;               (** [sess.Wait] has not returned *)
  s_writing : list string;        (** goroutines about to write to stdin *)
  s_stdin : list string;          (** what was written, in order *)
  s_resizing : list (Z * Z);      (** goroutines about to call [WindowChange] *)
  s_windows : list (Z * Z);       (** the sizes sent, in order *)
  s_closing : nat;                (** goroutines about to run [close] *)
  s_closed_calls : nat            (** calls of [onClose] *)
}.

Definition new_session : session := mkSession true true [] [] [] [] 0 0.

(** [JsWrite] and [JsResize] carry the arguments of calls that do not panic. *)
Inductive session_label :=
  | JsWrite (args : list js)
  | JsResize (args : list js)
  | JsDisconnect
  | StdinWrite (data : string)
  | WindowChange (size : Z * Z)
  | RemoteEnd
  | WaitReturns
  | RunClose.

Definition add_write (data : option string) (s : session) : session :=
  mkSession (s_open s) (s_waiting s) (s_writing s ++ option_list data) (s_stdin s) (s_resizing s) (s_windows s)
    (s_closing s) (s_closed_calls s).
Definition add_resize (size : option (Z * Z)) (s : session) : session :=
  mkSession (s_open s) (s_waiting s) (s_writing s) (s_stdin s) (s_resizing s ++ option_list size) (s_windows s)
    (s_closing s) (s_closed_calls s).

(** [session.close]; [onClose] is called every time. *)
Definition session_close (s : session) : session :=
  mkSession false (s_waiting s) (s_writing s) (s_stdin s) (s_resizing s) (s_windows s)
    (Nat.pred (s_closing s)) (S (s_closed_calls s)).

(** Any interleaving; a write to the stdin of a session that has ended, or a
    new size for it, is an error, which is dropped. *)
Inductive session_step : session → session_label → session → Prop :=
  | js_write s args data :
      write_args args = Returns data → session_step s (JsWrite args) (add_write data s)
  | js_resize s args size :
      resize_args args = Returns size → session_step s (JsResize args) (add_resize size s)
  | js_disconnect s :
      session_step s JsDisconnect
        (mkSession (s_open s) (s_waiting s) (s_writing s) (s_stdin s) (s_resizing s) (s_windows s)
          (S (s_closing s)) (s_closed_calls s))
  | stdin_write s before data after :
      s_writing s = before ++ data :: after →
      session_step s (StdinWrite data)
        (mkSession (s_open s) (s_waiting s) (before ++ after)
          (if s_open s then s_stdin s ++ [data] else s_stdin s) (s_resizing s) (s_windows s)
          (s_closing s) (s_closed_calls s))
  | window_change s before size after :
      s_resizing s = before ++ size :: after →
      session_step s (WindowChange size)
        (mkSession (s_open s) (s_waiting s) (s_writing s) (s_stdin s) (before ++ after)
          (if s_open s then s_windows s ++ [size] else s_windows s) (s_closing s) (s_closed_calls s))
  | remote_end s :
      session_step s RemoteEnd
        (mkSession false (s_waiting s) (s_writing s) (s_stdin s) (s_resizing s) (s_windows s) (s_closing s) (s_closed_calls s))
  | wait_returns s :
      s_open s = false → s_waiting s = true →
      session_step s WaitReturns
        (mkSession false false (s_writing s) (s_stdin s) (s_resizing s) (s_windows s) (S (s_closing s)) (s_closed_calls s))
  | run_close s :
      s_closing s ≠ 0 → session_step s RunClose (session_close s).

Inductive session_run : session → list session_label → session → Prop :=
  | session_nil s : session_run s [] s
  | session_snoc s ls s1 l s2 : session_run s ls s1 → session_step s1 l s2 → session_run s (ls ++ [l]) s2.

Definition disconnects (ls : list session_label) : nat :=
  length (List.filter (λ l, match l with JsDisconnect => true | _ => false end) ls).

Definition js_writes (ls : list session_label) : list string :=
  omap (λ l, match l with JsWrite args => match write_args args with Returns d => d | _ => None end | _ => None end) ls.

Definition js_sizes (ls : list session_label) : list (Z * Z) :=
  omap (λ l, match l with JsResize args => match resize_args args with Returns d => d | _ => None end | _ => None end) ls.

Definition ended_in (ls : list session_label) : bool :=
  existsb (λ l, match l with RemoteEnd | RunClose => true | _ => false end) ls.

(** No goroutine is left to run. *)
Definition session_quiet (s : session) : Prop :=
  s_writing s = [] ∧ s_resizing s = [] ∧ s_closing s = 0 ∧ (s_open s = false → s_waiting s = false).

(** A queue of goroutines: [sent] of what was [asked] has been carried out,
    the rest is [waiting], dropped once the session has ended. *)
Definition queue_ok {A} (is_open : bool) (sent waiting asked : list A) : Prop :=
  (is_open = true → sent ++ waiting ≡ₚ asked) ∧ sent ++ waiting ⊆+ asked.

Lemma queue_ask {A} o (sent waiting asked : list A) (x : option A) :
  queue_ok o sent waiting asked → queue_ok o sent (waiting ++ option_list x) (asked ++ option_list x).
Proof.
  intros [Hp Hs]. split; rewrite app_assoc.
  - intros Ho. by rewrite Hp.
  - by apply submseteq_app.
Qed.

Lemma queue_serve {A} o (sent before after asked : list A) (x : A) :
  queue_ok o sent (before ++ x :: after) asked → queue_ok o (if o then sent ++ [x] else sent) (before ++ after) asked.
Proof.
  intros [Hp Hs]. assert (sent ++ before ++ x :: after ≡ₚ (sent ++ [x]) ++ before ++ after) as Hperm.
  { rewrite <-app_assoc. apply Permutation_app_head. symmetry. apply (Permutation_middle before after x). }
  split.
  - intros ->. by rewrite <-Hp, Hperm.
  - rewrite <-Hs. destruct o; [by rewrite Hperm|]. apply submseteq_app; [done|]. apply submseteq_app; [done|]. by apply submseteq_cons.
Qed.

Lemma queue_end {A} o (sent waiting asked : list A) : queue_ok o sent waiting asked → queue_ok false sent waiting asked.
Proof. by intros [_ ?]. Qed.

Record session_inv (ls : list session_label) (s : session) : Prop := {
  si_open : s_open s = negb (ended_in ls);
  si_waiting : s_waiting s = false → s_open s = false;
  si_calls : s_closed_calls s + s_closing s = disconnects ls + (if s_waiting s then 0 else 1);
  si_stdin : queue_ok (s_open s) (s_stdin s) (s_writing s) (js_writes ls);
  si_windows : queue_ok (s_open s) (s_windows s) (s_resizing s) (js_sizes ls)
}.

Lemma session_inv_step ls s l s' : session_inv ls s → session_step s l s' → session_inv (ls ++ [l]) s'.
Proof.
  intros [Ho Hw Hc Hp Hz] Hstep.
  assert (ended_in (ls ++ [l]) = ended_in ls || ended_in [l]) as He by (unfold ended_in; by rewrite existsb_app).
  assert (disconnects (ls ++ [l]) = disconnects ls + disconnects [l]) as Hd
    by (unfold disconnects; by rewrite List.filter_app, length_app).
  assert (js_writes (ls ++ [l]) = js_writes ls ++ js_writes [l]) as Hj by apply omap_app.
  assert (js_sizes (ls ++ [l]) = js_sizes ls ++ js_sizes [l]) as Hk by apply omap_app.
  destruct Hstep; split; cbn in *; rewrite ?He, ?Hd, ?Hj, ?Hk, ?orb_false_r, ?orb_true_r, ?app_nil_r; cbn; try done;
    try (repeat case_match; lia); try (by eapply queue_end).
  - rewrite H. destruct data; apply (queue_ask _ _ _ _ (Some _)) || rewrite !app_nil_r; done.
  - rewrite H. destruct size; apply (queue_ask _ _ _ _ (Some _)) || rewrite !app_nil_r; done.
  - apply queue_serve. by rewrite <-H.
  - apply queue_serve. by rewrite <-H.
  - congruence.
Qed.

Lemma session_inv_run ls s : session_run new_session ls s → session_inv ls s.
Proof.
  intros Hrun. remember new_session as s0. induction Hrun as [s|s ls s1 l s2 Hrun IH Hstep]; subst.
  - by split.
  - by eapply session_inv_step; [apply IH|].
Qed.


(** Keystrokes can overtake each other: of two writes to the handle the
    second can reach the host first. *)
Theorem session_writes_overtake :
  ∃ ls s, session_run new_session ls s ∧ js_writes ls = ["l"; "s"] ∧ ended_in ls = false ∧ s_stdin s = ["s"; "l"].
Proof.
  exists [JsWrite [JsString "l"]; JsWrite [JsString "s"]; StdinWrite "s"; StdinWrite "l"],
    (mkSession true true [] ["s"; "l"] [] [] 0 0).
  split; [|done].
  refine (session_snoc _ [_; _; _] _ _ _ (session_snoc _ [_; _] _ _ _ (session_snoc _ [_] _ _ _
    (session_snoc _ [] _ _ _ (session_nil _) (js_write _ [JsString "l"] (Some "l") _)) (js_write _ [JsString "s"] (Some "s") _))
    (stdin_write _ ["l"] "s" [] _)) (stdin_write _ [] "l" [] _)); reflexivity.
Qed.


(** * What is registered for JS (register.go) *)

Section registered.
  Context `{SSH}.

Definition optString (o : js) (key : string) : string :=
  match js_Get o key with
  | Some (JsString s) => s
  | _ => EmptyString
  end.

Definition optInt (o : js) (key : string) : Z :=
  match js_Get o key with
  | Some (JsNumber n) => n
  | _ => 0%Z
  end.

(** The options [jsConnect] makes of its argument, an object; [cb] is what
    its property [callbacks] holds, an empty object if that is none. *)
Definition connect_options (o : js) (cb : callbacks) : connectOptions :=
  mkConnectOptions (optString o "wsURL") (optString o "token") (optString o "username")
    (optString o "privateKey") (optString o "keyPassphrase") cb (optInt o "rows") (optInt o "cols").

(** [jsConnect]: a rejected promise, or [connect] on a goroutine.  Reading the
    options of what is no object panics. *)
Definition jsConnect (args : list js) (cb : callbacks) (already_open : bool) (evs : list prelude_event)
    (an : ssh_answers) : go_end (M (list ssh_effect) connect_stop (list prelude_event)) :=
  match args with
  | [] => Returns (throw (ConnectFailed (ErrorString "connect requires an options object")))
  | o :: _ =>
      match js_Get o "wsURL" with
      | None => Panics
      | Some _ => Returns (connect (connect_options o cb) already_open evs an)
      end
  end.

(** The functions of the global [phosphorSSH]. *)
Inductive api_function := ApiConnect | ApiGenerateKeypair | ApiPublicKeyFromPem.

Definition Register : list (string * api_function) :=
  [("connect", ApiConnect); ("generateKeypair", ApiGenerateKeypair); ("publicKeyFromPem", ApiPublicKeyFromPem)].

Definition errResult (msg : string) : js := JsObject [("ok", JsBoolean false); ("error", JsString msg)].
Definition okResult (fields : list (string * js)) : js := JsObject (("ok", JsBoolean true) :: fields).

(** [err.Error()] of an error of the SSH library. *)
Context (Error : error → string).

Definition jsGenerateKeypair (generated : error + Signer) (args : list js) : js :=
  let passphrase := match args with JsString s :: _ => s | _ => EmptyString end in
  match GenerateKeypair generated passphrase with
  | inl err => errResult (Error err)
  | inr kp =>
      okResult [("privateKeyPem", JsString (PrivateKeyPem kp)); ("authorizedKey", JsString (Keypair_AuthorizedKey kp));
                ("fingerprint", JsString (Keypair_Fingerprint kp))]
  end.

Definition jsPublicKeyFromPem (args : list js) : js :=
  match args with
  | JsString pem :: args =>
      let passphrase := match args with JsString s :: _ => s | _ => EmptyString end in
      match PublicKeyFromPem pem passphrase with
      | inl err => errResult (Error err)
      | inr info =>
          okResult [("authorizedKey", JsString (Info_AuthorizedKey info)); ("fingerprint", JsString (Info_Fingerprint info))]
      end
  | _ => errResult "privateKeyPem is required"
  end.

(** A call from JS that does not panic. *)
Definition answers {A} (r : go_end A) : bool := match r with Returns _ => true | _ => false end.

(** What can stand where bytes are expected. *)
Definition is_data (v : js) : bool := match v with JsString _ | JsBytes _ => true | _ => false end.
Definition is_number (v : js) : bool := match v with JsNumber _ => true | _ => false end.
Definition is_object (v : js) : bool := match v with JsObject _ | JsArray _ | JsBytes _ | JsFunction => true | _ => false end.

(** Which calls from JS kill the module.  A panic cannot be caught on the
    JS side, and it ends every session of the page.  Calling [connect] with
    something that is no object panics (with nothing at all it is a rejected
    promise); so does [write] with what is neither a string nor a Uint8Array,
    null and undefined included, and [resize] with two arguments that are not
    both numbers.  All other calls of the API and of the handle return; a
    string or an array is written whole, and a size is taken columns first. *)
Theorem js_panics (args : list js) (cb : callbacks) (already_open : bool) (evs : list prelude_event) (an : ssh_answers) :
  answers (jsConnect args cb already_open evs an) = match args with [] => true | o :: _ => is_object o end ∧
  answers (write_args args) = match args with [] => true | v :: _ => is_data v end ∧
  answers (resize_args args) = match args with cols :: rows :: _ => is_number cols && is_number rows | _ => true end ∧
  (∀ s rest, write_args (JsString s :: rest) = Returns (Some s) ∧ write_args (JsBytes s :: rest) = Returns (Some s)) ∧
  (∀ cols rows rest, resize_args (JsNumber cols :: JsNumber rows :: rest) = Returns (Some (rows, cols))).
Proof.
  split; [|split; [|split; [|split]]].
  - destruct args as [|[] ?]; reflexivity.
  - destruct args as [|[] ?]; try reflexivity; cbn.
    + rewrite (proj2 (Z.ltb_ge _ _)) by lia. reflexivity.
    + rewrite (proj2 (Z.ltb_ge _ _)) by lia. reflexivity.
    + destruct (js_field "length" fields) as [| | |n| | | | |]; try reflexivity. by destruct (Z.ltb n 0).
  - destruct args as [|[] [|[] ?]]; reflexivity.
  - intros s rest. split; [reflexivity|]. unfold write_args. cbn. rewrite (proj2 (Z.ltb_ge _ _)) by lia.
    rewrite Nat2Z.id, Nat.sub_diag. cbn. rewrite string_app_nil_r. by rewrite string_take_all.
  - reflexivity.
Qed.

(** Keys through the JS interface: the PEM of a keypair generated for
    JS, imported with the same arguments after it, gives the authorized_keys
    line and the fingerprint that were returned with it; and a client
    connecting with that PEM and passphrase offers that key first. *)
Theorem js_keypair_roundtrip `{!SSHOk} (generated : error + Signer) (passphrase : list js) (result : js) (opts : connectOptions) :
  jsGenerateKeypair generated passphrase = result → js_Get result "ok" = Some (JsBoolean true) →
  let pem := optString result "privateKeyPem" in
  jsPublicKeyFromPem (JsString pem :: passphrase) =
    okResult [("authorizedKey", JsString (optString result "authorizedKey"));
              ("fingerprint", JsString (optString result "fingerprint"))] ∧
  (pem ≠ EmptyString → privateKey opts = pem →
   keyPass opts = match passphrase with JsString s :: _ => s | _ => EmptyString end →
   ∃ k rest, authMethods opts (cbs opts) = PublicKeys k :: rest ∧
     FingerprintSHA256 (Signer_PublicKey k) = optString result "fingerprint").
Proof.
  intros <-. unfold jsGenerateKeypair. set (pw := match passphrase with JsString s :: _ => s | _ => EmptyString end).
  destruct (GenerateKeypair generated pw) as [err|kp] eqn:Hgen; [done|]. intros _. cbn.
  destruct (keypair_reimport _ _ _ Hgen) as [Hinfo _]. split; [fold pw; by rewrite Hinfo|].
  intros Hpem Hkey Hpw. unfold authMethods. rewrite Hkey, Hpw. fold pw.
  destruct (String.eqb_spec (PrivateKeyPem kp) EmptyString); [done|]. cbn. unfold PublicKeyFromPem in Hinfo.
  destruct (if negb _ then _ else _) as [|k]; [done|]. injection Hinfo as _ Hfp. eexists _, _. split; [done|]. exact Hfp.
Qed.

End registered.

(** * What the callbacks can decide *)


#[local] Existing Instances toy_ssh toy_ssh_ok.

Lemma js_keypair_roundtrip_witness :
  jsPublicKeyFromPem (λ _, EmptyString) [JsString "pwkkk"; JsString "pw"] =
    okResult [("authorizedKey", JsString "kkk"); ("fingerprint", JsString "SHA256:kkk")].
Proof.
  exact (proj1 (js_keypair_roundtrip (λ _, EmptyString) (inr 3) [JsString "pw"] _
    (mkConnectOptions "u" "t" "root" "pwkkk" "pw" (mkCallbacks true true None None None) 0 0) eq_refl eq_refl)).
Defined.
