(* ===== verification/ClosedLoop.v ===== *)
(** The programs in closed loop: [phosphor enroll] (internal/cli/enroll.go)
    answered by the relay's own handlers, and the browser's [connect]
    (internal/webssh/client.go) answered by the relay's bridge. *)
From Stdlib Require Import ZArith Lia Ascii.
From stdpp Require Import base gmap strings list.
From S2P Require Import Prelude GoStrings StoreSpec FakeStore AuthSession Http Oidc ApiKey Files SshKeys.
From S2P Require Import RelayAuth SshGate GateLoop Scenario Machines Bridge Apple AuthFlow Routes.
From S2P Require Import CliTunnel CliEnroll CliProps WsConn WebSsh.

(** * The wire between the CLI and the relay *)

(** No WebSocket behind a plain request. *)
Definition no_upgrade : Browser :=
  mkBrowser (inl (ErrorString "no upgrade")) (inl (ErrorString "no frame")) (inl (ErrorString "no socket")).

Definition post_incoming (auth : string) (body : json) : Incoming :=
  mkIncoming ["api"; "machines"] (mkRequest "POST" auth [] (Some []) EmptyString (Some body)) no_upgrade.

Definition info_incoming : Incoming :=
  mkIncoming ["api"; "ssh-info"] (mkRequest "GET" EmptyString [] (Some []) EmptyString None) no_upgrade.

(** An answer as [http.Client.Do] gives it. *)
Definition client_Do (a : Answer) : option (nat * option json) :=
  match a with
  | Responded (Reply status (Json v)) => Some (status, Some v)
  | Responded (Reply status _) => Some (status, None)
  | _ => None
  end.

Section enroll.
  Context `{OIDC} `{SSH} `{Jose} `{MapRange} `{UUIDText} `{AppleCrypto}.
  Context {D A T : Type} `{DataStore D} `{AuthSessionStore A} `{TunnelDialer T}.
  Context (exchange : string → string → error + option json) (static : StaticFiles).
  Abbreviation Srv := (Server D A T).
  Abbreviation relay := (Server_Handler (D := D) (A := A) (T := T) exchange static).

(** The two requests of [Enroll] reach the relay: it is [s] when the
    registration comes and [s2] when the gateway is asked for.  A request may
    still fail, its answer may be lost, but an answer is the relay's. *)
Record answered_by (s s2 : Srv) (w : Surroundings) (opts : EnrollOptions) : Prop := {
  by_post : ∀ auth body resp,
    post_machines w (httpBaseURL (Opt_RelayURL opts) +:+ "/api/machines") auth body = inr resp →
    client_Do (relay (post_incoming auth body) s).1 = Some resp;
  by_info : ∀ info,
    get_ssh_info w (httpBaseURL (Opt_RelayURL opts) +:+ "/api/ssh-info") = inr info →
    ∃ status, client_Do (relay info_incoming s2).1 = Some (status, info)
}.

Lemma relay_post auth body s :
  relay (post_incoming auth body) s = http (HandleCreateMachine (in_request (post_incoming auth body))) s.
Proof. reflexivity. Qed.

Lemma relay_info s :
  relay info_incoming s = http (HandleSSHInfo (in_request info_incoming)) s.
Proof. reflexivity. Qed.

(** The gateway's answer, as the CLI decodes it. *)
Lemma info_decoded s status info vs :
  client_Do (relay info_incoming s).1 = Some (status, info) →
  Decode ["addr"; "host_key"; "fingerprint"] info = Some vs → Values_Get "host_key" vs ≠ EmptyString →
  ∃ k, sshHostKey s = Some k ∧ Values_Get "addr" vs = sshPublicAddr s ∧
    Values_Get "host_key" vs = TrimSpace (MarshalAuthorizedKey k).
Proof.
  rewrite relay_info. unfold http, serve, HandleSSHInfo, bind, get. cbn [fst snd].
  destruct (sshHostKey s) as [k|]; cbn [fst snd client_Do writeJSON writeJSONError].
  - intros [= <- <-] [= <-] _. by exists k.
  - intros [= <- <-] [= <-]. done.
Qed.

(** The JSON of a registration, as the relay decodes it. *)
Lemma post_decoded name hostname pub :
  ∃ vs, Decode ["name"; "hostname"; "public_key"]
      (Some (strings_json [("name", name); ("hostname", hostname); ("public_key", pub)])) = Some vs ∧
    Values_Get "name" vs = name ∧ Values_Get "hostname" vs = hostname ∧ Values_Get "public_key" vs = pub.
Proof. eexists. split; [reflexivity|]. done. Qed.

(** The JSON of a machine, as the CLI decodes it. *)
Lemma created_decoded (s : Srv) m : enroll_created (201, Some (machineJSON s m)) = inr (uuid_String (Machine_ID m)).
Proof.
  destruct m as [id tid name hostname fp created seen]. unfold enroll_created, machineJSON. cbn [fst snd].
  assert (∃ vs, Decode ["id"; "name"; "error"] (Some (JObject
      [("id", JString (uuid_String id)); ("name", JString name); ("hostname", JString hostname);
       ("fingerprint", JString fp);
       ("online", JBool (match tunnels s with Some t => td_Online (uuid_String id) t | None => false end));
       ("created_at", JTime created); ("last_seen_at", match seen with Some t => JTime t | None => JNull end)])) = Some vs ∧
    Values_Get "id" vs = uuid_String id) as (vs & Hd & Hid).
  { destruct seen; (eexists; split; [reflexivity|done]). }
  cbn [Machine_ID Machine_Name Machine_Hostname Machine_Fingerprint Machine_CreatedAt Machine_LastSeenAt].
  rewrite Hd, Nat.eqb_refl. cbn [negb]. by rewrite Hid.
Qed.

Lemma bearer_token_sent token body : bearer_token (in_request (post_incoming ("Bearer " +:+ token) body)) = token.
Proof.
  unfold bearer_token. cbn [post_incoming in_request Authorization]. rewrite TrimPrefix_app.
  destruct (String.eqb_spec token ("Bearer " +:+ token)) as [E|]; [|done].
  apply (f_equal String.length) in E. cbn in E. lia.
Qed.

Context `{!DataStoreOk D}.

(** What a registration that the relay accepts leaves behind. *)
Definition registered (s : Srv) (auth : string) (body : json) (u : User) (m : Machine) (s1 : Srv) : Prop :=
  let r := in_request (post_incoming auth body) in
  caller s r u s1 ∧ Machine_TenantID m = User_TenantID u ∧
  machines (ds_view (db s)) !! Machine_ID m = None ∧
  machines (ds_view (db s1)) !! Machine_ID m = Some m ∧
  (∀ id m0, machines (ds_view (db s)) !! id = Some m0 →
    Machine_Fingerprint m0 ≠ Machine_Fingerprint m ∧
    (Machine_TenantID m0 = User_TenantID u → Machine_Name m0 ≠ Machine_Name m)) ∧
  ∃ req k, Decode ["name"; "hostname"; "public_key"] (Some body) = Some req ∧ Machine_Name m = created_name req ∧
    ParseAuthorizedKey (Values_Get "public_key" req) = inr k ∧ Machine_Fingerprint m = FingerprintSHA256 k.

Lemma relay_registers s auth body a s1 :
  ds_inv (db s) → devMode s = false → relay (post_incoming auth body) s = (a, s1) →
  ds_inv (db s1) ∧
  if (match a with Responded r => is_success r | _ => false end) then
    ∃ u m, registered s auth body u m s1 ∧ a = Responded (Reply 201 (Json (machineJSON s1 m)))
  else machines (ds_view (db s1)) = machines (ds_view (db s)).
Proof.
  intros Hs Hdev. rewrite relay_post. unfold http.
  set (r := in_request (post_incoming auth body)).
  pose proof (serve_wp _ (λ x, isolated CreateMachine s r x) s (handle_ok CreateMachine s r Hs Hdev)) as Hiso.
  cbn [handle] in Hiso. destruct (serve (HandleCreateMachine r) s) as [resp s'] eqn:Hrun. cbn [fst snd] in *.
  intros [= <- <-]. destruct Hiso as [Hs1 Hiso]. split; [done|]. destruct (is_success resp); [|done].
  destruct Hiso as (u & Hu & _ & m & -> & Hnone & Hm & Ht & _ & Hnew & req & k & Hreq & Hname & _ & Hk & Hfp).
  exists u, m. split; [|done]. unfold registered. cbv zeta. fold r. split; [done|]. split; [done|]. split; [done|].
  split; [rewrite Hm; apply lookup_insert_eq|]. split; [done|]. exists req, k. done.
Qed.

(** The CLI accepts an answer only if the relay has registered the machine
    it names. *)
Lemma enroll_accepted s auth body resp cfg_id :
  ds_inv (db s) → devMode s = false →
  client_Do (relay (post_incoming auth body) s).1 = Some resp → enroll_created resp = inr cfg_id →
  ∃ u m, registered s auth body u m (relay (post_incoming auth body) s).2 ∧ cfg_id = uuid_String (Machine_ID m).
Proof.
  intros Hs Hdev Hans Hid. destruct (relay (post_incoming auth body) s) as [a s1] eqn:Hrun. cbn [fst snd] in *.
  destruct (relay_registers _ _ _ _ _ Hs Hdev Hrun) as [_ Hreg].
  destruct a as [[status c| |]|]; cbn [client_Do] in Hans; try done.
  assert (resp.1 = status) as Hst by (destruct c; by injection Hans as <-).
  assert (status = 201) as ->.
  { unfold enroll_created in Hid. destruct (Decode _ _); [|done]. rewrite Hst in Hid.
    destruct (Nat.eqb_spec status 201); [done|]. cbn [negb] in Hid. by destruct (negb _). }
  cbn [is_success] in Hreg. cbn in Hreg. destruct Hreg as (u & m & Hr & [= ->]).
  exists u, m. split; [done|]. cbn [client_Do] in Hans. injection Hans as <-. rewrite created_decoded in Hid. congruence.
Qed.

Context `{!SSHOk}.

(** What the gateway says to a connection that offers a key. *)
Definition gate_admits (d : D) (user : string) (k : PublicKey) (p : Permissions) : Prop :=
  match (ds_GetMachineByFingerprint (FingerprintSHA256 k) d).1 with
  | inr _ => (PublicKeyCallback user k d).1 = inr p
  | inl e => errors_Is e ErrNotFound = false      (** the database did not answer *)
  end.

Lemma enrolled_key_admitted d m k :
  ds_inv d → machines (ds_view d) !! Machine_ID m = Some m → Machine_Fingerprint m = FingerprintSHA256 k →
  gate_admits d (uuid_String (Machine_ID m)) k
    (mkPermissions (uuid_String (Machine_ID m)) (uuid_String (Machine_TenantID m))).
Proof.
  intros Hd Hm Hfp. unfold gate_admits, PublicKeyCallback, bind, or_return.
  pose proof (ds_GetMachineByFingerprint_ok (FingerprintSHA256 k) d Hd) as Hpost. unfold wp in Hpost.
  destruct (ds_GetMachineByFingerprint (FingerprintSHA256 k) d) as [[e|m'] d'] eqn:Hget; cbn [fst snd] in *; destruct Hpost as (_ & _ & Hpost).
  - destruct (errors_Is e ErrNotFound); [|done]. by destruct (Hpost eq_refl _ _ Hm).
  - destruct Hpost as [Hm' Hfp']. assert (m' = m) as ->.
    { assert (Machine_ID m' = Machine_ID m) as E by (eapply machines_fingerprint_key; [by apply ds_inv_ok| | |]; [exact Hm'|exact Hm|congruence]).
      rewrite E in Hm'. congruence. }
    cbn. rewrite String.eqb_refl. reflexivity.
Qed.

(** C9: An enrolled machine connects.  [phosphor enroll] runs against the
    relay itself, whose handlers answer its two requests (any of which may
    fail).  If it succeeds, then the token it used proved a user to the relay,
    and the relay has stored a new machine in that user's tenant under the
    very ID that is in the configuration file, with the fingerprint of the
    very key that is in the key file; the host key the tunnel command will
    pin parses to the relay's own, and the address is the one it advertises.
    From then on, in any database that still has that key for that machine,
    whatever has happened to it in between (renames, a restart), the
    gateway's public-key callback admits the machine under its ID and the
    tenant, unless the database fails to answer. *)
Theorem enrolled_machine_connects (s s2 : Srv) (w : Surroundings) (opts : EnrollOptions) (f f' : FS) (cfg : MachineConfig) :
  ds_inv (db s) → devMode s = false → answered_by s s2 w opts → (∀ p, read_err f p = None) →
  Enroll w opts f = (inr cfg, f') →
  ∃ token body k hostKey u m s1, (enroll_token w opts f).1 = inr token ∧
    s1 = (relay (post_incoming ("Bearer " +:+ token) body) s).2 ∧
    (∃ e, authenticates s token (User_Provider u, User_Subject u, e)) ∧
    machines (ds_view (db s)) !! Machine_ID m = None ∧ machines (ds_view (db s1)) !! Machine_ID m = Some m ∧
    Machine_TenantID m = User_TenantID u ∧ Machine_Fingerprint m = FingerprintSHA256 (Signer_PublicKey k) ∧
    LoadMachineConfig f' = (inr cfg, f') ∧ Config_MachineID cfg = uuid_String (Machine_ID m) ∧
    LoadMachineKey f' = (inr k, f') ∧
    (sshHostKey s2 = Some hostKey ∧ Config_SSHAddr cfg = sshPublicAddr s2 ∧
     ∀ opt rounds, RunTunnel opt cfg rounds = inr (hostKey, sshd_addr opt cfg, reconnect Second rounds)) ∧
    ∀ d m', ds_inv d → machines (ds_view d) !! Machine_ID m = Some m' → Machine_Fingerprint m' = Machine_Fingerprint m →
      gate_admits d (Config_MachineID cfg) (Signer_PublicKey k)
        (mkPermissions (Config_MachineID cfg) (uuid_String (Machine_TenantID m'))).
Proof.
  intros Hs Hdev [Hpost Hinfo] Hr Henr.
  pose proof (Enroll_inv _ _ _ _ _ Henr) as (req & f1 & resp & Hprep & Hresp & Hfin).
  apply enroll_prepare_inv in Hprep as (token & k & name & Htok & Hgen & _ & ->).
  apply enroll_finish_inv in Hfin as (info & addr & hk & Hid & Hget & (vs & Hvs & -> & ->) & _ & Hhk & Hcfg & Hsave).
  apply Hpost in Hresp. apply Hinfo in Hget as [status Hget].
  destruct (info_decoded _ _ _ _ Hget Hvs Hhk) as (hostKey & Hkey & Haddr & Hhost).
  destruct (enroll_accepted _ _ _ _ _ Hs Hdev Hresp Hid) as (u & m & Hreg & Hmid). cbn [fst snd] in Hreg.
  destruct Hreg as ((Hauth & _) & Hten & Hnone & Hrow & _ & vs' & pub & Hdec & _ & Hpub & Hfp).
  destruct (post_decoded name (os_hostname w) (TrimSpace (MarshalAuthorizedKey (Signer_PublicKey k)))) as (vs0 & Hdec0 & _ & _ & Hp0).
  cbn [snd] in Hdec. rewrite Hdec0 in Hdec. injection Hdec as <-. rewrite Hp0, authorized_key_roundtrip in Hpub. injection Hpub as <-.
  destruct (enrolled_files w opts f f' cfg Hr Henr) as (Hload & (k' & Hgk & Hlk) & _).
  assert (k' = k) as ->.
  { apply GenerateMachineKey_inv in Hgen as (? & ? & _ & Hg & _). congruence. }
  rewrite bearer_token_sent in Hauth.
  eexists token, _, k, hostKey, u, m, _. split; [done|]. split; [reflexivity|]. do 5 (split; [done|]). split; [done|]. split; [done|]. split; [done|]. split.
  - split; [done|]. rewrite Hcfg. cbn. split; [done|]. intros opt rounds. unfold RunTunnel. cbn. by rewrite Hhost, authorized_key_roundtrip.
  - intros d m' Hd Hm' Hfp'. rewrite Hmid.
    assert (Machine_ID m' = Machine_ID m) as E by (eapply machines_pkey; [by apply ds_inv_ok|done]).
    rewrite <-E in Hm' |- *. apply enrolled_key_admitted; [done|done|congruence].
Qed.

(** What is on disk after the first request and no answer. *)
Lemma enroll_unanswered w opts f req f1 :
  enroll_prepare w opts f = (inr req, f1) →
  (∃ e, post_machines w (httpBaseURL (Opt_RelayURL opts) +:+ "/api/machines") req.1 req.2 = inl e) ∨
  (∃ e, get_ssh_info w (httpBaseURL (Opt_RelayURL opts) +:+ "/api/ssh-info") = inl e) →
  ∃ err, Enroll w opts f = (inl err, f1).
Proof.
  intros Hprep Hlost. unfold Enroll, bind at 1. rewrite Hprep. unfold bind, or_return, pure at 1. cbn [fst snd].
  destruct (post_machines w _ _ _) as [e|resp] eqn:Hp; cbn [fst snd]; [by eexists|].
  destruct Hlost as [[e ?]|[e He]]; [done|]. unfold enroll_finish, bind, or_return, pure. cbn [fst snd].
  destruct (enroll_created resp); [by eexists|]. destruct (new_request w _); [by eexists|].
  rewrite He. cbn [fst snd]. by eexists.
Qed.

(** C30: A half-finished enrollment blocks its own retry.  The relay registers
    the machine, but its answer, or that of the second request, does not
    arrive.  Then the CLI fails having saved no configuration, so nothing on
    the machine knows the ID it was given; the relay keeps the machine; and
    as long as it does, running the same command again (same name, same
    tenant, a relay with any history in between) can only fail: the name is
    taken by the half-enrolled machine. *)
Theorem half_enrollment_blocks_retry (s s' s2' : Srv) (w w' : Surroundings) (opts opts' : EnrollOptions)
    (f f1 g : FS) (req : string * json) (m' : Machine) :
  ds_inv (db s) → devMode s = false → enroll_prepare w opts f = (inr req, f1) →
  (∃ resp, (relay (post_incoming req.1 req.2) s).1 = Responded resp ∧ is_success resp = true) →
  (∃ e, post_machines w (httpBaseURL (Opt_RelayURL opts) +:+ "/api/machines") req.1 req.2 = inl e) ∨
  (∃ e, get_ssh_info w (httpBaseURL (Opt_RelayURL opts) +:+ "/api/ssh-info") = inl e) →
  ∃ err u m, Enroll w opts f = (inl err, f1) ∧
    (∀ home, homedir f = inr home → files f1 !! (home +:+ "/.config/phosphor/machine.json") =
                                    files f !! (home +:+ "/.config/phosphor/machine.json")) ∧
    registered s req.1 req.2 u m (relay (post_incoming req.1 req.2) s).2 ∧
    (ds_inv (db s') → devMode s' = false → answered_by s' s2' w' opts' →
     machines (ds_view (db s')) !! Machine_ID m = Some m' →
     Machine_Name m' = Machine_Name m → Machine_TenantID m' = Machine_TenantID m →
     Opt_Name opts' = Opt_Name opts → os_hostname w' = os_hostname w →
     (∀ req' g1 u', enroll_prepare w' opts' g = (inr req', g1) →
        caller s' (in_request (post_incoming req'.1 req'.2)) u' (relay (post_incoming req'.1 req'.2) s').2 →
        User_TenantID u' = User_TenantID u) →
     ∃ err' g', Enroll w' opts' g = (inl err', g')).
Proof.
  intros Hs Hdev Hprep (resp & Hresp & Hok) Hlost. destruct (enroll_unanswered _ _ _ _ _ Hprep Hlost) as [err Herr].
  destruct (relay (post_incoming req.1 req.2) s) as [a s1] eqn:Hrun. cbn [fst snd] in *. subst a.
  destruct (relay_registers _ _ _ _ _ Hs Hdev Hrun) as [_ Hreg]. cbn in Hreg. rewrite Hok in Hreg.
  destruct Hreg as (u & m & Hreg & _). exists err, u, m. split; [done|].
  apply enroll_prepare_inv in Hprep as (token & k & name & _ & Hgen & Hname & Hreq). split.
  { apply GenerateMachineKey_inv in Hgen as (home & pem & [Hhome _] & _ & _ & W). intros home' Hh. rewrite Hhome in Hh. injection Hh as <-.
    rewrite (written_files _ _ _ _ W). rewrite lookup_insert_ne; [done|].
    intros E%(f_equal (string_drop (String.length home))). by rewrite !string_drop_app in E. }
  split; [done|]. intros Hs' Hdev' [Hpost' _] Hm' Hnm Hten Hopt Hhost Hcaller.
  destruct (Enroll w' opts' g) as [[e|cfg] g'] eqn:Henr; [by eexists _, _|]. exfalso.
  apply Enroll_inv in Henr as (req' & g1 & resp' & Hprep' & Hans & Hfin).
  pose proof Hprep' as Hprep2. apply enroll_prepare_inv in Hprep' as (token' & k' & name' & Htok' & _ & Hname' & Hreq').
  apply enroll_finish_inv in Hfin as (_ & _ & _ & Hid & _).
  destruct (enroll_accepted _ _ _ _ _ Hs' Hdev' (Hpost' _ _ _ Hans) Hid) as (u' & m2 & Hreg2 & _).
  destruct Hreg as (_ & Hten1 & _ & _ & _ & vs & pub & Hdec & Hn & _).
  destruct Hreg2 as (Hc & _ & _ & _ & Hnew & vs2 & pub2 & Hdec2 & Hn2 & _).
  apply (Hnew _ _ Hm'); [rewrite Hten, Hten1; symmetry; by eapply Hcaller|]. rewrite Hnm, Hn, Hn2.
  subst req req'. cbn [snd] in Hdec, Hdec2.
  rewrite Hopt, Hhost in Hname'. rewrite <-Hname in Hname'. subst name'. rewrite Hhost in Hdec2.
  destruct (post_decoded name (os_hostname w) (TrimSpace (MarshalAuthorizedKey (Signer_PublicKey k)))) as (v & E & E1 & E2 & _).
  destruct (post_decoded name (os_hostname w) (TrimSpace (MarshalAuthorizedKey (Signer_PublicKey k')))) as (v' & E' & E1' & E2' & _).
  rewrite E in Hdec. rewrite E' in Hdec2. injection Hdec as <-. injection Hdec2 as <-.
  unfold created_name. by rewrite E1, E2, E1', E2'.
Qed.

End enroll.

(** * The wire between the browser and the relay *)

(** [{"ok":true}] *)
Definition ready_message : json := JObject [("ok", JBool true)].

Section bridge.
  Context `{OIDC} `{SSH} `{Jose} `{MapRange} `{UUIDText}.
  Context {D A T : Type} `{DataStore D} `{TunnelDialer T}.
  Abbreviation Srv := (Server D A T).

(** The prelude of [connect], and what it does after it. *)
Lemma connect_prelude opts ao evs an :
  let '(sent, p) := openAndAuth ao (token opts) evs in
  ∃ more, (connect opts ao evs an []).2 = DialWS (wsURL opts) "phosphor-ssh" :: (SendWS <$> sent) ++ more ∧
    match p with
    | None => more = [] ∧ (connect opts ao evs an []).1 = inl ConnectWaiting
    | Some (inl err) => more = [CloseWS] ∧ (connect opts ao evs an []).1 = inl (ConnectFailed err)
    | Some (inr _) => ∃ more', more = Handshake (username opts) (authMethods opts (cbs opts)) :: more' ∧
        ∀ v, SendWS v ∉ more'
    end.
Proof.
  unfold connect. destruct (openAndAuth ao (token opts) evs) as [sent p].
  unfold bind, emit, emit_all, modify, throw. cbn.
  destruct p as [[err|rest]|]; cbn.
  - exists [CloseWS]. by rewrite <-?app_assoc.
  - unfold or_close, bind, emit, modify, throw, ret.
    destruct (an_NewClientConn an) as [e|[]]; cbn.
    { eexists. rewrite <-?app_assoc. split; [reflexivity|]. eexists. split; [reflexivity|]. set_solver. }
    repeat (match goal with |- context [match ?x with inl _ => _ | inr _ => _ end] => destruct x as [?|[]] end; cbn);
      (eexists; rewrite <-?app_assoc; split; [reflexivity|]; eexists; split; [reflexivity|]; set_solver).
  - exists []. by rewrite app_nil_r.
Qed.

(** The prelude sends the token and nothing else. *)
Lemma prelude_sends ao tok evs v : v ∈ (openAndAuth ao tok evs).1 → v = auth_payload tok.
Proof.
  unfold openAndAuth. pose proof (prelude_loop_spec tok evs) as Hp.
  destruct (prelude_loop tok evs) as [sent r]. assert (∃ n, sent = replicate n (auth_payload tok)) as [n ->].
  { destruct r as [r|]; [destruct Hp as (pre & e & rest & _ & _ & _ & -> & _)|destruct Hp as [_ ->]]; by eexists. }
  cbn. destruct ao; cbn; [intros [?|?]%elem_of_cons; [done|]|]; intros; by eapply elem_of_replicate_inv.
Qed.

Context `{!DataStoreOk D}.

(** What passes between the two: the frame the relay reads is one that the
    browser sent, and the text frames the browser gets are the relay's
    acknowledgement of a session it opened. *)
Record wired (log : list ssh_effect) (evs : list prelude_event) (br : Browser) (r : bridge_end + Conn) : Prop := {
  wired_up : ∀ data, br_frame br = inr data → ∃ v, data = Some v ∧ SendWS v ∈ log;
  wired_down : ∀ data, PreText data ∈ evs → (∃ ch, r = inr ch) ∧ data = Some ready_message
}.


End bridge.

(** * Examples *)

#[local] Existing Instances toy_oidc toy_channels toy_jose toy_ssh toy_ssh_ok toy_uuid toy_uuid_ok toy_apple range_in_order.

Abbreviation ToyServer := (Server Fake MemoryAuthSessionStore Registry).

Definition ask (s : ToyServer) (i : Incoming) : error + (nat * option json) :=
  match client_Do (Server_Handler no_exchange no_files i s).1 with
  | Some resp => inr resp
  | None => inl (ErrorString "EOF")
  end.

(** A machine named [host] that reaches the relay; [lost] tells that the
    answer to the second request does not arrive. *)
Definition reaching (s s2 : ToyServer) (lost : bool) (key : nat) : Surroundings :=
  mkSurroundings (λ _, inr tt) (λ _ auth body, ask s (post_incoming auth body))
    (λ _, if lost then inl (ErrorString "timeout") else match ask s2 info_incoming with inr r => inr r.2 | inl e => inl e end)
    (λ _, inl (ErrorString "no browser")) "host" (inr key).

Lemma reaching_answered s s2 lost key opts : answered_by no_exchange no_files s s2 (reaching s s2 lost key) opts.
Proof.
  split; cbn -[Server_Handler]; unfold ask.
  - intros auth body resp. destruct (client_Do _); [|done]. by intros [= <-].
  - intros info. destruct lost; [done|]. destruct (client_Do _) as [[st i]|]; [|done]. intros [= <-]. by exists st.
Qed.

Definition enroll_opts : EnrollOptions := mkEnrollOptions "wss://relay" EmptyString alice EmptyString.
Definition blank : FS := mkFS ∅ (λ _, None) [] (inr "/root") None.
Definition enrolled : (error + MachineConfig) * FS := Enroll (reaching (server0 false) (server0 false) false 7) enroll_opts blank.

Lemma enrolled_machine_connects_witness :
  ∃ cfg, enrolled.1 = inr cfg ∧ ∃ k, LoadMachineKey enrolled.2 = (inr k, enrolled.2) ∧
    Config_MachineID cfg = "kkkkkk".
Proof.
  assert (enrolled.1 = inr (mkMachineConfig "kkkkkk" "wss://relay" "relay:2222" "kkkkkkkkk" EmptyString)) as E
    by (vm_compute; reflexivity).
  exists (mkMachineConfig "kkkkkk" "wss://relay" "relay:2222" "kkkkkkkkk" EmptyString). split; [exact E|].
  destruct (enrolled_machine_connects no_exchange no_files (server0 false) (server0 false)
    (reaching (server0 false) (server0 false) false 7) enroll_opts blank enrolled.2 _ fake1_inv eq_refl
    (reaching_answered _ _ _ _ _) (λ _, eq_refl) (injective_projections enrolled (inr _, enrolled.2) E eq_refl))
    as (token & body & k & hostKey & u & m & s1 & _ & _ & _ & _ & _ & _ & _ & _ & _ & Hk & _).
  exists k. split; [exact Hk|reflexivity].
Defined.

(** The answer to the second request is lost; the retry fails. *)
Definition half : (error + MachineConfig) * FS := Enroll (reaching (server0 false) (server0 false) true 7) enroll_opts blank.
Definition half_request : string * json :=
  match (enroll_prepare (reaching (server0 false) (server0 false) true 7) enroll_opts blank).1 with inr r => r | inl _ => (EmptyString, JNull) end.
Definition half_state : FS := (enroll_prepare (reaching (server0 false) (server0 false) true 7) enroll_opts blank).2.
Definition half_relay : ToyServer := (Server_Handler no_exchange no_files (post_incoming half_request.1 half_request.2) (server0 false)).2.

Definition half_machine : Machine := mkMachine 6 1 "host" "host" "SHA256:kkkkkkk" 0 None.

(** Only Alice has her token. *)
Lemma alice_tenant (s s' : ToyServer) (body : json) (u : User) :
  verifier s = Some verifier0 → caller s (in_request (post_incoming ("Bearer " +:+ alice) body)) u s' →
  forallb (λ kv, negb (String.eqb (User_Subject kv.2) "alice") || N.eqb (User_TenantID kv.2) 1)
    (map_to_list (users (ds_view (db s')))) = true →
  User_TenantID u = 1%N.
Proof.
  intros Hv [[e [(raw & Heq & _)|(_ & v & Hv' & entry & tok & Hentry & Htok & Hsub & _)]] Hrow] Hall;
    rewrite bearer_token_sent in *; [done|].
  rewrite Hv in Hv'. injection Hv' as <-. cbn in Hsub, Hentry.
  assert (Subject tok = "alice") as Halice.
  { unfold verifier0 in Hentry. cbn in Hentry. apply lookup_insert_Some in Hentry as [[_ <-]|[_ Hno]]; [|done].
    vm_compute in Htok. by injection Htok as <-. }
  rewrite forallb_forall in Hall. specialize (Hall (User_ID u, u)).
  rewrite <-list_elem_of_In, elem_of_map_to_list in Hall. specialize (Hall Hrow). cbn in Hall.
  rewrite Hsub, Halice in Hall. cbn in Hall. by apply N.eqb_eq.
Qed.

Lemma half_relay_inv : ds_inv (db half_relay).
Proof.
  refine (proj1 (relay_registers no_exchange no_files (server0 false) half_request.1 half_request.2
    (Server_Handler no_exchange no_files (post_incoming half_request.1 half_request.2) (server0 false)).1 half_relay
    fake1_inv eq_refl (surjective_pairing _))).
Qed.

(** The answer to the second request is lost; Alice's retry, with a new key,
    fails. *)
Lemma half_enrollment_blocks_retry_witness :
  machines (ds_view (db half_relay)) !! 6%N = Some half_machine ∧
  ∃ err g', Enroll (reaching half_relay half_relay false 8) enroll_opts half_state = (inl err, g').
Proof.
  split; [vm_compute; reflexivity|].
  destruct (half_enrollment_blocks_retry no_exchange no_files (server0 false) half_relay half_relay
    (reaching (server0 false) (server0 false) true 7) (reaching half_relay half_relay false 8) enroll_opts enroll_opts
    blank half_state half_state half_request half_machine fake1_inv eq_refl) as (err & u & m & _ & _ & Hreg & Hretry).
  - vm_compute. reflexivity.
  - eexists. split; vm_compute; reflexivity.
  - right. eexists. reflexivity.
  - destruct Hreg as (Hc & Hten & Hnone & Hrow & _).
    assert (User_TenantID u = 1%N) as Hu by (eapply alice_tenant; [|exact Hc|]; vm_compute; reflexivity).
    assert (Machine_ID m = 6%N ∧ m = half_machine) as [Hid Hm].
    { change (machines (ds_view (db half_relay)) !! Machine_ID m = Some m) in Hrow.
      assert (forallb (λ kv, N.eqb kv.1 5 || bool_decide (kv.1 = 6%N ∧ kv.2 = half_machine))
        (map_to_list (machines (ds_view (db half_relay)))) = true) as Hall by (vm_compute; reflexivity).
      rewrite forallb_forall in Hall. specialize (Hall (Machine_ID m, m)).
      rewrite <-list_elem_of_In, elem_of_map_to_list in Hall. specialize (Hall Hrow). cbn [fst snd] in Hall.
      apply orb_true_iff in Hall as [E%N.eqb_eq|E%bool_decide_eq_true]; [|exact E].
      assert (is_Some (machines (ds_view (db (server0 false))) !! 5%N)) as [x Hx] by (eexists; vm_compute; reflexivity).
      rewrite E in Hnone. rewrite Hx in Hnone. exfalso. discriminate Hnone. }
    apply Hretry; [exact half_relay_inv|reflexivity|apply reaching_answered|rewrite Hid; vm_compute; reflexivity| | |reflexivity|reflexivity|].
    + by rewrite Hm.
    + by rewrite Hm.
    + intros req' g1 u' Hprep Hc'. rewrite Hu. vm_compute in Hprep. injection Hprep as <- <-.
      eapply alice_tenant; [|exact Hc'|]; vm_compute; reflexivity.
Defined.

(** Alice's browser, and Bob's, at Alice's machine. *)
Definition connect_opts (tok : string) : connectOptions :=
  mkConnectOptions "wss://relay/ws/ssh/kkkkk" tok "root" EmptyString EmptyString (mkCallbacks true true None None None) 0 0.

Definition all_well : ssh_answers :=
  mkAnswers (inr tt) (inr tt) (inr tt) (inr tt) (inr tt) (inr tt) (inr tt).

Lemma only_text data v : PreText data ∈ [PreOpen; PreText v] → data = v.
Proof. by intros [?|[[= ->]|?%elem_of_nil]%elem_of_cons]%elem_of_cons. Qed.

