(* ===== verification/LoginLoop.v ===== *)
(** The CLI's browser login in closed loop with the relay: [BrowserLogin]
    (internal/cli/browser.go) polls the relay's own handlers, which serve
    anybody's requests in between (internal/relay/handler_auth.go,
    internal/relay/authsession_memory.go). *)
From Stdlib Require Import ZArith Lia Ascii.
From stdpp Require Import base gmap strings list.
From S2P Require Import Prelude GoStrings StoreSpec FakeStore AuthSession Http Oidc ApiKey Files SshKeys.
From S2P Require Import RelayAuth SshGate GateLoop Scenario Machines Bridge Apple AuthFlow AuthFlowProps Routes.
From S2P Require Import CliTunnel CliEnroll CliProps WsConn WebSsh ClosedLoop.

(** * A session that is gone stays gone *)

(** No session [id], nor one to come under that ID. *)
Definition gone (id : string) (a : MemoryAuthSessionStore) : Prop :=
  sessions a !! id = None ∧ ∀ n, mem_pos a ≤ n → mem_ids a n ≠ Some id.

Definition stays_gone (a a' : MemoryAuthSessionStore) : Prop :=
  (mem_inv a → mem_inv a') ∧ ∀ id, mem_inv a → gone id a → gone id a'.

#[export] Instance stays_gone_preorder : PreOrder stays_gone.
Proof.
  split; [by split|]. intros a1 a2 a3 [H1 G1] [H2 G2]. split; [auto|]. intros id Hi Hg. auto.
Qed.

(** An operation that adds no session. *)
Lemma stays_gone_update (a : MemoryAuthSessionStore) m :
  mem_inv (set_sessions m a) → (∀ id, is_Some (m !! id) → is_Some (sessions a !! id)) → stays_gone a (set_sessions m a).
Proof.
  intros Hi Hm. split; [done|]. intros id _ [Hn Hids]. split; [|done]. simpl.
  apply eq_None_not_Some. intros Hs%Hm. rewrite Hn in Hs. by destruct Hs.
Qed.

(** One of the store's calls, from its contract. *)
Lemma op_stays_gone {X} (m : M MemoryAuthSessionStore error X) (Q : MemoryAuthSessionStore → error + X → MemoryAuthSessionStore → Prop) :
  (∀ a, mem_inv a → wp m (λ r a', mem_inv a' ∧ Q a r a') a) →
  (∀ a id, mem_inv a → gone id a → gone id (m a).2) → follows stays_gone m.
Proof. intros Hm Hg a. split; [intros Ha; apply (Hm a Ha)|]. auto. Qed.

Lemma Mem_Create_gone p v src : follows stays_gone (Mem_Create p v src).
Proof.
  eapply op_stays_gone; [intros a Ha; by apply Mem_Create_ok|]. intros a id [_ Hn _] [Hs Hids].
  destruct (Hn (mem_pos a) (le_n _)) as (id' & Hid' & _).
  unfold Mem_Create, bind, nanoid_New. cbn. rewrite Hid'. split; cbn.
  - rewrite lookup_insert_ne; [done|]. intros ->. by apply (Hids (mem_pos a)).
  - intros n Hle. apply Hids. lia.
Qed.

Lemma Mem_Get_gone id : follows stays_gone (Mem_Get id).
Proof.
  eapply op_stays_gone; [intros a Ha; by apply Mem_Get_ok|]. intros a id' _ [Hs Hids].
  unfold Mem_Get, bind, get. cbn. repeat case_match; cbn; (split; [|done]); cbn; try done.
  apply lookup_delete_None. by right.
Qed.

Lemma Mem_SetProvider_gone id p v : follows stays_gone (Mem_SetProvider id p v).
Proof.
  eapply op_stays_gone; [intros a Ha; by apply Mem_SetProvider_ok|]. intros a id' _ [Hs Hids].
  unfold Mem_SetProvider, bind, get. cbn. case_match; cbn; (split; [|done]); cbn; [|done].
  rewrite lookup_insert_ne; [done|]. by intros ->; congruence.
Qed.

Lemma Mem_Complete_gone id tok : follows stays_gone (Mem_Complete id tok).
Proof.
  eapply op_stays_gone; [intros a Ha; by apply Mem_Complete_ok|]. intros a id' _ [Hs Hids].
  unfold Mem_Complete, bind, get. cbn. case_match; cbn; (split; [|done]); cbn; [|done].
  rewrite lookup_insert_ne; [done|]. by intros ->; congruence.
Qed.

Lemma Mem_Consume_gone id : follows stays_gone (Mem_Consume id).
Proof.
  eapply op_stays_gone; [intros a Ha; by apply Mem_Consume_ok|]. intros a id' _ [Hs Hids].
  unfold Mem_Consume, bind, get. cbn. repeat case_match; cbn; (split; [|done]); cbn; try done.
  apply lookup_delete_None. by right.
Qed.

(** * Requests of anybody *)

Section relay.
  Context `{OIDC} `{SSH} `{Jose} `{MapRange} `{UUIDText} `{AppleCrypto}.
  Context {D T : Type} `{DataStore D} `{TunnelDialer T}.
  Context (exchange : string → string → error + option json) (static : StaticFiles).
  Abbreviation Srv := (Server D MemoryAuthSessionStore T).
  Abbreviation relay := (Server_Handler (D := D) (A := MemoryAuthSessionStore) (T := T) exchange static).

Definition keeps_gone (s s' : Srv) : Prop := stays_gone (authSessions s) (authSessions s').

#[local] Instance keeps_gone_preorder : PreOrder keeps_gone.
Proof using. unfold keeps_gone. split; [by intros s|]. intros s1 s2 s3 ??. by etransitivity. Qed.

Lemma fixed_keeps_gone {E X} (m : M Srv E X) : fixed authSessions m → follows keeps_gone m.
Proof using. intros Hm s. unfold keeps_gone. by rewrite Hm. Qed.

Lemma on_sessions_gone {X} (m : M MemoryAuthSessionStore error X) : follows stays_gone m → follows keeps_gone (on_sessions (D := D) (T := T) m).
Proof using. intros Hm s. apply Hm. Qed.

Lemma on_world_gone {X} (m : M World error X) : follows keeps_gone (on_world (E := error) m).
Proof using. apply fixed_keeps_gone. by apply fixed_zoom. Qed.

Lemma the_verifier_gone : follows keeps_gone the_verifier.
Proof using. apply fixed_keeps_gone, fixed_verifier. Qed.

Hint Resolve on_sessions_gone the_verifier_gone : follows.
Hint Resolve Mem_Create_gone Mem_Get_gone Mem_SetProvider_gone Mem_Complete_gone Mem_Consume_gone : follows.

(** The handlers of the login flow. *)
Lemma login_handlers_gone r :
  follows keeps_gone (HandleAuthLogin r) ∧ follows keeps_gone (HandleAuthAuthorize r) ∧
  follows keeps_gone (HandleAuthCallback exchange r) ∧ follows keeps_gone (HandleAuthPoll r) ∧
  follows keeps_gone (HandleCLIStart r) ∧ follows keeps_gone (HandleCLILogin r) ∧ follows keeps_gone (HandleCLIChoose r).
Proof using.
  unfold HandleAuthLogin, dev_login, HandleAuthAuthorize, HandleAuthCallback, HandleAuthPoll, HandleCLIStart, HandleCLILogin,
    HandleCLIChoose.
  assert (∀ X (m : M World Response X), follows keeps_gone (on_world m)) by (intros; apply fixed_keeps_gone; by apply fixed_zoom).
  cbn [as_Create as_Get as_SetProvider as_Complete as_Consume Mem_AuthSessionStore].
  split_and!; solve_follows.
Qed.

Lemma http_gone (h : Handler Srv) s : follows keeps_gone h → keeps_gone s (http h s).2.
Proof using. intros Hh. unfold http, serve. cbn. specialize (Hh s). by destruct (h s) as [[] ?]. Qed.

Hint Resolve fixed_verifier fixed_on_tunnels fixed_acquire fixed_Dial : fixed.

(** No request, to whatever endpoint, brings back a session that is gone. *)
Lemma Server_Handler_gone i s : keeps_gone s (relay i s).2.
Proof using.
  destruct (login_handlers_gone (in_request i)) as (? & ? & ? & ? & ? & ? & ?).
  assert (∀ r, fixed (authSessions : Srv → _) (resolveUser r)) by (intros; by apply fixed_resolveUser).
  assert (∀ r, fixed (authSessions : Srv → _) (tenantMachine r)) by (intros; by apply fixed_tenantMachine).
  assert (∀ t, fixed (authSessions : Srv → _) (verifyToken t)) by (intros; by apply fixed_verifyToken).
  unfold Server_Handler. destruct (route _ _); try (by apply http_gone); try reflexivity.
  - assert (fixed (authSessions : Srv → _) (HandleSSHBridge machineID (in_browser i))) as Hb.
    { unfold HandleSSHBridge, HandleSSHBridge_open, bridge_connect, bridges_release, on_db. solve_fixed. }
    apply fixed_keeps_gone in Hb. specialize (Hb s). by destruct (HandleSSHBridge _ _ s) as [[] ?].
  - apply http_gone, fixed_keeps_gone. unfold HandleListMachines, on_db. solve_fixed.
  - apply http_gone, fixed_keeps_gone. unfold HandleCreateMachine, on_db. solve_fixed.
  - apply http_gone, fixed_keeps_gone. unfold HandleUpdateMachine, on_db. solve_fixed.
  - apply http_gone, fixed_keeps_gone. unfold HandleDeleteMachine, on_db. solve_fixed.
  - apply http_gone, fixed_keeps_gone. unfold HandleSSHInfo. solve_fixed.
  - apply http_gone, fixed_keeps_gone. unfold HandleAuthConfig. solve_fixed.
  - apply http_gone, fixed_keeps_gone. unfold HandleGenerateAPIKey, extractIdentity, on_world, on_db. solve_fixed.
Qed.

(** What happens at the relay between two polls. *)
Inductive relay_event := Requested (i : Incoming) | Passed (d : Duration) | Swept.

Definition relay_step (e : relay_event) (s : Srv) : Srv :=
  match e with
  | Requested i => (relay i s).2
  | Passed d => set_authSessions (wait d (authSessions s)) s
  | Swept => set_authSessions (sweep (authSessions s)) s
  end.

Definition relay_events (es : list relay_event) (s : Srv) : Srv := foldl (λ s e, relay_step e s) s es.

Lemma relay_step_gone e s : keeps_gone s (relay_step e s).
Proof using.
  destruct e as [i|d|]; [apply Server_Handler_gone| |]; unfold keeps_gone; cbn.
  - split; [by intros []|done].
  - split; [apply sweep_inv|]. intros id _ [Hs Hids]. split; [|done].
    apply eq_None_not_Some. intros [x [Hx _]%sweep_spec]. congruence.
Qed.

Lemma relay_events_gone es s : keeps_gone s (relay_events es s).
Proof using.
  revert s. induction es as [|e es IH]; intros s; cbn; [reflexivity|].
  etransitivity; [apply relay_step_gone|apply IH].
Qed.

(** * Polling *)

(** What becomes of a poll: an HTTP request may be lost on its way, and so
    may its answer. *)
Inductive fate := Answered | RequestLost | AnswerLost.

Record login_round := mkRound {
  lr_events : list relay_event;
  lr_fate : fate;
  lr_cancelled : option error;
  lr_extra : nat
}.

Definition poll_incoming (id : string) : Incoming :=
  mkIncoming ["api"; "auth"; "poll"] (query [("session", id)]) no_upgrade.

(** The answer as [http.Get] gives it, with the body decoded. *)
Definition http_Get (a : Answer) : error + option json :=
  match client_Do a with Some (_, body) => inr body | None => inl (ErrExternal "connection closed") end.

Definition lost : error + option json := inl (ErrExternal "connection lost").

(** One round of the loop, with the relay's part. *)
Definition poll_round (id : string) (r : login_round) (s : Srv) : browser_poll * Srv :=
  let s1 := relay_events (lr_events r) s in
  let '(a, s2) := relay (poll_incoming id) s1 in
  match lr_fate r with
  | Answered => (mkBrowserPoll (lr_cancelled r) (http_Get a) (lr_extra r), s2)
  | RequestLost => (mkBrowserPoll (lr_cancelled r) lost (lr_extra r), s1)
  | AnswerLost => (mkBrowserPoll (lr_cancelled r) lost (lr_extra r), s2)
  end.

Fixpoint poll_rounds (id : string) (rs : list login_round) (s : Srv) : list browser_poll * Srv :=
  match rs with
  | [] => ([], s)
  | r :: rs =>
      let '(p, s1) := poll_round id r s in
      let '(ps, s2) := poll_rounds id rs s1 in (p :: ps, s2)
  end.

(** The token that the loop takes from an answer. *)
Definition token_in (a : error + option json) : option string :=
  match a with
  | inl _ => None
  | inr body =>
      let pr := (Decode_lax ["status"; "id_token"] body).2 in
      if String.eqb (Values_Get "status" pr) "complete" && negb (String.eqb (Values_Get "id_token" pr) EmptyString)
      then Some (Values_Get "id_token" pr) else None
  end.

Lemma browser_loop_round elapsed p ps :
  browser_loop elapsed (p :: ps) =
  if Z.leb poll_deadline elapsed then Some (inl (ErrorString "authentication timed out"))
  else match bp_cancelled p with
  | Some err => Some (inl err)
  | None => match token_in (bp_answer p) with
    | Some tok => Some (inr tok)
    | None => browser_loop (elapsed + 2 * Second + Z.of_nat (bp_extra p))%Z ps
    end
  end.
Proof using.
  cbn [browser_loop]. unfold token_in. destruct (Z.leb _ _); [done|]. destruct (bp_cancelled p); [done|].
  destruct (bp_answer p); [done|]. cbn zeta. by destruct (_ && _).
Qed.

Lemma no_token_loop elapsed ps tok :
  Forall (λ p, token_in (bp_answer p) = None) ps → browser_loop elapsed ps ≠ Some (inr tok).
Proof using.
  intros Hps. revert elapsed. induction Hps as [|p ps Hp _ IH]; intros elapsed.
  - cbn. by destruct (Z.leb _ _).
  - rewrite browser_loop_round, Hp. destruct (Z.leb _ _); [done|]. destruct (bp_cancelled p); [done|]. apply IH.
Qed.

(** * What a poll finds *)

Lemma relay_poll id s : relay (poll_incoming id) s = http (HandleAuthPoll (query [("session", id)])) s.
Proof using. reflexivity. Qed.

Lemma gone_deleted id (a : MemoryAuthSessionStore) :
  mem_inv a → is_Some (sessions a !! id) → gone id (set_sessions (delete id (sessions a)) a).
Proof using.
  intros [_ Hn _] [d Hd]. split; [apply lookup_delete_eq|]. simpl. intros n Hle Heq.
  destruct (Hn n Hle) as (id' & Heq' & Hnone). rewrite Heq in Heq'. congruence.
Qed.

(** A poll gives the token of a completed session and deletes it, or finds
    none and changes nothing. *)
Lemma poll_cases id s :
  (∃ d, sessions (authSessions s) !! id = Some d ∧ IDToken d ≠ EmptyString ∧
    relay (poll_incoming id) s =
      (Responded (writeJSON (strings_json [("status", "complete"); ("id_token", IDToken d)])),
       set_authSessions (set_sessions (delete id (sessions (authSessions s))) (authSessions s)) s)) ∨
  ((∀ d, sessions (authSessions s) !! id = Some d → IDToken d = EmptyString) ∧
   relay (poll_incoming id) s = (Responded (writeJSON (strings_json [("status", "pending")])), s)).
Proof using.
  rewrite relay_poll. unfold http. destruct (sessions (authSessions s) !! id) as [d|] eqn:Hd.
  - destruct (String.eqb_spec (IDToken d) EmptyString) as [Ht|Ht].
    + right. split; [congruence|]. unfold serve, HandleAuthPoll, bind, or_return, on_sessions, zoom. cbn.
      unfold Mem_Consume, bind, get. cbn. rewrite Hd, Ht. cbn. by rewrite set_authSessions_id.
    + left. exists d. split; [done|]. split; [done|]. by rewrite (poll_complete s id d).
  - right. split; [done|]. by rewrite (poll_pending s id).
Qed.

Lemma token_in_complete tok :
  tok ≠ EmptyString →
  token_in (http_Get (Responded (writeJSON (strings_json [("status", "complete"); ("id_token", tok)])))) = Some tok.
Proof using.
  intros Htok. unfold token_in, http_Get. cbn [client_Do writeJSON].
  set (pr := (Decode_lax _ _).2).
  assert (Values_Get "status" pr = "complete" ∧ Values_Get "id_token" pr = tok) as [-> ->] by done.
  by rewrite (proj2 (String.eqb_neq _ _) Htok).
Qed.

Lemma token_in_pending : token_in (http_Get (Responded (writeJSON (strings_json [("status", "pending")])))) = None.
Proof using. reflexivity. Qed.

(** A round: the sessions that are gone stay gone; one that gives a token has
    deleted the session; and a round on a session that is gone gives none. *)
Lemma poll_round_spec id r s :
  mem_inv (authSessions s) →
  keeps_gone s (poll_round id r s).2 ∧
  (token_in (bp_answer (poll_round id r s).1) ≠ None → gone id (authSessions (poll_round id r s).2)) ∧
  (gone id (authSessions s) → token_in (bp_answer (poll_round id r s).1) = None).
Proof using.
  intros Hinv. pose proof (relay_events_gone (lr_events r) s) as Hev. unfold poll_round.
  set (s1 := relay_events (lr_events r) s) in *. pose proof (Server_Handler_gone (poll_incoming id) s1) as Hpoll.
  assert (keeps_gone s (relay (poll_incoming id) s1).2) as Hboth by by etransitivity.
  pose proof (proj1 Hev Hinv) as Hi1. pose proof (proj2 Hev id Hinv) as Hg1.
  destruct (poll_cases id s1) as [(d & Hd & Ht & Hr)|[Hn Hr]]; rewrite Hr in Hboth |- *; cbn [snd] in Hboth;
    destruct (lr_fate r); cbn [bp_answer fst snd]; rewrite ?token_in_complete, ?token_in_pending by done; split_and!; try done.
  - intros _. apply gone_deleted; [done|by rewrite Hd].
  - intros [Hs _]%Hg1. congruence.
Qed.

Lemma poll_rounds_app id rs1 rs2 s :
  (poll_rounds id (rs1 ++ rs2) s).1 = (poll_rounds id rs1 s).1 ++ (poll_rounds id rs2 (poll_rounds id rs1 s).2).1.
Proof using.
  revert s. induction rs1 as [|r rs1 IH]; intros s; cbn [poll_rounds app]; [done|].
  destruct (poll_round id r s) as [p s1]. specialize (IH s1).
  destruct (poll_rounds id rs1 s1), (poll_rounds id (rs1 ++ rs2) s1). cbn in *. by rewrite IH.
Qed.

Lemma poll_rounds_cons id r rs s :
  poll_rounds id (r :: rs) s =
    ((poll_round id r s).1 :: (poll_rounds id rs (poll_round id r s).2).1, (poll_rounds id rs (poll_round id r s).2).2).
Proof using. cbn [poll_rounds]. destruct (poll_round id r s) as [p s1]. simpl. by destruct (poll_rounds id rs s1). Qed.

(** Rounds on a session that is gone. *)
Lemma poll_rounds_gone id rs s :
  mem_inv (authSessions s) → gone id (authSessions s) →
  gone id (authSessions (poll_rounds id rs s).2) ∧
  Forall (λ p, token_in (bp_answer p) = None) (poll_rounds id rs s).1.
Proof using.
  revert s. induction rs as [|r rs IH]; intros s Hi Hg; [by split|]. rewrite poll_rounds_cons. cbn [fst snd].
  destruct (poll_round_spec id r s Hi) as ([Hi' Hg'] & _ & Hn).
  destruct (IH _ (Hi' Hi) (Hg' _ Hi Hg)) as [Hg2 Hf]. split; [done|]. constructor; [auto|done].
Qed.

(** Rounds after which the session is there gave no token. *)
Lemma poll_rounds_before id rs s :
  mem_inv (authSessions s) →
  mem_inv (authSessions (poll_rounds id rs s).2) ∧
  (Forall (λ p, token_in (bp_answer p) = None) (poll_rounds id rs s).1 ∨ gone id (authSessions (poll_rounds id rs s).2)).
Proof using.
  revert s. induction rs as [|r rs IH]; intros s Hi; [split; [done|by left]|]. rewrite poll_rounds_cons. cbn [fst snd].
  destruct (poll_round_spec id r s Hi) as ([Hi' _] & Hg & _). specialize (Hi' Hi).
  destruct (IH _ Hi') as [Hi2 Hcase]. split; [done|].
  destruct (token_in (bp_answer (poll_round id r s).1)) eqn:Ht; [right; by apply poll_rounds_gone; [|apply Hg]|].
  destruct Hcase; [left; by constructor|by right].
Qed.

(** * The login *)

Definition start_incoming : Incoming :=
  mkIncoming ["api"; "auth"; "cli-start"] (mkRequest "POST" EmptyString [] (Some []) EmptyString (Some (JObject []))) no_upgrade.

(** The answer as [http.Post] gives it: status, content type and body. *)
Definition http_Post (a : Answer) : error + (nat * string * option json) :=
  match a with
  | Responded (Reply status (Json v)) => inr (status, "application/json", Some v)
  | Responded (Reply status (Html _)) => inr (status, "text/html; charset=utf-8", None)
  | Responded (Reply status _) => inr (status, "text/plain; charset=utf-8", None)
  | _ => inl (ErrExternal "connection closed")
  end.

Lemma start_opens s id :
  mem_ids (authSessions s) (mem_pos (authSessions s)) = Some id →
  browser_start (http_Post (relay start_incoming s).1) = inr id.
Proof using.
  intros Hid. change (relay start_incoming s) with (http (HandleCLIStart (in_request start_incoming)) s).
  unfold http. rewrite (start_ok s _ id Hid). reflexivity.
Qed.

(** How long some rounds take. *)
Definition rounds_time (rs : list login_round) : Duration :=
  foldr (λ r t, (2 * Second + Z.of_nat (lr_extra r) + t)%Z) 0%Z rs.

Lemma rounds_time_pos rs : (0 ≤ rounds_time rs)%Z.
Proof using.
  induction rs as [|r rs IH]; [done|]. cbn [rounds_time foldr]. fold (rounds_time rs). unfold Second. lia.
Qed.

(** Rounds that give no token are passed over. *)
Lemma browser_loop_skip id pre ps elapsed s :
  Forall (λ p, token_in (bp_answer p) = None) (poll_rounds id pre s).1 →
  Forall (λ r, lr_cancelled r = None) pre → (elapsed + rounds_time pre < poll_deadline)%Z →
  browser_loop elapsed ((poll_rounds id pre s).1 ++ ps) = browser_loop (elapsed + rounds_time pre)%Z ps.
Proof using.
  revert elapsed s. induction pre as [|r pre IH]; intros elapsed s Hn Hc Ht.
  { cbn. by rewrite Z.add_0_r. }
  rewrite poll_rounds_cons in Hn |- *. cbn [fst app] in *. apply Forall_cons in Hn as [Hn Hns], Hc as [Hc Hcs].
  cbn [rounds_time foldr] in *. fold (rounds_time pre) in *. pose proof (rounds_time_pos pre).
  rewrite browser_loop_round, Hn. unfold Second in *. rewrite (proj2 (Z.leb_gt _ _)) by lia.
  assert (bp_cancelled (poll_round id r s).1 = lr_cancelled r ∧ bp_extra (poll_round id r s).1 = lr_extra r) as [-> ->].
  { unfold poll_round. destruct (relay _ _). by destruct (lr_fate r). }
  rewrite Hc, IH; [f_equal; lia|done|done|lia].
Qed.

Lemma poll_rounds_length id rs s : length (poll_rounds id rs s).1 = length rs.
Proof using. revert s. induction rs as [|r rs IH]; intros s; [done|]. rewrite poll_rounds_cons. cbn. by rewrite IH. Qed.

(** C38: A browser login hangs on one answer.  The CLI logs in against the
    relay itself, which serves any requests of anybody between the polls, any
    of which may be lost, as may its answer.  Take the first poll that reaches
    the relay after the session was completed with an ID token.  If its
    answer arrives, in time and uncancelled, the login returns that token.
    If the answer is lost the token is lost with it: the relay has deleted
    the session, and although the CLI tries again for as long as it may, no
    request of anybody and no later poll will give it a token, so that the
    login fails after its 150 polls at most. *)
Theorem login_hangs_on_one_answer (s0 : Srv) (id : string) (d : AuthSessionData) (pre post : list login_round) (r : login_round) :
  mem_inv (authSessions s0) → mem_ids (authSessions s0) (mem_pos (authSessions s0)) = Some id →
  let started := relay start_incoming s0 in
  let rounds := pre ++ r :: post in
  let result := BrowserLogin (http_Post started.1) (poll_rounds id rounds started.2).1 in
  sessions (authSessions (relay_events (lr_events r) (poll_rounds id pre started.2).2)) !! id = Some d →
  IDToken d ≠ EmptyString →
  (lr_fate r = Answered → Forall (λ r, lr_cancelled r = None) (pre ++ [r]) → (rounds_time pre < poll_deadline)%Z →
    result = Some (inr (IDToken d))) ∧
  (lr_fate r = AnswerLost → (∀ tok, result ≠ Some (inr tok)) ∧
    (150 ≤ length rounds → ∃ err, result = Some (inl err))).
Proof using.
  intros Hinv Hid started rounds result Hd Ht.
  pose proof (start_opens s0 id Hid) as Hstart. pose proof (Server_Handler_gone start_incoming s0) as [Hi _].
  specialize (Hi Hinv). fold started in Hstart, Hi. unfold result, BrowserLogin. rewrite Hstart. clear result.
  destruct (poll_rounds_before id pre started.2 Hi) as [Hi1 Hpre].
  set (s1 := (poll_rounds id pre started.2).2) in *. destruct (relay_events_gone (lr_events r) s1) as [Hi2 Hg2].
  specialize (Hi2 Hi1).
  assert (Forall (λ p, token_in (bp_answer p) = None) (poll_rounds id pre started.2).1) as Hnone.
  { destruct Hpre as [Hpre|Hg]; [done|]. destruct (Hg2 id Hi1 Hg) as [Hs _]. congruence. }
  unfold rounds. rewrite poll_rounds_app. fold s1. rewrite poll_rounds_cons. cbn [fst].
  assert (poll_round id r s1 = let s2 := relay_events (lr_events r) s1 in
    let s3 := set_authSessions (set_sessions (delete id (sessions (authSessions s2))) (authSessions s2)) s2 in
    match lr_fate r with
    | Answered => (mkBrowserPoll (lr_cancelled r) (http_Get (Responded (writeJSON
        (strings_json [("status", "complete"); ("id_token", IDToken d)])))) (lr_extra r), s3)
    | RequestLost => (mkBrowserPoll (lr_cancelled r) lost (lr_extra r), s2)
    | AnswerLost => (mkBrowserPoll (lr_cancelled r) lost (lr_extra r), s3)
    end) as Hround.
  { unfold poll_round. destruct (poll_cases id (relay_events (lr_events r) s1)) as [(d' & Hd' & _ & ->)|[Hn _]].
    - by simplify_eq.
    - by rewrite (Hn _ Hd) in Ht. }
  rewrite Hround. cbn zeta. split.
  - intros -> [Hc Hcr]%Forall_app Htime. rewrite browser_loop_skip by done. rewrite browser_loop_round, (proj2 (Z.leb_gt _ _)) by lia.
    cbn [fst bp_cancelled bp_answer]. apply Forall_cons in Hcr as [-> _]. by rewrite token_in_complete.
  - intros ->. cbn [fst snd].
    set (s3 := set_authSessions _ _).
    assert (gone id (authSessions s3)) as Hg by (apply gone_deleted; [done|by rewrite Hd]).
    assert (mem_inv (authSessions s3)) as Hi3 by (by apply mem_inv_delete).
    destruct (poll_rounds_gone id post s3 Hi3 Hg) as [_ Hpost].
    match goal with |- context [browser_loop _ ?l] => set (ps := l) end.
    assert (Forall (λ p, token_in (bp_answer p) = None) ps) as Hps.
    { apply Forall_app. split; [done|]. by constructor. }
    assert (∀ tok, browser_loop 0 ps ≠ Some (inr tok)) as Hno by (intros tok; by apply no_token_loop).
    split; [exact Hno|]. intros Hlen. destruct (browser_loop_terminates 0 ps) as [[err|tok] Hres]; [done| | |].
    + assert (length ps = length rounds) as ->.
      { unfold ps, rounds. by rewrite !length_app, poll_rounds_length; cbn; rewrite poll_rounds_length. }
      change (150 ≤ length rounds) in Hlen. unfold poll_deadline, Minute, Second. lia.
    + eauto.
    + by apply Hno in Hres.
Qed.

End relay.

#[local] Existing Instances toy_oidc toy_channels toy_jose toy_ssh toy_uuid toy_apple range_in_order.

(** One poll too early; then the user chooses Google, is sent there, and comes
    back; and the next poll finds the token. *)
Definition user_logs_in : list relay_event :=
  [Requested (mkIncoming ["api"; "auth"; "cli-choose"] (form [("session", "0"); ("provider", "google")]) no_upgrade);
   Passed Minute;
   Requested (mkIncoming ["api"; "auth"; "authorize"] (query [("session", "0")]) no_upgrade);
   Requested (mkIncoming ["api"; "auth"; "callback"] (query [("code", "c0de"); ("state", "0")]) no_upgrade)].

Definition idle_round : login_round := mkRound [] Answered None 0.

Definition login_result (f : fate) (n : nat) : option (error + string) :=
  let started := Server_Handler google_exchange no_files start_incoming (server0 false) in
  BrowserLogin (http_Post started.1)
    (poll_rounds google_exchange no_files "0" ([idle_round] ++ mkRound user_logs_in f None 0 :: replicate n idle_round) started.2).1.

Lemma login_hangs_on_one_answer_witness :
  login_result Answered 3 = Some (inr "tok") ∧ login_result RequestLost 1 = Some (inr "tok") ∧
  (∀ tok, login_result AnswerLost 148 ≠ Some (inr tok)) ∧ ∃ err, login_result AnswerLost 148 = Some (inl err).
Proof.
  assert (∀ f, let started := Server_Handler google_exchange no_files start_incoming (server0 false) in
    ∃ d, sessions (authSessions (relay_events google_exchange no_files (lr_events (mkRound user_logs_in f None 0))
      (poll_rounds google_exchange no_files "0" [idle_round] started.2).2)) !! "0" = Some d ∧ IDToken d = "tok") as Hd.
  { intros f. eexists. split; vm_compute; reflexivity. }
  assert (mem_inv (authSessions (server0 false))) as Hinv by exact mem_inv0.
  split; [|split; [vm_compute; reflexivity|]].
  - destruct (Hd Answered) as (d & Hd1 & Ht).
    destruct (login_hangs_on_one_answer google_exchange no_files (server0 false) "0" d [idle_round] (replicate 3 idle_round)
      (mkRound user_logs_in Answered None 0) Hinv eq_refl Hd1 ltac:(by rewrite Ht)) as [H _].
    rewrite <-Ht. apply H; [done|by repeat constructor|vm_compute; reflexivity].
  - destruct (Hd AnswerLost) as (d & Hd1 & Ht).
    destruct (login_hangs_on_one_answer google_exchange no_files (server0 false) "0" d [idle_round] (replicate 148 idle_round)
      (mkRound user_logs_in AnswerLost None 0) Hinv eq_refl Hd1 ltac:(by rewrite Ht)) as [_ H].
    destruct (H eq_refl) as [Hno Herr]. split; [exact Hno|]. apply Herr. rewrite length_app. cbn [length]. rewrite length_replicate. lia.
Defined.
