(* ===== verification/Path.v ===== *)
(** The whole way of the bytes: the SSH client of the browser over its
    WebSocket (internal/webssh/wsconn.go), the relay's bridge ([pipe] of
    internal/relay/handler_ws_ssh.go), the forwarded channel of the tunnel,
    and the machine's session with its sshd ([bridgeToSSHD] of
    internal/cli/tunnel.go), in every interleaving of their goroutines.

    The WebSocket and the SSH channel between the programs are outside the
    repository: each direction of one is a [Wire], of which is assumed that
    bytes come out in the order in which they went in. *)
From Stdlib Require Import ZArith Lia Ascii.
From stdpp Require Import base strings list.
From S2P Require Import Prelude GoStrings Bridge Pipe SshdBridge WsConn.

(** * Wires *)

Class Wire := {
  wire : Type;
  wire_new : wire;
  wire_put : string → wire → wire;
  wire_get : string → wire → option wire    (** [None]: these bytes cannot come now *)
}.

Class WireOk `{Wire} := {
  in_transit : wire → string;
  transit_new : in_transit wire_new = EmptyString;
  transit_put : ∀ s w, in_transit (wire_put s w) = in_transit w +:+ s;
  transit_get : ∀ s w w', wire_get s w = Some w' → in_transit w = s +:+ in_transit w'
}.

(** * What a step of a program reads and writes *)

(** Of the relay's bridge; [Pipe.read_by] is what it reads. *)
Definition written_by (d : side) (a : action) (p : pipe) : string :=
  match a with
  | Write e ok n =>
      if decide (e = d) then
        match fl_pc (flow_of d p) with Writing buf _ => if ok then buf else string_take n buf | _ => EmptyString end
      else EmptyString
  | _ => EmptyString
  end.

(** Of the machine's session; [SshdBridge.arrives] is what reaches it. *)
Definition copied_by (d : direction) (a : bridge_action) (b : sshd_bridge) : string :=
  match a with
  | CopyOut e ok n =>
      if decide (e = d) then
        match cp_pc (copy_of d b) with CopyWrite buf => if ok then buf else string_take n buf | _ => EmptyString end
      else EmptyString
  | _ => EmptyString
  end.

(** Of the browser's connection: the bytes of a frame, those of a write. *)
Definition frame_of (o : ws_op) : string := match o with MessageEvent (BinaryFrame b) => b | _ => EmptyString end.

Definition sent_by (o : ws_op) (c : wsConn) : string :=
  match o with OpWrite s => if ws_closed c then EmptyString else s | _ => EmptyString end.

Lemma relay_io latency a p p' d :
  exec latency a p = Some p' →
  fl_in (flow_of d p') = fl_in (flow_of d p) +:+ read_by d a ∧
  fl_out (flow_of d p') = fl_out (flow_of d p) +:+ written_by d a p.
Proof.
  intros He. unfold written_by, read_by. exec_cases; unfold Pipe.copy_step; rewrite ?flow_of_set_flow;
    try (by rewrite !string_app_nil_r);
    (destruct (decide (d = _)) as [->|Hne]; [rewrite ?decide_True by done|rewrite ?decide_False by congruence]);
    cbn; rewrite ?string_app_nil_r; try done.
  all: match goal with H : fl_pc _ = _ |- _ => rewrite H end; done.
Qed.

(** All that has come to a copy of the machine, read or not. *)
Definition came (c : copy) : string := cp_in c +:+ cp_pending c.

Lemma machine_io a b b' d :
  bridge_exec a b = Some b' →
  came (copy_of d b') = came (copy_of d b) +:+ arrives d a ∧
  cp_out (copy_of d b') = cp_out (copy_of d b) +:+ copied_by d a b.
Proof.
  intros He. unfold came, copied_by, arrives.
  bridge_cases; unfold goto, with_stream; rewrite ?copy_of_set; try (by destruct d; rewrite !string_app_nil_r);
    match goal with |- context [decide (d = ?e)] => destruct (decide (d = e)) as [->|Hne] | _ => idtac end.
  all: rewrite ?decide_True by done; rewrite ?decide_False by congruence; cbn; rewrite ?string_app_nil_r; try done.
  all: try match goal with H : cp_pc _ = _ |- _ => rewrite H; done end.
  all: rewrite ?string_app_assoc, ?string_take_drop; try done.
Qed.

(** * The programs and the wires between them *)

(** The bytes of a list of writes. *)
Definition joined (l : list string) : string := foldr String.append EmptyString l.

Lemma joined_cons s l : joined (s :: l) = s +:+ joined l.
Proof. done. Qed.

Lemma joined_snoc l s : joined (l ++ [s]) = joined l +:+ s.
Proof. induction l as [|x l IH]; simpl; [by rewrite string_app_nil_r|]. by rewrite IH, string_app_assoc. Qed.

Lemma browser_io o c : joined (ws_sent (ws_step o c).2) = joined (ws_sent c) +:+ sent_by o c.
Proof.
  destruct o as [[t|b]| | |n|s|]; cbn; unfold event, ws_fail, ws_Close, ws_Write; rewrite ?ws_Read_spec;
    repeat case_match; cbn; rewrite ?joined_snoc, ?string_app_nil_r; done.
Qed.

Section path.
  Context `{WireOk} (latency : Duration).

(** The browser's connection, the relay's bridge and the machine's session,
    and both directions of the WebSocket and of the channel. *)
Record path := mkPath {
  at_browser : wsConn;
  at_relay : pipe;
  at_machine : sshd_bridge;
  ws_up : wire;
  ws_down : wire;
  ssh_up : wire;
  ssh_down : wire
}.

Inductive path_action :=
  | AtBrowser (o : ws_op)
  | AtRelay (a : action)
  | AtMachine (a : bridge_action).

Definition path_init : path :=
  mkPath newWSConn pipe_init sshd_bridge_init wire_new wire_new wire_new wire_new.

Definition put (s : string) (w : wire) : wire := if String.eqb s EmptyString then w else wire_put s w.
Definition take (s : string) (w : wire) : option wire := if String.eqb s EmptyString then Some w else wire_get s w.

(** One step of one program.  What it reads comes from a wire and what it
    writes goes on one; the sshd of the machine and the SSH client of the
    browser, at the ends, do as they please. *)
Definition path_exec (a : path_action) (x : path) : option path :=
  match a with
  | AtBrowser o =>
      match take (frame_of o) (ws_down x) with
      | Some down =>
          Some (mkPath (ws_step o (at_browser x)).2 (at_relay x) (at_machine x)
            (put (sent_by o (at_browser x)) (ws_up x)) down (ssh_up x) (ssh_down x))
      | None => None
      end
  | AtRelay a =>
      match exec latency a (at_relay x), take (read_by Ws a) (ws_up x), take (read_by Tun a) (ssh_down x) with
      | Some p, Some up, Some down =>
          Some (mkPath (at_browser x) p (at_machine x) up (put (written_by Tun a (at_relay x)) (ws_down x))
            (put (written_by Ws a (at_relay x)) (ssh_up x)) down)
      | _, _, _ => None
      end
  | AtMachine a =>
      match bridge_exec a (at_machine x), take (arrives ToSshd a) (ssh_up x) with
      | Some b, Some up =>
          Some (mkPath (at_browser x) (at_relay x) b (ws_up x) (ws_down x) up
            (put (copied_by ToChannel a (at_machine x)) (ssh_down x)))
      | _, _ => None
      end
  end.

Inductive path_run : list path_action → path → Prop :=
  | path_start : path_run [] path_init
  | path_snoc ls x a x' : path_run ls x → path_exec a x = Some x' → path_run (ls ++ [a]) x'.

Fixpoint path_execs (ls : list path_action) (x : path) : option path :=
  match ls with
  | [] => Some x
  | a :: ls => match path_exec a x with Some x' => path_execs ls x' | None => None end
  end.

Lemma path_execs_run pre ls x x' : path_run pre x → path_execs ls x = Some x' → path_run (pre ++ ls) x'.
Proof using.
  revert pre x. induction ls as [|a ls IH]; intros pre x Hr; simpl.
  - intros [= <-]. by rewrite app_nil_r.
  - destruct (path_exec a x) as [x1|] eqn:E; [|done]. intros Hls.
    replace (pre ++ a :: ls) with ((pre ++ [a]) ++ ls) by (by rewrite <-app_assoc).
    eapply IH; [|done]. by econstructor.
Qed.

Definition of_browser (a : path_action) : option ws_op := match a with AtBrowser o => Some o | _ => None end.
Definition of_relay (a : path_action) : option action := match a with AtRelay a => Some a | _ => None end.
Definition of_machine (a : path_action) : option bridge_action := match a with AtMachine a => Some a | _ => None end.

(** ** Each program's part of a run is a run of it *)

Lemma ws_run_snoc os o c :
  ws_run (os ++ [o]) c =
    ((ws_run os c).1 +:+ (ws_step o (ws_run os c).2).1, (ws_step o (ws_run os c).2).2).
Proof using.
  revert c. induction os as [|o' os IH]; intros c; cbn [ws_run app].
  - destruct (ws_step o c) as [b c1] eqn:Hs. cbn. rewrite Hs. cbn. by rewrite string_app_nil_r.
  - destruct (ws_step o' c) as [b c1]. rewrite IH. destruct (ws_run os c1) as [b' c2]. simpl.
    by rewrite string_app_assoc.
Qed.

Lemma omap_snoc {A B} (f : A → option B) l a :
  omap f (l ++ [a]) = omap f l ++ match f a with Some b => [b] | None => [] end.
Proof using. rewrite omap_app. simpl. by destruct (f a). Qed.

Lemma path_run_parts ls x :
  path_run ls x →
  at_browser x = (ws_run (omap of_browser ls) newWSConn).2 ∧
  pipe_run latency (omap of_relay ls) (at_relay x) ∧
  bridge_run (omap of_machine ls) (at_machine x).
Proof using.
  induction 1 as [|ls x a x' _ (IHb & IHr & IHm) Hex]; [split; [done|split; constructor]|].
  rewrite !omap_snoc. destruct a as [o|a|a]; cbn [path_exec of_browser of_relay of_machine] in *; rewrite ?app_nil_r.
  - destruct (take _ _); simplify_eq. cbn. by rewrite ws_run_snoc, IHb.
  - destruct (exec _ _ _) eqn:E; [|done]. do 2 (destruct (take _ _); [|done]). simplify_eq. cbn.
    split; [done|]. split; [|done]. by econstructor.
  - destruct (bridge_exec _ _) eqn:E; [|done]. destruct (take _ _); [|done]. simplify_eq. cbn.
    split; [done|]. split; [done|]. by econstructor.
Qed.

(** ** The wires *)

Lemma in_transit_put s w : in_transit (put s w) = in_transit w +:+ s.
Proof using. unfold put. destruct (String.eqb_spec s EmptyString) as [->|]; [by rewrite string_app_nil_r|apply transit_put]. Qed.

Lemma in_transit_take s w w' : take s w = Some w' → in_transit w = s +:+ in_transit w'.
Proof using. unfold take. destruct (String.eqb_spec s EmptyString) as [->|]; [by intros [= ->]|apply transit_get]. Qed.

(** The bytes of all frames that came, after the connection was closed too. *)
Definition frames (ls : list path_action) : string := joined (frame_of <$> omap of_browser ls).

Record wires_ok (ls : list path_action) (x : path) : Prop := {
  wo_ws_up : joined (ws_sent (at_browser x)) = fl_in (flow_of Ws (at_relay x)) +:+ in_transit (ws_up x);
  wo_ssh_up : fl_out (flow_of Ws (at_relay x)) = came (to_sshd (at_machine x)) +:+ in_transit (ssh_up x);
  wo_ssh_down : cp_out (to_channel (at_machine x)) = fl_in (flow_of Tun (at_relay x)) +:+ in_transit (ssh_down x);
  wo_ws_down : fl_out (flow_of Tun (at_relay x)) = frames ls +:+ in_transit (ws_down x)
}.

Lemma frames_snoc ls a : frames (ls ++ [a]) = frames ls +:+ match a with AtBrowser o => frame_of o | _ => EmptyString end.
Proof using.
  unfold frames. rewrite omap_snoc, fmap_app. destruct a; cbn; rewrite ?app_nil_r, ?string_app_nil_r; try done.
  apply joined_snoc.
Qed.

Lemma path_run_wires ls x : path_run ls x → wires_ok ls x.
Proof using.
  induction 1 as [|ls x a x' _ [H1 H2 H3 H4] Hex].
  { split; cbn; by rewrite transit_new. }
  destruct a as [o|a|a]; cbn [path_exec] in Hex.
  - destruct (take _ _) eqn:Ht; simplify_eq. apply in_transit_take in Ht.
    split; cbn [at_browser at_relay at_machine ws_up ws_down ssh_up ssh_down copy_of]; rewrite ?frames_snoc, ?in_transit_put, ?browser_io; try done.
    + by rewrite H1, string_app_assoc.
    + by rewrite H4, Ht, string_app_assoc.
  - destruct (exec _ _ _) as [p|] eqn:E; [|done].
    destruct (take _ (ws_up x)) eqn:Hu; [|done]. destruct (take _ (ssh_down x)) eqn:Hd; [|done]. simplify_eq.
    apply in_transit_take in Hu, Hd.
    destruct (relay_io _ _ _ _ Ws E) as [Iw Ow], (relay_io _ _ _ _ Tun E) as [It Ot].
    split; cbn [at_browser at_relay at_machine ws_up ws_down ssh_up ssh_down copy_of]; rewrite ?frames_snoc, ?in_transit_put, ?string_app_nil_r, ?Iw, ?Ow, ?It, ?Ot.
    + by rewrite H1, Hu, string_app_assoc.
    + by rewrite H2, string_app_assoc.
    + by rewrite H3, Hd, string_app_assoc.
    + by rewrite H4, string_app_assoc.
  - destruct (bridge_exec _ _) as [b|] eqn:E; [|done]. destruct (take _ _) eqn:Hu; [|done]. simplify_eq.
    apply in_transit_take in Hu.
    destruct (machine_io _ _ _ ToSshd E) as [Is _], (machine_io _ _ _ ToChannel E) as [_ Oc]. cbn [copy_of] in Is, Oc.
    split; cbn [at_browser at_relay at_machine ws_up ws_down ssh_up ssh_down copy_of]; rewrite ?frames_snoc, ?in_transit_put, ?string_app_nil_r, ?Is, ?Oc; try done.
    + by rewrite H2, Hu, string_app_assoc.
    + by rewrite H3, string_app_assoc.
Qed.

(** ** The streams *)

Lemma received_frames os :
  (∃ rest, joined (frame_of <$> os) = WsConn.received os +:+ rest) ∧
  (OpClose ∉ os → WsConn.received os = joined (frame_of <$> os)).
Proof using.
  induction os as [|o os [[rest IH] IH']]; [by split; [exists EmptyString|]|].
  rewrite fmap_cons, joined_cons. split.
  - rewrite IH. destruct o as [[|b]| | | | |]; simpl; try (by exists rest); [|by eexists].
    exists rest. by rewrite string_app_assoc.
  - intros Hn. assert (OpClose ∉ os) as Hn' by (intros ?; apply Hn; by right). rewrite <-(IH' Hn').
    destruct o as [[|b]| | | | |]; simpl; try done. exfalso. apply Hn. left.
Qed.

Lemma not_closed (ls : list path_action) : AtBrowser OpClose ∉ ls → OpClose ∉ omap of_browser ls.
Proof using.
  intros Hn (a & Ha & E)%list_elem_of_omap. apply Hn. destruct a; simplify_eq/=. done.
Qed.


End path.

(** * An example

    A wire that keeps what is on it as a string. *)

Fixpoint without_prefix (s w : string) : option string :=
  match s, w with
  | EmptyString, w => Some w
  | String a s, String b w => if Ascii.eqb a b then without_prefix s w else None
  | String _ _, EmptyString => None
  end.

#[local] Instance queue : Wire := {
  wire := string;
  wire_new := EmptyString;
  wire_put s w := w +:+ s;
  wire_get := without_prefix
}.

Lemma without_prefix_Some s w w' : without_prefix s w = Some w' → w = s +:+ w'.
Proof.
  revert w. induction s as [|a s IH]; intros w; simpl; [by intros [= ->]|].
  destruct w as [|b w]; [done|]. destruct (Ascii.eqb_spec a b) as [->|]; [|done]. by intros ->%IH.
Qed.

#[local] Instance queue_ok : WireOk := {
  in_transit w := w;
  transit_new := eq_refl;
  transit_put _ _ := eq_refl;
  transit_get := without_prefix_Some
}.

(** A greeting in two writes, read by the relay in one piece, and an answer
    that has come as far as the relay's buffer, while the browser's next
    bytes are on the WebSocket. *)
Definition greeting : list path_action :=
  [AtBrowser (OpWrite "SSH-"); AtBrowser (OpWrite "2.0"); AtRelay (Read Ws "SSH-2.0" false); AtRelay (Mark Ws);
   AtRelay (Write Ws true 0); AtMachine (Arrive ToSshd "SSH-2.0"); AtMachine (CopyIn ToSshd 7);
   AtMachine (CopyOut ToSshd true 7); AtMachine (Arrive ToChannel "hello"); AtMachine (CopyIn ToChannel 5);
   AtMachine (CopyOut ToChannel true 5); AtRelay (Read Tun "hel" false); AtRelay (Mark Tun); AtRelay (Write Tun true 0);
   AtBrowser (MessageEvent (BinaryFrame "hel")); AtBrowser (OpRead 2); AtRelay (Read Tun "lo" false);
   AtBrowser (OpWrite "more")].

Definition greeted : path := default path_init (path_execs 0 greeting path_init).

